(** * zephyr-ipmi: polling and alert engine

    A shallow embedding of [backend/app/services/scheduler.py] and
    [backend/app/services/ipmi.py], with the properties of the fan curve,
    the alert store, the per-cycle alert evaluation, the sensor-text
    parser and the staleness monitor; and of the callers of the engine in
    [backend/app/services/servers.py] and [backend/app/api/routes/servers.py].

    Conventions:
    - a Python number that is only compared (temperatures, thresholds)
      is an exact rational [Q]; revolutions per minute are integers [Z];
    - a timestamp is an integer number of microseconds, a [timedelta] too;
    - a JSON object with optional keys is a record of [option] fields,
      and [d.get(k, default)] is written out;
    - code that awaits the database, the BMC or a webhook is a function
      of an explicit [World]; what lies outside the process (the BMC's
      answers, the clock) is a variable of the enclosing section;
    - the session is an [AsyncSession] with [expire_on_commit=False]: a
      relationship that the query of a row did not load cannot be read
      afterwards ([read_relationship]), and after a commit that the
      database refused no attribute of a row can ([name_in_handler]);
    - the key that decrypts the endpoints of the notification channels is
      a field of the world ([fernet]). *)

From Stdlib Require Import ZArith QArith Qround Qpower Qabs.
From Stdlib Require Import List String Ascii DecimalString HexadecimalString Bool Lia.
From Stdlib Require Floats.SpecFloat.
From Stdlib Require Lqa Permutation DecimalZ DecimalPos.
Import ListNotations.

(** * Part I: the program *)

(** ** Rational comparisons as the code writes them *)

Definition Qlt_bool (x y : Q) : bool := negb (Qle_bool y x).

(** ** Exceptions

    A call that can raise returns a [Result]. *)

Inductive Exn :=
| IPMICommandError (msg : string)
| NotImplementedError (msg : string)
| ValueError (msg : string)
| OverflowError
| IntegrityError
| MultipleResultsFound
| MissingGreenlet
| PendingRollbackError
| OtherException (msg : string).

Inductive Result (A : Type) :=
| Ok (a : A)
| Raise (e : Exn).

Arguments Ok {A} a.
Arguments Raise {A} e.

(** ** Python floats

    A [float] is an IEEE-754 binary64 number.  Every finite one is a
    rational, so a finite float is kept as the rational it denotes and an
    operation rounds its exact result to the nearest binary64, ties to
    even.  The sign of zero is not kept: nothing in the program observes
    it. *)

Module Binary64.

Definition pow2 (e : Z) : Q := (2 ^ e)%Q.

(** The exponent of the smallest normal number; below it the spacing of
    the numbers stays that of [2 ^ emin]. *)
Definition emin : Z := (-1022)%Z.

(** [floor (log2 q)], for [q > 0]. *)
Definition ilog2 (q : Q) : Z :=
  let k := (Z.log2 (Qnum q) - Z.log2 (Zpos (Qden q)))%Z in
  if Qle_bool (pow2 k) q then k else (k - 1)%Z.

(** The nearest integer, ties to the even one. *)
Definition round_half_even (q : Q) : Z :=
  let f := Qfloor q in
  match Qcompare (q - inject_Z f) (1 # 2) with
  | Lt => f
  | Gt => (f + 1)%Z
  | Eq => if Z.even f then f else (f + 1)%Z
  end.

(** The nearest number with a 53-bit significand to [q > 0], with no bound
    on the exponent from above. *)
Definition round_pos (q : Q) : Q :=
  let e := Z.max (ilog2 q) emin in
  Qred (inject_Z (round_half_even (q * pow2 (52 - e))) * pow2 (e - 52))%Q.

Definition round (q : Q) : Q :=
  match Qcompare q 0 with
  | Eq => 0%Q
  | Gt => round_pos q
  | Lt => (- round_pos (- q))%Q
  end.

(** A rounded magnitude of [2 ^ 1024] or more has no finite binary64. *)
Definition overflows (x : Q) : bool := Qle_bool (pow2 1024) (Qabs x).

Inductive PyFloat :=
| Fin (q : Q)
| PInf
| NInf
| NaN.

Definition of_Q (q : Q) : PyFloat :=
  let r := round q in
  if overflows r then (if Qle_bool 0 q then PInf else NInf) else Fin r.

(** [x <= q], [q < x], [x >= q] and [x > y] on floats; every comparison
    with a NaN is false. *)
Definition le_Q (x : PyFloat) (q : Q) : bool :=
  match x with
  | Fin a => Qle_bool a q
  | NInf => true
  | PInf | NaN => false
  end.

Definition Q_lt (q : Q) (x : PyFloat) : bool :=
  match x with
  | Fin a => Qlt_bool q a
  | PInf => true
  | NInf | NaN => false
  end.

Definition ge_Q (x : PyFloat) (q : Q) : bool :=
  match x with
  | Fin a => Qle_bool q a
  | PInf => true
  | NInf | NaN => false
  end.

Definition gt (x y : PyFloat) : bool :=
  match x, y with
  | NaN, _ | _, NaN => false
  | PInf, PInf => false
  | PInf, _ => true
  | _, PInf => false
  | NInf, _ => false
  | Fin _, NInf => true
  | Fin a, Fin b => Qlt_bool b a
  end.

(** [x <= y] on two floats. *)
Definition le (x y : PyFloat) : bool :=
  match x, y with
  | NaN, _ | _, NaN => false
  | NInf, _ => true
  | _, PInf => true
  | PInf, _ => false
  | Fin _, NInf => false
  | Fin a, Fin b => Qle_bool a b
  end.

(** [x * y] on floats. *)
Definition mul (x y : PyFloat) : PyFloat :=
  match x, y with
  | NaN, _ | _, NaN => NaN
  | Fin a, Fin b => of_Q (a * b)
  | Fin a, PInf | PInf, Fin a =>
      match Qcompare a 0 with Eq => NaN | Gt => PInf | Lt => NInf end
  | Fin a, NInf | NInf, Fin a =>
      match Qcompare a 0 with Eq => NaN | Gt => NInf | Lt => PInf end
  | PInf, PInf | NInf, NInf => PInf
  | PInf, NInf | NInf, PInf => NInf
  end.

(** [a / b] on integers: the exact quotient, rounded once; a quotient too
    large for a float is an [OverflowError].  The divisor is not zero. *)
Definition truediv (a b : Z) : Result PyFloat :=
  let r := round (inject_Z a / inject_Z b) in
  if overflows r then Raise OverflowError else Ok (Fin r).

(** [int(x)] cuts the fraction off, towards zero. *)
Definition truncate (q : Q) : Z :=
  if Qle_bool 0 q then Qfloor q else Qceiling q.

Definition to_int (x : PyFloat) : Result Z :=
  match x with
  | Fin q => Ok (truncate q)
  | PInf | NInf => Raise OverflowError
  | NaN => Raise (ValueError "cannot convert float NaN to integer")
  end.

End Binary64.

(** ** FanCurve: [_calculate_target_rpm] and [_get_first_zone_threshold] *)

Module FanCurve.

(** One entry of [fan_defaults['zones']]: a JSON object whose keys
    ['temp_threshold'] and ['target_rpm'] may each be missing. *)
Record Zone := mkZone {
  temp_threshold : option Q;
  target_rpm : option Z
}.

(** [zone.get('temp_threshold', 0)] and [zone.get('target_rpm', 0)]. *)
Definition get_temp_threshold (z : Zone) : Q :=
  match temp_threshold z with Some q => q | None => 0%Q end.

Definition get_target_rpm (z : Zone) : Z :=
  match target_rpm z with Some r => r | None => 0%Z end.

(** Equality of two zone objects, as [list.index] tests it: the same keys
    present with equal numbers. *)
Definition zone_eqb (a b : Zone) : bool :=
  match temp_threshold a, temp_threshold b with
  | Some x, Some y => Qeq_bool x y
  | None, None => true
  | _, _ => false
  end &&
  match target_rpm a, target_rpm b with
  | Some x, Some y => Z.eqb x y
  | None, None => true
  | _, _ => false
  end.

(** [sorted(zones, key=lambda z: z.get('temp_threshold', 0))]: the stable
    sort by threshold, as an insertion from the right. *)
Fixpoint insert_zone (z : Zone) (l : list Zone) : list Zone :=
  match l with
  | [] => [z]
  | y :: l' =>
      if Qle_bool (get_temp_threshold z) (get_temp_threshold y)
      then z :: y :: l'
      else y :: insert_zone z l'
  end.

Fixpoint sorted (zones : list Zone) : list Zone :=
  match zones with
  | [] => []
  | z :: l => insert_zone z (sorted l)
  end.

(** [sorted_zones.index(zone)]: the position of the first equal element. *)
Fixpoint index (zone : Zone) (l : list Zone) : nat :=
  match l with
  | [] => O
  | y :: l' => if zone_eqb y zone then O else S (index zone l')
  end.

Definition dummy_zone : Zone := mkZone None None.

(** The [for zone in sorted_zones] loop; [Some rpm] is the [break] with
    [target_rpm = rpm], [None] the loop running to its end. *)
Fixpoint scan_zones (sorted_zones rest : list Zone) (cpu_temp : Binary64.PyFloat) : option Z :=
  match rest with
  | [] => None
  | zone :: rest' =>
      let threshold := get_temp_threshold zone in
      let rpm := get_target_rpm zone in
      match index zone sorted_zones with
      | O =>
          if Binary64.le_Q cpu_temp threshold then Some rpm
          else scan_zones sorted_zones rest' cpu_temp
      | S i =>
          let prev_threshold := get_temp_threshold (nth i sorted_zones dummy_zone) in
          if Binary64.Q_lt prev_threshold cpu_temp && Binary64.le_Q cpu_temp threshold
          then Some rpm
          else scan_zones sorted_zones rest' cpu_temp
      end
  end.

(** The body of [_calculate_target_rpm] once [zones] is read. *)
Definition target_of_zones (zones : list Zone) (cpu_temp : Binary64.PyFloat)
  : option Z :=
  match zones with
  | [] => None
  | _ =>
      let sorted_zones := sorted zones in
      match scan_zones sorted_zones sorted_zones cpu_temp with
      | Some rpm => Some rpm
      | None => Some (get_target_rpm (last sorted_zones dummy_zone))
      end
  end.

(** [server.fan_defaults]: [None] is a missing or empty object, and the
    ['zones'] key may itself be missing. *)
Record FanDefaults := mkFanDefaults { zones : option (list Zone) }.

Definition _calculate_target_rpm (fan_defaults : option FanDefaults)
  (cpu_temp : Binary64.PyFloat) : option Z :=
  match fan_defaults with
  | None => None
  | Some fd =>
      match zones fd with
      | None => None
      | Some zs =>
          match target_of_zones zs cpu_temp with
          | Some rpm => if Z.eqb rpm 0 then Some 0%Z else Some rpm
          | None => None
          end
      end
  end.

(** [_get_first_zone_threshold]: the threshold of the second zone in
    ascending order, as [float(..)] gives it: the nearest binary64, and the
    infinity of its sign for a number beyond the range of binary64. *)
Definition _get_first_zone_threshold (fan_defaults : option FanDefaults)
  : option Binary64.PyFloat :=
  match fan_defaults with
  | None => None
  | Some fd =>
      match zones fd with
      | None => None
      | Some zs =>
          if (List.length zs <? 2)%nat then None
          else Some (Binary64.of_Q (get_temp_threshold (nth 1 (sorted zs) dummy_zone)))
      end
  end.

(** A zone table in ascending order of threshold, and one whose rpms do
    not decrease along it. *)
Fixpoint is_ascending (l : list Zone) : bool :=
  match l with
  | [] => true
  | a :: l' =>
      match l' with
      | [] => true
      | b :: _ => Qle_bool (get_temp_threshold a) (get_temp_threshold b) && is_ascending l'
      end
  end.

Fixpoint rpm_non_decreasing (l : list Zone) : bool :=
  match l with
  | [] => true
  | a :: l' =>
      match l' with
      | [] => true
      | b :: _ => Z.leb (get_target_rpm a) (get_target_rpm b) && rpm_non_decreasing l'
      end
  end.

End FanCurve.

(** ** Python strings

    A [str] is taken as a string of bytes in ASCII: the sensor text of
    ipmitool is.  The built-ins below are the ones the program calls. *)

Module PyStr.

Local Open Scope nat_scope.

Definition is_space (c : ascii) : bool :=
  let n := nat_of_ascii c in
  ((9 <=? n) && (n <=? 13)) || ((28 <=? n) && (n <=? 32)).

Definition is_digit (c : ascii) : bool :=
  let n := nat_of_ascii c in (48 <=? n) && (n <=? 57).

Definition is_upper (c : ascii) : bool :=
  let n := nat_of_ascii c in (65 <=? n) && (n <=? 90).

Definition is_lower (c : ascii) : bool :=
  let n := nat_of_ascii c in (97 <=? n) && (n <=? 122).

Definition lower_char (c : ascii) : ascii :=
  if is_upper c then ascii_of_nat (nat_of_ascii c + 32) else c.

Definition upper_char (c : ascii) : ascii :=
  if is_lower c then ascii_of_nat (nat_of_ascii c - 32) else c.

Fixpoint map_chars (f : ascii -> ascii) (s : string) : string :=
  match s with
  | EmptyString => EmptyString
  | String c s' => String (f c) (map_chars f s')
  end.

(** [s.lower()] and [s.upper()]. *)
Definition lower (s : string) : string := map_chars lower_char s.
Definition upper (s : string) : string := map_chars upper_char s.

Definition is_empty (s : string) : bool :=
  match s with EmptyString => true | String _ _ => false end.

Fixpoint lstrip (s : string) : string :=
  match s with
  | EmptyString => EmptyString
  | String c s' => if is_space c then lstrip s' else s
  end.

Fixpoint rstrip (s : string) : string :=
  match s with
  | EmptyString => EmptyString
  | String c s' =>
      let r := rstrip s' in
      if is_space c && is_empty r then EmptyString else String c r
  end.

(** [s.strip()]. *)
Definition strip (s : string) : string := lstrip (rstrip s).

(** [s.split(sep)] for a separator of one character: at least one piece. *)
Fixpoint split (sep : ascii) (s : string) : list string :=
  match s with
  | EmptyString => [EmptyString]
  | String c s' =>
      if Ascii.eqb c sep then EmptyString :: split sep s'
      else match split sep s' with
           | h :: t => String c h :: t
           | [] => [String c EmptyString]
           end
  end.

(** The pieces between white-space characters. *)
Fixpoint split_spaces (s : string) : list string :=
  match s with
  | EmptyString => [EmptyString]
  | String c s' =>
      if is_space c then EmptyString :: split_spaces s'
      else match split_spaces s' with
           | h :: t => String c h :: t
           | [] => [String c EmptyString]
           end
  end.

(** [s.split()]: the runs of characters that are not white space. *)
Definition split_ws (s : string) : list string :=
  filter (fun t => negb (is_empty t)) (split_spaces s).

(** [needle in hay]. *)
Fixpoint contains (needle hay : string) : bool :=
  String.prefix needle hay ||
  match hay with
  | EmptyString => false
  | String _ hay' => contains needle hay'
  end.

(** [any(k in s for k in keywords)]. *)
Definition contains_any (keywords : list string) (s : string) : bool :=
  existsb (fun k => contains k s) keywords.

(** [s.replace(a, b)] for single characters. *)
Definition replace_char (a b : ascii) (s : string) : string :=
  map_chars (fun c => if Ascii.eqb c a then b else c) s.

(** [s.title()]: a letter that follows a letter is lowered, any other
    letter is raised. *)
Fixpoint title_from (after_letter : bool) (s : string) : string :=
  match s with
  | EmptyString => EmptyString
  | String c s' =>
      let letter := is_upper c || is_lower c in
      String (if after_letter then lower_char c else upper_char c)
             (title_from letter s')
  end.

Definition title (s : string) : string := title_from false s.

Definition newline : ascii := ascii_of_nat 10.

End PyStr.

(** ** Reading numbers: [float(s)] and the pattern
    [(\d+(?:\.\d+)?)\s*degrees?\s*C] *)

Module Parser.

Import PyStr Binary64.

Definition digit_value (c : ascii) : Z := (Z.of_nat (nat_of_ascii c) - 48)%Z.

Fixpoint decimal_value_from (acc : Z) (s : string) : Z :=
  match s with
  | EmptyString => acc
  | String c s' => decimal_value_from (10 * acc + digit_value c)%Z s'
  end.

(** The number written [int_digits.frac_digits e exp10]. *)
Definition decimal (int_digits frac_digits : string) (exp10 : Z) : Q :=
  (inject_Z (decimal_value_from 0 (String.append int_digits frac_digits))
   * 10 ^ (exp10 - Z.of_nat (String.length frac_digits)))%Q.

(** [digit (_? digit)*] after its first digit: the digits read, without
    the underscores, and what follows them. *)
Fixpoint digitpart_tail (s : string) : string * string :=
  match s with
  | EmptyString => (EmptyString, EmptyString)
  | String c r =>
      if is_digit c then
        let (d, r') := digitpart_tail r in (String c d, r')
      else if Ascii.eqb c "_" then
        match r with
        | String c2 r2 =>
            if is_digit c2 then
              let (d, r') := digitpart_tail r2 in (String c2 d, r')
            else (EmptyString, s)
        | EmptyString => (EmptyString, s)
        end
      else (EmptyString, s)
  end.

Definition digitpart (s : string) : string * string :=
  match s with
  | String c r =>
      if is_digit c then let (d, r') := digitpart_tail r in (String c d, r')
      else (EmptyString, s)
  | EmptyString => (EmptyString, s)
  end.

Definition read_sign (s : string) : bool * string :=
  match s with
  | String c r =>
      if Ascii.eqb c "+" then (false, r)
      else if Ascii.eqb c "-" then (true, r)
      else (false, s)
  | EmptyString => (false, s)
  end.

(** The exponent part, which must end the text: [None] is a syntax error. *)
Definition read_exponent (s : string) : option Z :=
  match s with
  | EmptyString => Some 0%Z
  | String c r =>
      if Ascii.eqb (lower_char c) "e" then
        let (neg, r1) := read_sign r in
        let (d, r2) := digitpart r1 in
        if is_empty d || negb (is_empty r2) then None
        else let v := decimal_value_from 0 d in Some (if neg then - v else v)%Z
      else None
  end.

Definition read_number (s : string) : option Q :=
  let (ip, r1) := digitpart s in
  let (fp, r2) :=
    match r1 with
    | String c r => if Ascii.eqb c "." then digitpart r else (EmptyString, r1)
    | EmptyString => (EmptyString, r1)
    end in
  if is_empty ip && is_empty fp then None
  else match read_exponent r2 with
       | Some e => Some (decimal ip fp e)
       | None => None
       end.

(** [float(s)]; [None] is the [ValueError]. *)
Definition py_float (s : string) : option PyFloat :=
  let (neg, body) := read_sign (strip s) in
  let word := lower body in
  if String.eqb word "inf" || String.eqb word "infinity"
  then Some (if neg then NInf else PInf)
  else if String.eqb word "nan" then Some NaN
  else match read_number body with
       | Some q => Some (of_Q (if neg then - q else q))
       | None => None
       end.

(** The longest prefix of characters that satisfy [p], and the rest. *)
Fixpoint span (p : ascii -> bool) (s : string) : string * string :=
  match s with
  | EmptyString => (EmptyString, EmptyString)
  | String c r =>
      if p c then let (a, b) := span p r in (String c a, b)
      else (EmptyString, s)
  end.

(** [prefix] is at the head of [s] up to the case of letters: the rest. *)
Fixpoint drop_prefix_ci (prefix s : string) : option string :=
  match prefix with
  | EmptyString => Some s
  | String c p' =>
      match s with
      | String d s' =>
          if Ascii.eqb (lower_char d) (lower_char c) then drop_prefix_ci p' s'
          else None
      | EmptyString => None
      end
  end.

(** [(\d+(?:\.\d+)?)] at the head of [s]: group 1 and the rest.  Each
    repetition is greedy, and giving a character back never helps: the
    pattern would go on with white space or a letter where a digit or a
    dot stands. *)
Definition match_number (s : string) : option (string * string) :=
  let (ds, r) := span is_digit s in
  if is_empty ds then None
  else match r with
       | String c r1 =>
           if Ascii.eqb c "." then
             let (fs, r2) := span is_digit r1 in
             if is_empty fs then Some (ds, r)
             else Some (String.append ds (String c fs), r2)
           else Some (ds, r)
       | EmptyString => Some (ds, r)
       end.

(** [\s*degrees?\s*C] at the head of [s], letters in either case: the
    rest. *)
Definition match_unit (s : string) : option string :=
  match drop_prefix_ci "degree" (snd (span is_space s)) with
  | None => None
  | Some r =>
      let r1 := match drop_prefix_ci "s" r with Some r' => r' | None => r end in
      drop_prefix_ci "c" (snd (span is_space r1))
  end.

(** The whole pattern at the head of [s]: group 1 and the rest. *)
Definition match_here (s : string) : option (string * string) :=
  match match_number s with
  | None => None
  | Some (g, r) =>
      match match_unit r with
      | Some r' => Some (g, r')
      | None => None
      end
  end.

(** [re.search(pattern, s, re.IGNORECASE)]: group 1 of the leftmost match. *)
Fixpoint search (s : string) : option string :=
  match match_here s with
  | Some (g, _) => Some g
  | None =>
      match s with
      | EmptyString => None
      | String _ s' => search s'
      end
  end.

(** [re.findall(pattern, s, re.IGNORECASE)]: group 1 of each match, from
    left to right, a match starting where the one before it ends.
    [skip] counts the characters of the last match still to pass. *)
Fixpoint findall_from (skip : nat) (s : string) : list string :=
  match s with
  | EmptyString => []
  | String _ s' =>
      match skip with
      | S k => findall_from k s'
      | O =>
          match match_here s with
          | Some (g, r) =>
              g :: findall_from (String.length s - String.length r - 1) s'
          | None => findall_from 0 s'
          end
      end
  end.

Definition findall (s : string) : list string := findall_from 0 s.

(** [[float(m) for m in matches]]; [None] is the [ValueError]. *)
Fixpoint floats_of (l : list string) : option (list PyFloat) :=
  match l with
  | [] => Some []
  | m :: l' =>
      match py_float m with
      | None => None
      | Some v =>
          match floats_of l' with
          | Some vs => Some (v :: vs)
          | None => None
          end
      end
  end.

(** [max(temps)]: the first of the greatest. *)
Fixpoint py_max (best : PyFloat) (l : list PyFloat) : PyFloat :=
  match l with
  | [] => best
  | x :: l' => py_max (if gt x best then x else best) l'
  end.

(** One turn of the [for line in lines] loop: it returns, or goes on to
    the next line. *)
Inductive LineOutcome :=
| Return (v : PyFloat)
| NextLine.

(** The alternative at the end of the loop body: the pattern in the line. *)
Definition pattern_in_line (line : string) : LineOutcome :=
  match search line with
  | Some g =>
      match py_float g with
      | Some v => Return v
      | None => NextLine
      end
  | None => NextLine
  end.

Definition parse_cpu_line (raw_line : string) : LineOutcome :=
  let line := strip raw_line in
  if contains "CPU" (upper line) && contains "TEMP" (upper line) then
    let parts := split "|" line in
    if (5 <=? List.length parts)%nat then
      let temp_str := strip (last parts EmptyString) in
      if contains "degrees C" (lower temp_str) || contains "degrees" (lower temp_str)
      then
        (* [temp_str.split()[0]]: [temp_str] holds a word, so there is one *)
        let temp_value := hd EmptyString (split_ws temp_str) in
        match py_float temp_value with
        | Some v => Return v
        | None => NextLine
        end
      else pattern_in_line line
    else pattern_in_line line
  else NextLine.

Fixpoint scan_lines (lines : list string) : option PyFloat :=
  match lines with
  | [] => None
  | line :: lines' =>
      match parse_cpu_line line with
      | Return v => Some v
      | NextLine => scan_lines lines'
      end
  end.

(** The fallback after the loop. *)
Definition highest_in_text (temperature_output : string) : option PyFloat :=
  match findall temperature_output with
  | [] => None
  | matches =>
      match floats_of matches with
      | Some (t :: ts) => Some (py_max t ts)
      | _ => None
      end
  end.

Definition _parse_cpu_temperature (temperature_output : string) : option PyFloat :=
  if is_empty temperature_output then None
  else
    match scan_lines (split newline (strip temperature_output)) with
    | Some v => Some v
    | None => highest_in_text temperature_output
    end.

End Parser.

(** ** ipmi.py: the raw fan command *)

Module Ipmi.

Import PyStr Binary64.

Local Open Scope string_scope.

(** [hex(n)]. *)
Definition hex (n : Z) : string :=
  let digits := HexadecimalString.NilZero.string_of_uint (N.to_hex_uint (Z.abs_N n)) in
  if (n <? 0)%Z then "-0x" ++ digits else "0x" ++ digits.

(** The [else] branch of the speed mapping:
    [min(100, int((target_rpm / 5000) * 100))], then
    [min(0x64, int((percentage / 100) * 0x64))]. *)
Definition high_speed_byte (target_rpm : Z) : Result Z :=
  match truediv target_rpm 5000 with
  | Raise e => Raise e
  | Ok x =>
      match to_int (mul x (Fin 100)) with
      | Raise e => Raise e
      | Ok p =>
          let percentage := Z.min 100 p in
          match truediv percentage 100 with
          | Raise e => Raise e
          | Ok y =>
              match to_int (mul y (Fin 100)) with
              | Raise e => Raise e
              | Ok b => Ok (Z.min 100 b)
              end
          end
      end
  end.

Definition speed_byte (target_rpm : Z) : Result Z :=
  if (target_rpm =? 0)%Z then Ok 100%Z
  else if (target_rpm <=? 2000)%Z then Ok 24%Z
  else if (target_rpm <=? 3500)%Z then Ok 48%Z
  else high_speed_byte target_rpm.

(** [0x01] addresses all fans, [0x00] a single zone. *)
Definition zone_byte (fan_identifier : option string) : Z :=
  match fan_identifier with None => 1%Z | Some _ => 0%Z end.

Definition _build_fan_command (vendor : string) (target_rpm : Z)
  (fan_identifier : option string) : Result string :=
  let vendor := lower vendor in
  if String.eqb vendor "supermicro" then
    match speed_byte target_rpm with
    | Raise e => Raise e
    | Ok speed_byte =>
        let speed_hex := hex speed_byte in
        let zone := zone_byte fan_identifier in
        Ok ("0x30 0x70 0x66 " ++ hex zone ++ " 0x00 0x00 " ++ speed_hex)
    end
  else if String.eqb vendor "dell" then
    Raise (NotImplementedError "Dell fan control not yet implemented")
  else if String.eqb vendor "hp" then
    Raise (NotImplementedError "HP iLO fan control not yet implemented")
  else Raise (ValueError ("Unsupported vendor: " ++ vendor)).

End Ipmi.

(** ** The tables, the traces and the monad of awaited calls *)

Module Model.

Import Binary64 FanCurve.

(** [models/server.py], the columns the engine reads. *)
Record FanOverride := mkFanOverride {
  fan_identifier : string;
  min_rpm : option Z
}.

Record ServerTarget := mkServerTarget {
  id : Z;
  name : string;
  vendor : string;
  fan_defaults : option FanDefaults;
  fan_overrides : list FanOverride;
  notification_channel_ids : option (list Z);
  alert_config : option (list (string * bool));
  offline_alert_threshold_minutes : Z;
  last_successful_poll : option Z;
  created_at : Z
}.

(** [models/notification.py]. *)
Record NotificationChannel := mkNotificationChannel {
  channel_id : Z;
  channel_name : string;
  channel_type : string;
  endpoint_encrypted : string;
  enabled : bool;
  channel_metadata : option (list (string * string))
}.

(** The text of an alert, before the f-string prints it. *)
Inductive Message :=
| MemoryErrorsDetected (memory_status : string)
| PowerSupplyIssueDetected (power_status : string)
| ChassisIntrusionDetected (intrusion_status : string)
| VoltageIssuesDetected (voltage_status : string)
| CriticalSystemEventsDetected (system_events : string)
| CpuTemperatureCritical (cpu_temp : PyFloat)
| NotRespondedSinceCreation (time_since_creation : Z)
| OfflineFor (time_since_last_poll threshold_minutes last_poll : Z)
| ServerUnreachable (error_msg : string)
| IpmiCommunicationError (error_msg : string)
| UnexpectedError (exc : Exn).

(** [models/alert.py]; the table carries
    [UniqueConstraint("server_id", "alert_type")]. *)
Record ActiveAlert := mkActiveAlert {
  server_id : Z;
  alert_type : string;
  message : Message;
  first_triggered_at : Z;
  last_updated_at : Z;
  cleared_at : option Z;
  cleared_by : option string
}.

(** [services/notifications.py]: a message and the providers. *)
Inductive Body :=
| BodyCleared (server_name : string)
| BodyAlert (server_name heading : string) (message : Message).

Record NotificationMessage := mkNotificationMessage {
  subject : string;
  body : Body;
  metadata_server_id : Z;
  metadata_alert_type : string;
  metadata_is_cleared : bool
}.

(** A provider holds its endpoint, or its bot token, in plain text: the
    constructor decrypts the column of the channel. *)
Inductive Provider :=
| SlackProvider (endpoint : string)
| TeamsProvider (endpoint : string)
| DiscordProvider (endpoint : string)
| TelegramProvider (bot_token chat_id : string).

(** One call of [notify(provider, notification)]. *)
Record Delivery := mkDelivery {
  provider : Provider;
  notification : NotificationMessage
}.

(** One call of [_send_alert_notification]. *)
Record Dispatch := mkDispatch {
  dispatch_server : Z;
  dispatch_alert_type : string;
  dispatch_is_cleared : bool
}.

(** What ipmitool does with one command line: its output, a non-zero
    return code with the text of stderr, or a failure to run at all. *)
Inductive Outcome :=
| Stdout (text : string)
| Failed (stderr : string)
| Broken (reason : string).

(** The three tables; the key of the settings, as what Fernet makes of a
    token under it ([None] for a token it refuses); and four traces: the
    calls of [_send_alert_notification], of [notify], of [set_fan_speed] and
    of ipmitool, each oldest first; and the number of times the clock was
    read. *)
Record World := mkWorld {
  servers : list ServerTarget;
  notification_channels : list NotificationChannel;
  active_alerts : list ActiveAlert;
  fernet : string -> option string;
  dispatched : list Dispatch;
  outbox : list Delivery;
  fan_requests : list (Z * option string);
  ipmi_calls : list (list string);
  clock_reads : nat
}.

Definition set_servers (l : list ServerTarget) (w : World) : World :=
  mkWorld l (notification_channels w) (active_alerts w) (fernet w) (dispatched w)
          (outbox w) (fan_requests w) (ipmi_calls w) (clock_reads w).

Definition set_active_alerts (l : list ActiveAlert) (w : World) : World :=
  mkWorld (servers w) (notification_channels w) l (fernet w) (dispatched w)
          (outbox w) (fan_requests w) (ipmi_calls w) (clock_reads w).

Definition set_dispatched (l : list Dispatch) (w : World) : World :=
  mkWorld (servers w) (notification_channels w) (active_alerts w) (fernet w) l
          (outbox w) (fan_requests w) (ipmi_calls w) (clock_reads w).

Definition set_outbox (l : list Delivery) (w : World) : World :=
  mkWorld (servers w) (notification_channels w) (active_alerts w) (fernet w)
          (dispatched w)
          l (fan_requests w) (ipmi_calls w) (clock_reads w).

Definition set_fan_requests (l : list (Z * option string)) (w : World) : World :=
  mkWorld (servers w) (notification_channels w) (active_alerts w) (fernet w)
          (dispatched w)
          (outbox w) l (ipmi_calls w) (clock_reads w).

Definition set_ipmi_calls (l : list (list string)) (w : World) : World :=
  mkWorld (servers w) (notification_channels w) (active_alerts w) (fernet w)
          (dispatched w)
          (outbox w) (fan_requests w) l (clock_reads w).

Definition set_clock_reads (n : nat) (w : World) : World :=
  mkWorld (servers w) (notification_channels w) (active_alerts w) (fernet w)
          (dispatched w)
          (outbox w) (fan_requests w) (ipmi_calls w) n.

(** An awaited call: it ends with a value or an exception, in a new world. *)
Definition M (A : Type) : Type := World -> Result A * World.

Definition ret {A} (a : A) : M A := fun w => (Ok a, w).

Definition raise {A} (e : Exn) : M A := fun w => (Raise e, w).

Definition bind {A B} (c : M A) (k : A -> M B) : M B :=
  fun w =>
    match c w with
    | (Ok a, w') => k a w'
    | (Raise e, w') => (Raise e, w')
    end.

(** [try: body / except Exception as exc: handler(exc) / else: orelse]. *)
Definition try_except_else {A B} (body : M A) (handler : Exn -> M B)
  (orelse : A -> M B) : M B :=
  fun w =>
    match body w with
    | (Ok a, w') => orelse a w'
    | (Raise e, w') => handler e w'
    end.

(** How a query loads a relationship of the rows it returns: with the rows
    ([selectinload]), or at the first access (no loader option). *)
Inductive Loading :=
| SelectIn
| OnAccess.

(** Reading a relationship of a row of an [AsyncSession].  A load at the
    access is IO outside of an [await]: it is refused with
    [MissingGreenlet]. *)
Definition read_relationship {A} (how : Loading) (rows : list A) : M (list A) :=
  match how with
  | SelectIn => ret rows
  | OnAccess => raise MissingGreenlet
  end.

(** [for x in l: f(x)]. *)
Fixpoint for_each {A} (f : A -> M unit) (l : list A) : M unit :=
  match l with
  | [] => ret tt
  | x :: l' => bind (f x) (fun _ => for_each f l')
  end.

End Model.

Declare Scope monad_scope.
Delimit Scope monad_scope with monad.
Notation "x <- c ;; k" := (Model.bind c (fun x => k))
  (at level 61, c at next level, right associativity) : monad_scope.
Notation "c ;;; k" := (Model.bind c (fun _ => k))
  (at level 61, right associativity) : monad_scope.

(** ** scheduler.py and the client of ipmi.py *)

Module Scheduler.

Import PyStr Binary64 FanCurve Parser Ipmi Model.

Local Open Scope string_scope.
Local Open Scope monad_scope.

(** [d.get(k, default)] on a JSON object. *)
Fixpoint dict_get {V} (d : list (string * V)) (k : string) (default : V) : V :=
  match d with
  | [] => default
  | (k', v) :: d' => if String.eqb k' k then v else dict_get d' k default
  end.

Definition _is_alert_enabled (server : ServerTarget) (alert_type : string) : bool :=
  match alert_config server with
  | None => false
  | Some d => dict_get d alert_type false
  end.

(** [not server.notification_channel_ids]. *)
Definition no_channels (server : ServerTarget) : bool :=
  match notification_channel_ids server with
  | None | Some [] => true
  | Some (_ :: _) => false
  end.

(** [str(n)]. *)
Definition str (n : Z) : string := DecimalString.NilZero.string_of_int (Z.to_int n).

(** [_has_errors]: whichever way the loop over the indicators ends, a
    status other than "ok" returns [True]. *)
Definition line_has_error (error_indicators : list string) (raw_line : string) : bool :=
  let line := strip raw_line in
  if is_empty line then false
  else
    let parts := map strip (split "|" line) in
    if (3 <=? List.length parts)%nat then
      let status := lower (nth 2 parts EmptyString) in
      if negb (String.eqb status "ok") then
        if contains_any error_indicators status then true else true
      else false
    else false.

Definition _has_errors (status_output : string) (error_indicators : list string) : bool :=
  if is_empty status_output then false
  else existsb (line_has_error error_indicators) (split newline (strip status_output)).

Definition _has_intrusion (intrusion_output : string) : bool :=
  if is_empty intrusion_output then false
  else contains_any ["intrusion"; "chassis open"; "ns"; "nc"; "cr"] (lower intrusion_output).

Definition _has_critical_events (events_output : string) : bool :=
  if is_empty events_output then false
  else contains_any ["critical"; "non-recoverable"; "nr"; "cr"; "error"] (lower events_output).

(** The five checks of [_check_alerts]. *)
Inductive CheckKind :=
| MemoryErrors
| PowerFailure
| Intrusion
| VoltageIssues
| SystemEvents.

Definition alert_type_of (k : CheckKind) : string :=
  match k with
  | MemoryErrors => "memory_errors"
  | PowerFailure => "power_failure"
  | Intrusion => "intrusion"
  | VoltageIssues => "voltage_issues"
  | SystemEvents => "system_events"
  end.

(** [status and detector(status)]. *)
Definition condition_present (k : CheckKind) (status : string) : bool :=
  negb (is_empty status) &&
  match k with
  | MemoryErrors | PowerFailure | VoltageIssues =>
      _has_errors status ["ns"; "nc"; "cr"; "nr"]
  | Intrusion => _has_intrusion status
  | SystemEvents => _has_critical_events status
  end.

Definition message_of (k : CheckKind) (status : string) : Message :=
  match k with
  | MemoryErrors => MemoryErrorsDetected status
  | PowerFailure => PowerSupplyIssueDetected status
  | Intrusion => ChassisIntrusionDetected status
  | VoltageIssues => VoltageIssuesDetected status
  | SystemEvents => CriticalSystemEventsDetected status
  end.

(** The command lines a check sends to ipmitool. *)
Definition commands_of (k : CheckKind) : list (list string) :=
  match k with
  | MemoryErrors => [["sdr"; "type"; "Memory"]]
  | PowerFailure => [["sdr"; "type"; "Power Supply"]]
  | Intrusion => [["sdr"; "type"; "Physical Security"]; ["sdr"; "get"; "Chassis Intrusion"]]
  | VoltageIssues => [["sdr"; "type"; "Voltage"]]
  | SystemEvents => [["sel"; "elist"; "-c"; "5"]]
  end.

Definition alert_subject (alert_type : string) : string :=
  if String.eqb alert_type "connectivity" then "Server Connectivity Alert"
  else if String.eqb alert_type "memory_errors" then "Memory Error Alert"
  else if String.eqb alert_type "power_failure" then "Power Supply Failure"
  else if String.eqb alert_type "intrusion" then "Chassis Intrusion Alert"
  else if String.eqb alert_type "voltage_issues" then "Voltage Issue Alert"
  else if String.eqb alert_type "system_events" then "Critical System Event"
  else if String.eqb alert_type "temperature_critical" then "Critical Temperature Alert"
  else title (replace_char "_" " " alert_type).

Definition make_notification (server : ServerTarget) (alert_type : string)
  (message : Message) (is_cleared : bool) : NotificationMessage :=
  let alert_type_label := alert_subject alert_type in
  if is_cleared then
    mkNotificationMessage (alert_type_label ++ " Cleared") (BodyCleared (name server))
      (id server) alert_type is_cleared
  else
    mkNotificationMessage alert_type_label
      (BodyAlert (name server) (title (replace_char "_" " " alert_type)) message)
      (id server) alert_type is_cleared.

(** [SecretManager.decrypt]: a token that Fernet refuses is a
    [ValueError]. *)
Definition decrypt (key : string -> option string) (token : string) : Result string :=
  match key token with
  | Some plain => Ok plain
  | None => Raise (ValueError "Invalid encryption token")
  end.

(** The constructor of a provider decrypts the column it is given. *)
Definition build_provider (key : string -> option string) (make : string -> Provider)
  (token : string) : Result (option Provider) :=
  match decrypt key token with
  | Ok plain => Ok (Some (make plain))
  | Raise e => Raise e
  end.

(** The provider a channel is sent through: [Ok None] is the [continue],
    [Raise] the constructor that fails. *)
Definition provider_of (key : string -> option string) (channel : NotificationChannel)
  : Result (option Provider) :=
  let type := channel_type channel in
  if String.eqb type "slack" then build_provider key SlackProvider (endpoint_encrypted channel)
  else if String.eqb type "teams" then
    build_provider key TeamsProvider (endpoint_encrypted channel)
  else if String.eqb type "discord" then
    build_provider key DiscordProvider (endpoint_encrypted channel)
  else if String.eqb type "telegram" then
    let chat_id :=
      match channel_metadata channel with
      | Some d => dict_get d "chat_id" ""
      | None => ""
      end in
    if is_empty chat_id then Ok None
    else build_provider key (fun bot_token => TelegramProvider bot_token chat_id)
           (endpoint_encrypted channel)
  else Ok None.

(** The rows of [NotificationChannel] with [id.in_(ids)] and [enabled]. *)
Definition enabled_channels (ids : list Z) (table : list NotificationChannel)
  : list NotificationChannel :=
  filter (fun c => existsb (Z.eqb (channel_id c)) ids && enabled c) table.

(** The calls of [notify] for one notification.  Each turn of the loop is
    a [try] block: a constructor that raises, like a delivery that fails, is
    caught and logged with [channel.name], and the loop goes on. *)
Definition deliveries (key : string -> option string) (notification : NotificationMessage)
  (channels : list NotificationChannel) : list Delivery :=
  flat_map (fun channel =>
              match provider_of key channel with
              | Ok (Some p) => [mkDelivery p notification]
              | Ok None => []
              | Raise _ => []
              end) channels.

(** The rows [server_id == .., alert_type == .., cleared_at IS NULL]. *)
Definition is_live_for (sid : Z) (alert_type_ : string) (a : ActiveAlert) : bool :=
  Z.eqb (server_id a) sid && String.eqb (alert_type a) alert_type_ &&
  match cleared_at a with None => true | Some _ => false end.

Definition same_key (sid : Z) (alert_type_ : string) (a : ActiveAlert) : bool :=
  Z.eqb (server_id a) sid && String.eqb (alert_type a) alert_type_.

Definition scalar_one_or_none {A} (rows : list A) : M (option A) :=
  match rows with
  | [] => ret None
  | [a] => ret (Some a)
  | _ => raise MultipleResultsFound
  end.

Definition select_live (sid : Z) (alert_type_ : string) : M (option ActiveAlert) :=
  fun w => scalar_one_or_none (filter (is_live_for sid alert_type_) (active_alerts w)) w.

(** The row the session holds is changed and committed. *)
Definition update_live (sid : Z) (alert_type_ : string) (f : ActiveAlert -> ActiveAlert)
  : M unit :=
  fun w =>
    (Ok tt,
     set_active_alerts
       (map (fun a => if is_live_for sid alert_type_ a then f a else a) (active_alerts w))
       w).

(** [session.add(row)] and [commit]: the unique constraint of the table
    refuses a second row of the same server and alert type. *)
Definition insert_alert (row : ActiveAlert) : M unit :=
  fun w =>
    if existsb (same_key (server_id row) (alert_type row)) (active_alerts w)
    then (Raise IntegrityError, w)
    else (Ok tt, set_active_alerts (active_alerts w ++ [row]) w).

Definition touch (t : Z) (a : ActiveAlert) : ActiveAlert :=
  mkActiveAlert (server_id a) (alert_type a) (message a) (first_triggered_at a)
    t (cleared_at a) (cleared_by a).

Definition clear_row (t_cleared : Z) (by_ : string) (t_updated : Z) (a : ActiveAlert)
  : ActiveAlert :=
  mkActiveAlert (server_id a) (alert_type a) (message a) (first_triggered_at a)
    t_updated (Some t_cleared) (Some by_).

Definition _send_alert_notification (server : ServerTarget) (alert_type_ : string)
  (message_ : Message) (is_cleared : bool) : M unit :=
  fun w =>
    let w := set_dispatched (dispatched w ++ [mkDispatch (id server) alert_type_ is_cleared]) w in
    match notification_channel_ids server with
    | None | Some [] => (Ok tt, w)
    | Some ids =>
        match enabled_channels ids (notification_channels w) with
        | [] => (Ok tt, w)
        | channels =>
            let notification := make_notification server alert_type_ message_ is_cleared in
            (Ok tt, set_outbox (outbox w ++ deliveries (fernet w) notification channels) w)
        end
    end.

(** [server.name] among the arguments of a logger call, in an [except]
    clause that caught [exc].  A commit that the database refuses leaves the
    transaction of the session rolled back and the attributes of its rows
    expired, so reading one raises [PendingRollbackError], in this handler
    and in every handler further out.  Here a commit is refused with
    [IntegrityError] only, and no handler can pass either exception over:
    what was caught tells whether the session is in that state. *)
Definition name_in_handler (server : ServerTarget) (exc : Exn) : M string :=
  match exc with
  | IntegrityError | PendingRollbackError => raise PendingRollbackError
  | _ => ret (name server)
  end.

(** [except Exception as exc: logger.debug(.., server.name, exc)]. *)
Definition log_and_pass (server : ServerTarget) (exc : Exn) : M unit :=
  name_in_handler server exc ;;; ret tt.

Section Outside.

(** The answer of ipmitool to its [n]-th call of this world, and the
    [n]-th reading of [datetime.now(timezone.utc)], in microseconds. *)
Variable bmc : nat -> list string -> Outcome.
Variable clock : nat -> Z.

Definition now : M Z :=
  fun w => (Ok (clock (clock_reads w)), set_clock_reads (S (clock_reads w)) w).

(** [IPMIClient._run]. *)
Definition _run (raw_args : list string) : M string :=
  fun w =>
    let w' := set_ipmi_calls (ipmi_calls w ++ [raw_args]) w in
    match bmc (List.length (ipmi_calls w)) raw_args with
    | Stdout text => (Ok (strip text), w')
    | Failed stderr => (Raise (IPMICommandError (strip stderr)), w')
    | Broken reason => (Raise (OtherException reason), w')
    end.

(** [try: return await c / except IPMICommandError: return await other]. *)
Definition or_else (c other : M string) : M string :=
  try_except_else c
    (fun exc => match exc with IPMICommandError _ => other | _ => raise exc end)
    (fun text => ret text).

Definition query_fans : M string := _run ["sdr"; "type"; "Fan"].

Definition query_temperatures : M string := _run ["sdr"; "type"; "Temperature"].

Definition query_memory_status : M string :=
  or_else (_run ["sdr"; "type"; "Memory"]) (ret "").

Definition query_power_supply_status : M string :=
  or_else (_run ["sdr"; "type"; "Power Supply"]) (ret "").

Definition query_chassis_intrusion : M string :=
  or_else (_run ["sdr"; "type"; "Physical Security"])
    (or_else (_run ["sdr"; "get"; "Chassis Intrusion"]) (ret "")).

Definition query_system_events (limit : Z) : M string :=
  or_else (_run ["sel"; "elist"; "-c"; str limit]) (ret "").

Definition query_voltage_status : M string :=
  or_else (_run ["sdr"; "type"; "Voltage"]) (ret "").

Definition raw_command (payload : string) : M string :=
  _run ("raw" :: split_ws payload).

Definition set_fan_speed (server : ServerTarget) (target_rpm : Z)
  (fan_identifier_ : option string) : M string :=
  fun w =>
    let w := set_fan_requests (fan_requests w ++ [(target_rpm, fan_identifier_)]) w in
    match _build_fan_command (vendor server) target_rpm fan_identifier_ with
    | Raise e => (Raise e, w)
    | Ok command => raw_command command w
    end.

Definition _activate_alert (server : ServerTarget) (alert_type_ : string)
  (message_ : Message) : M unit :=
  existing_alert <- select_live (id server) alert_type_ ;;
  match existing_alert with
  | Some _ =>
      t <- now ;;
      update_live (id server) alert_type_ (touch t)
  | None =>
      t1 <- now ;;
      t2 <- now ;;
      insert_alert (mkActiveAlert (id server) alert_type_ message_ t1 t2 None None) ;;;
      _send_alert_notification server alert_type_ message_ false
  end.

Definition _clear_alert_if_active (server : ServerTarget) (alert_type_ : string)
  (cleared_by_ : string) : M unit :=
  active_alert <- select_live (id server) alert_type_ ;;
  match active_alert with
  | None => ret tt
  | Some a =>
      t1 <- now ;;
      t2 <- now ;;
      update_live (id server) alert_type_ (clear_row t1 cleared_by_ t2) ;;;
      _send_alert_notification server alert_type_ (message a) true
  end.

Definition query_of (k : CheckKind) : M string :=
  match k with
  | MemoryErrors => query_memory_status
  | PowerFailure => query_power_supply_status
  | Intrusion => query_chassis_intrusion
  | VoltageIssues => query_voltage_status
  | SystemEvents => query_system_events 5
  end.

(** The body of one [try] block of [_check_alerts]. *)
Definition check (k : CheckKind) (server : ServerTarget) : M unit :=
  status <- query_of k ;;
  if condition_present k status
  then _activate_alert server (alert_type_of k) (message_of k status)
  else _clear_alert_if_active server (alert_type_of k) "auto".

(** [if _is_alert_enabled(..): try: .. except Exception as exc:
    logger.debug(.., server.name, exc)]. *)
Definition guarded_check (k : CheckKind) (server : ServerTarget) : M unit :=
  if _is_alert_enabled server (alert_type_of k)
  then try_except_else (check k server) (log_and_pass server) (fun _ => ret tt)
  else ret tt.

Definition _check_alerts (server : ServerTarget) : M unit :=
  if no_channels server then ret tt
  else
    guarded_check MemoryErrors server ;;;
    guarded_check PowerFailure server ;;;
    guarded_check Intrusion server ;;;
    guarded_check VoltageIssues server ;;;
    guarded_check SystemEvents server.

(** The loop over [server.fan_overrides], once the relationship is read. *)
Fixpoint apply_overrides (server : ServerTarget) (cpu_temp : PyFloat) (base_rpm : Z)
  (first_zone_threshold : option PyFloat) (overrides : list FanOverride) : M unit :=
  match overrides with
  | [] => ret tt
  | override :: rest =>
      if is_empty (fan_identifier override) then
        apply_overrides server cpu_temp base_rpm first_zone_threshold rest
      else
        match min_rpm override with
        | None => apply_overrides server cpu_temp base_rpm first_zone_threshold rest
        | Some override_rpm =>
            (if match first_zone_threshold with
                | Some threshold => le cpu_temp threshold
                | None => false
                end
             then set_fan_speed server override_rpm (Some (fan_identifier override))
             else set_fan_speed server base_rpm (Some (fan_identifier override))) ;;;
            apply_overrides server cpu_temp base_rpm first_zone_threshold rest
        end
  end.

(** The fan control of a cycle.  The row is the one [_load_server] gave:
    [session.get], with no loader option, so the overrides would be loaded
    where [if server.fan_overrides:] reads them. *)
Definition fan_control (server : ServerTarget) (cpu_temp : PyFloat) : M unit :=
  match _calculate_target_rpm (fan_defaults server) cpu_temp with
  | Some base_rpm =>
      let first_zone_threshold := _get_first_zone_threshold (fan_defaults server) in
      set_fan_speed server base_rpm None ;;;
      overrides <- read_relationship OnAccess (fan_overrides server) ;;
      apply_overrides server cpu_temp base_rpm first_zone_threshold overrides
  | None => ret tt
  end.

Definition critical_temperature_check (server : ServerTarget) (cpu_temp : PyFloat)
  : M unit :=
  if _is_alert_enabled server "temperature_critical" then
    if ge_Q cpu_temp 80
    then _activate_alert server "temperature_critical" (CpuTemperatureCritical cpu_temp)
    else _clear_alert_if_active server "temperature_critical" "auto"
  else ret tt.

(** [server.last_successful_poll = ..] and [commit]. *)
Definition stamp_last_successful_poll (sid : Z) (t : Z) : M unit :=
  fun w =>
    (Ok tt,
     set_servers
       (map (fun s =>
               if Z.eqb (id s) sid then
                 mkServerTarget (id s) (name s) (vendor s) (fan_defaults s)
                   (fan_overrides s) (notification_channel_ids s) (alert_config s)
                   (offline_alert_threshold_minutes s) (Some t) (created_at s)
               else s) (servers w))
       w).

(** The [try] block of [_poll_server]. *)
Definition poll_body (server : ServerTarget) : M unit :=
  temperatures <- query_temperatures ;;
  fans <- query_fans ;;
  match _parse_cpu_temperature temperatures with
  | Some cpu_temp =>
      fan_control server cpu_temp ;;;
      critical_temperature_check server cpu_temp
  | None => ret tt
  end ;;;
  _check_alerts server ;;;
  t <- now ;;
  stamp_last_successful_poll (id server) t.

(** The two [except] clauses of [_poll_server]; each logs with
    [server.name] before it looks at the alert configuration. *)
Definition on_poll_error (server : ServerTarget) (exc : Exn) : M unit :=
  match exc with
  | IPMICommandError error_msg =>
      if contains "Unable to establish" error_msg
         || contains "Connection refused" error_msg
         || contains "timeout" (lower error_msg)
      then
        name_in_handler server exc ;;;
        if _is_alert_enabled server "connectivity"
        then _activate_alert server "connectivity" (ServerUnreachable error_msg)
        else ret tt
      else
        name_in_handler server exc ;;;
        if _is_alert_enabled server "connectivity"
        then _activate_alert server "connectivity" (IpmiCommunicationError error_msg)
        else ret tt
  | _ =>
      name_in_handler server exc ;;;
      if _is_alert_enabled server "connectivity"
      then _activate_alert server "connectivity" (UnexpectedError exc)
      else ret tt
  end.

Definition on_poll_success (server : ServerTarget) : M unit :=
  if _is_alert_enabled server "connectivity"
  then _clear_alert_if_active server "connectivity" "auto"
  else ret tt.

Definition _load_server (server_id_ : Z) : M (option ServerTarget) :=
  fun w => (Ok (find (fun s => Z.eqb (id s) server_id_) (servers w)), w).

Definition _poll_server (server_id_ : Z) : M unit :=
  server <- _load_server server_id_ ;;
  match server with
  | None => ret tt
  | Some server =>
      try_except_else (poll_body server) (on_poll_error server)
        (fun _ => on_poll_success server)
  end.

(** [timedelta(minutes=m)]. *)
Definition minutes (m : Z) : Z := (m * 60000000)%Z.

(** One turn of the loop of [_check_offline_servers]. *)
Definition check_offline_server (now_ : Z) (server : ServerTarget) : M unit :=
  if negb (_is_alert_enabled server "connectivity") then ret tt
  else if no_channels server then ret tt
  else
    let threshold_minutes :=
      if Z.eqb (offline_alert_threshold_minutes server) 0 then 15%Z
      else offline_alert_threshold_minutes server in
    let threshold_timedelta := minutes threshold_minutes in
    match last_successful_poll server with
    | None =>
        let time_since_creation := (now_ - created_at server)%Z in
        if (threshold_timedelta <=? time_since_creation)%Z
        then _activate_alert server "connectivity"
               (NotRespondedSinceCreation time_since_creation)
        else ret tt
    | Some last_poll =>
        let time_since_last_poll := (now_ - last_poll)%Z in
        if (threshold_timedelta <=? time_since_last_poll)%Z
        then _activate_alert server "connectivity"
               (OfflineFor time_since_last_poll threshold_minutes last_poll)
        else _clear_alert_if_active server "connectivity" "auto"
    end.

Definition _check_offline_servers : M unit :=
  fun w =>
    let servers_ := servers w in
    (now_ <- now ;; for_each (check_offline_server now_) servers_) w.

End Outside.

End Scheduler.

(** ** The callers of the engine: services/servers.py, api/routes/servers.py
    and the job store *)

Module Callers.

Import PyStr Binary64 FanCurve Parser Ipmi Model Scheduler.

Local Open Scope string_scope.
Local Open Scope monad_scope.

(** *** The jobs of the scheduler *)

(** The job ids of [schedule_poll_job] (and of the delete route) and of
    [schedule_offline_check_job]. *)
Definition poll_job_id (server_id : Z) : string := "poll-server-" ++ str server_id.

Definition offline_check_job_id : string := "check-offline-servers".

Inductive JobTarget :=
| PollServer (server_id : Z)
| CheckOfflineServers.

Record Job := mkJob {
  job_id : string;
  interval_seconds : Z;
  job_target : JobTarget
}.

(** [scheduler.add_job(.., id=job_id, replace_existing=True)]: the job
    takes the place of the job of the same id, if the store has one. *)
Definition add_job (job : Job) (jobs : list Job) : list Job :=
  if existsb (fun j => String.eqb (job_id j) (job_id job)) jobs
  then map (fun j => if String.eqb (job_id j) (job_id job) then job else j) jobs
  else jobs ++ [job].

(** [scheduler.remove_job(job_id)] inside [try: .. except Exception: pass]. *)
Definition remove_job (id_ : string) (jobs : list Job) : list Job :=
  filter (fun j => negb (String.eqb (job_id j) id_)) jobs.

(** [schedule_poll_job(server)] reads [server.id] and
    [server.poll_interval_seconds], a column the polling engine does not
    read; [x or default] takes the default for [None] and for 0. *)
Definition schedule_poll_job (default_poll_interval_seconds : Z) (server_id : Z)
  (poll_interval_seconds : option Z) (jobs : list Job) : list Job :=
  let seconds :=
    match poll_interval_seconds with
    | Some s => if Z.eqb s 0 then default_poll_interval_seconds else s
    | None => default_poll_interval_seconds
    end in
  add_job (mkJob (poll_job_id server_id) seconds (PollServer server_id)) jobs.

Definition schedule_offline_check_job (jobs : list Job) : list Job :=
  add_job (mkJob offline_check_job_id 300 CheckOfflineServers) jobs.

(** The jobs that [lifespan] schedules when the application starts. *)
Definition schedule_at_startup (default_poll_interval_seconds : Z)
  (servers_ : list (Z * option Z)) (jobs : list Job) : list Job :=
  schedule_offline_check_job
    (fold_left (fun js s => schedule_poll_job default_poll_interval_seconds (fst s) (snd s) js)
       servers_ jobs).

(** *** [update_server] *)

(** [ServerUpdate], the fields that are columns of [ServerTarget] here;
    [None] is a field that is [None].  For [fan_defaults] the inner option
    is the object as the engine reads it. *)
Record ServerUpdate := mkServerUpdate {
  data_name : option string;
  data_vendor : option string;
  data_fan_defaults : option (option FanDefaults);
  data_notification_channel_ids : option (list Z);
  data_alert_config : option (list (string * bool));
  data_offline_alert_threshold_minutes : option Z;
  data_fan_overrides : option (list FanOverride)
}.

Definition or_keep {A} (new : option A) (old : A) : A :=
  match new with Some a => a | None => old end.

(** The row after the assignments that come before the alert
    configuration. *)
Definition with_first_fields (data : ServerUpdate) (server : ServerTarget) : ServerTarget :=
  mkServerTarget (id server)
    (or_keep (data_name data) (name server))
    (or_keep (option_map lower (data_vendor data)) (vendor server))
    (or_keep (data_fan_defaults data) (fan_defaults server))
    (fan_overrides server)
    (match data_notification_channel_ids data with
     | Some ids => Some ids
     | None => notification_channel_ids server
     end)
    (alert_config server)
    (offline_alert_threshold_minutes server)
    (last_successful_poll server)
    (created_at server).

Definition with_alert_config (config : list (string * bool)) (server : ServerTarget)
  : ServerTarget :=
  mkServerTarget (id server) (name server) (vendor server) (fan_defaults server)
    (fan_overrides server) (notification_channel_ids server) (Some config)
    (offline_alert_threshold_minutes server) (last_successful_poll server)
    (created_at server).

(** The row after the assignments that follow the alert configuration;
    [_normalize_overrides] copies the overrides as they are. *)
Definition with_last_fields (data : ServerUpdate) (server : ServerTarget) : ServerTarget :=
  mkServerTarget (id server) (name server) (vendor server) (fan_defaults server)
    (or_keep (data_fan_overrides data) (fan_overrides server))
    (notification_channel_ids server) (alert_config server)
    (or_keep (data_offline_alert_threshold_minutes data)
       (offline_alert_threshold_minutes server))
    (last_successful_poll server) (created_at server).

(** [session.flush()]: the row of the table becomes the object. *)
Definition flush_server (server : ServerTarget) : M unit :=
  fun w =>
    (Ok tt,
     set_servers (map (fun s => if Z.eqb (id s) (id server) then server else s) (servers w))
       w).

(** Whether a test of the connection reached the BMC; the message of the
    route, before the f-string prints it. *)
Inductive ConnectionTest :=
| Connected
| ConnectionFailed
| AuthenticationFailed
| ConnectionTestFailed (error_msg : string)
| UnexpectedTestError (exc : Exn).

(** The answer of a route, or [HTTPException(404)]. *)
Inductive Http (A : Type) :=
| Answer (a : A)
| NotFound (detail : string).

Arguments Answer {A} a.
Arguments NotFound {A} detail.

Section Outside.

Variable bmc : nat -> list string -> Outcome.
Variable clock : nat -> Z.

(** [services/servers.py], [get_server]: the row of the id, if any.  The
    query carries [selectinload] for the relationships of the row, so they
    can be read afterwards. *)
Definition get_server (server_id : Z) : M (option ServerTarget) :=
  fun w => (Ok (find (fun s => Z.eqb (id s) server_id) (servers w)), w).

(** One turn of the loop over [old_alert_config.items()]. *)
Definition clear_if_disabled (server : ServerTarget) (new_alert_config : list (string * bool))
  (item : string * bool) : M unit :=
  let (alert_type_, was_enabled) := item in
  let is_now_enabled := dict_get new_alert_config alert_type_ false in
  if was_enabled && negb is_now_enabled
  then _clear_alert_if_active clock server alert_type_ "manual"
  else ret tt.

(** [update_server], on the columns of [ServerTarget] that this file has.
    The changes of the row reach the table with the flush at the end; a
    commit inside [_clear_alert_if_active] writes them earlier, which shows
    only when a later step raises. *)
Definition update_server (server_id : Z) (data : ServerUpdate) : M ServerTarget :=
  server <- get_server server_id ;;
  match server with
  | None => raise (ValueError ("Server " ++ str server_id ++ " not found"))
  | Some server =>
      let server := with_first_fields data server in
      server <-
        match data_alert_config data with
        | Some new_config =>
            let old_alert_config :=
              match alert_config server with Some d => d | None => [] end in
            let server := with_alert_config new_config server in
            for_each (clear_if_disabled server new_config) old_alert_config ;;;
            ret server
        | None => ret server
        end ;;
      let server := with_last_fields data server in
      flush_server server ;;;
      ret server
  end.

(** [api/routes/servers.py], [test_server_connection]. *)
Definition test_server_connection (server_id : Z) : M (Http ConnectionTest) :=
  server <- get_server server_id ;;
  match server with
  | None => ret (NotFound "Server not found")
  | Some server =>
      try_except_else (query_temperatures bmc)
        (fun exc =>
           match exc with
           | IPMICommandError error_msg =>
               if contains "Unable to establish" error_msg
                  || contains "Connection refused" error_msg
               then ret (Answer ConnectionFailed)
               else if contains "Invalid user name" error_msg
                       || contains "authentication" (lower error_msg)
               then ret (Answer AuthenticationFailed)
               else ret (Answer (ConnectionTestFailed error_msg))
           | _ => ret (Answer (UnexpectedTestError exc))
           end)
        (fun _ => ret (Answer Connected))
  end.

(** [api/routes/servers.py], [clear_server_alert]: the alert is cleared by
    hand, and the route answers "success" either way. *)
Definition clear_server_alert (server_id : Z) (alert_type_ : string) : M (Http string) :=
  server <- get_server server_id ;;
  match server with
  | None => ret (NotFound "Server not found")
  | Some server =>
      _clear_alert_if_active clock server alert_type_ "manual" ;;;
      ret (Answer "success")
  end.

End Outside.

End Callers.

(** * Properties *)

(** ** Rational comparisons *)

Lemma Qlt_bool_iff (x y : Q) : Qlt_bool x y = true <-> (x < y)%Q.
Proof.
  unfold Qlt_bool. rewrite negb_true_iff. split.
  - intros H. apply Qnot_le_lt. intros Hle.
    apply Qle_bool_iff in Hle. congruence.
  - intros H. destruct (Qle_bool y x) eqn:E; [|reflexivity].
    apply Qle_bool_iff in E. exfalso. exact (Qlt_not_le _ _ H E).
Qed.

Lemma Qle_bool_false (x y : Q) : Qle_bool x y = false <-> (y < x)%Q.
Proof.
  rewrite <- Qlt_bool_iff. unfold Qlt_bool.
  destruct (Qle_bool x y); simpl; split; congruence.
Qed.

(** ** The fan curve *)

Module FanCurveFacts.

Import Binary64 FanCurve.

Local Open Scope Q_scope.

(** The zone the loop stops at: the first whose threshold is not below the
    temperature, the last one when there is none. *)
Definition covers (t : Q) (z : Zone) : bool := Qle_bool t (get_temp_threshold z).

Definition selected (t : Q) (zs : list Zone) : Zone :=
  match find (covers t) zs with
  | Some z => z
  | None => last zs dummy_zone
  end.

Definition threshold_at (zs : list Zone) (i : nat) : Q :=
  get_temp_threshold (nth i zs dummy_zone).

Definition rpm_at (zs : list Zone) (i : nat) : Z :=
  get_target_rpm (nth i zs dummy_zone).

Lemma zone_eqb_threshold (a b : Zone) :
  zone_eqb a b = true -> get_temp_threshold a == get_temp_threshold b.
Proof.
  unfold zone_eqb, get_temp_threshold. intros H.
  apply andb_true_iff in H. destruct H as [H _].
  destruct (temp_threshold a), (temp_threshold b); try discriminate.
  - now apply Qeq_bool_iff.
  - reflexivity.
Qed.

Lemma zone_eqb_refl (a : Zone) : zone_eqb a a = true.
Proof.
  unfold zone_eqb. apply andb_true_iff. split.
  - destruct (temp_threshold a); [apply Qeq_bool_iff; reflexivity | reflexivity].
  - destruct (target_rpm a); [apply Z.eqb_refl | reflexivity].
Qed.

(** [index] finds an equal zone, at or before any place the zone stands. *)
Lemma index_app (zone : Zone) (pre rest : list Zone) :
  (index zone (pre ++ zone :: rest) <= List.length pre)%nat /\
  zone_eqb (nth (index zone (pre ++ zone :: rest)) (pre ++ zone :: rest) dummy_zone) zone
  = true.
Proof.
  induction pre as [|y pre IH]; simpl.
  - rewrite zone_eqb_refl. split; [lia | apply zone_eqb_refl].
  - destruct (zone_eqb y zone) eqn:E.
    + split; [lia | exact E].
    + destruct IH as [IH1 IH2]. split; [lia | exact IH2].
Qed.

Lemma nth_in_prefix (pre rest : list Zone) (i : nat) :
  (i < List.length pre)%nat ->
  In (nth i (pre ++ rest) dummy_zone) pre.
Proof.
  intros H. rewrite app_nth1 by exact H. now apply nth_In.
Qed.

(** On a table whose earlier zones all lie below the temperature, the loop
    stops at the first zone that covers it. *)
Lemma scan_zones_find (t : Q) (rest pre : list Zone) :
  (forall z, In z pre -> get_temp_threshold z < t) ->
  scan_zones (pre ++ rest) rest (Fin t)
  = option_map get_target_rpm (find (covers t) rest).
Proof.
  revert pre. induction rest as [|zone rest IH]; intros pre Hpre.
  - reflexivity.
  - simpl scan_zones. simpl find. unfold covers at 1.
    destruct (index_app zone pre rest) as [Hle Heq].
    assert (Hnext : Qle_bool t (get_temp_threshold zone) = false ->
                    scan_zones (pre ++ zone :: rest) rest (Fin t)
                    = option_map get_target_rpm (find (covers t) rest)).
    { intros Hf. replace (pre ++ zone :: rest) with ((pre ++ [zone]) ++ rest)
        by (rewrite <- app_assoc; reflexivity).
      apply IH. intros z Hz. apply in_app_or in Hz. destruct Hz as [Hz | [Hz | []]].
      - now apply Hpre.
      - subst z. now apply Qle_bool_false. }
    destruct (index zone (pre ++ zone :: rest)) as [|i] eqn:Ei.
    + simpl le_Q. destruct (Qle_bool t (get_temp_threshold zone)) eqn:Ec.
      * reflexivity.
      * now apply Hnext.
    + simpl le_Q. simpl Q_lt.
      destruct (Qle_bool t (get_temp_threshold zone)) eqn:Ec.
      * (* the zone covers [t]: it stands at its own index *)
        assert (Hi : S i = List.length pre).
        { destruct (Nat.eq_dec (S i) (List.length pre)) as [e|n]; [exact e|].
          exfalso. assert (Hlt : (S i < List.length pre)%nat) by lia.
          pose proof (nth_in_prefix pre (zone :: rest) (S i) Hlt) as Hin.
          apply Hpre in Hin. apply zone_eqb_threshold in Heq.
          rewrite Heq in Hin. apply Qle_bool_iff in Ec.
          exact (Qlt_not_le _ _ Hin Ec). }
        assert (Hprev : Qlt_bool (get_temp_threshold (nth i (pre ++ zone :: rest) dummy_zone)) t
                        = true).
        { apply Qlt_bool_iff. apply Hpre. apply nth_in_prefix. lia. }
        rewrite Hprev. reflexivity.
      * rewrite andb_false_r. now apply Hnext.
Qed.

Lemma ascending_tail (a : Zone) (l : list Zone) :
  is_ascending (a :: l) = true -> is_ascending l = true.
Proof.
  simpl. destruct l as [|b l]; [reflexivity|].
  intros H. apply andb_true_iff in H. tauto.
Qed.

(** The stable sort leaves an ascending table as it is. *)
Lemma sorted_ascending (zs : list Zone) : is_ascending zs = true -> sorted zs = zs.
Proof.
  induction zs as [|a l IH]; intros H; [reflexivity|].
  simpl sorted. rewrite IH by exact (ascending_tail _ _ H).
  destruct l as [|b l]; [reflexivity|].
  simpl in H. apply andb_true_iff in H. destruct H as [H _].
  simpl. now rewrite H.
Qed.

Lemma target_of_zones_selected (zs : list Zone) (t : Q) :
  zs <> [] -> is_ascending zs = true ->
  target_of_zones zs (Fin t) = Some (get_target_rpm (selected t zs)).
Proof.
  intros Hne Hasc. unfold target_of_zones, selected.
  destruct zs as [|a l]; [congruence|].
  rewrite (sorted_ascending _ Hasc).
  pose proof (scan_zones_find t (a :: l) [] (fun z (H : In z []) => match H with end)) as Hscan.
  simpl app in Hscan. cbv zeta. rewrite Hscan.
  destruct (find (covers t) (a :: l)); reflexivity.
Qed.

Lemma _calculate_target_rpm_selected (zs : list Zone) (t : Q) :
  zs <> [] -> is_ascending zs = true ->
  _calculate_target_rpm (Some (mkFanDefaults (Some zs))) (Fin t)
  = Some (get_target_rpm (selected t zs)).
Proof.
  intros Hne Hasc. unfold _calculate_target_rpm. cbn [zones].
  rewrite (target_of_zones_selected zs t Hne Hasc).
  destruct (Z.eqb_spec (get_target_rpm (selected t zs)) 0) as [e|n].
  - now rewrite e.
  - reflexivity.
Qed.

Lemma selected_in (t : Q) (zs : list Zone) : zs <> [] -> In (selected t zs) zs.
Proof.
  intros Hne. unfold selected. destruct (find (covers t) zs) eqn:E.
  - apply find_some in E. tauto.
  - destruct zs as [|a l]; [congruence|].
    destruct (exists_last Hne) as [l' [x Hx]]. rewrite Hx.
    rewrite last_last. apply in_or_app. right. now left.
Qed.

Lemma ascending_head (l : list Zone) :
  forall a, is_ascending (a :: l) = true ->
  forall z, In z l -> get_temp_threshold a <= get_temp_threshold z.
Proof.
  induction l as [|b l IH]; intros a Hasc z Hz; [destruct Hz|].
  simpl in Hasc. apply andb_true_iff in Hasc. destruct Hasc as [Hab Hasc].
  apply Qle_bool_iff in Hab. destruct Hz as [Hz | Hz].
  - now subst z.
  - apply Qle_trans with (get_temp_threshold b); [exact Hab|].
    now apply IH.
Qed.

Lemma ascending_nth (zs : list Zone) :
  is_ascending zs = true ->
  forall j k, (j <= k < List.length zs)%nat -> threshold_at zs j <= threshold_at zs k.
Proof.
  unfold threshold_at. induction zs as [|a l IH]; intros Hasc j k Hjk.
  - simpl in Hjk. lia.
  - destruct j as [|j].
    + destruct k as [|k]; [apply Qle_refl|].
      simpl nth. apply (ascending_head l a Hasc). apply nth_In. simpl in Hjk. lia.
    + destruct k as [|k]; [lia|]. simpl nth.
      apply IH; [exact (ascending_tail _ _ Hasc) | simpl in Hjk; lia].
Qed.

(** [find] stops at the first place where the test holds. *)
Lemma find_first_at {A} (p : A -> bool) (d : A) (l : list A) :
  forall i, (i < List.length l)%nat ->
  (forall j, (j < i)%nat -> p (nth j l d) = false) ->
  p (nth i l d) = true ->
  find p l = Some (nth i l d).
Proof.
  induction l as [|a l IH]; intros i Hi Hbefore Hat; [simpl in Hi; lia|].
  destruct i as [|i].
  - simpl in *. now rewrite Hat.
  - simpl. pose proof (Hbefore O ltac:(lia)) as H0. simpl in H0. rewrite H0.
    apply IH.
    + simpl in Hi. lia.
    + intros j Hj. apply (Hbefore (S j)). lia.
    + exact Hat.
Qed.

Lemma find_none_all {A} (p : A -> bool) (l : list A) :
  (forall x, In x l -> p x = false) -> find p l = None.
Proof.
  induction l as [|a l IH]; intros H; [reflexivity|].
  simpl. rewrite (H a) by now left. apply IH. intros x Hx. apply H. now right.
Qed.

Lemma last_nth {A} (d : A) (l : list A) : last l d = nth (List.length l - 1) l d.
Proof.
  induction l as [|a l IH]; [reflexivity|].
  destruct l as [|b l]; [reflexivity|].
  change (last (a :: b :: l) d) with (last (b :: l) d). rewrite IH.
  simpl. now rewrite Nat.sub_0_r.
Qed.

Lemma selected_lowest (t : Q) (zs : list Zone) :
  zs <> [] -> t <= threshold_at zs 0 -> selected t zs = nth 0 zs dummy_zone.
Proof.
  intros Hne Ht. destruct zs as [|a l]; [congruence|].
  unfold selected, threshold_at in *. simpl in *. unfold covers at 1.
  apply Qle_bool_iff in Ht. now rewrite Ht.
Qed.

Lemma selected_between (t : Q) (zs : list Zone) (i : nat) :
  is_ascending zs = true -> (0 < i < List.length zs)%nat ->
  threshold_at zs (i - 1) < t -> t <= threshold_at zs i ->
  selected t zs = nth i zs dummy_zone.
Proof.
  intros Hasc Hi Hlo Hhi. unfold selected.
  rewrite (find_first_at (covers t) dummy_zone zs i); [reflexivity | lia | |].
  - intros j Hj. unfold covers. apply Qle_bool_false.
    apply Qle_lt_trans with (threshold_at zs (i - 1)); [|exact Hlo].
    apply ascending_nth; [exact Hasc | lia].
  - unfold covers. now apply Qle_bool_iff.
Qed.

Lemma selected_highest (t : Q) (zs : list Zone) :
  is_ascending zs = true -> zs <> [] ->
  threshold_at zs (List.length zs - 1) < t ->
  selected t zs = nth (List.length zs - 1) zs dummy_zone.
Proof.
  intros Hasc Hne Ht. unfold selected.
  rewrite find_none_all; [apply last_nth|].
  intros x Hx. unfold covers. apply Qle_bool_false.
  destruct (In_nth _ _ dummy_zone Hx) as [k [Hk Hnth]].
  apply Qle_lt_trans with (threshold_at zs (List.length zs - 1)); [|exact Ht].
  rewrite <- Hnth. apply (ascending_nth zs Hasc). lia.
Qed.

Lemma rpm_non_decreasing_tail (a : Zone) (l : list Zone) :
  rpm_non_decreasing (a :: l) = true -> rpm_non_decreasing l = true.
Proof.
  simpl. destruct l as [|b l]; [reflexivity|].
  intros H. apply andb_true_iff in H. tauto.
Qed.

Lemma rpm_non_decreasing_head (l : list Zone) :
  forall a, rpm_non_decreasing (a :: l) = true ->
  forall z, In z (a :: l) -> (get_target_rpm a <= get_target_rpm z)%Z.
Proof.
  induction l as [|b l IH]; intros a Hmono z Hz.
  - destruct Hz as [Hz | []]. subst z. lia.
  - simpl in Hmono. apply andb_true_iff in Hmono. destruct Hmono as [Hab Hmono].
    apply Z.leb_le in Hab. destruct Hz as [Hz | Hz].
    + subst z. lia.
    + specialize (IH b Hmono z Hz). lia.
Qed.

(** A warmer reading never selects a slower zone. *)
Lemma selected_monotone (zs : list Zone) (t1 t2 : Q) :
  zs <> [] -> rpm_non_decreasing zs = true -> t1 <= t2 ->
  (get_target_rpm (selected t1 zs) <= get_target_rpm (selected t2 zs))%Z.
Proof.
  intros Hne Hmono Ht. induction zs as [|a l IH]; [congruence|].
  destruct (Qle_bool t1 (get_temp_threshold a)) eqn:E1.
  - assert (H1 : selected t1 (a :: l) = a).
    { unfold selected. simpl. unfold covers at 1. now rewrite E1. }
    rewrite H1. apply (rpm_non_decreasing_head l a Hmono). now apply selected_in.
  - assert (E2 : Qle_bool t2 (get_temp_threshold a) = false).
    { apply Qle_bool_false. apply Qle_bool_false in E1.
      now apply Qlt_le_trans with t1. }
    destruct l as [|b l].
    + unfold selected. simpl. unfold covers. rewrite E1, E2. simpl. lia.
    + assert (Hskip : forall t, Qle_bool t (get_temp_threshold a) = false ->
                        selected t (a :: b :: l) = selected t (b :: l)).
      { intros t E. unfold selected. simpl find. unfold covers at 1. rewrite E.
        reflexivity. }
      rewrite (Hskip t1 E1), (Hskip t2 E2).
      apply IH; [congruence | exact (rpm_non_decreasing_tail _ _ Hmono)].
Qed.

(** C1. On a non-empty zone table in ascending order of threshold, at every
    temperature [_calculate_target_rpm] returns the rpm of a zone of the
    table: the lowest zone's at or below the lowest threshold, zone [i]'s
    strictly above threshold [i-1] and at or below threshold [i], the
    highest zone's strictly above the highest threshold.  When the rpms do
    not decrease along the table, the result does not decrease as the
    temperature rises. *)
Theorem calculate_target_rpm_zones (zs : list Zone) :
  zs <> [] -> is_ascending zs = true ->
  let target := fun t : Q => _calculate_target_rpm (Some (mkFanDefaults (Some zs))) (Fin t) in
  (forall t, exists z, In z zs /\ target t = Some (get_target_rpm z)) /\
  (forall t, t <= threshold_at zs 0 -> target t = Some (rpm_at zs 0)) /\
  (forall t i, (0 < i < List.length zs)%nat ->
     threshold_at zs (i - 1) < t -> t <= threshold_at zs i ->
     target t = Some (rpm_at zs i)) /\
  (forall t, threshold_at zs (List.length zs - 1) < t ->
     target t = Some (rpm_at zs (List.length zs - 1))) /\
  (rpm_non_decreasing zs = true ->
   forall t1 t2 r1 r2, t1 <= t2 -> target t1 = Some r1 -> target t2 = Some r2 ->
   (r1 <= r2)%Z).
Proof.
  intros Hne Hasc target.
  assert (Htarget : forall t, target t = Some (get_target_rpm (selected t zs))).
  { intros t. now apply _calculate_target_rpm_selected. }
  repeat split.
  - intros t. exists (selected t zs). split; [now apply selected_in | apply Htarget].
  - intros t Ht. rewrite Htarget. unfold rpm_at. now rewrite selected_lowest.
  - intros t i Hi Hlo Hhi. rewrite Htarget. unfold rpm_at.
    now rewrite (selected_between t zs i Hasc Hi).
  - intros t Ht. rewrite Htarget. unfold rpm_at. now rewrite selected_highest.
  - intros Hmono t1 t2 r1 r2 Ht H1 H2. rewrite Htarget in H1, H2.
    injection H1 as <-. injection H2 as <-. now apply selected_monotone.
Qed.

Definition zones_50_52_70 : list Zone :=
  [mkZone (Some 50) (Some 1800%Z); mkZone (Some 52) (Some 3500%Z);
   mkZone (Some 70) (Some 5000%Z)].

Lemma calculate_target_rpm_zones_witness :
  zones_50_52_70 <> [] /\ is_ascending zones_50_52_70 = true /\
  _calculate_target_rpm (Some (mkFanDefaults (Some zones_50_52_70))) (Fin 51)
  = Some 3500%Z.
Proof.
  assert (Hne : zones_50_52_70 <> []) by discriminate.
  assert (Hasc : is_ascending zones_50_52_70 = true) by reflexivity.
  split; [exact Hne|]. split; [exact Hasc|].
  destruct (calculate_target_rpm_zones zones_50_52_70 Hne Hasc) as [_ [_ [H _]]].
  apply (H 51 1%nat); [simpl; lia | reflexivity | discriminate].
Defined.

(** C5, as the code has it.  With zones [{50,1800},{52,3500},{70,5000}] the
    target is 1800 rpm at 48 degrees and 5000 rpm at 75 degrees; at 60
    degrees, above the second threshold, it is 5000 rpm as well, and 3500 rpm
    is the target above 50 and up to 52 degrees. *)
Theorem target_rpm_scenario :
  let target := _calculate_target_rpm (Some (mkFanDefaults (Some zones_50_52_70))) in
  target (Fin 48) = Some 1800%Z /\
  target (Fin 60) = Some 5000%Z /\
  target (Fin 75) = Some 5000%Z /\
  target (Fin 51) = Some 3500%Z /\
  target (Fin 52) = Some 3500%Z.
Proof. repeat split. Qed.

(** C5 as stated does not hold: at 60 degrees the target is not 3500 rpm. *)
Lemma target_rpm_scenario_counterexample :
  ~ (_calculate_target_rpm (Some (mkFanDefaults (Some zones_50_52_70))) (Fin 48)
     = Some 1800%Z /\
     _calculate_target_rpm (Some (mkFanDefaults (Some zones_50_52_70))) (Fin 60)
     = Some 3500%Z /\
     _calculate_target_rpm (Some (mkFanDefaults (Some zones_50_52_70))) (Fin 75)
     = Some 5000%Z).
Proof. intros [_ [H _]]. discriminate H. Qed.

End FanCurveFacts.

(** ** Rounding to binary64 *)

Module Binary64Facts.

Import Binary64.

Local Open Scope Q_scope.

Lemma two_not_0 : ~ 2 == 0.
Proof. discriminate. Qed.

Lemma pow2_pos (e : Z) : 0 < pow2 e.
Proof. apply Qpower_0_lt. reflexivity. Qed.

Lemma pow2_le_mono (a b : Z) : (a <= b)%Z -> pow2 a <= pow2 b.
Proof. intros H. apply Qpower_le_compat_l; [exact H | discriminate]. Qed.

Lemma pow2_le_inv (a b : Z) : pow2 a <= pow2 b -> (a <= b)%Z.
Proof. intros H. apply (Qpower_le_compat_l_inv 2); [exact H | reflexivity]. Qed.

Lemma pow2_plus (a b : Z) : pow2 (a + b) == pow2 a * pow2 b.
Proof. apply Qpower_plus. exact two_not_0. Qed.

Lemma pow2_inject (n : Z) : (0 <= n)%Z -> pow2 n == inject_Z (2 ^ n).
Proof. intros H. symmetry. apply (Zpower_Qpower 2 n H). Qed.

Lemma pow2_cancel (e : Z) : pow2 (52 - e) * pow2 (e - 52) == 1.
Proof.
  rewrite <- pow2_plus. replace (52 - e + (e - 52))%Z with 0%Z by ring. reflexivity.
Qed.

(** [ilog2 q] is not above the logarithm of [q]. *)
Lemma ilog2_le (q : Q) : 0 < q -> pow2 (ilog2 q) <= q.
Proof.
  intros Hq. unfold ilog2.
  destruct (Qle_bool (pow2 (Z.log2 (Qnum q) - Z.log2 (Z.pos (Qden q)))) q) eqn:E.
  - now apply Qle_bool_iff.
  - clear E. destruct q as [n d]. simpl Qnum. simpl Qden.
    assert (Hn : (0 < n)%Z).
    { unfold Qlt in Hq. simpl in Hq. lia. }
    destruct (Z.log2_spec n Hn) as [Hn1 _].
    destruct (Z.log2_spec (Z.pos d) ltac:(lia)) as [_ Hd2].
    pose proof (Z.log2_nonneg n) as Hln.
    pose proof (Z.log2_nonneg (Z.pos d)) as Hld.
    replace (Z.log2 n - Z.log2 (Z.pos d) - 1)%Z
      with (Z.log2 n - Z.succ (Z.log2 (Z.pos d)))%Z by lia.
    unfold pow2. rewrite (Qpower_minus 2 _ _ two_not_0).
    fold (pow2 (Z.log2 n)). fold (pow2 (Z.succ (Z.log2 (Z.pos d)))).
    rewrite (pow2_inject _ Hln), (pow2_inject (Z.succ (Z.log2 (Z.pos d)))) by lia.
    apply Qle_shift_div_r.
    + change 0 with (inject_Z 0). rewrite <- Zlt_Qlt. lia.
    + unfold Qle, Qmult, inject_Z. cbn [Qnum Qden].
      rewrite Pos.mul_1_r, Z.mul_1_r.
      remember (Z.log2 (Z.pos d)) as ld. remember (Z.log2 n) as ln.
      apply Z.mul_le_mono_nonneg; lia.
Qed.

Lemma round_half_even_ge (s : Q) (N : Z) :
  inject_Z N <= s -> (N <= round_half_even s)%Z.
Proof.
  intros H. apply Qfloor_resp_le in H. rewrite Qfloor_Z in H.
  unfold round_half_even.
  destruct (s - inject_Z (Qfloor s) ?= 1 # 2); [destruct (Z.even (Qfloor s))| |]; lia.
Qed.

Lemma round_half_even_le (s : Q) (N : Z) :
  s <= inject_Z N -> (round_half_even s <= N)%Z.
Proof.
  intros H. pose proof (Qfloor_resp_le _ _ H) as Hf. rewrite Qfloor_Z in Hf.
  unfold round_half_even.
  destruct (Z.eq_dec (Qfloor s) N) as [e|n].
  - assert (Hlt : s - inject_Z (Qfloor s) < 1 # 2).
    { rewrite e. apply Qle_lt_trans with 0; [|reflexivity].
      apply (Qplus_le_l _ _ (inject_Z N)). ring_simplify. exact H. }
    rewrite Qlt_alt in Hlt. rewrite Hlt. lia.
  - destruct (s - inject_Z (Qfloor s) ?= 1 # 2); [destruct (Z.even (Qfloor s))| |]; lia.
Qed.

Lemma round_pos_eq (q : Q) :
  round_pos q ==
  inject_Z (round_half_even (q * pow2 (52 - Z.max (ilog2 q) emin)))
  * pow2 (Z.max (ilog2 q) emin - 52).
Proof. unfold round_pos. apply Qred_correct. Qed.

(** A number of the grid around [q] that is below [q] is below its
    rounding, and one above is above. *)
Lemma round_pos_above (q A : Q) (a : Z) :
  A * pow2 (52 - Z.max (ilog2 q) emin) == inject_Z a ->
  A <= q -> A <= round_pos q.
Proof.
  intros Hgrid HA. rewrite round_pos_eq.
  set (e := Z.max (ilog2 q) emin) in *.
  assert (HAa : A == inject_Z a * pow2 (e - 52)).
  { rewrite <- Hgrid, <- Qmult_assoc, pow2_cancel. ring. }
  rewrite HAa. apply Qmult_le_compat_r; [|apply Qlt_le_weak, pow2_pos].
  rewrite <- Zle_Qle. apply round_half_even_ge. rewrite <- Hgrid.
  apply Qmult_le_compat_r; [exact HA | apply Qlt_le_weak, pow2_pos].
Qed.

Lemma round_pos_below (q B : Q) (b : Z) :
  B * pow2 (52 - Z.max (ilog2 q) emin) == inject_Z b ->
  q <= B -> round_pos q <= B.
Proof.
  intros Hgrid HB. rewrite round_pos_eq.
  set (e := Z.max (ilog2 q) emin) in *.
  assert (HBb : B == inject_Z b * pow2 (e - 52)).
  { rewrite <- Hgrid, <- Qmult_assoc, pow2_cancel. ring. }
  rewrite HBb. apply Qmult_le_compat_r; [|apply Qlt_le_weak, pow2_pos].
  rewrite <- Zle_Qle. apply round_half_even_le. rewrite <- Hgrid.
  apply Qmult_le_compat_r; [exact HB | apply Qlt_le_weak, pow2_pos].
Qed.

(** Rounding does not cross an integer of at most 53 bits. *)
Lemma round_pos_ge_Z (q : Q) (n : Z) :
  (0 < n < 2 ^ 53)%Z -> inject_Z n <= q -> inject_Z n <= round_pos q.
Proof.
  intros Hn Hq.
  assert (Hq0 : 0 < q).
  { apply Qlt_le_trans with (inject_Z n); [|exact Hq].
    change 0 with (inject_Z 0). rewrite <- Zlt_Qlt. lia. }
  destruct (Z_le_gt_dec (Z.max (ilog2 q) emin) 52) as [He|He].
  - apply (round_pos_above q _ (n * 2 ^ (52 - Z.max (ilog2 q) emin))); [|exact Hq].
    rewrite inject_Z_mult, pow2_inject by lia. reflexivity.
  - apply Qle_trans with (pow2 (Z.max (ilog2 q) emin)).
    + apply Qle_trans with (pow2 53).
      * rewrite (pow2_inject 53) by lia. rewrite <- Zle_Qle. lia.
      * apply pow2_le_mono. lia.
    + apply (round_pos_above q _ (2 ^ 52)).
      * rewrite <- pow2_plus.
        replace (Z.max (ilog2 q) emin + (52 - Z.max (ilog2 q) emin))%Z with 52%Z by ring.
        apply pow2_inject. lia.
      * unfold emin in *. rewrite Z.max_l by lia. now apply ilog2_le.
Qed.

Lemma round_pos_le_pow2 (q : Q) (k : Z) :
  0 < q -> (emin <= k)%Z -> q <= pow2 k -> round_pos q <= pow2 k.
Proof.
  intros Hq0 Hk Hq.
  assert (He : (Z.max (ilog2 q) emin <= k)%Z).
  { apply Z.max_lub; [|exact Hk]. apply pow2_le_inv.
    apply Qle_trans with q; [now apply ilog2_le | exact Hq]. }
  apply (round_pos_below q _ (2 ^ (k + (52 - Z.max (ilog2 q) emin)))); [|exact Hq].
  rewrite <- pow2_plus. apply pow2_inject. lia.
Qed.

Lemma round_of_pos (q : Q) : 0 < q -> round q = round_pos q.
Proof. intros H. unfold round. rewrite Qgt_alt in H. now rewrite H. Qed.

Lemma overflows_below (x : Q) (k : Z) :
  0 <= x -> x <= pow2 k -> (k < 1024)%Z -> overflows x = false.
Proof.
  intros H0 Hx Hk. unfold overflows. apply Qle_bool_false.
  rewrite (Qabs_pos x H0). apply Qle_lt_trans with (pow2 k); [exact Hx|].
  apply Qpower_lt_compat_l; [exact Hk | reflexivity].
Qed.

(** *** Agreement with the Standard Library's IEEE 754 operations

    [round] is this file's own; the Standard Library specifies binary64
    division and multiplication on [spec_float].  The two agree on the
    quotients and products that the fan command computes. *)

Definition of_int (n : Z) : SpecFloat.spec_float :=
  SpecFloat.binary_normalize 53 1024 n 0 false.

Definition value (x : SpecFloat.spec_float) : option Q :=
  match x with
  | SpecFloat.S754_zero _ => Some 0
  | SpecFloat.S754_finite s m e =>
      Some (Qred ((if s then -1 else 1) * inject_Z (Z.pos m) * pow2 e))
  | _ => None
  end.

Definition same (q : Q) (x : SpecFloat.spec_float) : bool :=
  match value x with
  | Some v => Qeq_bool q v
  | None => false
  end.

(** [n / d * 100], step by step, in both models. *)
Definition agree (d n : Z) : bool :=
  let x := SpecFloat.SFdiv 53 1024 (of_int n) (of_int d) in
  same (round (inject_Z n / inject_Z d)) x &&
  match value x with
  | Some v => same (round (v * 100)) (SpecFloat.SFmul 53 1024 x (of_int 100))
  | None => false
  end.

Lemma round_agrees_with_spec_float :
  forallb (agree 5000) (map Z.of_nat (seq 3501 2000)) = true /\
  forallb (agree 100) (map Z.of_nat (seq 1 100)) = true /\
  forallb (agree 5000) (map (fun k => 3 ^ Z.of_nat k)%Z (seq 0 33)) = true.
Proof. split; [|split]; vm_compute; reflexivity. Qed.

End Binary64Facts.

(** ** The fan command *)

Module IpmiFacts.

Import PyStr Binary64 Binary64Facts Ipmi.

Local Open Scope Q_scope.

Lemma round_between (q : Q) (n : Z) (k : Z) :
  (0 < n < 2 ^ 53)%Z -> (emin <= k)%Z -> inject_Z n <= q -> q <= pow2 k ->
  inject_Z n <= round q /\ round q <= pow2 k.
Proof.
  intros Hn Hk Hlo Hhi.
  assert (Hq0 : 0 < q).
  { apply Qlt_le_trans with (inject_Z n); [|exact Hlo].
    change 0 with (inject_Z 0). rewrite <- Zlt_Qlt. lia. }
  rewrite (round_of_pos q Hq0). split.
  - now apply round_pos_ge_Z.
  - now apply round_pos_le_pow2.
Qed.

(** The quotient of a request of 5000 rpm or more is a float of at least
    one. *)
Lemma truediv_full (rpm : Z) :
  (5000 <= rpm < 2 ^ 1000)%Z ->
  exists x, truediv rpm 5000 = Ok (Fin x) /\ inject_Z 1 <= x /\ x <= pow2 1000.
Proof.
  intros [Hlo Hhi]. unfold truediv.
  set (q := inject_Z rpm / inject_Z 5000).
  assert (Hq1 : inject_Z 1 <= q).
  { apply Qle_shift_div_l; [reflexivity|].
    rewrite <- inject_Z_mult, <- Zle_Qle. lia. }
  assert (Hq2 : q <= pow2 1000).
  { apply Qle_shift_div_r; [reflexivity|].
    apply Qle_trans with (pow2 1000 * 1).
    - rewrite Qmult_1_r, (pow2_inject 1000) by lia. rewrite <- Zle_Qle. lia.
    - apply Qmult_le_l; [apply pow2_pos | discriminate]. }
  destruct (round_between q 1 1000 ltac:(lia) ltac:(unfold emin; lia) Hq1 Hq2) as [Hr1 Hr2].
  assert (Hr0 : 0 <= round q).
  { apply Qle_trans with (inject_Z 1); [discriminate | exact Hr1]. }
  cbv zeta. rewrite (overflows_below (round q) 1000 Hr0 Hr2) by lia.
  exists (round q). repeat split; assumption.
Qed.

(** A hundred times a float of at least one is a percentage of at least a
    hundred. *)
Lemma percentage_full (x : Q) :
  inject_Z 1 <= x -> x <= pow2 1000 ->
  exists p, to_int (mul (Fin x) (Fin 100)) = Ok p /\ (100 <= p)%Z.
Proof.
  intros Hx1 Hx2. unfold mul, of_Q.
  set (p := x * 100).
  assert (Hp1 : inject_Z 100 <= p).
  { unfold p. apply Qle_trans with (inject_Z 1 * 100); [discriminate|].
    apply Qmult_le_compat_r; [exact Hx1 | discriminate]. }
  assert (Hp2 : p <= pow2 1007).
  { unfold p. replace 1007%Z with (1000 + 7)%Z by reflexivity. rewrite pow2_plus.
    apply Qle_trans with (pow2 1000 * 100).
    - apply Qmult_le_compat_r; [exact Hx2 | discriminate].
    - apply Qmult_le_l; [apply pow2_pos | discriminate]. }
  destruct (round_between p 100 1007 ltac:(lia) ltac:(unfold emin; lia) Hp1 Hp2) as [Hs1 Hs2].
  assert (Hs0 : 0 <= round p).
  { apply Qle_trans with (inject_Z 100); [discriminate | exact Hs1]. }
  cbv zeta. rewrite (overflows_below (round p) 1007 Hs0 Hs2) by lia.
  exists (truncate (round p)). split; [reflexivity|].
  unfold truncate. apply Qle_bool_iff in Hs0. rewrite Hs0.
  apply Qfloor_resp_le in Hs1. now rewrite Qfloor_Z in Hs1.
Qed.

Lemma full_percentage_byte :
  match truediv 100 100 with
  | Ok y => match to_int (mul y (Fin 100)) with
            | Ok b => Ok (Z.min 100 b)
            | Raise e => Raise e
            end
  | Raise e => Raise e
  end = Ok 100%Z.
Proof. vm_compute. reflexivity. Qed.

(** From 5000 rpm on the byte is the full 100, as long as the division
    stays within the floats. *)
Lemma high_speed_byte_full (rpm : Z) :
  (5000 <= rpm < 2 ^ 1000)%Z -> high_speed_byte rpm = Ok 100%Z.
Proof.
  intros Hrpm. unfold high_speed_byte.
  destruct (truediv_full rpm Hrpm) as [x [Hx [Hx1 Hx2]]]. rewrite Hx.
  destruct (percentage_full x Hx1 Hx2) as [p [Hp Hp100]]. rewrite Hp.
  rewrite (Z.min_l 100 p Hp100). exact full_percentage_byte.
Qed.

Definition range (lo : Z) (n : nat) : list Z :=
  List.map (fun i => (lo + Z.of_nat i)%Z) (List.seq 0 n).

Lemma forallb_range (p : Z -> bool) (lo : Z) (n : nat) :
  List.forallb p (range lo n) = true ->
  forall z, (lo <= z < lo + Z.of_nat n)%Z -> p z = true.
Proof.
  intros H z Hz. rewrite List.forallb_forall in H. apply H.
  unfold range. apply List.in_map_iff. exists (Z.to_nat (z - lo)). split.
  - lia.
  - apply List.in_seq. lia.
Qed.

Definition interpolates (rpm : Z) : bool :=
  match high_speed_byte rpm with
  | Ok b => Z.eqb b (Z.min 100 (100 * rpm / 5000))
  | Raise _ => false
  end.

(** Between 3500 and 5000 rpm, by running the float arithmetic on each
    of the 1499 values. *)
Lemma high_speed_byte_checked : List.forallb interpolates (range 3501 1499) = true.
Proof. vm_compute. reflexivity. Qed.

Lemma high_speed_byte_interpolates (rpm : Z) :
  (3500 < rpm < 2 ^ 1000)%Z ->
  high_speed_byte rpm = Ok (Z.min 100 (100 * rpm / 5000)).
Proof.
  intros [Hlo Hhi]. destruct (Z_lt_ge_dec rpm 5000) as [Hlt | Hge].
  - pose proof (forallb_range interpolates 3501 1499 high_speed_byte_checked rpm
                  ltac:(lia)) as H.
    unfold interpolates in H. destruct (high_speed_byte rpm) as [b|e]; [|discriminate].
    apply Z.eqb_eq in H. now subst b.
  - rewrite high_speed_byte_full by lia. f_equal. symmetry. apply Z.min_l.
    apply Z.div_le_lower_bound; lia.
Qed.

Local Open Scope string_scope.

(** The command line for a zone byte and a speed byte. *)
Definition command (fan_identifier : option string) (speed : Z) : string :=
  "0x30 0x70 0x66 " ++ hex (zone_byte fan_identifier) ++ " 0x00 0x00 " ++ hex speed.

Lemma build_supermicro (vendor : string) (rpm b : Z) (fan : option string) :
  lower vendor = "supermicro" -> speed_byte rpm = Ok b ->
  _build_fan_command vendor rpm fan = Ok (command fan b).
Proof.
  intros Hv Hb. unfold _build_fan_command. rewrite Hv. simpl String.eqb.
  rewrite Hb. reflexivity.
Qed.

(** C7. For a Supermicro server the speed byte is 0x64 for a request of 0,
    0x18 for any other request up to 2000, 0x30 above 2000 and up to 3500,
    and [min(0x64, 100 * rpm / 5000)] above 3500; the zone byte is 0x1 for
    all fans and 0x0 for a named fan; for every other vendor the call
    raises.  (Above 3500 the request is taken below 2^1000: the float
    division of a larger integer can overflow.) *)
Theorem build_fan_command_mapping :
  forall (vendor : string) (target_rpm : Z) (fan_identifier : option string),
    (lower vendor = "supermicro" ->
     (target_rpm = 0%Z ->
      _build_fan_command vendor target_rpm fan_identifier = Ok (command fan_identifier 100)) /\
     (target_rpm <> 0%Z -> (target_rpm <= 2000)%Z ->
      _build_fan_command vendor target_rpm fan_identifier = Ok (command fan_identifier 24)) /\
     ((2000 < target_rpm <= 3500)%Z ->
      _build_fan_command vendor target_rpm fan_identifier = Ok (command fan_identifier 48)) /\
     ((3500 < target_rpm < 2 ^ 1000)%Z ->
      _build_fan_command vendor target_rpm fan_identifier
      = Ok (command fan_identifier (Z.min 100 (100 * target_rpm / 5000))))) /\
    (zone_byte None = 1%Z /\ forall fan, zone_byte (Some fan) = 0%Z) /\
    (lower vendor <> "supermicro" ->
     exists e, _build_fan_command vendor target_rpm fan_identifier = Raise e).
Proof.
  intros vendor rpm fan. split; [|split].
  - intros Hv. repeat split.
    + intros H0. apply build_supermicro; [exact Hv|]. subst rpm. reflexivity.
    + intros H0 H1. apply build_supermicro; [exact Hv|]. unfold speed_byte.
      apply Z.eqb_neq in H0. apply Z.leb_le in H1. now rewrite H0, H1.
    + intros [H1 H2]. apply build_supermicro; [exact Hv|]. unfold speed_byte.
      assert (H0 : (rpm =? 0)%Z = false) by (apply Z.eqb_neq; lia).
      assert (H3 : (rpm <=? 2000)%Z = false) by (apply Z.leb_gt; lia).
      apply Z.leb_le in H2. now rewrite H0, H3, H2.
    + intros [H1 H2]. apply build_supermicro; [exact Hv|]. unfold speed_byte.
      assert (H0 : (rpm =? 0)%Z = false) by (apply Z.eqb_neq; lia).
      assert (H3 : (rpm <=? 2000)%Z = false) by (apply Z.leb_gt; lia).
      assert (H4 : (rpm <=? 3500)%Z = false) by (apply Z.leb_gt; lia).
      rewrite H0, H3, H4. apply high_speed_byte_interpolates. lia.
  - split; [reflexivity | intros f; reflexivity].
  - intros Hv. unfold _build_fan_command.
    destruct (String.eqb_spec (lower vendor) "supermicro") as [e|_]; [contradiction|].
    destruct (String.eqb (lower vendor) "dell"); [eexists; reflexivity|].
    destruct (String.eqb (lower vendor) "hp"); eexists; reflexivity.
Qed.

Lemma build_fan_command_mapping_witness :
  lower "Supermicro" = "supermicro" /\ (3500 < 4200 < 2 ^ 1000)%Z /\
  _build_fan_command "Supermicro" 4200 (Some "FAN1") = Ok "0x30 0x70 0x66 0x0 0x00 0x00 0x54".
Proof.
  assert (Hv : lower "Supermicro" = "supermicro") by reflexivity.
  assert (Hr : (3500 < 4200 < 2 ^ 1000)%Z) by (split; reflexivity).
  split; [exact Hv|]. split; [exact Hr|].
  destruct (build_fan_command_mapping "Supermicro" 4200 (Some "FAN1")) as [H _].
  destruct (H Hv) as [_ [_ [_ H4]]]. exact (H4 Hr).
Defined.

End IpmiFacts.

(** ** The alert store *)

Module StoreFacts.

Import PyStr Binary64 FanCurve Model Scheduler.

Local Open Scope string_scope.
Local Open Scope list_scope.

(** The live rows of one server and alert type. *)
Definition live_rows (sid : Z) (k : string) (w : World) : list ActiveAlert :=
  filter (is_live_for sid k) (active_alerts w).

Definition is_live (sid : Z) (k : string) (w : World) : bool :=
  match live_rows sid k w with [] => false | _ :: _ => true end.

(** What [_send_alert_notification] hands to [notify]. *)
Definition sent (server : ServerTarget) (k : string) (m : Message) (is_cleared : bool)
  (w : World) : list Delivery :=
  match notification_channel_ids server with
  | None | Some [] => []
  | Some ids =>
      deliveries (fernet w) (make_notification server k m is_cleared)
        (enabled_channels ids (notification_channels w))
  end.

Lemma send_alert_notification_world (server : ServerTarget) (k : string) (m : Message)
  (is_cleared : bool) (w : World) :
  _send_alert_notification server k m is_cleared w
  = (Ok tt,
     set_outbox (outbox w ++ sent server k m is_cleared w)
       (set_dispatched (dispatched w ++ [mkDispatch (id server) k is_cleared]) w)).
Proof.
  unfold _send_alert_notification, sent.
  destruct w as [sv ch al ky di ob fr ic cr].
  unfold set_dispatched, set_outbox.
  cbn [servers notification_channels active_alerts fernet dispatched outbox fan_requests
       ipmi_calls clock_reads].
  destruct (notification_channel_ids server) as [[|i ids]|].
  - now rewrite app_nil_r.
  - destruct (enabled_channels (i :: ids) ch) eqn:E.
    + cbn [deliveries flat_map]. now rewrite app_nil_r.
    + reflexivity.
  - now rewrite app_nil_r.
Qed.

Lemma is_live_same_key (sid : Z) (k : string) (a : ActiveAlert) :
  is_live_for sid k a = true -> same_key sid k a = true.
Proof. unfold is_live_for, same_key. intros H. apply andb_true_iff in H. tauto. Qed.

Lemma filter_nil {A} (p : A -> bool) (l : list A) :
  (forall a, In a l -> p a = false) -> filter p l = [].
Proof.
  induction l as [|x l IH]; intros H; [reflexivity|].
  simpl. rewrite (H x) by now left. apply IH. intros a Ha. apply H. now right.
Qed.

Lemma filter_nil_inv {A} (p : A -> bool) (l : list A) :
  filter p l = [] -> forall a, In a l -> p a = false.
Proof.
  intros H a Ha. destruct (p a) eqn:E; [|reflexivity].
  assert (Hin : In a (filter p l)) by (apply filter_In; tauto).
  rewrite H in Hin. destruct Hin.
Qed.

Lemma map_if_false {A} (p : A -> bool) (f : A -> A) (l : list A) :
  (forall a, In a l -> p a = false) -> map (fun a => if p a then f a else a) l = l.
Proof.
  induction l as [|x l IH]; intros H; [reflexivity|].
  simpl. rewrite (H x) by now left. f_equal. apply IH. intros a Ha. apply H. now right.
Qed.

Lemma existsb_false {A} (p : A -> bool) (l : list A) :
  (forall a, In a l -> p a = false) -> existsb p l = false.
Proof.
  induction l as [|x l IH]; intros H; [reflexivity|].
  simpl. rewrite (H x) by now left. apply IH. intros a Ha. apply H. now right.
Qed.

(** Rows that are cleared by [f] are live no more. *)
Lemma filter_after_clear (sid : Z) (k : string) (t1 t2 : Z) (by_ : string)
  (l : list ActiveAlert) :
  filter (is_live_for sid k)
    (map (fun a => if is_live_for sid k a then clear_row t1 by_ t2 a else a) l) = [].
Proof.
  apply filter_nil. intros a Ha. apply in_map_iff in Ha. destruct Ha as [b [Hb _]].
  destruct (is_live_for sid k b) eqn:E.
  - subst a. unfold is_live_for, clear_row. cbn. apply andb_false_r.
  - now subst a.
Qed.

(** Rows that are touched stay live, in their places. *)
Lemma filter_after_touch (sid : Z) (k : string) (t : Z) (l : list ActiveAlert) :
  filter (is_live_for sid k)
    (map (fun a => if is_live_for sid k a then touch t a else a) l)
  = map (touch t) (filter (is_live_for sid k) l).
Proof.
  induction l as [|a l IH]; [reflexivity|].
  simpl. destruct (is_live_for sid k a) eqn:E; simpl.
  - assert (Ht : is_live_for sid k (touch t a) = true) by exact E.
    rewrite Ht. simpl. now rewrite IH.
  - rewrite E. exact IH.
Qed.



Section WithClock.

Variable clock : nat -> Z.

Lemma not_live_of_no_key (sid : Z) (k : string) (l : list ActiveAlert) :
  existsb (same_key sid k) l = false -> filter (is_live_for sid k) l = [].
Proof.
  intros H. apply filter_nil. intros a Ha.
  destruct (is_live_for sid k a) eqn:E; [|reflexivity].
  apply is_live_same_key in E.
  assert (Hex : existsb (same_key sid k) l = true) by (apply existsb_exists; eauto).
  congruence.
Qed.

(** Activation when the table has no row of the key, live or cleared: a
    row is added and the notification goes out. *)
Lemma activate_fresh (server : ServerTarget) (k : string) (m : Message) (w : World) :
  existsb (same_key (id server) k) (active_alerts w) = false ->
  let n := clock_reads w in
  let row := mkActiveAlert (id server) k m (clock n) (clock (S n)) None None in
  let w1 := set_active_alerts (active_alerts w ++ [row]) (set_clock_reads (S (S n)) w) in
  _activate_alert clock server k m w
  = (Ok tt,
     set_outbox (outbox w ++ sent server k m false w)
       (set_dispatched (dispatched w ++ [mkDispatch (id server) k false]) w1)).
Proof.
  intros Hfresh n row w1.
  pose proof (not_live_of_no_key _ _ _ Hfresh) as Hlive.
  unfold _activate_alert, bind, select_live. rewrite Hlive. cbn [scalar_one_or_none ret].
  unfold now, insert_alert. cbn [clock_reads set_clock_reads active_alerts server_id alert_type].
  rewrite Hfresh.
  rewrite send_alert_notification_world.
  destruct w as [sv ch al ky di ob fr ic cr]. reflexivity.
Qed.

(** Activation when no row of the key is live but a cleared one is kept:
    the unique constraint refuses the new row. *)
Lemma activate_refused (server : ServerTarget) (k : string) (m : Message) (w : World) :
  live_rows (id server) k w = [] ->
  existsb (same_key (id server) k) (active_alerts w) = true ->
  _activate_alert clock server k m w
  = (Raise IntegrityError, set_clock_reads (S (S (clock_reads w))) w).
Proof.
  unfold live_rows. intros Hlive Hkey.
  unfold _activate_alert, bind, select_live. rewrite Hlive. cbn [scalar_one_or_none ret].
  unfold now, insert_alert. cbn [clock_reads set_clock_reads active_alerts server_id alert_type].
  rewrite Hkey. destruct w as [sv ch al ky di ob fr ic cr]. reflexivity.
Qed.

(** Activation when exactly one row of the key is live: its
    [last_updated_at] is set, nothing else. *)
Lemma activate_live (server : ServerTarget) (k : string) (m : Message) (w : World)
  (a : ActiveAlert) :
  live_rows (id server) k w = [a] ->
  _activate_alert clock server k m w
  = (Ok tt,
     set_active_alerts
       (map (fun r => if is_live_for (id server) k r then touch (clock (clock_reads w)) r else r)
          (active_alerts w))
       (set_clock_reads (S (clock_reads w)) w)).
Proof.
  unfold live_rows. intros Hlive.
  unfold _activate_alert, bind, select_live. rewrite Hlive. cbn [scalar_one_or_none ret].
  unfold now, update_live. destruct w as [sv ch al ky di ob fr ic cr]. reflexivity.
Qed.

Lemma clear_not_live (server : ServerTarget) (k by_ : string) (w : World) :
  live_rows (id server) k w = [] ->
  _clear_alert_if_active clock server k by_ w = (Ok tt, w).
Proof.
  unfold live_rows. intros Hlive.
  unfold _clear_alert_if_active, bind, select_live. now rewrite Hlive.
Qed.

Lemma clear_live (server : ServerTarget) (k by_ : string) (w : World) (a : ActiveAlert) :
  live_rows (id server) k w = [a] ->
  let n := clock_reads w in
  let w1 :=
    set_active_alerts
      (map (fun r => if is_live_for (id server) k r
                     then clear_row (clock n) by_ (clock (S n)) r else r)
         (active_alerts w))
      (set_clock_reads (S (S n)) w) in
  _clear_alert_if_active clock server k by_ w
  = (Ok tt,
     set_outbox (outbox w ++ sent server k (message a) true w)
       (set_dispatched (dispatched w ++ [mkDispatch (id server) k true]) w1)).
Proof.
  intros Hlive n w1. unfold live_rows in Hlive.
  unfold _clear_alert_if_active, bind, select_live. rewrite Hlive. cbn [scalar_one_or_none ret].
  unfold now, update_live. rewrite send_alert_notification_world.
  destruct w as [sv ch al ky di ob fr ic cr]. reflexivity.
Qed.

Lemma select_many (sid : Z) (k : string) (w : World) (a b : ActiveAlert) (l : list ActiveAlert) :
  live_rows sid k w = a :: b :: l ->
  select_live sid k w = (Raise MultipleResultsFound, w).
Proof. unfold live_rows, select_live. intros H. now rewrite H. Qed.

Lemma activate_many (server : ServerTarget) (k : string) (m : Message) (w : World)
  (a b : ActiveAlert) (l : list ActiveAlert) :
  live_rows (id server) k w = a :: b :: l ->
  _activate_alert clock server k m w = (Raise MultipleResultsFound, w).
Proof.
  intros H. unfold _activate_alert, bind. now rewrite (select_many _ _ _ _ _ _ H).
Qed.

Lemma clear_many (server : ServerTarget) (k by_ : string) (w : World)
  (a b : ActiveAlert) (l : list ActiveAlert) :
  live_rows (id server) k w = a :: b :: l ->
  _clear_alert_if_active clock server k by_ w = (Raise MultipleResultsFound, w).
Proof.
  intros H. unfold _clear_alert_if_active, bind. now rewrite (select_many _ _ _ _ _ _ H).
Qed.

(** X24.  Activation on a key that never had a row, live or cleared.
    Two activations in a row both return; the first adds one row, stamped
    with the two clock readings it takes, and calls the dispatcher once;
    the second adds no row, calls no dispatcher and delivers nothing: it
    leaves the one live row with its [first_triggered_at] and its message,
    and sets [last_updated_at] to the reading it takes, a later one when
    the clock goes forward. *)
Theorem activate_twice (server : ServerTarget) (k : string) (m1 m2 : Message) (w : World) :
  (forall a, In a (active_alerts w) -> same_key (id server) k a = false) ->
  let n := clock_reads w in
  exists w1 w2 a1 a2,
    _activate_alert clock server k m1 w = (Ok tt, w1) /\
    _activate_alert clock server k m2 w1 = (Ok tt, w2) /\
    live_rows (id server) k w1 = [a1] /\
    live_rows (id server) k w2 = [a2] /\
    active_alerts w1 = active_alerts w ++ [a1] /\
    active_alerts w2 = active_alerts w ++ [a2] /\
    first_triggered_at a1 = clock n /\
    last_updated_at a1 = clock (S n) /\
    first_triggered_at a2 = first_triggered_at a1 /\
    last_updated_at a2 = clock (S (S n)) /\
    message a2 = m1 /\
    ((forall i j, (i < j)%nat -> (clock i < clock j)%Z) ->
     (last_updated_at a1 < last_updated_at a2)%Z) /\
    dispatched w1 = dispatched w ++ [mkDispatch (id server) k false] /\
    outbox w1 = outbox w ++ sent server k m1 false w /\
    dispatched w2 = dispatched w1 /\
    outbox w2 = outbox w1.
Proof.
  intros Hfresh n.
  pose proof (existsb_false _ _ Hfresh) as Hkey.
  pose proof (activate_fresh server k m1 w Hkey) as H1. cbv zeta in H1.
  set (a1 := mkActiveAlert (id server) k m1 (clock n) (clock (S n)) None None) in *.
  set (w1 := set_outbox _ _) in H1.
  assert (Halerts1 : active_alerts w1 = active_alerts w ++ [a1]).
  { destruct w; reflexivity. }
  assert (Hreads1 : clock_reads w1 = S (S n)).
  { destruct w; reflexivity. }
  assert (Hself : is_live_for (id server) k a1 = true).
  { unfold is_live_for, a1. cbn. now rewrite Z.eqb_refl, String.eqb_refl. }
  assert (Hlive1 : live_rows (id server) k w1 = [a1]).
  { unfold live_rows. rewrite Halerts1, filter_app, (not_live_of_no_key _ _ _ Hkey).
    cbn. now rewrite Hself. }
  pose proof (activate_live server k m2 w1 a1 Hlive1) as H2.
  rewrite Hreads1, Halerts1, map_app in H2.
  rewrite (map_if_false (is_live_for (id server) k)) in H2.
  2:{ apply filter_nil_inv. exact (not_live_of_no_key _ _ _ Hkey). }
  cbn [map] in H2. rewrite Hself in H2.
  set (a2 := touch (clock (S (S n))) a1) in *.
  set (w2 := set_active_alerts _ _) in H2.
  assert (Halerts2 : active_alerts w2 = active_alerts w ++ [a2]).
  { destruct w; reflexivity. }
  exists w1, w2, a1, a2. repeat split; try assumption; try reflexivity.
  - unfold live_rows. rewrite Halerts2, filter_app, (not_live_of_no_key _ _ _ Hkey).
    cbn. assert (Ht : is_live_for (id server) k a2 = true) by exact Hself.
    now rewrite Ht.
  - intros Hclock. cbn. apply Hclock. lia.
Qed.

(** Calls of the store on one key, each from a session of its own. *)
Inductive Call :=
| Activate (m : Message)
| ClearIfActive (by_ : string).

Definition call (server : ServerTarget) (k : string) (c : Call) : M unit :=
  match c with
  | Activate m => _activate_alert clock server k m
  | ClearIfActive by_ => _clear_alert_if_active clock server k by_
  end.

Fixpoint calls (server : ServerTarget) (k : string) (cs : list Call) (w : World) : World :=
  match cs with
  | [] => w
  | c :: cs' => calls server k cs' (snd (call server k c w))
  end.





End WithClock.

(** The Fernet token of a webhook address under the key that the default
    [secret_key] of [core/config.py] gives, and that key on the tokens of
    the samples. *)
Definition ops_endpoint : string := "https://hooks.slack.com/services/T0/B0/ops".

Definition ops_token : string :=
  "gAAAAABlU_EAEBESExQVFhcYGRobHB0eH4nEnH9LkGNdZnMoZuHg_mD905lByzRHKtZM7s0Zb7AJgKsEopZNU86nfNFBV3SjvRCX3o6A20bSPXc4Df0OPnR5u0zBwkTltp_cPbggqbqT".

Definition default_key (token : string) : option string :=
  if String.eqb token ops_token then Some ops_endpoint else None.

Definition ops_channel : NotificationChannel :=
  mkNotificationChannel 7 "ops" "slack" ops_token true None.

(** A server with one channel and every alert enabled, and a world with
    nothing in it but that server and its channel. *)
Definition sample_server : ServerTarget :=
  mkServerTarget 1 "rack-1" "supermicro"
    (Some (mkFanDefaults (Some FanCurveFacts.zones_50_52_70)))
    [mkFanOverride "FAN1" (Some 1200%Z); mkFanOverride "FAN2" None]
    (Some [7%Z])
    (Some [("connectivity", true); ("memory_errors", true); ("temperature_critical", true)])
    15 None 0.

Definition sample_world : World :=
  mkWorld [sample_server] [ops_channel] [] default_key [] [] [] [] 0.

Lemma activate_twice_witness :
  (forall a, In a (active_alerts sample_world) ->
     same_key (id sample_server) "connectivity" a = false) /\
  exists w2 a2,
    live_rows 1 "connectivity" w2 = [a2] /\
    first_triggered_at a2 = 0%Z /\
    last_updated_at a2 = 2%Z /\
    List.length (outbox w2) = 1%nat.
Proof.
  assert (Hfresh : forall a, In a (active_alerts sample_world) ->
                     same_key (id sample_server) "connectivity" a = false)
    by (intros a []).
  split; [exact Hfresh|].
  destruct (activate_twice Z.of_nat sample_server "connectivity"
              (ServerUnreachable "timeout") (ServerUnreachable "timeout")
              sample_world Hfresh)
    as (w1 & w2 & a1 & a2 & _ & _ & _ & Hlive & _ & _ & Hf1 & _ & Hf2 & Hl2 & _ & _ & _
        & Ho1 & _ & Ho2).
  exists w2, a2. split; [exact Hlive|]. split; [now rewrite Hf2, Hf1|].
  split; [exact Hl2|]. now rewrite Ho2, Ho1.
Defined.

Definition alerted_world : World :=
  mkWorld [sample_server] [ops_channel]
    [mkActiveAlert 1 "connectivity" (ServerUnreachable "timeout") 5 5 None None]
    default_key [] [] [] [] 9.


(** A world after an outage and a recovery: the connectivity alert of the
    sample server was raised and cleared, and the table keeps its row. *)
Definition recovered_world : World :=
  mkWorld [sample_server] [ops_channel]
    [mkActiveAlert 1 "connectivity" (ServerUnreachable "timeout") 5 10 (Some 9%Z)
       (Some "auto")]
    default_key [] [] [] [] 11.

(** C2, where the code fails it.  On a key whose last alert was cleared
    the row of that alert is still in the table, and the unique constraint
    on (server, alert type) refuses the row of the next alert: the first
    activation raises [IntegrityError], and so does the second; no row is
    added, none is live, nothing is dispatched or delivered. *)
Theorem activate_after_clear_is_refused :
  live_rows 1 "connectivity" recovered_world = [] /\
  exists w1 w2,
    _activate_alert Z.of_nat sample_server "connectivity" (ServerUnreachable "timeout")
      recovered_world
    = (Raise IntegrityError, w1) /\
    _activate_alert Z.of_nat sample_server "connectivity" (ServerUnreachable "timeout") w1
    = (Raise IntegrityError, w2) /\
    active_alerts w2 = active_alerts recovered_world /\
    live_rows 1 "connectivity" w2 = [] /\
    dispatched w2 = [] /\
    outbox w2 = [].
Proof.
  split; [reflexivity|].
  eexists. eexists. split; [reflexivity|]. split; [reflexivity|].
  repeat split.
Qed.

End StoreFacts.

(** ** The alert checks of one cycle *)

Module CheckFacts.

Import PyStr Binary64 FanCurve Model Scheduler StoreFacts.

Local Open Scope string_scope.
Local Open Scope list_scope.

(** [w'] is [w] with more calls of ipmitool in its trace. *)
Definition only_ipmi (w w' : World) : Prop :=
  exists more, w' = set_ipmi_calls (ipmi_calls w ++ more) w.

Lemma only_ipmi_refl (w : World) : only_ipmi w w.
Proof. exists []. rewrite app_nil_r. destruct w; reflexivity. Qed.

Lemma only_ipmi_trans (w1 w2 w3 : World) :
  only_ipmi w1 w2 -> only_ipmi w2 w3 -> only_ipmi w1 w3.
Proof.
  intros [m1 H1] [m2 H2]. exists (m1 ++ m2). subst w3 w2.
  destruct w1; cbn. now rewrite app_assoc.
Qed.

Section WithOutside.

Variable bmc : nat -> list string -> Outcome.
Variable clock : nat -> Z.

(** The query of a check fails: none of its command lines gets an output
    from ipmitool. *)
Definition query_fails (k : CheckKind) : Prop :=
  forall n args text, In args (commands_of k) -> bmc n args <> Stdout text.

Lemma run_world (args : list string) (w : World) :
  snd (_run bmc args w) = set_ipmi_calls (ipmi_calls w ++ [args]) w.
Proof. unfold _run. destruct (bmc _ args); reflexivity. Qed.

Lemma run_only_ipmi (args : list string) (w : World) :
  only_ipmi w (snd (_run bmc args w)).
Proof. rewrite run_world. now exists [args]. Qed.

Lemma run_fails (args : list string) (w : World) :
  (forall n text, bmc n args <> Stdout text) ->
  exists e, fst (_run bmc args w) = Raise e.
Proof.
  intros H. unfold _run. destruct (bmc _ args) eqn:E; cbn; eauto.
  exfalso. exact (H _ _ E).
Qed.

(** A command that fails, with a fallback that returns the empty text or
    raises: the whole returns the empty text or raises. *)
Lemma or_else_fails (args : list string) (other : M string) (w : World) :
  (forall n text, bmc n args <> Stdout text) ->
  (forall w1, only_ipmi w w1 ->
     exists w2, only_ipmi w w2 /\
       (other w1 = (Ok "", w2) \/ exists e, other w1 = (Raise e, w2))) ->
  exists w2, only_ipmi w w2 /\
    (or_else (_run bmc args) other w = (Ok "", w2) \/
     exists e, or_else (_run bmc args) other w = (Raise e, w2)).
Proof.
  intros Hfail Hother. unfold or_else, try_except_else.
  destruct (run_fails args w Hfail) as [e He].
  pose proof (run_only_ipmi args w) as Hw.
  destruct (_run bmc args w) as [r w1]. cbn in He, Hw. subst r.
  destruct e; try (exists w1; split; [exact Hw | right; eexists; reflexivity]).
  exact (Hother w1 Hw).
Qed.

Lemma ret_empty (w w1 : World) :
  only_ipmi w w1 ->
  exists w2, only_ipmi w w2 /\
    (@ret string "" w1 = (Ok "", w2) \/ exists e, @ret string "" w1 = (Raise e, w2)).
Proof. intros H. exists w1. split; [exact H | left; reflexivity]. Qed.

Lemma query_fails_outcome (k : CheckKind) (w : World) :
  query_fails k ->
  exists w', only_ipmi w w' /\
    (query_of bmc k w = (Ok "", w') \/ exists e, query_of bmc k w = (Raise e, w')).
Proof.
  intros Hfail. unfold query_fails in Hfail.
  destruct k; cbn [query_of commands_of] in *;
    unfold query_memory_status, query_power_supply_status, query_chassis_intrusion,
           query_system_events, query_voltage_status.
  - apply or_else_fails; [intros n t; apply Hfail; now left | apply ret_empty].
  - apply or_else_fails; [intros n t; apply Hfail; now left | apply ret_empty].
  - apply or_else_fails; [intros n t; apply Hfail; now left|].
    intros w1 Hw1.
    destruct (or_else_fails ["sdr"; "get"; "Chassis Intrusion"] (ret "") w1) as [w2 [Hw2 H]].
    + intros n t. apply Hfail. right. now left.
    + intros w2 Hw2. exists w2. split; [exact Hw2 | left; reflexivity].
    + exists w2. split; [exact (only_ipmi_trans _ _ _ Hw1 Hw2) | exact H].
  - apply or_else_fails; [intros n t; apply Hfail; now left | apply ret_empty].
  - apply or_else_fails; [intros n t; apply Hfail; now left | apply ret_empty].
Qed.

(** What a clearing can do to the store: no row appears, no row becomes
    live, and the dispatcher is called for a cleared alert if at all. *)
Definition raises_no_alert (w w' : World) : Prop :=
  List.length (active_alerts w') = List.length (active_alerts w) /\
  (forall a, In a (active_alerts w') -> cleared_at a = None -> In a (active_alerts w)) /\
  (forall d, In d (dispatched w') -> In d (dispatched w) \/ dispatch_is_cleared d = true).

Lemma raises_no_alert_same (w w' : World) :
  active_alerts w' = active_alerts w -> dispatched w' = dispatched w ->
  raises_no_alert w w'.
Proof.
  intros Ha Hd. unfold raises_no_alert. rewrite Ha, Hd. repeat split; auto.
Qed.

Lemma clear_raises_no_alert (server : ServerTarget) (k by_ : string) (w : World) :
  raises_no_alert w (snd (_clear_alert_if_active clock server k by_ w)).
Proof.
  destruct (live_rows (id server) k w) as [|a [|b l]] eqn:Hlive.
  - rewrite (clear_not_live clock server k by_ w Hlive). now apply raises_no_alert_same.
  - rewrite (clear_live clock server k by_ w a Hlive). cbn [snd].
    unfold raises_no_alert. destruct w as [sv ch al ky di ob fr ic cr].
    cbn [active_alerts dispatched set_outbox set_dispatched set_active_alerts
         set_clock_reads clock_reads servers notification_channels outbox fan_requests
         ipmi_calls].
    split; [apply length_map|]. split.
    + intros r Hr Hnone. apply in_map_iff in Hr. destruct Hr as [r0 [Hr0 Hin]].
      destruct (is_live_for (id server) k r0).
      * subst r. discriminate Hnone.
      * now subst r.
    + intros d Hd. apply in_app_or in Hd. destruct Hd as [Hd | [Hd | []]].
      * now left.
      * subst d. now right.
  - rewrite (clear_many clock server k by_ w a b l Hlive). now apply raises_no_alert_same.
Qed.

Lemma raises_no_alert_only_ipmi (w w0 w' : World) :
  only_ipmi w w0 -> raises_no_alert w0 w' -> raises_no_alert w w'.
Proof.
  intros [more Hm] H. subst w0. destruct w; exact H.
Qed.

Lemma raises_no_alert_refl (w : World) : raises_no_alert w w.
Proof. now apply raises_no_alert_same. Qed.

Lemma raises_no_alert_trans (w1 w2 w3 : World) :
  raises_no_alert w1 w2 -> raises_no_alert w2 w3 -> raises_no_alert w1 w3.
Proof.
  intros (L1 & A1 & D1) (L2 & A2 & D2). split; [congruence|]. split.
  - intros a Ha Hnone. apply A1; [now apply A2 | exact Hnone].
  - intros d Hd. destruct (D2 d Hd) as [H | H]; [now apply D1 | now right].
Qed.

(** What a clearing can raise: the row it looks for is not the only one. *)
Lemma clear_raises (server : ServerTarget) (k by_ : string) (w w' : World) (e : Exn) :
  _clear_alert_if_active clock server k by_ w = (Raise e, w') -> e = MultipleResultsFound.
Proof.
  destruct (live_rows (id server) k w) as [|a [|b l]] eqn:Hlive.
  - rewrite (clear_not_live clock server k by_ w Hlive). discriminate.
  - rewrite (clear_live clock server k by_ w a Hlive). discriminate.
  - rewrite (clear_many clock server k by_ w a b l Hlive). congruence.
Qed.

(** What a query can raise: ipmitool did not run.  An error that ipmitool
    reports is caught in [ipmi.py]. *)
Lemma or_else_raises (args : list string) (other : M string) (w w' : World) (e : Exn) :
  (forall w1 w2 e', other w1 = (Raise e', w2) -> exists reason, e' = OtherException reason) ->
  or_else (_run bmc args) other w = (Raise e, w') -> exists reason, e = OtherException reason.
Proof.
  intros Hother. unfold or_else, try_except_else, _run.
  destruct (bmc _ args).
  - discriminate.
  - apply Hother.
  - intros H. injection H as <- _. eauto.
Qed.

Lemma query_raises (k : CheckKind) (w w' : World) (e : Exn) :
  query_of bmc k w = (Raise e, w') -> exists reason, e = OtherException reason.
Proof.
  assert (Hret : forall w1 w2 e', @ret string "" w1 = (Raise e', w2) ->
                   exists reason, e' = OtherException reason) by discriminate.
  destruct k; cbn [query_of];
    unfold query_memory_status, query_power_supply_status, query_chassis_intrusion,
           query_system_events, query_voltage_status;
    try (apply or_else_raises; exact Hret).
  apply or_else_raises. intros w1 w2 e'. apply or_else_raises. exact Hret.
Qed.

Lemma log_and_pass_other (server : ServerTarget) (e : Exn) (w : World) :
  e <> IntegrityError -> e <> PendingRollbackError ->
  log_and_pass server e w = (Ok tt, w).
Proof. intros H1 H2. destruct e; try reflexivity; congruence. Qed.

Lemma log_and_pass_refused (server : ServerTarget) (e : Exn) (w : World) :
  e = IntegrityError \/ e = PendingRollbackError ->
  log_and_pass server e w = (Raise PendingRollbackError, w).
Proof. intros [-> | ->]; reflexivity. Qed.

(** An enabled check whose query fails. *)
Lemma failed_check_returns (k : CheckKind) (server : ServerTarget) (w1 : World) :
  _is_alert_enabled server (alert_type_of k) = true -> query_fails k ->
  exists w0 w',
    only_ipmi w1 w0 /\
    guarded_check bmc clock k server w1 = (Ok tt, w') /\
    (w' = w0 \/
     w' = snd (_clear_alert_if_active clock server (alert_type_of k) "auto" w0)) /\
    raises_no_alert w1 w'.
Proof.
  intros Hen Hfail.
  destruct (query_fails_outcome k w1 Hfail) as [w0 [Hw0 Hq]].
  exists w0. unfold guarded_check. rewrite Hen.
  unfold try_except_else, check, bind.
  destruct Hq as [Hq | [e Hq]]; rewrite Hq.
  - assert (Hc : condition_present k "" = false) by (destruct k; reflexivity).
    rewrite Hc.
    exists (snd (_clear_alert_if_active clock server (alert_type_of k) "auto" w0)).
    split; [exact Hw0|]. split.
    + destruct (_clear_alert_if_active clock server (alert_type_of k) "auto" w0)
        as [[[]|e] w'] eqn:Hclr; [reflexivity|].
      rewrite (clear_raises _ _ _ _ _ _ Hclr). reflexivity.
    + split; [now right|].
      apply (raises_no_alert_only_ipmi w1 w0); [exact Hw0|].
      apply clear_raises_no_alert.
  - destruct (query_raises k w1 w0 e Hq) as [reason ->].
    exists w0. split; [exact Hw0|]. split; [reflexivity|]. split; [now left|].
    apply (raises_no_alert_only_ipmi w1 w0); [exact Hw0|].
    apply raises_no_alert_refl.
Qed.

(** C4. An enabled check whose query fails returns: ipmitool got the
    command lines that the query tries, and the check then did nothing more
    or ran [_clear_alert_if_active] as for a condition that is absent; it
    adds no row, makes no row live and calls the dispatcher for no alert;
    and whatever follows the check in the cycle runs, from the world the
    check leaves.  When the query of every enabled check fails, the whole
    evaluation returns and has raised no alert. *)
Theorem failed_query_is_swallowed (server : ServerTarget) :
  (forall (k : CheckKind) (w1 : World),
     _is_alert_enabled server (alert_type_of k) = true -> query_fails k ->
     exists w0 w',
       only_ipmi w1 w0 /\
       guarded_check bmc clock k server w1 = (Ok tt, w') /\
       (w' = w0 \/
        w' = snd (_clear_alert_if_active clock server (alert_type_of k) "auto" w0)) /\
       raises_no_alert w1 w' /\
       forall rest : M unit,
         bind (guarded_check bmc clock k server) (fun _ => rest) w1 = rest w') /\
  (forall w : World,
     (forall k, _is_alert_enabled server (alert_type_of k) = true -> query_fails k) ->
     exists w', _check_alerts bmc clock server w = (Ok tt, w') /\ raises_no_alert w w').
Proof.
  split.
  - intros k w1 Hen Hfail.
    destruct (failed_check_returns k server w1 Hen Hfail) as (w0 & w' & H1 & H2 & H3 & H4).
    exists w0, w'. repeat (split; [assumption|]).
    intros rest. unfold bind. now rewrite H2.
  - intros w Hall.
    assert (Hg : forall k w1, exists w',
              guarded_check bmc clock k server w1 = (Ok tt, w') /\ raises_no_alert w1 w').
    { intros k w1. destruct (_is_alert_enabled server (alert_type_of k)) eqn:Hen.
      - destruct (failed_check_returns k server w1 Hen (Hall k Hen))
          as (w0 & w' & _ & H2 & _ & H4).
        now exists w'.
      - exists w1. unfold guarded_check. rewrite Hen. split; [reflexivity|].
        apply raises_no_alert_refl. }
    unfold _check_alerts. destruct (no_channels server).
    { exists w. split; [reflexivity | apply raises_no_alert_refl]. }
    destruct (Hg MemoryErrors w) as (w1 & E1 & R1).
    destruct (Hg PowerFailure w1) as (w2 & E2 & R2).
    destruct (Hg Intrusion w2) as (w3 & E3 & R3).
    destruct (Hg VoltageIssues w3) as (w4 & E4 & R4).
    destruct (Hg SystemEvents w4) as (w5 & E5 & R5).
    exists w5. unfold bind. rewrite E1, E2, E3, E4, E5. split; [reflexivity|].
    eauto using raises_no_alert_trans.
Qed.

(** C10. For a server with no notification channel, [_check_alerts]
    returns at once: the world is the same, so no command line went to
    ipmitool, no row was added or changed and nothing was dispatched,
    whatever the alert configuration enables. *)
Theorem check_alerts_without_channels (server : ServerTarget) (w : World) :
  notification_channel_ids server = None \/ notification_channel_ids server = Some [] ->
  _check_alerts bmc clock server w = (Ok tt, w).
Proof.
  intros H. unfold _check_alerts, no_channels. now destruct H as [-> | ->].
Qed.

End WithOutside.

(** A BMC that answers no command line. *)
Definition unreachable (n : nat) (args : list string) : Outcome :=
  Failed "Error: Unable to establish IPMI v2 / RMCP+ session".

Lemma failed_query_is_swallowed_witness :
  _is_alert_enabled sample_server (alert_type_of MemoryErrors) = true /\
  query_fails unreachable MemoryErrors /\
  exists w',
    guarded_check unreachable Z.of_nat MemoryErrors sample_server alerted_world = (Ok tt, w') /\
    raises_no_alert alerted_world w'.
Proof.
  assert (Hen : _is_alert_enabled sample_server (alert_type_of MemoryErrors) = true)
    by reflexivity.
  assert (Hfail : query_fails unreachable MemoryErrors).
  { intros n args text _ H. discriminate H. }
  split; [exact Hen|]. split; [exact Hfail|].
  destruct (failed_query_is_swallowed unreachable Z.of_nat sample_server) as [H _].
  destruct (H MemoryErrors alerted_world Hen Hfail) as (w0 & w' & _ & Hg & _ & Hno & _).
  exists w'. split; [exact Hg | exact Hno].
Defined.

Definition muted_server : ServerTarget :=
  mkServerTarget 2 "rack-2" "supermicro" None [] (Some [])
    (Some [("memory_errors", true); ("power_failure", true); ("intrusion", true);
           ("voltage_issues", true); ("system_events", true)])
    15 None 0.

Lemma check_alerts_without_channels_witness :
  (notification_channel_ids muted_server = None \/
   notification_channel_ids muted_server = Some []) /\
  _check_alerts unreachable Z.of_nat muted_server alerted_world = (Ok tt, alerted_world).
Proof.
  assert (H : notification_channel_ids muted_server = None \/
              notification_channel_ids muted_server = Some []) by (right; reflexivity).
  split; [exact H|].
  exact (check_alerts_without_channels unreachable Z.of_nat muted_server alerted_world H).
Defined.

End CheckFacts.

(** ** Fan control in one cycle *)

Module FanControlFacts.

Import PyStr Binary64 FanCurve Ipmi Model Scheduler.

Local Open Scope string_scope.
Local Open Scope list_scope.

Section WithBmc.

Variable bmc : nat -> list string -> Outcome.

Lemma set_fan_speed_requests (server : ServerTarget) (rpm : Z) (fan : option string)
  (w : World) :
  fan_requests (snd (set_fan_speed bmc server rpm fan w)) = fan_requests w ++ [(rpm, fan)].
Proof.
  unfold set_fan_speed. destruct (_build_fan_command (vendor server) rpm fan).
  - unfold raw_command. rewrite CheckFacts.run_world. destruct w; reflexivity.
  - destruct w; reflexivity.
Qed.

(** The fan control of a cycle ends where it reads the overrides: with a
    target it asks for the base rpm and raises, for want of the overrides
    if the request itself went through; without a target it does
    nothing. *)
Lemma fan_control_outcome (server : ServerTarget) (cpu_temp : PyFloat) (w : World) :
  match _calculate_target_rpm (fan_defaults server) cpu_temp with
  | None => fan_control bmc server cpu_temp w = (Ok tt, w)
  | Some base_rpm =>
      match set_fan_speed bmc server base_rpm None w with
      | (Ok _, w1) => fan_control bmc server cpu_temp w = (Raise MissingGreenlet, w1)
      | (Raise e, w1) => fan_control bmc server cpu_temp w = (Raise e, w1)
      end
  end.
Proof.
  unfold fan_control. destruct (_calculate_target_rpm _ _) as [base_rpm|]; [|reflexivity].
  unfold bind. destruct (set_fan_speed bmc server base_rpm None w) as [[text|e] w1];
    reflexivity.
Qed.

End WithBmc.

(** A BMC whose sensors read 48 degrees and that takes every command. *)
Definition reads_48 (n : nat) (args : list string) : Outcome :=
  Stdout "CPU Temp         | 04h | ok  |  7.1 | 48 degrees C".

(** C6, where the code fails it.  The sample server has the zones 50, 52
    and 70 degrees and an override of 1200 rpm for FAN1; at 48 degrees, below
    the second threshold, the override is to be applied.  The cycle asks
    for the base rpm of 1800 for all fans and then reads
    [server.fan_overrides], which raises [MissingGreenlet]: FAN1 is asked
    for nothing.  The poll takes the exception for a failure of the
    server: it raises the connectivity alert and does not stamp
    [last_successful_poll]. *)
Theorem override_is_never_requested :
  let out := fan_control reads_48 StoreFacts.sample_server (Fin 48) StoreFacts.sample_world in
  fan_overrides StoreFacts.sample_server
  = [mkFanOverride "FAN1" (Some 1200%Z); mkFanOverride "FAN2" None] /\
  _get_first_zone_threshold (fan_defaults StoreFacts.sample_server) = Some (Fin 52) /\
  fst out = Raise MissingGreenlet /\
  fan_requests (snd out) = [(1800%Z, None)] /\
  exists w' a,
    _poll_server reads_48 Z.of_nat 1 StoreFacts.sample_world = (Ok tt, w') /\
    fan_requests w' = [(1800%Z, None)] /\
    active_alerts w' = [a] /\
    alert_type a = "connectivity" /\
    message a = UnexpectedError MissingGreenlet /\
    cleared_at a = None /\
    servers w' = servers StoreFacts.sample_world.
Proof.
  cbv zeta. split; [reflexivity|]. split; [vm_compute; reflexivity|].
  split; [vm_compute; reflexivity|]. split; [vm_compute; reflexivity|].
  eexists. eexists. split; [vm_compute; reflexivity|].
  repeat split.
Qed.

End FanControlFacts.

(** ** The staleness monitor and the connectivity alert *)

Module StalenessFacts.

Import PyStr Binary64 FanCurve Parser Ipmi Model Scheduler StoreFacts CheckFacts.

Local Open Scope string_scope.
Local Open Scope list_scope.
Local Open Scope Z_scope.

(** The rows of one server and alert type, live or cleared. *)
Definition rows_of (sid : Z) (k : string) (w : World) : list ActiveAlert :=
  filter (same_key sid k) (active_alerts w).

Definition not_cleared (a : ActiveAlert) : bool :=
  match cleared_at a with None => true | Some _ => false end.

(** The server has at most one row of the alert type, a live one. *)
Definition clean (sid : Z) (k : string) (w : World) : Prop :=
  rows_of sid k w = [] \/ exists a, rows_of sid k w = [a] /\ cleared_at a = None.

Definition threshold_of (server : ServerTarget) : Z :=
  minutes (if offline_alert_threshold_minutes server =? 0 then 15
           else offline_alert_threshold_minutes server).

Definition elapsed (now_ : Z) (server : ServerTarget) : Z :=
  match last_successful_poll server with
  | Some last_poll => now_ - last_poll
  | None => now_ - created_at server
  end.

Definition monitored (server : ServerTarget) : Prop :=
  _is_alert_enabled server "connectivity" = true /\ no_channels server = false.

Lemma live_rows_of (sid : Z) (k : string) (w : World) :
  live_rows sid k w = filter not_cleared (rows_of sid k w).
Proof.
  unfold live_rows, rows_of. induction (active_alerts w) as [|a l IH]; [reflexivity|].
  cbn [filter]. unfold is_live_for at 1. fold (not_cleared a).
  destruct (same_key sid k a) eqn:E.
  - unfold same_key in E. rewrite E. cbn [filter andb].
    destruct (not_cleared a); now rewrite IH.
  - unfold same_key in E. rewrite E. cbn [andb]. exact IH.
Qed.

Lemma is_live_rows (sid : Z) (k : string) (w w' : World) :
  rows_of sid k w' = rows_of sid k w -> is_live sid k w' = is_live sid k w.
Proof. intros H. unfold is_live. now rewrite !live_rows_of, H. Qed.

Lemma rows_nil_no_key (sid : Z) (k : string) (w : World) :
  rows_of sid k w = [] -> existsb (same_key sid k) (active_alerts w) = false.
Proof.
  intros H. apply existsb_false. now apply filter_nil_inv.
Qed.

Lemma same_key_eq (sid sid' : Z) (k k' : string) (a : ActiveAlert) :
  same_key sid k a = true -> same_key sid' k' a = true -> sid = sid' /\ k = k'.
Proof.
  unfold same_key. intros H H'.
  apply andb_true_iff in H. apply andb_true_iff in H'.
  destruct H as [H1 H2], H' as [H1' H2'].
  apply Z.eqb_eq in H1, H1'. apply String.eqb_eq in H2, H2'. split; congruence.
Qed.

Definition keeps_key (f : ActiveAlert -> ActiveAlert) : Prop :=
  forall a, server_id (f a) = server_id a /\ alert_type (f a) = alert_type a.

Lemma touch_keeps_key (t : Z) : keeps_key (touch t).
Proof. intros a. split; reflexivity. Qed.

Lemma clear_row_keeps_key (t1 : Z) (by_ : string) (t2 : Z) : keeps_key (clear_row t1 by_ t2).
Proof. intros a. split; reflexivity. Qed.

(** A change of rows that keeps their keys commutes with the selection of
    the rows of a key. *)
Lemma filter_key_map (sid : Z) (k : string) (p : ActiveAlert -> bool)
  (f : ActiveAlert -> ActiveAlert) (l : list ActiveAlert) :
  keeps_key f ->
  filter (same_key sid k) (map (fun a => if p a then f a else a) l)
  = map (fun a => if p a then f a else a) (filter (same_key sid k) l).
Proof.
  intros Hf. induction l as [|a l IH]; [reflexivity|].
  cbn [map filter].
  assert (Hk : same_key sid k (if p a then f a else a) = same_key sid k a).
  { destruct (p a); [|reflexivity]. unfold same_key. destruct (Hf a) as [-> ->].
    reflexivity. }
  rewrite Hk. destruct (same_key sid k a); cbn [map]; now rewrite IH.
Qed.

Lemma rows_after_update (sid sid' : Z) (k k' : string) (f : ActiveAlert -> ActiveAlert)
  (l : list ActiveAlert) :
  keeps_key f -> (sid', k') <> (sid, k) ->
  filter (same_key sid' k') (map (fun a => if is_live_for sid k a then f a else a) l)
  = filter (same_key sid' k') l.
Proof.
  intros Hf Hne. rewrite (filter_key_map sid' k' _ f l Hf).
  apply map_if_false. intros a Ha. apply filter_In in Ha. destruct Ha as [_ Ha].
  destruct (is_live_for sid k a) eqn:E; [|reflexivity].
  apply is_live_same_key in E. destruct (same_key_eq _ _ _ _ _ E Ha). subst.
  congruence.
Qed.

Lemma other_key_row (sid sid' : Z) (k k' : string) (a : ActiveAlert) :
  server_id a = sid -> alert_type a = k -> (sid', k') <> (sid, k) ->
  same_key sid' k' a = false.
Proof.
  intros Hs Hk Hne. unfold same_key. subst.
  destruct (Z.eqb_spec (server_id a) sid'); [|reflexivity].
  destruct (String.eqb_spec (alert_type a) k'); [|reflexivity].
  subst. congruence.
Qed.

Section WithOutside.

Variable bmc : nat -> list string -> Outcome.
Variable clock : nat -> Z.

(** An activation or a clearing of one key leaves the rows of every other
    key as they are, however it ends. *)
Lemma activate_frame (server : ServerTarget) (k : string) (m : Message) (w : World)
  (sid' : Z) (k' : string) :
  (sid', k') <> (id server, k) ->
  rows_of sid' k' (snd (_activate_alert clock server k m w)) = rows_of sid' k' w.
Proof.
  intros Hne. unfold rows_of.
  destruct (live_rows (id server) k w) as [|a [|b l]] eqn:Hlive.
  - destruct (existsb (same_key (id server) k) (active_alerts w)) eqn:Hkey.
    + rewrite (activate_refused clock server k m w Hlive Hkey). destruct w; reflexivity.
    + rewrite (activate_fresh clock server k m w Hkey). cbn [snd].
      match goal with
      | |- filter ?p (active_alerts (set_outbox ?o (set_dispatched ?d (set_active_alerts ?al ?ww)))) = _ =>
          replace (active_alerts (set_outbox o (set_dispatched d (set_active_alerts al ww))))
            with al by (destruct w; reflexivity)
      end.
      rewrite filter_app. cbn [filter].
      rewrite (other_key_row (id server) sid' k k') by (reflexivity || exact Hne).
      apply app_nil_r.
  - rewrite (activate_live clock server k m w a Hlive). cbn [snd].
    match goal with
    | |- filter ?p (active_alerts (set_active_alerts ?al ?ww)) = _ =>
        replace (active_alerts (set_active_alerts al ww)) with al by (destruct w; reflexivity)
    end.
    apply rows_after_update; [apply touch_keeps_key | exact Hne].
  - now rewrite (activate_many clock server k m w a b l Hlive).
Qed.

Lemma clear_frame (server : ServerTarget) (k by_ : string) (w : World)
  (sid' : Z) (k' : string) :
  (sid', k') <> (id server, k) ->
  rows_of sid' k' (snd (_clear_alert_if_active clock server k by_ w)) = rows_of sid' k' w.
Proof.
  intros Hne. unfold rows_of.
  destruct (live_rows (id server) k w) as [|a [|b l]] eqn:Hlive.
  - now rewrite (clear_not_live clock server k by_ w Hlive).
  - rewrite (clear_live clock server k by_ w a Hlive). cbn [snd].
    match goal with
    | |- filter ?p (active_alerts (set_outbox ?o (set_dispatched ?d (set_active_alerts ?al ?ww)))) = _ =>
        replace (active_alerts (set_outbox o (set_dispatched d (set_active_alerts al ww))))
          with al by (destruct w; reflexivity)
    end.
    apply rows_after_update; [apply clear_row_keeps_key | exact Hne].
  - now rewrite (clear_many clock server k by_ w a b l Hlive).
Qed.

Lemma clean_live_rows (sid : Z) (k : string) (w : World) :
  clean sid k w -> live_rows sid k w = rows_of sid k w.
Proof.
  intros [H | [a [H Ha]]]; rewrite live_rows_of, H; [reflexivity|].
  cbn. unfold not_cleared. now rewrite Ha.
Qed.

(** On a clean key an activation returns and leaves the key live. *)
Lemma activate_clean (server : ServerTarget) (k : string) (m : Message) (w : World) :
  clean (id server) k w ->
  exists w', _activate_alert clock server k m w = (Ok tt, w') /\
             is_live (id server) k w' = true.
Proof.
  intros Hclean. pose proof (clean_live_rows _ _ _ Hclean) as Hlive.
  destruct Hclean as [H | [a [H Ha]]]; rewrite H in Hlive.
  - pose proof (activate_fresh clock server k m w (rows_nil_no_key _ _ _ H)) as Hact.
    cbv zeta in Hact. eexists. split; [exact Hact|].
    unfold is_live, live_rows.
    match goal with
    | |- context [active_alerts (set_outbox ?o (set_dispatched ?d (set_active_alerts ?al ?ww)))] =>
        replace (active_alerts (set_outbox o (set_dispatched d (set_active_alerts al ww))))
          with al by (destruct w; reflexivity)
    end.
    rewrite filter_app. fold (live_rows (id server) k w). rewrite Hlive.
    cbn [app filter]. unfold is_live_for. cbn [server_id alert_type cleared_at].
    now rewrite Z.eqb_refl, String.eqb_refl.
  - pose proof (activate_live clock server k m w a Hlive) as Hact.
    eexists. split; [exact Hact|].
    unfold is_live, live_rows.
    match goal with
    | |- context [active_alerts (set_active_alerts ?al ?ww)] =>
        replace (active_alerts (set_active_alerts al ww)) with al by (destruct w; reflexivity)
    end.
    rewrite filter_after_touch. fold (live_rows (id server) k w). now rewrite Hlive.
Qed.

(** On a clean key a clearing returns and leaves the key not live. *)
Lemma clear_clean (server : ServerTarget) (k by_ : string) (w : World) :
  clean (id server) k w ->
  exists w', _clear_alert_if_active clock server k by_ w = (Ok tt, w') /\
             is_live (id server) k w' = false.
Proof.
  intros Hclean. pose proof (clean_live_rows _ _ _ Hclean) as Hlive.
  destruct Hclean as [H | [a [H Ha]]]; rewrite H in Hlive.
  - exists w. split; [now apply clear_not_live|]. unfold is_live. now rewrite Hlive.
  - pose proof (clear_live clock server k by_ w a Hlive) as Hc. cbv zeta in Hc.
    eexists. split; [exact Hc|].
    unfold is_live, live_rows.
    match goal with
    | |- context [active_alerts (set_outbox ?o (set_dispatched ?d (set_active_alerts ?al ?ww)))] =>
        replace (active_alerts (set_outbox o (set_dispatched d (set_active_alerts al ww))))
          with al by (destruct w; reflexivity)
    end.
    now rewrite filter_after_clear.
Qed.

(** *** Calls that leave a part of the world alone *)

Definition keeps {A X} (part : World -> X) (c : M A) : Prop :=
  forall w, part (snd (c w)) = part w.

Lemma keeps_ret {A X} (part : World -> X) (a : A) : keeps part (ret a).
Proof. intros w. reflexivity. Qed.

Lemma keeps_raise {A X} (part : World -> X) (e : Exn) : keeps part (@raise A e).
Proof. intros w. reflexivity. Qed.

Lemma keeps_bind {A B X} (part : World -> X) (c : M A) (f : A -> M B) :
  keeps part c -> (forall a, keeps part (f a)) -> keeps part (bind c f).
Proof.
  intros Hc Hf w. unfold bind. specialize (Hc w).
  destruct (c w) as [[a|e] w1]; cbn [snd] in *.
  - now rewrite (Hf a w1).
  - exact Hc.
Qed.

Lemma keeps_try {A B X} (part : World -> X) (c : M A) (h : Exn -> M B) (o : A -> M B) :
  keeps part c -> (forall e, keeps part (h e)) -> (forall a, keeps part (o a)) ->
  keeps part (try_except_else c h o).
Proof.
  intros Hc Hh Ho w. unfold try_except_else. specialize (Hc w).
  destruct (c w) as [[a|e] w1]; cbn [snd] in *.
  - now rewrite (Ho a w1).
  - now rewrite (Hh e w1).
Qed.

Lemma keeps_or_else {X} (part : World -> X) (c other : M string) :
  keeps part c -> keeps part other -> keeps part (or_else c other).
Proof.
  intros Hc Ho. apply keeps_try; [exact Hc | | intros a; apply keeps_ret].
  intros e. destruct e; try apply keeps_raise. exact Ho.
Qed.

(** A part of the world that the calls of ipmitool, the clock and the
    table of servers have no hand in. *)
Definition apart {X} (part : World -> X) : Prop :=
  (forall l w, part (set_ipmi_calls l w) = part w) /\
  (forall l w, part (set_servers l w) = part w) /\
  (forall n w, part (set_clock_reads n w) = part w).

Lemma keeps_run {X} (part : World -> X) (args : list string) :
  apart part -> keeps part (_run bmc args).
Proof. intros [H _] w. rewrite run_world. apply H. Qed.

Lemma keeps_query_of {X} (part : World -> X) (c : CheckKind) :
  apart part -> keeps part (query_of bmc c).
Proof.
  intros Hp. destruct c; cbn [query_of];
    repeat (apply keeps_or_else || apply keeps_run || apply keeps_ret); exact Hp.
Qed.

Lemma keeps_now {X} (part : World -> X) : apart part -> keeps part (now clock).
Proof. intros [_ [_ H]] w. apply H. Qed.

Lemma keeps_stamp {X} (part : World -> X) (sid t : Z) :
  apart part -> keeps part (stamp_last_successful_poll sid t).
Proof. intros [_ [H _]] w. apply H. Qed.

Lemma keeps_name_in_handler {X} (part : World -> X) (server : ServerTarget) (e : Exn) :
  keeps part (name_in_handler server e).
Proof. intros w. now destruct e. Qed.

Lemma keeps_log_and_pass {X} (part : World -> X) (server : ServerTarget) (e : Exn) :
  keeps part (log_and_pass server e).
Proof. intros w. now destruct e. Qed.

(** The checks keep a part that the five alert types keep. *)
Lemma keeps_check_alerts {X} (part : World -> X) (server : ServerTarget) :
  apart part ->
  (forall c m, keeps part (_activate_alert clock server (alert_type_of c) m)) ->
  (forall c by_, keeps part (_clear_alert_if_active clock server (alert_type_of c) by_)) ->
  keeps part (_check_alerts bmc clock server).
Proof.
  intros Hp Hact Hclr.
  assert (Hg : forall c, keeps part (guarded_check bmc clock c server)).
  { intros c. unfold guarded_check.
    destruct (_is_alert_enabled server (alert_type_of c)); [|apply keeps_ret].
    apply keeps_try; [|intros e; apply keeps_log_and_pass|intros a; apply keeps_ret].
    unfold check. apply keeps_bind; [now apply keeps_query_of|]. intros status.
    destruct (condition_present c status); [apply Hact | apply Hclr]. }
  unfold _check_alerts. destruct (no_channels server); [apply keeps_ret|].
  repeat (apply keeps_bind; [apply Hg | intros _]). apply Hg.
Qed.

(** *** The rows of an alert type *)

Lemma rows_apart (sid : Z) (k : string) : apart (rows_of sid k).
Proof. repeat split; intros x w; destruct w; reflexivity. Qed.

Lemma keeps_activate (k k' : string) (sid : Z) (server : ServerTarget) (m : Message) :
  k' <> k -> keeps (rows_of sid k) (_activate_alert clock server k' m).
Proof. intros Hne w. apply activate_frame. congruence. Qed.

Lemma keeps_clear (k k' : string) (sid : Z) (server : ServerTarget) (by_ : string) :
  k' <> k -> keeps (rows_of sid k) (_clear_alert_if_active clock server k' by_).
Proof. intros Hne w. apply clear_frame. congruence. Qed.

Lemma keeps_set_fan_speed (k : string) (sid : Z) (server : ServerTarget) (rpm : Z)
  (fan : option string) : keeps (rows_of sid k) (set_fan_speed bmc server rpm fan).
Proof.
  intros w. unfold set_fan_speed.
  destruct (_build_fan_command (vendor server) rpm fan).
  - unfold raw_command. rewrite run_world. destruct w; reflexivity.
  - destruct w; reflexivity.
Qed.

Lemma keeps_read_relationship {A X} (part : World -> X) (how : Loading) (rows : list A) :
  keeps part (read_relationship how rows).
Proof. intros w. now destruct how. Qed.

Lemma keeps_apply_overrides (k : string) (sid : Z) (server : ServerTarget)
  (cpu_temp : PyFloat) (base_rpm : Z) (threshold : option PyFloat)
  (overrides : list FanOverride) :
  keeps (rows_of sid k) (apply_overrides bmc server cpu_temp base_rpm threshold overrides).
Proof.
  induction overrides as [|o rest IH]; cbn [apply_overrides]; [apply keeps_ret|].
  destruct (is_empty (fan_identifier o)); [exact IH|].
  destruct (min_rpm o); [|exact IH].
  apply keeps_bind; [|intros _; exact IH].
  destruct (match threshold with Some t => le cpu_temp t | None => false end);
    apply keeps_set_fan_speed.
Qed.

Lemma keeps_fan_control (k : string) (sid : Z) (server : ServerTarget) (cpu_temp : PyFloat) :
  keeps (rows_of sid k) (fan_control bmc server cpu_temp).
Proof.
  unfold fan_control. destruct (_calculate_target_rpm _ _); [|apply keeps_ret].
  apply keeps_bind; [apply keeps_set_fan_speed | intros _].
  apply keeps_bind; [apply keeps_read_relationship | intros overrides].
  apply keeps_apply_overrides.
Qed.

Lemma keeps_poll_body (sid : Z) (server : ServerTarget) :
  keeps (rows_of sid "connectivity") (poll_body bmc clock server).
Proof.
  pose proof (rows_apart sid "connectivity") as Hp.
  unfold poll_body, query_temperatures, query_fans.
  apply keeps_bind; [now apply keeps_run | intros temperatures].
  apply keeps_bind; [now apply keeps_run | intros fans].
  apply keeps_bind.
  - destruct (_parse_cpu_temperature temperatures) as [cpu_temp|]; [|apply keeps_ret].
    apply keeps_bind; [apply keeps_fan_control | intros _].
    unfold critical_temperature_check.
    destruct (_is_alert_enabled server "temperature_critical"); [|apply keeps_ret].
    destruct (ge_Q cpu_temp 80); [apply keeps_activate | apply keeps_clear]; discriminate.
  - intros _. apply keeps_bind.
    + apply keeps_check_alerts; [exact Hp | |]; intros c x;
        [apply keeps_activate | apply keeps_clear]; destruct c; discriminate.
    + intros _. apply keeps_bind; [now apply keeps_now | intros t].
      now apply keeps_stamp.
Qed.

Lemma clean_rows (sid : Z) (k : string) (w w' : World) :
  rows_of sid k w' = rows_of sid k w -> clean sid k w -> clean sid k w'.
Proof. unfold clean. intros H. now rewrite H. Qed.

(** *** One turn of the monitor *)

(** What a run of the monitor leaves for one server, [before] being its
    connectivity rows when the run starts. *)
Definition settled (now_ : Z) (server : ServerTarget) (before : list ActiveAlert)
  (w' : World) : Prop :=
  monitored server ->
  (threshold_of server <= elapsed now_ server ->
   is_live (id server) "connectivity" w' = true) /\
  (elapsed now_ server < threshold_of server -> last_successful_poll server <> None ->
   is_live (id server) "connectivity" w' = false) /\
  (elapsed now_ server < threshold_of server -> last_successful_poll server = None ->
   rows_of (id server) "connectivity" w' = before).

Lemma settled_rows (now_ : Z) (server : ServerTarget) (before : list ActiveAlert)
  (w w' : World) :
  rows_of (id server) "connectivity" w' = rows_of (id server) "connectivity" w ->
  settled now_ server before w -> settled now_ server before w'.
Proof.
  intros Hrows H Hmon. destruct (H Hmon) as [H1 [H2 H3]].
  rewrite (is_live_rows _ _ _ _ Hrows), Hrows. auto.
Qed.

Lemma keeps_check_offline_server (now_ : Z) (server : ServerTarget) (w : World) (sid : Z) :
  sid <> id server ->
  rows_of sid "connectivity" (snd (check_offline_server clock now_ server w))
  = rows_of sid "connectivity" w.
Proof.
  intros Hne. unfold check_offline_server.
  destruct (negb (_is_alert_enabled server "connectivity")); [reflexivity|].
  destruct (no_channels server); [reflexivity|].
  destruct (last_successful_poll server) as [last_poll|];
    match goal with |- context [if ?c then _ else _] => destruct c end;
    try reflexivity; (apply activate_frame || apply clear_frame); congruence.
Qed.

Lemma check_offline_server_settles (now_ : Z) (server : ServerTarget) (w : World) :
  clean (id server) "connectivity" w ->
  exists w',
    check_offline_server clock now_ server w = (Ok tt, w') /\
    settled now_ server (rows_of (id server) "connectivity" w) w'.
Proof.
  intros Hclean. unfold check_offline_server, settled, monitored, threshold_of, elapsed.
  destruct (_is_alert_enabled server "connectivity") eqn:Hen; cbn [negb].
  2:{ exists w. split; [reflexivity|]. intros [H _]. discriminate. }
  destruct (no_channels server) eqn:Hch.
  { exists w. split; [reflexivity|]. intros [_ H]. discriminate. }
  destruct (last_successful_poll server) as [last_poll|] eqn:Hlast.
  - destruct (Z.leb_spec
                (minutes (if offline_alert_threshold_minutes server =? 0 then 15
                          else offline_alert_threshold_minutes server))
                (now_ - last_poll)) as [Hstale | Hfresh].
    + destruct (activate_clean server "connectivity"
                  (OfflineFor (now_ - last_poll)
                     (if offline_alert_threshold_minutes server =? 0 then 15
                      else offline_alert_threshold_minutes server) last_poll)
                  w Hclean) as [w' [Hact Hlive]].
      exists w'. split; [exact Hact|]. intros _. repeat split.
      * intros _. exact Hlive.
      * intros H. lia.
      * intros H. lia.
    + destruct (clear_clean server "connectivity" "auto" w Hclean) as [w' [Hclr Hlive]].
      exists w'. split; [exact Hclr|]. intros _. repeat split.
      * intros H. lia.
      * intros _ _. exact Hlive.
      * intros _ H. discriminate.
  - destruct (Z.leb_spec
                (minutes (if offline_alert_threshold_minutes server =? 0 then 15
                          else offline_alert_threshold_minutes server))
                (now_ - created_at server)) as [Hstale | Hfresh].
    + destruct (activate_clean server "connectivity"
                  (NotRespondedSinceCreation (now_ - created_at server))
                  w Hclean) as [w' [Hact Hlive]].
      exists w'. split; [exact Hact|]. intros _. repeat split.
      * intros _. exact Hlive.
      * intros H. lia.
      * intros H. lia.
    + exists w. split; [reflexivity|]. intros _. repeat split.
      * intros H. lia.
      * intros _ H. congruence.
Qed.

(** The loop of the monitor over servers of distinct ids. *)
Lemma for_each_settles (now_ : Z) (l : list ServerTarget) :
  forall w,
  NoDup (map id l) ->
  (forall s, In s l -> clean (id s) "connectivity" w) ->
  exists w',
    for_each (check_offline_server clock now_) l w = (Ok tt, w') /\
    (forall s, In s l -> settled now_ s (rows_of (id s) "connectivity" w) w') /\
    (forall sid, ~ In sid (map id l) ->
       rows_of sid "connectivity" w' = rows_of sid "connectivity" w).
Proof.
  induction l as [|s l IH]; intros w Hnd Hclean.
  - exists w. split; [reflexivity|]. split; [intros s []| reflexivity].
  - cbn [map] in Hnd. apply NoDup_cons_iff in Hnd. destruct Hnd as [Hs Hnd].
    destruct (check_offline_server_settles now_ s w (Hclean s (or_introl eq_refl)))
      as [w1 [Hstep Hset]].
    assert (Hframe1 : forall sid, sid <> id s ->
              rows_of sid "connectivity" w1 = rows_of sid "connectivity" w).
    { intros sid Hne.
      pose proof (keeps_check_offline_server now_ s w sid Hne) as H.
      now rewrite Hstep in H. }
    assert (Hne_l : forall s', In s' l -> id s' <> id s).
    { intros s' Hin Heq. apply Hs. rewrite <- Heq. now apply in_map. }
    destruct (IH w1 Hnd) as [w' [Hrest [Hpost Hframe]]].
    { intros s' Hin. apply (clean_rows _ _ w); [apply Hframe1; now apply Hne_l|].
      apply Hclean. now right. }
    exists w'. split; [|split].
    + cbn [for_each]. unfold bind. now rewrite Hstep.
    + intros s' [Heq | Hin].
      * subst s'. apply (settled_rows now_ s _ w1); [now apply Hframe | exact Hset].
      * rewrite <- (Hframe1 (id s')) by now apply Hne_l. now apply Hpost.
    + intros sid Hnot. cbn [map In] in Hnot.
      rewrite Hframe by tauto. apply Hframe1. intros Heq. apply Hnot. now left.
Qed.

Lemma poll_success_clears (s : ServerTarget) (w : World) :
  find (fun x => id x =? id s) (servers w) = Some s ->
  _is_alert_enabled s "connectivity" = true ->
  clean (id s) "connectivity" w ->
  fst (poll_body bmc clock s w) = Ok tt ->
  exists w', _poll_server bmc clock (id s) w = (Ok tt, w') /\
             is_live (id s) "connectivity" w' = false.
Proof.
  intros Hfind Hen Hclean Hbody.
  unfold _poll_server, bind, _load_server. rewrite Hfind.
  unfold try_except_else.
  pose proof (keeps_poll_body (id s) s w) as Hrows.
  destruct (poll_body bmc clock s w) as [r w1]. cbn [fst snd] in *. subst r.
  unfold on_poll_success. rewrite Hen.
  apply clear_clean. exact (clean_rows _ _ w w1 Hrows Hclean).
Qed.

(** C9, as the code has it.  Take a world whose servers have distinct ids
    and, each, at most one connectivity row, a live one.  A run of the
    monitor returns, and for each server with connectivity alerts enabled
    and a notification channel: when the time since its last successful
    poll, or since its creation if it never had one, has reached its offline
    threshold, a connectivity alert is live after the run; when it has not
    and the server has been polled with success, none is live; when it has
    not and the server never was polled with success, its connectivity rows
    are as before.  And a poll whose [try] block completes leaves no
    connectivity alert live. *)
Theorem staleness_monitor (w : World) :
  NoDup (map id (servers w)) ->
  (forall s, In s (servers w) -> clean (id s) "connectivity" w) ->
  let now_ := clock (clock_reads w) in
  (exists w',
     _check_offline_servers clock w = (Ok tt, w') /\
     forall s, In s (servers w) ->
       _is_alert_enabled s "connectivity" = true -> no_channels s = false ->
       (threshold_of s <= elapsed now_ s ->
        is_live (id s) "connectivity" w' = true) /\
       (elapsed now_ s < threshold_of s -> last_successful_poll s <> None ->
        is_live (id s) "connectivity" w' = false) /\
       (elapsed now_ s < threshold_of s -> last_successful_poll s = None ->
        rows_of (id s) "connectivity" w' = rows_of (id s) "connectivity" w)) /\
  (forall s,
     find (fun x => id x =? id s) (servers w) = Some s ->
     _is_alert_enabled s "connectivity" = true ->
     fst (poll_body bmc clock s w) = Ok tt ->
     exists w', _poll_server bmc clock (id s) w = (Ok tt, w') /\
                is_live (id s) "connectivity" w' = false).
Proof.
  intros Hnd Hclean now_. split.
  - set (w1 := set_clock_reads (S (clock_reads w)) w).
    assert (Hrows1 : forall sid, rows_of sid "connectivity" w1 = rows_of sid "connectivity" w).
    { intros sid. destruct w; reflexivity. }
    destruct (for_each_settles now_ (servers w) w1 Hnd) as [w' [Hrun [Hpost _]]].
    { intros s Hin. exact (clean_rows _ _ w w1 (Hrows1 (id s)) (Hclean s Hin)). }
    exists w'. split.
    + unfold _check_offline_servers, bind, now. exact Hrun.
    + intros s Hin Hen Hch. specialize (Hpost s Hin (conj Hen Hch)).
      now rewrite Hrows1 in Hpost.
  - intros s Hfind Hen Hbody. apply poll_success_clears; try assumption.
    apply Hclean. apply find_some in Hfind. tauto.
Qed.

End WithOutside.

(** The rule of the monitor as C9 states it: stale, the alert is raised;
    otherwise a live alert is cleared. *)
Definition stated_rule (clock : nat -> Z) (w : World) : Prop :=
  let now_ := clock (clock_reads w) in
  let w' := snd (_check_offline_servers clock w) in
  forall s, In s (servers w) ->
    _is_alert_enabled s "connectivity" = true -> no_channels s = false ->
    (threshold_of s <= elapsed now_ s -> is_live (id s) "connectivity" w' = true) /\
    (elapsed now_ s < threshold_of s -> is_live (id s) "connectivity" w' = false).

(** A server made at time 0 that never answered, with a threshold of 15
    minutes, whose first poll failed and raised the alert. *)
Definition silent_server : ServerTarget :=
  mkServerTarget 1 "rack-1" "supermicro" None [] (Some [7]) (Some [("connectivity", true)])
    15 None 0.

Definition silent_world : World :=
  mkWorld [silent_server] []
    [mkActiveAlert 1 "connectivity" (ServerUnreachable "Connection refused") 100 100 None None]
    default_key [] [] [] [] 0.

(** Five minutes after the server was made. *)
Definition five_minutes (n : nat) : Z := minutes 5.

(** C9 as stated does not hold: the monitor leaves the alert of a server
    that never was polled with success, though its age is below the
    threshold. *)
Lemma stated_rule_counterexample : ~ stated_rule five_minutes silent_world.
Proof.
  intros H. destruct (H silent_server (or_introl eq_refl) eq_refl eq_refl) as [_ H2].
  assert (Hfresh : elapsed (five_minutes (clock_reads silent_world)) silent_server
                   < threshold_of silent_server) by reflexivity.
  specialize (H2 Hfresh). discriminate H2.
Qed.

Lemma staleness_monitor_witness :
  NoDup (map id (servers silent_world)) /\
  (forall s, In s (servers silent_world) -> clean (id s) "connectivity" silent_world) /\
  exists w', _check_offline_servers five_minutes silent_world = (Ok tt, w') /\
             rows_of 1 "connectivity" w' = rows_of 1 "connectivity" silent_world.
Proof.
  assert (Hnd : NoDup (map id (servers silent_world))).
  { repeat constructor. intros []. }
  assert (Hclean : forall s, In s (servers silent_world) ->
                     clean (id s) "connectivity" silent_world).
  { intros s [<- | []]. right. eexists. split; reflexivity. }
  split; [exact Hnd|]. split; [exact Hclean|].
  destruct (staleness_monitor (fun _ _ => Broken "") five_minutes silent_world Hnd Hclean)
    as [[w' [Hrun Hpost]] _].
  exists w'. split; [exact Hrun|].
  destruct (Hpost silent_server (or_introl eq_refl) eq_refl eq_refl) as [_ [_ H3]].
  apply H3; reflexivity.
Defined.

End StalenessFacts.

(** ** The pattern of the parser *)

Module RegexFacts.

Import PyStr Binary64 Parser.

Local Open Scope string_scope.

Fixpoint all_chars (p : ascii -> bool) (s : string) : bool :=
  match s with
  | EmptyString => true
  | String c s' => p c && all_chars p s'
  end.

(** What follows the number in a match of the pattern: white space, the
    word "degree" or "degrees" in any case, white space, and a "c" in
    either case. *)
Definition reads_degrees_C (tail : string) : Prop :=
  exists sp1 unit sp2 c after,
    tail = sp1 ++ unit ++ sp2 ++ String c after /\
    all_chars is_space sp1 = true /\ all_chars is_space sp2 = true /\
    (lower unit = "degree" \/ lower unit = "degrees") /\
    lower_char c = "c"%char.

Lemma append_assoc (a b c : string) : (a ++ b) ++ c = a ++ b ++ c.
Proof. induction a as [|x a IH]; [reflexivity|]. cbn. now rewrite IH. Qed.

Lemma span_split (p : ascii -> bool) (s : string) :
  s = fst (span p s) ++ snd (span p s) /\ all_chars p (fst (span p s)) = true.
Proof.
  induction s as [|c s IH]; [cbn; auto|].
  cbn [span]. destruct (p c) eqn:E; [|cbn; auto].
  destruct (span p s) as [a b]. cbn [fst snd] in *. destruct IH as [H1 H2].
  cbn. rewrite E, H2. split; [now rewrite <- H1 | reflexivity].
Qed.

Lemma drop_prefix_ci_split (p s r : string) :
  drop_prefix_ci p s = Some r -> exists u, s = u ++ r /\ lower u = lower p.
Proof.
  revert s. induction p as [|c p IH]; intros s H.
  - injection H as <-. now exists EmptyString.
  - destruct s as [|d s]; [discriminate|]. cbn [drop_prefix_ci] in H.
    destruct (Ascii.eqb_spec (lower_char d) (lower_char c)) as [e|_]; [|discriminate].
    destruct (IH s H) as [u [Hu Hl]]. exists (String d u). cbn. split.
    + now rewrite <- Hu.
    + unfold lower in *. cbn. now rewrite e, Hl.
Qed.

Lemma match_number_split (s g r : string) : match_number s = Some (g, r) -> s = g ++ r.
Proof.
  unfold match_number. destruct (span_split is_digit s) as [Hs _].
  destruct (span is_digit s) as [ds r0]. cbn [fst snd] in Hs.
  destruct (is_empty ds); [discriminate|].
  destruct r0 as [|c r1].
  - intros H. injection H as <- <-. exact Hs.
  - destruct (Ascii.eqb c "."); [|intros H; injection H as <- <-; exact Hs].
    destruct (span_split is_digit r1) as [Hr _].
    destruct (span is_digit r1) as [fs r2]. cbn [fst snd] in Hr.
    destruct (is_empty fs); intros H; injection H as <- <-; [exact Hs|].
    rewrite append_assoc. cbn. now rewrite <- Hr.
Qed.

Lemma match_unit_sound (r r' : string) :
  match_unit r = Some r' ->
  exists sp1 unit sp2 c,
    r = sp1 ++ unit ++ sp2 ++ String c r' /\
    all_chars is_space sp1 = true /\ all_chars is_space sp2 = true /\
    (lower unit = "degree" \/ lower unit = "degrees") /\
    lower_char c = "c"%char.
Proof.
  unfold match_unit. destruct (span_split is_space r) as [Hr Hsp1].
  destruct (span is_space r) as [sp1 r1]. cbn [fst snd] in *.
  destruct (drop_prefix_ci "degree" r1) as [r2|] eqn:E1; [|discriminate].
  destruct (drop_prefix_ci_split _ _ _ E1) as [u [Hu Hlu]].
  assert (Hlast : forall rest, drop_prefix_ci "c" rest = Some r' ->
            exists c, rest = String c r' /\ lower_char c = "c"%char).
  { intros rest H. destruct rest as [|c rest]; [discriminate|]. cbn in H.
    destruct (Ascii.eqb_spec (lower_char c) (lower_char "c")) as [e|_]; [|discriminate].
    injection H as <-. exists c. auto. }
  destruct (drop_prefix_ci "s" r2) as [r3|] eqn:E2.
  - destruct (drop_prefix_ci_split _ _ _ E2) as [u2 [Hu2 Hlu2]].
    destruct (span_split is_space r3) as [Hr3 Hsp2].
    destruct (span is_space r3) as [sp2 r4]. cbn [fst snd] in *.
    intros H. destruct (Hlast r4 H) as [c [Hc Hlc]].
    exists sp1, (u ++ u2), sp2, c. repeat split; try assumption.
    + rewrite Hr, Hu, Hu2, Hr3, Hc. now rewrite append_assoc.
    + right. clear - Hlu Hlu2. unfold lower in *.
      assert (Hmap : forall a b, map_chars lower_char (a ++ b)
                                 = map_chars lower_char a ++ map_chars lower_char b).
      { intros a b. induction a as [|x a IH]; [reflexivity|]. cbn. now rewrite IH. }
      rewrite Hmap, Hlu, Hlu2. reflexivity.
  - destruct (span_split is_space r2) as [Hr2 Hsp2].
    destruct (span is_space r2) as [sp2 r4]. cbn [fst snd] in *.
    intros H. destruct (Hlast r4 H) as [c [Hc Hlc]].
    exists sp1, u, sp2, c. repeat split; try assumption.
    + now rewrite Hr, Hu, Hr2, Hc.
    + now left.
Qed.

Lemma match_here_sound (s g r : string) :
  match_here s = Some (g, r) -> exists tail, s = g ++ tail /\ reads_degrees_C tail.
Proof.
  unfold match_here. destruct (match_number s) as [[g0 r0]|] eqn:E; [|discriminate].
  destruct (match_unit r0) as [r1|] eqn:Eu; [|discriminate].
  intros H. injection H as <- <-. exists r0. split; [now apply match_number_split|].
  destruct (match_unit_sound r0 r1 Eu) as (sp1 & unit & sp2 & c & H).
  exists sp1, unit, sp2, c, r1. exact H.
Qed.

(** What [re.search] returns is a number of the text with "degree(s) C"
    after it. *)
Lemma search_sound (s g : string) :
  search s = Some g ->
  exists before tail, s = before ++ g ++ tail /\ reads_degrees_C tail.
Proof.
  induction s as [|c s IH]; cbn [search].
  - destruct (match_here EmptyString) as [[g0 r0]|] eqn:E; [|discriminate].
    intros H. injection H as <-. destruct (match_here_sound _ _ _ E) as [tail Ht].
    now exists EmptyString, tail.
  - destruct (match_here (String c s)) as [[g0 r0]|] eqn:E.
    + intros H. injection H as <-. destruct (match_here_sound _ _ _ E) as [tail Ht].
      now exists EmptyString, tail.
    + intros H. destruct (IH H) as [before [tail [Hs Ht]]].
      exists (String c before), tail. cbn. now rewrite <- Hs.
Qed.

(** Each group of [re.findall] is such a number too. *)
Lemma findall_from_sound (s : string) :
  forall skip g, In g (findall_from skip s) ->
  exists before tail, s = before ++ g ++ tail /\ reads_degrees_C tail.
Proof.
  induction s as [|c s IH]; intros skip g Hin; [destruct Hin|].
  assert (Hnext : forall k, In g (findall_from k s) ->
            exists before tail, String c s = before ++ g ++ tail /\ reads_degrees_C tail).
  { intros k Hk. destruct (IH k g Hk) as [before [tail [Hs Ht]]].
    exists (String c before), tail. cbn. now rewrite <- Hs. }
  cbn [findall_from] in Hin. destruct skip as [|k]; [|exact (Hnext _ Hin)].
  destruct (match_here (String c s)) as [[g0 r0]|] eqn:E; [|exact (Hnext _ Hin)].
  destruct Hin as [<- | Hin]; [|exact (Hnext _ Hin)].
  destruct (match_here_sound _ _ _ E) as [tail Ht]. now exists EmptyString, tail.
Qed.

(** [re.findall] finds nothing exactly when [re.search] does. *)
Lemma findall_nil_search (s : string) : findall s = nil <-> search s = None.
Proof.
  unfold findall. induction s as [|c s IH]; [cbn; tauto|].
  cbn [findall_from search].
  destruct (match_here (String c s)) as [[g0 r0]|]; [split; discriminate | exact IH].
Qed.

End RegexFacts.

(** ** The temperature parser *)

Module ParserFacts.

Import PyStr Binary64 FanCurve Parser Ipmi Model Scheduler StoreFacts CheckFacts StalenessFacts.
Import RegexFacts.

Local Open Scope string_scope.
Local Open Scope list_scope.

(** *** A group of the pattern is a number to [float] *)

Fixpoint all_digits (s : string) : bool :=
  match s with
  | EmptyString => true
  | String c s' => is_digit c && all_digits s'
  end.

(** What may follow a run of digits for [digitpart] to stop there. *)
Definition stops_digits (s : string) : bool :=
  match s with
  | EmptyString => true
  | String c _ => negb (is_digit c) && negb (Ascii.eqb c "_")
  end.

Lemma span_digits (s : string) :
  all_digits (fst (span is_digit s)) = true /\
  s = String.append (fst (span is_digit s)) (snd (span is_digit s)) /\
  match snd (span is_digit s) with
  | EmptyString => True
  | String c _ => is_digit c = false
  end.
Proof.
  induction s as [|c s IH]; [cbn; auto|].
  cbn [span]. destruct (is_digit c) eqn:E.
  - destruct (span is_digit s) as [a b]. cbn [fst snd] in *.
    destruct IH as [H1 [H2 H3]]. cbn. rewrite E, H1. repeat split; [|exact H3].
    now rewrite <- H2.
  - cbn. rewrite E. auto.
Qed.

Lemma digit_not_special (c : ascii) :
  is_digit c = true ->
  is_space c = false /\ is_upper c = false /\
  Ascii.eqb c "+" = false /\ Ascii.eqb c "-" = false /\ Ascii.eqb c "_" = false /\
  Ascii.eqb c "." = false /\ Ascii.eqb c "i" = false /\ Ascii.eqb c "n" = false.
Proof.
  unfold is_digit, is_space, is_upper. intros H.
  apply andb_true_iff in H. destruct H as [H1 H2].
  apply Nat.leb_le in H1, H2.
  assert (Hne : forall d, (nat_of_ascii d < 48 \/ 57 < nat_of_ascii d)%nat ->
                  Ascii.eqb c d = false).
  { intros d Hd. destruct (Ascii.eqb_spec c d) as [e|n]; [|reflexivity].
    rewrite e in H1, H2. lia. }
  repeat split; try (apply Hne; cbn; lia).
  - apply orb_false_iff. split; apply andb_false_iff.
    + right. apply Nat.leb_gt. lia.
    + right. apply Nat.leb_gt. lia.
  - apply andb_false_iff. left. apply Nat.leb_gt. lia.
Qed.

Lemma digitpart_tail_digits (ds rest : string) :
  all_digits ds = true -> stops_digits rest = true ->
  digitpart_tail (String.append ds rest) = (ds, rest).
Proof.
  intros Hds Hrest. induction ds as [|c ds IH].
  - cbn [String.append]. destruct rest as [|c r]; [reflexivity|].
    cbn in Hrest. apply andb_true_iff in Hrest. destruct Hrest as [H1 H2].
    apply negb_true_iff in H1, H2. cbn [digitpart_tail]. now rewrite H1, H2.
  - cbn in Hds. apply andb_true_iff in Hds. destruct Hds as [Hc Hds].
    cbn [String.append digitpart_tail]. rewrite Hc, (IH Hds). reflexivity.
Qed.

Lemma digitpart_digits (ds rest : string) :
  all_digits ds = true -> is_empty ds = false -> stops_digits rest = true ->
  digitpart (String.append ds rest) = (ds, rest).
Proof.
  intros Hds Hne Hrest. destruct ds as [|c ds]; [discriminate|].
  cbn in Hds. apply andb_true_iff in Hds. destruct Hds as [Hc Hds].
  cbn [String.append digitpart]. rewrite Hc, (digitpart_tail_digits ds rest Hds Hrest).
  reflexivity.
Qed.

Lemma append_empty (s : string) : String.append s EmptyString = s.
Proof. induction s as [|c s IH]; [reflexivity|]. cbn. now rewrite IH. Qed.

(** No white space at either end: [strip] changes nothing. *)
Fixpoint no_space (s : string) : bool :=
  match s with
  | EmptyString => true
  | String c s' => negb (is_space c) && no_space s'
  end.

Lemma rstrip_no_space (s : string) : no_space s = true -> rstrip s = s.
Proof.
  induction s as [|c s IH]; [reflexivity|]. cbn. intros H.
  apply andb_true_iff in H. destruct H as [H1 H2]. apply negb_true_iff in H1.
  now rewrite H1, (IH H2).
Qed.

Lemma strip_no_space (s : string) : no_space s = true -> strip s = s.
Proof.
  intros H. unfold strip. rewrite (rstrip_no_space s H).
  destruct s as [|c s]; [reflexivity|]. cbn in H |- *.
  apply andb_true_iff in H. destruct H as [H _]. apply negb_true_iff in H. now rewrite H.
Qed.

Lemma digits_no_space (s : string) : all_digits s = true -> no_space s = true.
Proof.
  induction s as [|c s IH]; [reflexivity|]. cbn. intros H.
  apply andb_true_iff in H. destruct H as [H1 H2].
  destruct (digit_not_special c H1) as [Hs _]. now rewrite Hs, (IH H2).
Qed.

Lemma no_space_append (a b : string) :
  no_space a = true -> no_space b = true -> no_space (String.append a b) = true.
Proof.
  intros Ha Hb. induction a as [|c a IH]; [exact Hb|]. cbn in *.
  apply andb_true_iff in Ha. destruct Ha as [H1 H2]. now rewrite H1, (IH H2).
Qed.

(** The text of a group: digits, or digits, a dot and digits. *)
Inductive group_text : string -> string -> string -> Prop :=
| group_int (ds : string) :
    all_digits ds = true -> is_empty ds = false ->
    group_text ds ds EmptyString
| group_frac (ds fs : string) :
    all_digits ds = true -> is_empty ds = false ->
    all_digits fs = true -> is_empty fs = false ->
    group_text (String.append ds (String "." fs)) ds fs.

Lemma match_number_group (s g r : string) :
  match_number s = Some (g, r) -> exists ds fs, group_text g ds fs.
Proof.
  unfold match_number. pose proof (span_digits s) as [Hd _].
  destruct (span is_digit s) as [ds r0]. cbn [fst] in Hd.
  destruct (is_empty ds) eqn:Ee; [discriminate|].
  destruct r0 as [|c r1].
  - intros H. injection H as <- _. exists ds, EmptyString. now constructor.
  - destruct (Ascii.eqb_spec c ".") as [-> | _].
    + pose proof (span_digits r1) as [Hf _].
      destruct (span is_digit r1) as [fs r2]. cbn [fst] in Hf.
      destruct (is_empty fs) eqn:Ef; intros H; injection H as <- _.
      * exists ds, EmptyString. now constructor.
      * exists ds, fs. now constructor.
    + intros H. injection H as <- _. exists ds, EmptyString. now constructor.
Qed.

Lemma py_float_group (g ds fs : string) :
  group_text g ds fs -> py_float g = Some (of_Q (decimal ds fs 0)).
Proof.
  intros Hg.
  assert (Hfirst : exists c ds', ds = String c ds' /\ is_digit c = true).
  { destruct Hg as [ds Hd Hne | ds fs Hd Hne _ _];
      (destruct ds as [|c ds']; [discriminate|]); cbn in Hd;
      apply andb_true_iff in Hd; destruct Hd as [Hc _]; eauto. }
  destruct Hfirst as [c [ds' [Hds Hc]]].
  destruct (digit_not_special c Hc) as [_ [Hup [Hplus [Hminus [_ [_ [Hi Hn]]]]]]].
  assert (Hstrip : strip g = g).
  { apply strip_no_space. destruct Hg as [ds0 Hd _ | ds0 fs0 Hd _ Hf _].
    - now apply digits_no_space.
    - apply no_space_append; [now apply digits_no_space|].
      cbn. now apply digits_no_space. }
  assert (Hhead : exists tail, g = String c tail).
  { destruct Hg; subst; cbn; eauto. }
  destruct Hhead as [tail Htail].
  unfold py_float. rewrite Hstrip.
  assert (Hsign : read_sign g = (false, g)).
  { rewrite Htail. cbn. now rewrite Hplus, Hminus. }
  rewrite Hsign.
  assert (Hlow : lower_char c = c) by (unfold lower_char; now rewrite Hup).
  assert (Hword : forall w, (w = "inf" \/ w = "infinity" \/ w = "nan") ->
                    String.eqb (lower g) w = false).
  { intros w Hw. rewrite Htail. cbn. rewrite Hlow.
    destruct Hw as [-> | [-> | ->]]; cbn; (rewrite Hi || rewrite Hn); reflexivity. }
  rewrite (Hword "inf"), (Hword "infinity"), (Hword "nan") by tauto. cbn [orb].
  assert (Hnum : read_number g = Some (decimal ds fs 0)).
  { unfold read_number. destruct Hg as [ds0 Hd Hne | ds0 fs0 Hd Hne Hf Hfe].
    - rewrite <- (append_empty ds0) at 1.
      rewrite (digitpart_digits ds0 EmptyString Hd Hne eq_refl).
      rewrite Hne. reflexivity.
    - rewrite (digitpart_digits ds0 (String "." fs0) Hd Hne eq_refl).
      cbv beta iota zeta. rewrite Ascii.eqb_refl.
      rewrite <- (append_empty fs0) at 1.
      rewrite (digitpart_digits fs0 EmptyString Hf Hfe eq_refl).
      rewrite Hne. reflexivity. }
  rewrite Hnum. reflexivity.
Qed.

Lemma match_here_group (s g r : string) :
  match_here s = Some (g, r) -> exists ds fs, group_text g ds fs.
Proof.
  unfold match_here. destruct (match_number s) as [[g0 r0]|] eqn:E; [|discriminate].
  destruct (match_unit r0); [|discriminate].
  intros H. injection H as <- _. exact (match_number_group s g0 r0 E).
Qed.

Lemma search_group (s g : string) :
  search s = Some g -> exists ds fs, group_text g ds fs.
Proof.
  induction s as [|c s IH]; cbn [search].
  - destruct (match_here EmptyString) as [[g0 r0]|] eqn:E; [|discriminate].
    intros H. injection H as <-. exact (match_here_group _ _ _ E).
  - destruct (match_here (String c s)) as [[g0 r0]|] eqn:E; [|exact IH].
    intros H. injection H as <-. exact (match_here_group _ _ _ E).
Qed.

(** *** The pattern finds what is there *)

Local Open Scope string_scope.

(** What the first character after a number of a match can be. *)
Definition starts_unit (c : ascii) : bool :=
  is_space c || Ascii.eqb (lower_char c) "d".

Lemma starts_unit_props (c : ascii) :
  starts_unit c = true -> is_digit c = false /\ Ascii.eqb c "." = false.
Proof.
  destruct c as [[] [] [] [] [] [] [] []]; vm_compute; intros H; try discriminate H;
    split; reflexivity.
Qed.

Lemma lower_d_not_space (c : ascii) : lower_char c = "d"%char -> is_space c = false.
Proof.
  destruct c as [[] [] [] [] [] [] [] []]; vm_compute; intros H; try discriminate H;
    reflexivity.
Qed.

Lemma lower_c_not_space (c : ascii) : lower_char c = "c"%char -> is_space c = false.
Proof.
  destruct c as [[] [] [] [] [] [] [] []]; vm_compute; intros H; try discriminate H;
    reflexivity.
Qed.

Lemma space_lower (c : ascii) : is_space c = true -> lower_char c = c.
Proof.
  destruct c as [[] [] [] [] [] [] [] []]; vm_compute; intros H; try discriminate H;
    reflexivity.
Qed.

Lemma space_not_s (c : ascii) :
  is_space c = true -> Ascii.eqb (lower_char c) (lower_char "s") = false.
Proof.
  destruct c as [[] [] [] [] [] [] [] []]; vm_compute; intros H; try discriminate H;
    reflexivity.
Qed.

(** [span] stops where the text says, when the next character is not of
    the class. *)
Lemma span_append (p : ascii -> bool) (a b : string) :
  all_chars p a = true ->
  match b with EmptyString => True | String c _ => p c = false end ->
  span p (a ++ b) = (a, b).
Proof.
  intros Ha Hb. induction a as [|x a IH].
  - cbn. destruct b as [|c b]; [reflexivity|]. cbn. now rewrite Hb.
  - cbn in Ha. apply andb_true_iff in Ha. destruct Ha as [Hx Ha].
    cbn. rewrite Hx, (IH Ha). reflexivity.
Qed.

Lemma all_digits_chars (s : string) : all_digits s = all_chars is_digit s.
Proof. induction s as [|c s IH]; [reflexivity|]. cbn. now rewrite IH. Qed.

Lemma drop_prefix_ci_append (p u rest : string) :
  lower u = lower p -> drop_prefix_ci p (u ++ rest) = Some rest.
Proof.
  revert u. induction p as [|c p IH]; intros u H.
  - destruct u; [reflexivity | discriminate].
  - destruct u as [|d u]; [discriminate|]. unfold lower in H. cbn in H.
    injection H as Hd Hu. cbn. rewrite Hd, Ascii.eqb_refl. now apply IH.
Qed.

Lemma drop_prefix_ci_two (p q s : string) :
  drop_prefix_ci (p ++ q) s
  = match drop_prefix_ci p s with
    | Some r => drop_prefix_ci q r
    | None => None
    end.
Proof.
  revert s. induction p as [|c p IH]; intros s; [reflexivity|].
  cbn. destruct s as [|d s]; [reflexivity|].
  destruct (Ascii.eqb (lower_char d) (lower_char c)); [apply IH | reflexivity].
Qed.

(** The first character of a text that reads "degree(s) C". *)
Lemma reads_degrees_C_head (tail : string) :
  reads_degrees_C tail -> exists c rest, tail = String c rest /\ starts_unit c = true.
Proof.
  intros (sp1 & unit & sp2 & c & after & -> & Hsp1 & _ & Hunit & _).
  unfold starts_unit.
  destruct sp1 as [|x sp1].
  - destruct unit as [|d unit]; [destruct Hunit; discriminate|].
    exists d, (unit ++ sp2 ++ String c after). split; [reflexivity|].
    assert (Hd : lower_char d = "d"%char).
    { unfold lower in Hunit. cbn in Hunit. destruct Hunit as [H | H]; now injection H. }
    rewrite Hd. apply orb_true_r.
  - cbn in Hsp1. apply andb_true_iff in Hsp1. destruct Hsp1 as [Hx _].
    exists x, (sp1 ++ unit ++ sp2 ++ String c after). split; [reflexivity|].
    now rewrite Hx.
Qed.

Lemma match_number_complete (g ds fs tail : string) :
  group_text g ds fs ->
  (exists c rest, tail = String c rest /\ starts_unit c = true) ->
  match_number (g ++ tail) = Some (g, tail).
Proof.
  intros Hg (c & rest & -> & Hc). destruct (starts_unit_props c Hc) as [Hnd Hndot].
  unfold match_number.
  destruct Hg as [ds Hd Hne | ds fs Hd Hne Hf Hfe]; rewrite all_digits_chars in *.
  - rewrite (span_append is_digit ds (String c rest) Hd Hnd), Hne, Hndot. reflexivity.
  - rewrite append_assoc. cbn [append].
    rewrite (span_append is_digit ds (String "." (fs ++ String c rest)) Hd eq_refl), Hne.
    rewrite Ascii.eqb_refl.
    rewrite (span_append is_digit fs (String c rest) Hf Hnd), Hfe. reflexivity.
Qed.

Lemma match_unit_complete (sp1 unit sp2 : string) (c : ascii) (after : string) :
  all_chars is_space sp1 = true -> all_chars is_space sp2 = true ->
  lower unit = "degree" \/ lower unit = "degrees" ->
  lower_char c = "c"%char ->
  match_unit (sp1 ++ unit ++ sp2 ++ String c after) = Some after.
Proof.
  intros Hsp1 Hsp2 Hunit Hc. unfold match_unit.
  assert (Hhead : match unit ++ sp2 ++ String c after with
                  | EmptyString => True
                  | String d _ => is_space d = false
                  end).
  { destruct unit as [|d unit]; [destruct Hunit; discriminate|]. cbn.
    apply lower_d_not_space. unfold lower in Hunit. cbn in Hunit.
    destruct Hunit as [H | H]; now injection H. }
  rewrite (span_append is_space sp1 _ Hsp1 Hhead). cbn [snd].
  assert (Hlast : snd (span is_space (sp2 ++ String c after)) = String c after).
  { rewrite (span_append is_space sp2 (String c after) Hsp2 (lower_c_not_space c Hc)).
    reflexivity. }
  assert (Hc1 : drop_prefix_ci "c" (String c after) = Some after).
  { cbn. rewrite Hc. reflexivity. }
  destruct Hunit as [Hu | Hu].
  - rewrite (drop_prefix_ci_append "degree" unit _ Hu).
    assert (Hs : drop_prefix_ci "s" (sp2 ++ String c after) = None).
    { destruct sp2 as [|x sp2]; cbn.
      - rewrite Hc. reflexivity.
      - cbn in Hsp2. apply andb_true_iff in Hsp2. destruct Hsp2 as [Hx _].
        now rewrite (space_not_s x Hx). }
    rewrite Hs. cbv zeta. rewrite Hlast. exact Hc1.
  - pose proof (drop_prefix_ci_append "degrees" unit (sp2 ++ String c after) Hu) as H.
    change "degrees" with ("degree" ++ "s") in H. rewrite drop_prefix_ci_two in H.
    destruct (drop_prefix_ci "degree" (unit ++ sp2 ++ String c after)) as [r|];
      [|discriminate].
    rewrite H. cbv zeta. rewrite Hlast. exact Hc1.
Qed.

(** The matcher finds every occurrence that starts where it looks, and
    its group is the number of the occurrence. *)
Lemma match_here_complete (g ds fs tail : string) :
  group_text g ds fs -> reads_degrees_C tail ->
  exists after, match_here (g ++ tail) = Some (g, after).
Proof.
  intros Hg Htail. unfold match_here.
  rewrite (match_number_complete g ds fs tail Hg (reads_degrees_C_head tail Htail)).
  destruct Htail as (sp1 & unit & sp2 & c & after & -> & Hsp1 & Hsp2 & Hunit & Hc).
  rewrite (match_unit_complete sp1 unit sp2 c after Hsp1 Hsp2 Hunit Hc).
  now exists after.
Qed.

(** An occurrence of "<number> degree(s) C" at the head of a text. *)
Definition occurs_at_head (s : string) : Prop :=
  exists g ds fs tail, s = g ++ tail /\ group_text g ds fs /\ reads_degrees_C tail.

Lemma match_here_none (s : string) : match_here s = None -> ~ occurs_at_head s.
Proof.
  intros H (g & ds & fs & tail & -> & Hg & Htail).
  destruct (match_here_complete g ds fs tail Hg Htail) as [after Ha]. congruence.
Qed.

(** [re.search] returns the number of the leftmost occurrence: an
    occurrence starts where the group stands, and none starts before. *)
Lemma search_leftmost (s g : string) :
  search s = Some g ->
  exists before tail,
    s = before ++ g ++ tail /\ reads_degrees_C tail /\
    forall b1 b2, before = b1 ++ b2 -> b2 <> EmptyString ->
      ~ occurs_at_head (b2 ++ g ++ tail).
Proof.
  induction s as [|c s IH]; cbn [search].
  - destruct (match_here EmptyString) as [[g0 r0]|] eqn:E; [|discriminate].
    intros H. injection H as <-. destruct (match_here_sound _ _ _ E) as [tail [Hs Ht]].
    exists EmptyString, tail. split; [exact Hs|]. split; [exact Ht|].
    intros b1 b2 Hb Hne. destruct b1; destruct b2; try discriminate; congruence.
  - destruct (match_here (String c s)) as [[g0 r0]|] eqn:E.
    + intros H. injection H as <-. destruct (match_here_sound _ _ _ E) as [tail [Hs Ht]].
      exists EmptyString, tail. split; [exact Hs|]. split; [exact Ht|].
      intros b1 b2 Hb Hne. destruct b1; destruct b2; try discriminate; congruence.
    + intros H. destruct (IH H) as (before & tail & Hs & Ht & Hleft).
      exists (String c before), tail. split; [cbn; now rewrite <- Hs|]. split; [exact Ht|].
      intros b1 b2 Hb Hne. destruct b1 as [|x b1].
      * cbn in Hb. subst b2. cbn [append]. rewrite <- Hs. now apply match_here_none.
      * cbn in Hb. injection Hb as _ Hb. now apply (Hleft b1 b2).
Qed.

(** [re.search] finds nothing only in a text with no occurrence. *)
Lemma search_none (s : string) :
  search s = None -> forall before rest, s = before ++ rest -> ~ occurs_at_head rest.
Proof.
  induction s as [|c s IH]; cbn [search].
  - destruct (match_here EmptyString) as [[g0 r0]|] eqn:E; [discriminate|].
    intros _ before rest H. destruct before; [|discriminate]. cbn in H. subst rest.
    now apply match_here_none.
  - destruct (match_here (String c s)) as [[g0 r0]|] eqn:E; [discriminate|].
    intros H before rest Hs. destruct before as [|x before].
    + cbn in Hs. subst rest. now apply match_here_none.
    + cbn in Hs. injection Hs as _ Hs. exact (IH H before rest Hs).
Qed.

(** [re.findall] finds nothing exactly in a text with no occurrence. *)
Lemma findall_nil_iff (s : string) :
  findall s = nil <->
  forall before rest, s = before ++ rest -> ~ occurs_at_head rest.
Proof.
  rewrite findall_nil_search. split; [apply search_none|].
  intros Hnone. destruct (search s) as [g|] eqn:E; [exfalso | reflexivity].
  destruct (search_group s g E) as [ds [fs Hg]].
  destruct (search_sound s g E) as (before & tail & Hs & Ht).
  apply (Hnone before (g ++ tail) Hs). now exists g, ds, fs, tail.
Qed.

(** A text with no occurrence of "<number> degree(s) C". *)
Definition no_occurrence (s : string) : Prop :=
  forall before rest, s = before ++ rest -> ~ occurs_at_head rest.

(** [re.search] finds the leftmost occurrence, wherever it stands. *)
Lemma search_complete (before g ds fs tail : string) :
  group_text g ds fs -> reads_degrees_C tail ->
  (forall b1 b2, before = b1 ++ b2 -> b2 <> EmptyString ->
     ~ occurs_at_head (b2 ++ g ++ tail)) ->
  search (before ++ g ++ tail) = Some g.
Proof.
  intros Hg Ht. induction before as [|c b IH]; intros Hleft.
  - cbn [append]. destruct (match_here_complete g ds fs tail Hg Ht) as [after Ha].
    remember (g ++ tail) as s0 eqn:Es. destruct s0; cbn [search]; now rewrite Ha.
  - cbn [append search].
    destruct (match_here (String c (b ++ g ++ tail))) as [[g0 r0]|] eqn:E.
    + exfalso. apply (Hleft EmptyString (String c b)); [reflexivity | discriminate|].
      destruct (match_here_sound _ _ _ E) as [tail0 [Hs Ht0]].
      destruct (match_here_group _ _ _ E) as [ds0 [fs0 Hg0]].
      exists g0, ds0, fs0, tail0. auto.
    + apply IH. intros b1 b2 Hb Hne. apply (Hleft (String c b1) b2); [|exact Hne].
      cbn. now rewrite Hb.
Qed.

(** A match ends after the "c" of its unit. *)
Lemma match_here_end (g ds fs sp1 unit sp2 : string) (c : ascii) (rest : string) :
  group_text g ds fs ->
  all_chars is_space sp1 = true -> all_chars is_space sp2 = true ->
  lower unit = "degree" \/ lower unit = "degrees" ->
  lower_char c = "c"%char ->
  match_here (g ++ sp1 ++ unit ++ sp2 ++ String c rest) = Some (g, rest).
Proof.
  intros Hg H1 H2 Hu Hc. unfold match_here.
  assert (Ht : reads_degrees_C (sp1 ++ unit ++ sp2 ++ String c rest)).
  { exists sp1, unit, sp2, c, rest. auto. }
  rewrite (match_number_complete g ds fs _ Hg (reads_degrees_C_head _ Ht)).
  now rewrite (match_unit_complete sp1 unit sp2 c rest H1 H2 Hu Hc).
Qed.

Lemma match_here_parts (s g r : string) :
  match_here s = Some (g, r) ->
  exists ds fs sp1 unit sp2 c,
    s = g ++ sp1 ++ unit ++ sp2 ++ String c r /\ group_text g ds fs /\
    all_chars is_space sp1 = true /\ all_chars is_space sp2 = true /\
    (lower unit = "degree" \/ lower unit = "degrees") /\
    lower_char c = "c"%char.
Proof.
  unfold match_here. destruct (match_number s) as [[g0 r0]|] eqn:E; [|discriminate].
  destruct (match_unit r0) as [r1|] eqn:Eu; [|discriminate].
  intros H. injection H as <- <-.
  destruct (match_number_group s g0 r0 E) as [ds [fs Hg]].
  destruct (match_unit_sound r0 r1 Eu) as (sp1 & unit & sp2 & c & Hr & H1 & H2 & Hu & Hc).
  exists ds, fs, sp1, unit, sp2, c. rewrite <- Hr.
  split; [now apply match_number_split | auto].
Qed.

(** The matches of the pattern in a text, in the words of [re.findall]:
    the number of the leftmost occurrence, then the matches of the text
    after the "c" that ends it. *)
Inductive matches_of : string -> list string -> Prop :=
| matches_none (s : string) :
    no_occurrence s -> matches_of s nil
| matches_next (before g ds fs sp1 unit sp2 : string) (c : ascii) (rest : string)
    (gs : list string) :
    group_text g ds fs ->
    all_chars is_space sp1 = true -> all_chars is_space sp2 = true ->
    lower unit = "degree" \/ lower unit = "degrees" ->
    lower_char c = "c"%char ->
    (forall b1 b2, before = b1 ++ b2 -> b2 <> EmptyString ->
       ~ occurs_at_head (b2 ++ g ++ sp1 ++ unit ++ sp2 ++ String c rest)) ->
    matches_of rest gs ->
    matches_of (before ++ g ++ sp1 ++ unit ++ sp2 ++ String c rest) (cons g gs).

Lemma length_append (a b : string) :
  String.length (a ++ b) = (String.length a + String.length b)%nat.
Proof. induction a as [|c a IH]; [reflexivity|]. cbn. now rewrite IH. Qed.

Lemma findall_from_before (before s0 : string) :
  (forall b1 b2, before = b1 ++ b2 -> b2 <> EmptyString -> match_here (b2 ++ s0) = None) ->
  findall_from 0 (before ++ s0) = findall_from 0 s0.
Proof.
  induction before as [|c b IH]; intros Hleft; [reflexivity|].
  cbn [append findall_from].
  pose proof (Hleft EmptyString (String c b) eq_refl) as H0. cbn [append] in H0.
  rewrite H0 by discriminate. apply IH.
  intros b1 b2 Hb Hne. apply (Hleft (String c b1) b2); [|exact Hne]. cbn. now rewrite Hb.
Qed.

Lemma findall_from_skip (p rest : string) :
  findall_from (String.length p) (p ++ rest) = findall_from 0 rest.
Proof. induction p as [|c p IH]; [reflexivity | exact IH]. Qed.

Lemma findall_from_match (m g rest : string) :
  m <> EmptyString -> match_here (m ++ rest) = Some (g, rest) ->
  findall_from 0 (m ++ rest) = cons g (findall_from 0 rest).
Proof.
  intros Hm Hmatch. destruct m as [|x m]; [congruence|].
  cbn [append] in *. cbn [findall_from]. rewrite Hmatch. f_equal.
  replace (String.length (String x (m ++ rest)) - String.length rest - 1)%nat
    with (String.length m) by (cbn [String.length]; rewrite length_append; lia).
  apply findall_from_skip.
Qed.

Lemma not_occurs_no_match (s : string) : ~ occurs_at_head s -> match_here s = None.
Proof.
  intros H. destruct (match_here s) as [[g r]|] eqn:E; [exfalso | reflexivity].
  apply H. destruct (match_here_sound _ _ _ E) as [tail [Hs Ht]].
  destruct (match_here_group _ _ _ E) as [ds [fs Hg]]. exists g, ds, fs, tail. auto.
Qed.

(** [re.findall] returns the matches of the text. *)
Lemma matches_complete (s : string) (l : list string) :
  matches_of s l -> findall s = l.
Proof.
  unfold findall. induction 1 as [s Hno | before g ds fs sp1 unit sp2 c rest gs
                                    Hg H1 H2 Hu Hc Hleft Hrest IH].
  - now apply findall_nil_iff.
  - rewrite findall_from_before
      by (intros b1 b2 Hb Hne; apply not_occurs_no_match; now apply (Hleft b1 b2)).
    pose proof (match_here_end g ds fs sp1 unit sp2 c rest Hg H1 H2 Hu Hc) as Hm.
    assert (Hs : g ++ sp1 ++ unit ++ sp2 ++ String c rest
                 = (g ++ sp1 ++ unit ++ sp2 ++ String c EmptyString) ++ rest).
    { rewrite !append_assoc. reflexivity. }
    rewrite Hs in Hm |- *. rewrite (findall_from_match _ g rest); [now rewrite IH | | exact Hm].
    destruct Hg as [ds Hd Hne | ds fs Hd Hne _ _]; destruct ds; try discriminate.
Qed.

(** A text has no occurrence, or a leftmost one. *)
Lemma leftmost_split (s : string) :
  no_occurrence s \/
  exists before g ds fs sp1 unit sp2 c rest,
    s = before ++ g ++ sp1 ++ unit ++ sp2 ++ String c rest /\
    group_text g ds fs /\
    all_chars is_space sp1 = true /\ all_chars is_space sp2 = true /\
    (lower unit = "degree" \/ lower unit = "degrees") /\
    lower_char c = "c"%char /\
    forall b1 b2, before = b1 ++ b2 -> b2 <> EmptyString ->
      ~ occurs_at_head (b2 ++ g ++ sp1 ++ unit ++ sp2 ++ String c rest).
Proof.
  assert (Hhead : forall s0 g r, match_here s0 = Some (g, r) ->
            exists before g ds fs sp1 unit sp2 c rest,
              s0 = before ++ g ++ sp1 ++ unit ++ sp2 ++ String c rest /\
              group_text g ds fs /\
              all_chars is_space sp1 = true /\ all_chars is_space sp2 = true /\
              (lower unit = "degree" \/ lower unit = "degrees") /\
              lower_char c = "c"%char /\
              forall b1 b2, before = b1 ++ b2 -> b2 <> EmptyString ->
                ~ occurs_at_head (b2 ++ g ++ sp1 ++ unit ++ sp2 ++ String c rest)).
  { intros s0 g r E.
    destruct (match_here_parts _ _ _ E) as (ds & fs & sp1 & unit & sp2 & c & Hs & H).
    exists EmptyString, g, ds, fs, sp1, unit, sp2, c, r.
    split; [exact Hs|]. repeat (split; [apply H|]).
    intros b1 b2 Hb Hne. destruct b1; destruct b2; try discriminate; congruence. }
  induction s as [|x s IH].
  - destruct (match_here EmptyString) as [[g r]|] eqn:E; [right; exact (Hhead _ _ _ E)|].
    left. intros before rest H. destruct before; [|discriminate]. cbn in H. subst rest.
    now apply match_here_none.
  - destruct (match_here (String x s)) as [[g r]|] eqn:E; [right; exact (Hhead _ _ _ E)|].
    destruct IH as [Hno | (before & g & ds & fs & sp1 & unit & sp2 & c & rest & Hs & H)].
    + left. intros before rest H. destruct before as [|y before].
      * cbn in H. subst rest. now apply match_here_none.
      * cbn in H. injection H as _ H. exact (Hno before rest H).
    + right. exists (String x before), g, ds, fs, sp1, unit, sp2, c, rest.
      split; [cbn; now rewrite <- Hs|].
      destruct H as (Hg & H1 & H2 & Hu & Hc & Hleft). repeat (split; [assumption|]).
      intros b1 b2 Hb Hne. destruct b1 as [|y b1].
      * cbn in Hb. subst b2. cbn [append]. rewrite <- Hs. now apply match_here_none.
      * cbn in Hb. injection Hb as _ Hb. now apply (Hleft b1 b2).
Qed.

Lemma matches_exist (n : nat) :
  forall s, (String.length s <= n)%nat -> exists l, matches_of s l.
Proof.
  induction n as [|n IH]; intros s Hn;
    destruct (leftmost_split s)
      as [Hno | (before & g & ds & fs & sp1 & unit & sp2 & c & rest & Hs & Hg & H1 & H2
                 & Hu & Hc & Hleft)];
    try (exists nil; now constructor).
  - exfalso. subst s. rewrite !length_append in Hn. cbn in Hn. lia.
  - destruct (IH rest) as [gs Hgs].
    { subst s. rewrite !length_append in Hn. cbn in Hn. lia. }
    exists (cons g gs). subst s. now apply (matches_next before g ds fs).
Qed.

(** The groups that [re.findall] returns are the matches of the text, and
    nothing else is. *)
Lemma findall_matches (s : string) (l : list string) :
  matches_of s l <-> l = findall s.
Proof.
  split.
  - intros H. symmetry. now apply matches_complete.
  - intros ->. destruct (matches_exist (String.length s) s (le_n _)) as [l Hl].
    now rewrite (matches_complete s l Hl).
Qed.

Local Open Scope list_scope.

Lemma findall_from_groups (s : string) :
  forall skip g, In g (findall_from skip s) -> exists ds fs, group_text g ds fs.
Proof.
  induction s as [|c s IH]; intros skip g Hin; [destruct Hin|].
  cbn [findall_from] in Hin. destruct skip as [|k]; [|exact (IH _ _ Hin)].
  destruct (match_here (String c s)) as [[g0 r0]|] eqn:E; [|exact (IH _ _ Hin)].
  destruct Hin as [<- | Hin]; [exact (match_here_group _ _ _ E) | exact (IH _ _ Hin)].
Qed.

(** The floats of the groups of a text: [float] raises for none. *)
Lemma floats_of_groups (l : list string) :
  (forall g, In g l -> exists ds fs, group_text g ds fs) ->
  exists vs, floats_of l = Some vs /\ map py_float l = map Some vs.
Proof.
  induction l as [|g l IH]; intros H; [exists []; auto|].
  destruct (H g (or_introl eq_refl)) as [ds [fs Hg]].
  destruct IH as [vs [Hvs Hmap]]; [intros g' Hg'; apply H; now right|].
  exists (of_Q (decimal ds fs 0) :: vs). cbn [floats_of map].
  rewrite (py_float_group g ds fs Hg), Hvs, Hmap. auto.
Qed.

(** *** The greatest of floats that are numbers *)

Definition is_nan (x : PyFloat) : bool :=
  match x with NaN => true | _ => false end.

Lemma of_Q_not_nan (q : Q) : is_nan (of_Q q) = false.
Proof. unfold of_Q. destruct (overflows _); [destruct (Qle_bool 0 q)|]; reflexivity. Qed.

Lemma gt_irrefl (x : PyFloat) : gt x x = false.
Proof.
  destruct x; try reflexivity. cbn. unfold Qlt_bool.
  assert (H : Qle_bool q q = true) by (apply Qle_bool_iff; apply Qle_refl).
  now rewrite H.
Qed.

Lemma gt_asym (x y : PyFloat) : gt x y = true -> gt y x = false.
Proof.
  destruct x as [qx| | |], y as [qy| | |]; cbn; try discriminate; try reflexivity.
  intros H. apply Qlt_bool_iff in H. apply negb_false_iff. apply Qle_bool_iff.
  now apply Qlt_le_weak.
Qed.

(** Among numbers, "not above" is transitive. *)
Lemma not_gt_trans (x y z : PyFloat) :
  is_nan x = false -> is_nan y = false -> is_nan z = false ->
  gt x y = false -> gt y z = false -> gt x z = false.
Proof.
  destruct x as [qx| | |], y as [qy| | |], z as [qz| | |]; cbn;
    try discriminate; try reflexivity; intros _ _ _ H1 H2.
  apply negb_false_iff in H1, H2. apply Qle_bool_iff in H1, H2.
  apply negb_false_iff. apply Qle_bool_iff. now apply Qle_trans with qy.
Qed.

Lemma py_max_in (l : list PyFloat) : forall best, In (py_max best l) (best :: l).
Proof.
  induction l as [|y l IH]; intros best; [now left|].
  cbn [py_max]. destruct (IH (if gt y best then y else best)) as [H | H].
  - rewrite <- H. destruct (gt y best); [right; now left | now left].
  - right. now right.
Qed.

Definition numbers (l : list PyFloat) : Prop := forall x, In x l -> is_nan x = false.

(** [max] returns an element that none of the others is above. *)
Lemma py_max_greatest (l : list PyFloat) :
  forall best, numbers (best :: l) ->
  forall x, In x (best :: l) -> gt x (py_max best l) = false.
Proof.
  induction l as [|y l IH]; intros best Hn x Hx.
  - destruct Hx as [<- | []]. apply gt_irrefl.
  - cbn [py_max]. set (best' := if gt y best then y else best).
    assert (Hn' : numbers (best' :: l)).
    { intros z [<- | Hz].
      - unfold best'. destruct (gt y best); apply Hn; [right; now left | now left].
      - apply Hn. right. now right. }
    assert (Hm : is_nan (py_max best' l) = false) by (apply Hn'; apply py_max_in).
    assert (Hbest' : gt best' (py_max best' l) = false) by (apply (IH best' Hn'); now left).
    destruct Hx as [<- | [<- | Hx]].
    + apply (not_gt_trans best best' (py_max best' l)); try assumption.
      * apply Hn. now left.
      * apply Hn'. now left.
      * unfold best'. destruct (gt y best) eqn:E; [now apply gt_asym | apply gt_irrefl].
    + apply (not_gt_trans y best' (py_max best' l)); try assumption.
      * apply Hn. right. now left.
      * apply Hn'. now left.
      * unfold best'. destruct (gt y best) eqn:E; [apply gt_irrefl | exact E].
    + apply (IH best' Hn'). now right.
Qed.

Lemma floats_are_numbers (l : list string) (vs : list PyFloat) :
  (forall g, In g l -> exists ds fs, group_text g ds fs) ->
  map py_float l = map Some vs -> numbers vs.
Proof.
  revert vs. induction l as [|g l IH]; intros vs Hg Hmap; destruct vs as [|v vs];
    try discriminate; [intros x []|].
  cbn [map] in Hmap. injection Hmap as Hv Hmap.
  destruct (Hg g (or_introl eq_refl)) as [ds [fs Hgt]].
  rewrite (py_float_group g ds fs Hgt) in Hv. injection Hv as <-.
  intros x [<- | Hx]; [apply of_Q_not_nan|].
  apply (IH vs); [intros g' Hg'; apply Hg; now right | exact Hmap | exact Hx].
Qed.

(** *** The loop over the lines *)

Lemma scan_lines_first (pre : list string) (line : string) (post : list string)
  (v : PyFloat) :
  (forall l, In l pre -> parse_cpu_line l = NextLine) ->
  parse_cpu_line line = Return v ->
  scan_lines (pre ++ line :: post) = Some v.
Proof.
  intros Hpre Hline. induction pre as [|l pre IH]; cbn [app scan_lines].
  - now rewrite Hline.
  - rewrite (Hpre l) by now left. apply IH. intros l' Hl'. apply Hpre. now right.
Qed.

Lemma scan_lines_none (lines : list string) :
  scan_lines lines = None <-> forall l, In l lines -> parse_cpu_line l = NextLine.
Proof.
  induction lines as [|l lines IH]; cbn [scan_lines].
  - split; [intros _ l [] | reflexivity].
  - destruct (parse_cpu_line l) eqn:E.
    + split; [discriminate|]. intros H. specialize (H l (or_introl eq_refl)). congruence.
    + rewrite IH. split.
      * intros H l' [<- | Hl']; [exact E | now apply H].
      * intros H l' Hl'. apply H. now right.
Qed.

Lemma prefix_shorter (a b s : string) :
  String.prefix (String.append a b) s = true -> String.prefix a s = true.
Proof.
  revert s. induction a as [|c a IH]; intros s H; [destruct s; reflexivity|].
  destruct s as [|d s]; [discriminate|]. cbn in H |- *.
  destruct (ascii_dec c d); [now apply IH | discriminate].
Qed.

Lemma contains_shorter (a b s : string) :
  contains (String.append a b) s = true -> contains a s = true.
Proof.
  induction s as [|d s IH]; cbn [contains]; intros H.
  - apply orb_true_iff in H. destruct H as [H | H]; [|discriminate].
    apply orb_true_iff. left. exact (prefix_shorter a b _ H).
  - apply orb_true_iff in H. apply orb_true_iff. destruct H as [H | H].
    + left. exact (prefix_shorter a b _ H).
    + right. now apply IH.
Qed.

(** What a line that returns is made of. *)
Lemma parse_cpu_line_return (raw : string) (v : PyFloat) :
  parse_cpu_line raw = Return v ->
  let line := strip raw in
  let temp_str := strip (last (split "|" line) EmptyString) in
  contains "CPU" (upper line) = true /\
  contains "TEMP" (upper line) = true /\
  (((5 <= List.length (split "|" line))%nat /\
    contains "degrees" (lower temp_str) = true /\
    py_float (hd EmptyString (split_ws temp_str)) = Some v) \/
   (exists g ds fs before tail,
      search line = Some g /\ group_text g ds fs /\ v = of_Q (decimal ds fs 0) /\
      line = String.append before (String.append g tail) /\ reads_degrees_C tail /\
      forall b1 b2, before = String.append b1 b2 -> b2 <> EmptyString ->
        ~ occurs_at_head (String.append b2 (String.append g tail)))).
Proof.
  unfold parse_cpu_line. cbv zeta.
  set (line := strip raw). set (temp_str := strip (last (split "|" line) EmptyString)).
  destruct (contains "CPU" (upper line)) eqn:Hcpu; [|discriminate].
  destruct (contains "TEMP" (upper line)) eqn:Htemp; [|discriminate]. cbn [andb].
  assert (Hpattern : pattern_in_line line = Return v ->
            exists g ds fs before tail,
              search line = Some g /\ group_text g ds fs /\ v = of_Q (decimal ds fs 0) /\
              line = String.append before (String.append g tail) /\ reads_degrees_C tail /\
              forall b1 b2, before = String.append b1 b2 -> b2 <> EmptyString ->
                ~ occurs_at_head (String.append b2 (String.append g tail))).
  { unfold pattern_in_line. destruct (search line) as [g|] eqn:Hs; [|discriminate].
    destruct (search_group line g Hs) as [ds [fs Hg]].
    destruct (search_leftmost line g Hs) as (before & tail & Hline & Htail & Hleft).
    rewrite (py_float_group g ds fs Hg). intros H. injection H as <-.
    exists g, ds, fs, before, tail. repeat split; try assumption; reflexivity. }
  destruct (Nat.leb_spec 5 (List.length (split "|" line))) as [Hlen | Hlen].
  - destruct (contains "degrees C" (lower temp_str) || contains "degrees" (lower temp_str))
      eqn:Hdeg.
    + destruct (py_float (hd EmptyString (split_ws temp_str))) as [v0|] eqn:Hf;
        [|discriminate].
      intros H. injection H as <-. split; [reflexivity|]. split; [reflexivity|].
      left. split; [exact Hlen|]. split; [|reflexivity].
      apply orb_true_iff in Hdeg. destruct Hdeg as [Hdeg | Hdeg]; [|exact Hdeg].
      exact (contains_shorter "degrees" " C" _ Hdeg).
    + intros H. split; [reflexivity|]. split; [reflexivity|]. right. now apply Hpattern.
  - intros H. split; [reflexivity|]. split; [reflexivity|]. right. now apply Hpattern.
Qed.

(** *** What a line yields, in the words of the contract *)

Definition value_of (outcome : LineOutcome) : option PyFloat :=
  match outcome with
  | Return v => Some v
  | NextLine => None
  end.

(** The line holds "CPU" and "TEMP", in either case. *)
Definition names_cpu_temp (line : string) : Prop :=
  contains "CPU" (upper line) = true /\ contains "TEMP" (upper line) = true.

Definition last_field (line : string) : string :=
  strip (last (split "|" line) EmptyString).

(** The line has five fields or more between pipes, and the last one holds
    "degrees" in either case. *)
Definition five_fields_in_degrees (line : string) : Prop :=
  (5 <= List.length (split "|" line))%nat /\
  contains "degrees" (lower (last_field line)) = true.

(** What a line, stripped, yields: nothing if it does not name the CPU
    temperature; with five fields in degrees, the [float] of the first word
    of the last field, or nothing when that word is no number; otherwise the
    number of the leftmost "<number> degree(s) C" of the line, or nothing
    when the line has none. *)
Inductive line_yields (line : string) : option PyFloat -> Prop :=
| yields_other :
    ~ names_cpu_temp line ->
    line_yields line None
| yields_field :
    names_cpu_temp line -> five_fields_in_degrees line ->
    line_yields line (py_float (hd EmptyString (split_ws (last_field line))))
| yields_pattern (before g ds fs tail : string) :
    names_cpu_temp line -> ~ five_fields_in_degrees line ->
    line = String.append before (String.append g tail) ->
    group_text g ds fs -> reads_degrees_C tail ->
    (forall b1 b2, before = String.append b1 b2 -> b2 <> EmptyString ->
       ~ occurs_at_head (String.append b2 (String.append g tail))) ->
    line_yields line (Some (of_Q (decimal ds fs 0)))
| yields_nothing :
    names_cpu_temp line -> ~ five_fields_in_degrees line -> no_occurrence line ->
    line_yields line None.

Lemma pattern_in_line_yields (line : string) :
  names_cpu_temp line -> ~ five_fields_in_degrees line ->
  line_yields line (value_of (pattern_in_line line)).
Proof.
  intros Hname Hnot. unfold pattern_in_line.
  destruct (search line) as [g|] eqn:Hs.
  - destruct (search_group line g Hs) as [ds [fs Hg]].
    destruct (search_leftmost line g Hs) as (before & tail & Hline & Htail & Hleft).
    rewrite (py_float_group g ds fs Hg). cbn [value_of].
    now apply (yields_pattern line before g ds fs tail).
  - cbn [value_of]. apply yields_nothing; [exact Hname | exact Hnot|].
    exact (search_none line Hs).
Qed.

(** The loop body does to a line what the contract says. *)
Lemma parse_cpu_line_yields (raw : string) :
  line_yields (strip raw) (value_of (parse_cpu_line raw)).
Proof.
  unfold parse_cpu_line. cbv zeta. set (line := strip raw).
  destruct (contains "CPU" (upper line)) eqn:Hcpu;
    [|apply yields_other; intros [H _]; congruence].
  destruct (contains "TEMP" (upper line)) eqn:Htemp;
    [|apply yields_other; intros [_ H]; congruence].
  cbn [andb].
  assert (Hname : names_cpu_temp line) by (split; assumption).
  destruct (Nat.leb_spec 5 (List.length (split "|" line))) as [Hlen | Hlen].
  - fold (last_field line).
    destruct (contains "degrees C" (lower (last_field line))
              || contains "degrees" (lower (last_field line))) eqn:Hdeg.
    + assert (Hfive : five_fields_in_degrees line).
      { split; [exact Hlen|]. apply orb_true_iff in Hdeg.
        destruct Hdeg as [Hdeg | Hdeg]; [|exact Hdeg].
        exact (contains_shorter "degrees" " C" _ Hdeg). }
      replace (value_of
                 match py_float (hd EmptyString (split_ws (last_field line))) with
                 | Some v => Return v
                 | None => NextLine
                 end)
        with (py_float (hd EmptyString (split_ws (last_field line))))
        by (destruct (py_float _); reflexivity).
      now apply yields_field.
    + apply pattern_in_line_yields; [exact Hname|]. intros [_ H].
      apply orb_false_iff in Hdeg. destruct Hdeg as [_ Hdeg]. congruence.
  - apply pattern_in_line_yields; [exact Hname|]. intros [H _]. lia.
Qed.

(** A line yields one thing. *)
Lemma line_yields_unique (line : string) (o1 o2 : option PyFloat) :
  line_yields line o1 -> line_yields line o2 -> o1 = o2.
Proof.
  intros H1 H2.
  destruct H1 as [Hn1 | Hn1 Hf1 | b1 g1 ds1 fs1 t1 Hn1 Hf1 Hl1 Hg1 Ht1 Hleft1 | Hn1 Hf1 Hno1];
    destruct H2 as [Hn2 | Hn2 Hf2 | b2 g2 ds2 fs2 t2 Hn2 Hf2 Hl2 Hg2 Ht2 Hleft2 | Hn2 Hf2 Hno2];
    try reflexivity; try contradiction.
  - pose proof (search_complete b1 g1 ds1 fs1 t1 Hg1 Ht1 Hleft1) as S1.
    pose proof (search_complete b2 g2 ds2 fs2 t2 Hg2 Ht2 Hleft2) as S2.
    rewrite <- Hl1 in S1. rewrite <- Hl2 in S2.
    assert (Hg : g1 = g2) by congruence. subst g2.
    pose proof (py_float_group g1 ds1 fs1 Hg1) as P1.
    pose proof (py_float_group g1 ds2 fs2 Hg2) as P2. congruence.
  - exfalso. apply (Hno2 b1 (String.append g1 t1) Hl1). now exists g1, ds1, fs1, t1.
  - exfalso. apply (Hno1 b2 (String.append g2 t2) Hl2). now exists g2, ds2, fs2, t2.
Qed.

Lemma parse_cpu_line_iff (raw : string) (o : option PyFloat) :
  line_yields (strip raw) o <-> value_of (parse_cpu_line raw) = o.
Proof.
  split.
  - intros H. exact (line_yields_unique _ _ _ (parse_cpu_line_yields raw) H).
  - intros <-. apply parse_cpu_line_yields.
Qed.

Lemma highest_in_text_spec (text : string) :
  (findall text = [] -> highest_in_text text = None) /\
  (findall text <> [] ->
   exists t ts,
     map py_float (findall text) = map Some (t :: ts) /\
     highest_in_text text = Some (py_max t ts) /\
     In (py_max t ts) (t :: ts) /\
     forall x, In x (t :: ts) -> gt x (py_max t ts) = false).
Proof.
  unfold highest_in_text. split.
  - intros H. now rewrite H.
  - intros Hne.
    assert (Hg : forall g, In g (findall text) -> exists ds fs, group_text g ds fs).
    { intros g. apply findall_from_groups. }
    destruct (floats_of_groups (findall text) Hg) as [vs [Hvs Hmap]].
    destruct (findall text) as [|m ms] eqn:E; [congruence|].
    rewrite Hvs. destruct vs as [|t ts]; [discriminate|].
    exists t, ts. split; [exact Hmap|]. split; [reflexivity|].
    split; [apply py_max_in|].
    apply py_max_greatest. exact (floats_are_numbers (m :: ms) (t :: ts) Hg Hmap).
Qed.

(** *** The caller of the parser *)

(** The calls of the dispatcher for the critical temperature. *)
Definition critical_dispatches (w : World) : list Dispatch :=
  filter (fun d => String.eqb (dispatch_alert_type d) "temperature_critical") (dispatched w).

Definition store_change (w : World) (al : list ActiveAlert) (n : nat)
  (ds : list Dispatch) (os : list Delivery) : World :=
  set_outbox (outbox w ++ os)
    (set_dispatched (dispatched w ++ ds) (set_active_alerts al (set_clock_reads n w))).

Lemma store_change_same (w : World) :
  w = store_change w (active_alerts w) (clock_reads w) [] [].
Proof. unfold store_change. destruct w; cbn. now rewrite !app_nil_r. Qed.

Section WithOutside.

Variable bmc : nat -> list string -> Outcome.
Variable clock : nat -> Z.

(** Whatever an activation or a clearing does, it does to the table, the
    clock and the two traces of notifications, and it calls the
    dispatcher for its own alert type only. *)
Lemma activate_shape (server : ServerTarget) (k : string) (m : Message) (w : World) :
  exists al n ds os,
    snd (_activate_alert clock server k m w) = store_change w al n ds os /\
    forall d, In d ds -> dispatch_alert_type d = k.
Proof.
  destruct (live_rows (id server) k w) as [|a [|b l]] eqn:Hlive.
  - destruct (existsb (same_key (id server) k) (active_alerts w)) eqn:Hkey.
    + rewrite (activate_refused clock server k m w Hlive Hkey).
      exists (active_alerts w), (S (S (clock_reads w))), [], []. split; [|intros d []].
      unfold store_change. destruct w; cbn. now rewrite !app_nil_r.
    + rewrite (activate_fresh clock server k m w Hkey). cbn [snd].
      eexists _, _, [mkDispatch (id server) k false], _. split; [reflexivity|].
      intros d [<- | []]. reflexivity.
  - rewrite (activate_live clock server k m w a Hlive). cbn [snd].
    exists (map (fun r => if is_live_for (id server) k r
                          then touch (clock (clock_reads w)) r else r) (active_alerts w)),
      (S (clock_reads w)), [], []. split; [|intros d []].
    unfold store_change. destruct w; cbn. rewrite !app_nil_r. reflexivity.
  - rewrite (activate_many clock server k m w a b l Hlive).
    exists (active_alerts w), (clock_reads w), [], []. split; [|intros d []].
    apply store_change_same.
Qed.

Lemma clear_shape (server : ServerTarget) (k by_ : string) (w : World) :
  exists al n ds os,
    snd (_clear_alert_if_active clock server k by_ w) = store_change w al n ds os /\
    forall d, In d ds -> dispatch_alert_type d = k.
Proof.
  destruct (live_rows (id server) k w) as [|a [|b l]] eqn:Hlive.
  - rewrite (clear_not_live clock server k by_ w Hlive).
    exists (active_alerts w), (clock_reads w), [], []. split; [|intros d []].
    apply store_change_same.
  - rewrite (clear_live clock server k by_ w a Hlive). cbn [snd].
    eexists _, _, [mkDispatch (id server) k true], _. split; [reflexivity|].
    intros d [<- | []]. reflexivity.
  - rewrite (clear_many clock server k by_ w a b l Hlive).
    exists (active_alerts w), (clock_reads w), [], []. split; [|intros d []].
    apply store_change_same.
Qed.

Lemma fan_requests_store_change (w : World) al n ds os :
  fan_requests (store_change w al n ds os) = fan_requests w.
Proof. destruct w; reflexivity. Qed.

Lemma critical_dispatches_store_change (w : World) al n ds os :
  (forall d, In d ds -> dispatch_alert_type d <> "temperature_critical") ->
  critical_dispatches (store_change w al n ds os) = critical_dispatches w.
Proof.
  intros H. unfold critical_dispatches, store_change. destruct w; cbn.
  rewrite filter_app. rewrite (filter_nil _ ds); [apply app_nil_r|].
  intros d Hd. apply String.eqb_neq. now apply H.
Qed.

Lemma fan_requests_apart : apart fan_requests.
Proof. repeat split; intros x w; destruct w; reflexivity. Qed.

Lemma critical_dispatches_apart : apart critical_dispatches.
Proof. repeat split; intros x w; destruct w; reflexivity. Qed.

Lemma check_alerts_keeps_fans (server : ServerTarget) :
  keeps fan_requests (_check_alerts bmc clock server).
Proof.
  apply keeps_check_alerts; [apply fan_requests_apart | |]; intros c x w.
  - destruct (activate_shape server (alert_type_of c) x w) as (al & n & ds & os & -> & _).
    apply fan_requests_store_change.
  - destruct (clear_shape server (alert_type_of c) x w) as (al & n & ds & os & -> & _).
    apply fan_requests_store_change.
Qed.

Lemma check_alerts_keeps_critical (server : ServerTarget) :
  keeps critical_dispatches (_check_alerts bmc clock server).
Proof.
  apply keeps_check_alerts; [apply critical_dispatches_apart | |]; intros c x w.
  - destruct (activate_shape server (alert_type_of c) x w) as (al & n & ds & os & -> & Hd).
    apply critical_dispatches_store_change. intros d Hin. rewrite (Hd d Hin).
    destruct c; discriminate.
  - destruct (clear_shape server (alert_type_of c) x w) as (al & n & ds & os & -> & Hd).
    apply critical_dispatches_store_change. intros d Hin. rewrite (Hd d Hin).
    destruct c; discriminate.
Qed.

Lemma check_alerts_keeps_critical_rows (server : ServerTarget) (sid : Z) :
  keeps (rows_of sid "temperature_critical") (_check_alerts bmc clock server).
Proof.
  apply keeps_check_alerts; [apply rows_apart | |]; intros c x;
    [apply keeps_activate | apply keeps_clear]; destruct c; discriminate.
Qed.

(** The cycle when no temperature is read: the queries, then the checks
    and the stamp. *)
Definition cycle_without_temperature (server : ServerTarget) : M unit :=
  bind (query_fans bmc) (fun _ =>
  bind (_check_alerts bmc clock server) (fun _ =>
  bind (now clock) (fun t => stamp_last_successful_poll (id server) t))).

Lemma poll_body_without_temperature (server : ServerTarget) (w w1 : World)
  (temperatures : string) :
  query_temperatures bmc w = (Ok temperatures, w1) ->
  _parse_cpu_temperature temperatures = None ->
  poll_body bmc clock server w = cycle_without_temperature server w1.
Proof.
  intros Hq Hparse. unfold poll_body, cycle_without_temperature, bind.
  rewrite Hq, Hparse. destruct (query_fans bmc w1) as [[fans|e] w2]; reflexivity.
Qed.

Lemma cycle_without_temperature_keeps {X} (part : World -> X) (server : ServerTarget) :
  apart part -> keeps part (_check_alerts bmc clock server) ->
  keeps part (cycle_without_temperature server).
Proof.
  intros Hp Hc. unfold cycle_without_temperature, query_fans.
  apply keeps_bind; [now apply keeps_run | intros _].
  apply keeps_bind; [exact Hc | intros _].
  apply keeps_bind; [now apply keeps_now | intros t]. now apply keeps_stamp.
Qed.

Lemma poll_skips (server : ServerTarget) (w w1 : World) (temperatures : string) :
  query_temperatures bmc w = (Ok temperatures, w1) ->
  _parse_cpu_temperature temperatures = None ->
  let w' := snd (poll_body bmc clock server w) in
  fan_requests w' = fan_requests w /\
  critical_dispatches w' = critical_dispatches w /\
  forall sid, rows_of sid "temperature_critical" w' = rows_of sid "temperature_critical" w.
Proof.
  intros Hq Hparse w'. unfold w'.
  rewrite (poll_body_without_temperature server w w1 temperatures Hq Hparse).
  assert (Hw1 : w1 = set_ipmi_calls (ipmi_calls w ++ [["sdr"; "type"; "Temperature"]]) w).
  { pose proof (run_world bmc ["sdr"; "type"; "Temperature"] w) as H.
    unfold query_temperatures in Hq. now rewrite Hq in H. }
  split; [|split].
  - rewrite (cycle_without_temperature_keeps fan_requests server fan_requests_apart
               (check_alerts_keeps_fans server) w1).
    subst w1. destruct w; reflexivity.
  - rewrite (cycle_without_temperature_keeps critical_dispatches server
               critical_dispatches_apart (check_alerts_keeps_critical server) w1).
    subst w1. destruct w; reflexivity.
  - intros sid.
    rewrite (cycle_without_temperature_keeps (rows_of sid "temperature_critical") server
               (rows_apart sid _) (check_alerts_keeps_critical_rows server sid) w1).
    subst w1. destruct w; reflexivity.
Qed.

Lemma yields_none_next (l : string) :
  line_yields (strip l) None <-> parse_cpu_line l = NextLine.
Proof.
  rewrite parse_cpu_line_iff. destruct (parse_cpu_line l); cbn; split; congruence.
Qed.

Lemma yields_some_return (l : string) (v : PyFloat) :
  line_yields (strip l) (Some v) <-> parse_cpu_line l = Return v.
Proof.
  rewrite parse_cpu_line_iff. destruct (parse_cpu_line l); cbn; split; congruence.
Qed.

(** C8, as the code has it.  The parser returns the value of the first
    line that yields one.  What a line yields is fixed by the line, and the
    loop body computes it: a line yields a value only if it holds "CPU" and
    "TEMP" in either case; for such a line of five fields or more whose
    last field holds "degrees" in either case, whatever the unit after it,
    the value is the [float] of the first word of that field, and the line
    yields nothing when that word is no number; for any other such line the
    value is the number of the leftmost "<number> degree(s) C" in the line,
    the unit in either case and white space allowed around the word, and the
    line yields nothing when it has no such occurrence.  When no line yields
    a value the parser returns the greatest number over the matches of
    "<number> degree(s) C" in the text, taken from left to right, each after
    the end of the one before, which is what [re.findall] returns; and none
    exactly when the text has no such occurrence; it returns none in no
    other case but the empty text.  When it returns none, the cycle asks for
    no fan speed, and neither raises nor clears the critical-temperature
    alert. *)
Theorem parse_cpu_temperature_contract (text : string) :
  let lines := split newline (strip text) in
  (forall raw o, line_yields (strip raw) o <-> value_of (parse_cpu_line raw) = o) /\
  (forall line o1 o2, line_yields line o1 -> line_yields line o2 -> o1 = o2) /\
  (forall pre line post v,
     text <> EmptyString -> lines = pre ++ line :: post ->
     (forall l, In l pre -> line_yields (strip l) None) ->
     line_yields (strip line) (Some v) ->
     _parse_cpu_temperature text = Some v) /\
  (forall gs, matches_of text gs <-> gs = findall text) /\
  (text <> EmptyString ->
   (forall l, In l lines -> line_yields (strip l) None) ->
   (findall text = [] -> _parse_cpu_temperature text = None) /\
   (findall text <> [] ->
    exists t ts,
      map py_float (findall text) = map Some (t :: ts) /\
      _parse_cpu_temperature text = Some (py_max t ts) /\
      In (py_max t ts) (t :: ts) /\
      forall x, In x (t :: ts) -> gt x (py_max t ts) = false)) /\
  (forall g, In g (findall text) ->
     exists before tail,
       text = String.append before (String.append g tail) /\ reads_degrees_C tail) /\
  (findall text = [] <->
   forall before rest, text = String.append before rest -> ~ occurs_at_head rest) /\
  (_parse_cpu_temperature text = None <->
   text = EmptyString \/
   ((forall l, In l lines -> line_yields (strip l) None) /\ findall text = [])) /\
  (forall server w w1,
     query_temperatures bmc w = (Ok text, w1) ->
     _parse_cpu_temperature text = None ->
     let w' := snd (poll_body bmc clock server w) in
     fan_requests w' = fan_requests w /\
     critical_dispatches w' = critical_dispatches w /\
     forall sid, rows_of sid "temperature_critical" w' = rows_of sid "temperature_critical" w).
Proof.
  intros lines.
  assert (Hunfold : text <> EmptyString ->
            _parse_cpu_temperature text
            = match scan_lines lines with
              | Some v => Some v
              | None => highest_in_text text
              end).
  { intros Hne. unfold _parse_cpu_temperature.
    destruct text as [|c text']; [congruence | reflexivity]. }
  assert (Hfall : text <> EmptyString ->
            (forall l, In l lines -> parse_cpu_line l = NextLine) ->
            _parse_cpu_temperature text = highest_in_text text).
  { intros Hne Hall. rewrite (Hunfold Hne). apply scan_lines_none in Hall.
    now rewrite Hall. }
  assert (Hdec : text = EmptyString \/ text <> EmptyString).
  { destruct text; [now left | right; discriminate]. }
  assert (Hnext : forall ls : list string,
            (forall l, In l ls -> line_yields (strip l) None) ->
            forall l, In l ls -> parse_cpu_line l = NextLine).
  { intros ls H l Hl. apply yields_none_next. now apply H. }
  split; [|split; [|split; [|split; [|split; [|split; [|split; [|split]]]]]]].
  - intros raw o. apply parse_cpu_line_iff.
  - apply line_yields_unique.
  - intros pre line post v Hne Hlines Hpre Hline. rewrite (Hunfold Hne), Hlines.
    apply yields_some_return in Hline.
    now rewrite (scan_lines_first pre line post v (Hnext pre Hpre) Hline).
  - apply findall_matches.
  - intros Hne Hall. rewrite (Hfall Hne (Hnext lines Hall)). apply highest_in_text_spec.
  - intros g Hg. exact (findall_from_sound text 0 g Hg).
  - apply findall_nil_iff.
  - split.
    + intros Hnone. destruct Hdec as [He | Hne]; [now left | right].
      assert (Hall : forall l, In l lines -> parse_cpu_line l = NextLine).
      { apply scan_lines_none. rewrite (Hunfold Hne) in Hnone.
        destruct (scan_lines lines); [discriminate | reflexivity]. }
      split; [intros l Hl; apply yields_none_next; now apply Hall|].
      rewrite (Hfall Hne Hall) in Hnone.
      destruct (highest_in_text_spec text) as [_ H2].
      destruct (findall text) as [|m ms] eqn:Ef; [reflexivity|].
      destruct H2 as (t & ts & _ & Hh & _); [discriminate|]. congruence.
    + intros [-> | [Hall Hf]]; [reflexivity|].
      destruct Hdec as [-> | Hne]; [reflexivity|].
      rewrite (Hfall Hne (Hnext lines Hall)). now apply highest_in_text_spec.
  - intros server w w1 Hq Hparse. exact (poll_skips server w w1 text Hq Hparse).
Qed.

End WithOutside.

Definition fahrenheit_text : string := "CPU Temp | 04h | ok | 7.1 | 50 degrees F".

(** C8 as stated does not hold: a line of a CPU sensor in Fahrenheit has no
    "degrees C" on it, the text has no "<number> degrees C" at all, and the
    parser returns 50 all the same. *)
Lemma parse_cpu_temperature_counterexample :
  ~ (findall fahrenheit_text = [] -> _parse_cpu_temperature fahrenheit_text = None).
Proof.
  intros H. specialize (H eq_refl). vm_compute in H. discriminate H.
Qed.

Lemma parse_cpu_temperature_contract_witness :
  fahrenheit_text <> EmptyString /\
  parse_cpu_line fahrenheit_text = Return (Fin 50) /\
  _parse_cpu_temperature fahrenheit_text = Some (Fin 50).
Proof.
  assert (Hne : fahrenheit_text <> EmptyString) by discriminate.
  assert (Hline : parse_cpu_line fahrenheit_text = Return (Fin 50))
    by (vm_compute; reflexivity).
  split; [exact Hne|]. split; [exact Hline|].
  destruct (parse_cpu_temperature_contract (fun _ _ => Broken "") Z.of_nat fahrenheit_text)
    as (_ & _ & H & _).
  apply (H [] fahrenheit_text [] (Fin 50) Hne);
    [reflexivity | intros l [] | apply yields_some_return; exact Hline].
Defined.

End ParserFacts.

(** * Further properties of the code *)

(** ** The detectors of [_check_alerts] *)

Module DetectorFacts.

Import PyStr Model Scheduler RegexFacts.

Local Open Scope string_scope.

(** [needle in hay] is what it says: the needle stands somewhere in the
    text. *)
Lemma prefix_split (a s : string) :
  String.prefix a s = true <-> exists post, s = a ++ post.
Proof.
  revert s. induction a as [|c a IH]; intros s.
  - split; [intros _; now exists s | intros _; destruct s; reflexivity].
  - destruct s as [|d s]; cbn.
    + split; [discriminate | intros [post H]; discriminate].
    + destruct (ascii_dec c d) as [<- | n].
      * rewrite IH. split; intros [post H]; exists post; [now rewrite H | now injection H].
      * split; [discriminate | intros [post H]; cbn in H; congruence].
Qed.

Lemma contains_split (needle hay : string) :
  contains needle hay = true <-> exists pre post, hay = pre ++ needle ++ post.
Proof.
  induction hay as [|d hay IH]; cbn [contains]; rewrite orb_true_iff, prefix_split.
  - split.
    + intros [[post H] | H]; [now exists EmptyString, post | discriminate].
    + intros [pre [post H]]. left. destruct pre; [now exists post | discriminate].
  - rewrite IH. split.
    + intros [[post H] | [pre [post H]]]; [now exists EmptyString, post|].
      exists (String d pre), post. cbn. now rewrite H.
    + intros [pre [post H]]. destruct pre as [|x pre]; [left; now exists post|].
      right. exists pre, post. cbn in H. now injection H.
Qed.

Lemma lower_append (a b : string) : lower (a ++ b) = lower a ++ lower b.
Proof. unfold lower. induction a as [|c a IH]; [reflexivity|]. cbn. now rewrite IH. Qed.

Lemma contains_any_split (keywords : list string) (s : string) :
  contains_any keywords s = true <->
  exists kw pre post, In kw keywords /\ s = pre ++ kw ++ post.
Proof.
  unfold contains_any. rewrite existsb_exists. split.
  - intros [kw [Hin H]]. apply contains_split in H. destruct H as [pre [post H]].
    now exists kw, pre, post.
  - intros (kw & pre & post & Hin & H). exists kw. split; [exact Hin|].
    apply contains_split. now exists pre, post.
Qed.

Lemma contains_any_wider (keywords : list string) (s pre post : string) :
  contains_any keywords (lower s) = true ->
  contains_any keywords (lower (pre ++ s ++ post)) = true.
Proof.
  rewrite !contains_any_split. intros (kw & a & b & Hin & H).
  exists kw, (lower pre ++ a), (b ++ lower post). split; [exact Hin|].
  rewrite !lower_append, H, !append_assoc. reflexivity.
Qed.

Lemma append_not_empty (pre s post : string) :
  is_empty s = false -> is_empty (pre ++ s ++ post) = false.
Proof.
  intros H. destruct pre; [|reflexivity]. destruct s; [discriminate | reflexivity].
Qed.

(** One line of SDR output counts as an error by its third column alone. *)
Lemma line_has_error_status (error_indicators : list string) (raw_line : string) :
  line_has_error error_indicators raw_line = true <->
  (3 <= List.length (split "|" (strip raw_line)))%nat /\
  lower (strip (nth 2 (split "|" (strip raw_line)) "")) <> "ok".
Proof.
  unfold line_has_error.
  set (line := strip raw_line).
  assert (Hnth : nth 2 (map strip (split "|" line)) "" = strip (nth 2 (split "|" line) ""))
    by (change "" with (strip "") at 1; apply map_nth).
  rewrite length_map, Hnth.
  destruct (is_empty line) eqn:He.
  - destruct line; [|discriminate]. cbn. split; [discriminate | intros [H _]; lia].
  - destruct (Nat.leb_spec 3 (List.length (split "|" line))) as [Hlen | Hlen].
    + destruct (String.eqb_spec (lower (strip (nth 2 (split "|" line) ""))) "ok")
        as [e | n]; cbn [negb].
      * split; [discriminate | intros [_ H]; contradiction].
      * destruct (contains_any _ _); split; auto.
    + split; [discriminate | intros [H _]; lia].
Qed.

(** X1.  [_has_errors] reads the status column and nothing else: the list
    of indicators it is given has no effect on its answer, and the answer
    is [True] exactly when some line of the output has three columns or
    more and a third column that is not "ok" in any case. *)
Theorem has_errors_reads_status_column (status_output : string)
  (error_indicators : list string) :
  _has_errors status_output error_indicators = _has_errors status_output nil /\
  (_has_errors status_output error_indicators = true <->
   exists line,
     In line (split newline (strip status_output)) /\
     (3 <= List.length (split "|" (strip line)))%nat /\
     lower (strip (nth 2 (split "|" (strip line)) "")) <> "ok").
Proof.
  assert (Hsame : forall line,
            line_has_error error_indicators line = line_has_error nil line).
  { intros line. unfold line_has_error.
    destruct (is_empty _); [reflexivity|]. destruct (_ <=? _)%nat; [|reflexivity].
    destruct (negb _); [|reflexivity]. now destruct (contains_any _ _). }
  split.
  - unfold _has_errors. destruct (is_empty status_output); [reflexivity|].
    induction (split newline (strip status_output)) as [|l ls IH]; [reflexivity|].
    cbn. now rewrite Hsame, IH.
  - unfold _has_errors. destruct (is_empty status_output) eqn:He.
    + destruct status_output; [|discriminate]. split; [discriminate|].
      intros [line [Hin [Hlen _]]]. cbn in Hin. destruct Hin as [<- | []].
      cbn in Hlen. lia.
    + rewrite existsb_exists. split.
      * intros [line [Hin H]]. exists line. split; [exact Hin|].
        now apply (line_has_error_status error_indicators).
      * intros [line [Hin H]]. exists line. split; [exact Hin|].
        now apply line_has_error_status.
Qed.

(** X2.  The intrusion and the event detectors are substring tests on the
    lowered output: each answers [True] exactly when one of its keywords
    stands somewhere in it, so an output that holds a flagged output is
    flagged too, whatever is written around it. *)
Theorem keyword_detectors_are_substring_tests :
  (forall out,
     _has_intrusion out = true <->
     exists kw pre post,
       In kw ["intrusion"; "chassis open"; "ns"; "nc"; "cr"]%list /\
       lower out = pre ++ kw ++ post) /\
  (forall out,
     _has_critical_events out = true <->
     exists kw pre post,
       In kw ["critical"; "non-recoverable"; "nr"; "cr"; "error"]%list /\
       lower out = pre ++ kw ++ post) /\
  (forall out pre post,
     _has_intrusion out = true -> _has_intrusion (pre ++ out ++ post) = true) /\
  (forall out pre post,
     _has_critical_events out = true ->
     _has_critical_events (pre ++ out ++ post) = true).
Proof.
  assert (Hiff : forall keywords out,
            contains_any keywords "" = false ->
            (if is_empty out then false else contains_any keywords (lower out)) = true <->
            exists kw pre post, In kw keywords /\ lower out = pre ++ kw ++ post).
  { intros keywords out Hnone. rewrite <- contains_any_split.
    destruct out; [|reflexivity]. cbn [is_empty]. change (lower "") with "".
    rewrite Hnone. reflexivity. }
  assert (Hwide : forall keywords out pre post,
            (if is_empty out then false else contains_any keywords (lower out)) = true ->
            (if is_empty (pre ++ out ++ post) then false
             else contains_any keywords (lower (pre ++ out ++ post))) = true).
  { intros keywords out pre post H. destruct (is_empty out) eqn:He; [discriminate|].
    rewrite (append_not_empty pre out post He). now apply contains_any_wider. }
  repeat split.
  - now apply Hiff.
  - now apply Hiff.
  - now apply Hiff.
  - now apply Hiff.
  - apply Hwide.
  - apply Hwide.
Qed.

End DetectorFacts.

(** ** The fan-out of a notification *)

Module DispatchFacts.

Import PyStr Model Scheduler StoreFacts.

Local Open Scope string_scope.
Local Open Scope list_scope.

(** The channels that a notification of a server reaches: the server lists
    the channel, the channel is enabled, and its provider can be built. *)
Definition reached (server : ServerTarget) (w : World) (ch : NotificationChannel) : bool :=
  match notification_channel_ids server with
  | Some ids => existsb (Z.eqb (channel_id ch)) ids
  | None => false
  end
  && enabled ch
  && match provider_of (fernet w) ch with Ok (Some _) => true | _ => false end.

(** The provider of a channel, in words: the type is one of the four, a
    Telegram channel has a chat id, and the column decrypts; the provider
    holds the plain text. *)
Definition provider_for (key : string -> option string) (ch : NotificationChannel)
  (p : Provider) : Prop :=
  exists plain,
    key (endpoint_encrypted ch) = Some plain /\
    ((channel_type ch = "slack" /\ p = SlackProvider plain) \/
     (channel_type ch = "teams" /\ p = TeamsProvider plain) \/
     (channel_type ch = "discord" /\ p = DiscordProvider plain) \/
     (channel_type ch = "telegram" /\
      exists d, channel_metadata ch = Some d /\ dict_get d "chat_id" "" <> "" /\
                p = TelegramProvider plain (dict_get d "chat_id" ""))).

Lemma build_provider_some (key : string -> option string) (make : string -> Provider)
  (token : string) (p : Provider) :
  build_provider key make token = Ok (Some p) <->
  exists plain, key token = Some plain /\ p = make plain.
Proof.
  unfold build_provider, decrypt. destruct (key token) as [plain|].
  - split.
    + intros H. injection H as <-. now exists plain.
    + intros [plain' [H ->]]. injection H as <-. reflexivity.
  - split; [discriminate | intros [plain [H _]]; discriminate].
Qed.

Lemma provider_of_spec (key : string -> option string) (ch : NotificationChannel)
  (p : Provider) :
  provider_of key ch = Ok (Some p) <-> provider_for key ch p.
Proof.
  unfold provider_of, provider_for.
  destruct (String.eqb_spec (channel_type ch) "slack") as [e | n1].
  { rewrite build_provider_some. split.
    - intros [plain [H ->]]. exists plain. auto 10.
    - intros [plain [H [[_ ->] | [[E _] | [[E _] | [E _]]]]]];
        [eauto | congruence | congruence | congruence]. }
  destruct (String.eqb_spec (channel_type ch) "teams") as [e | n2].
  { rewrite build_provider_some. split.
    - intros [plain [H ->]]. exists plain. auto 10.
    - intros [plain [H [[E _] | [[_ ->] | [[E _] | [E _]]]]]];
        [congruence | eauto | congruence | congruence]. }
  destruct (String.eqb_spec (channel_type ch) "discord") as [e | n3].
  { rewrite build_provider_some. split.
    - intros [plain [H ->]]. exists plain. auto 10.
    - intros [plain [H [[E _] | [[E _] | [[_ ->] | [E _]]]]]];
        [congruence | congruence | eauto | congruence]. }
  destruct (String.eqb_spec (channel_type ch) "telegram") as [e | n4].
  - destruct (channel_metadata ch) as [d|].
    + destruct (dict_get d "chat_id" "") as [|c cs] eqn:Ed; cbn [is_empty].
      * split; [discriminate|].
        intros [plain [H [[E _] | [[E _] | [[E _] | [_ [d' [Hd [Hne _]]]]]]]]];
          try congruence; injection Hd as <-; congruence.
      * rewrite build_provider_some. split.
        -- intros [plain [H ->]]. exists plain. split; [exact H|].
           right. right. right. split; [exact e|]. exists d. rewrite Ed.
           split; [reflexivity|]. split; [discriminate | reflexivity].
        -- intros [plain [H [[E _] | [[E _] | [[E _] | [_ [d' [Hd [_ ->]]]]]]]]];
             try congruence; injection Hd as <-; rewrite Ed; eauto.
    + cbn [is_empty]. split; [discriminate|].
      intros [plain [H [[E _] | [[E _] | [[E _] | [_ [d' [Hd _]]]]]]]]; congruence.
  - split; [discriminate|].
    intros [plain [H [[E _] | [[E _] | [[E _] | [E _]]]]]]; congruence.
Qed.

(** The calls of [notify] stand one to one, in order, for the channels of
    the list whose provider can be built. *)
Lemma deliveries_one_each (key : string -> option string) (n : NotificationMessage)
  (q : NotificationChannel -> bool) (table : list NotificationChannel) :
  Forall2 (fun ch d => provider_of key ch = Ok (Some (provider d)) /\ notification d = n)
    (filter (fun ch => q ch && match provider_of key ch with
                               | Ok (Some _) => true
                               | _ => false
                               end) table)
    (deliveries key n (filter q table)).
Proof.
  unfold deliveries. induction table as [|ch table IH]; [constructor|].
  cbn [filter]. destruct (q ch); cbn [andb flat_map]; [|exact IH].
  destruct (provider_of key ch) as [[p|]|e] eqn:Ep; cbn [app]; [|exact IH | exact IH].
  constructor; [|exact IH]. cbn. auto.
Qed.

(** X3.  A notification reaches the rows of the channel table that the
    server lists, that are enabled and whose provider can be built: the
    type is one of the four, a Telegram channel has a chat id, and the
    endpoint decrypts under the key of the settings.  Each of these rows
    gets one call of [notify], in the order of the table, with the same
    message and a provider that holds the decrypted endpoint; no other call
    is made.  The call of the dispatcher always returns: it records one
    dispatch and never touches the alert table; a channel whose endpoint
    does not decrypt is passed over like one with no provider. *)
Theorem notification_reaches_enabled_listed_channels (server : ServerTarget)
  (alert_type_ : string) (message_ : Message) (is_cleared : bool) (w : World) :
  exists ds,
    _send_alert_notification server alert_type_ message_ is_cleared w
    = (Ok tt,
       set_outbox (outbox w ++ ds)
         (set_dispatched
            (dispatched w ++ [mkDispatch (id server) alert_type_ is_cleared]) w)) /\
    Forall2
      (fun ch d =>
         provider_for (fernet w) ch (provider d) /\
         notification d = make_notification server alert_type_ message_ is_cleared)
      (filter (reached server w) (notification_channels w)) ds /\
    (forall ch,
       reached server w ch = true <->
       (exists ids, notification_channel_ids server = Some ids /\ In (channel_id ch) ids) /\
       enabled ch = true /\
       exists p, provider_for (fernet w) ch p).
Proof.
  exists (sent server alert_type_ message_ is_cleared w).
  split; [apply send_alert_notification_world|]. split.
  - unfold sent, reached.
    destruct (notification_channel_ids server) as [[|i ids]|].
    + rewrite (filter_nil _ (notification_channels w)); [constructor | reflexivity].
    + unfold enabled_channels.
      pose proof (deliveries_one_each (fernet w)
                    (make_notification server alert_type_ message_ is_cleared)
                    (fun c => existsb (Z.eqb (channel_id c)) (i :: ids) && enabled c)
                    (notification_channels w)) as H.
      eapply Forall2_impl; [|exact H].
      intros ch d [Hp Hn]. split; [now apply provider_of_spec | exact Hn].
    + rewrite (filter_nil _ (notification_channels w)); [constructor | reflexivity].
  - intros ch. unfold reached. rewrite !andb_true_iff. split.
    + intros [[Hl He] Hp]. split; [|split; [exact He|]].
      * destruct (notification_channel_ids server) as [ids|]; [|discriminate].
        exists ids. split; [reflexivity|].
        apply existsb_exists in Hl. destruct Hl as [x [Hx E]].
        apply Z.eqb_eq in E. now subst x.
      * destruct (provider_of (fernet w) ch) as [[p|]|e] eqn:Ep; try discriminate.
        exists p. now apply provider_of_spec.
    + intros [[ids [Hids Hin]] [He [p Hp]]]. rewrite Hids. split; [split; [|exact He]|].
      * apply existsb_exists. exists (channel_id ch). split; [exact Hin | apply Z.eqb_refl].
      * apply provider_of_spec in Hp. now rewrite Hp.
Qed.

End DispatchFacts.

(** ** One poll of a server *)

Module PollFacts.

Import PyStr Binary64 FanCurve Parser Ipmi Model Scheduler.
Import StoreFacts CheckFacts StalenessFacts ParserFacts.

Local Open Scope string_scope.
Local Open Scope list_scope.
Local Open Scope Z_scope.

(** A part of the world that the calls of ipmitool, the clock and the fan
    requests have no hand in. *)
Definition steady {X} (part : World -> X) : Prop :=
  (forall l w, part (set_ipmi_calls l w) = part w) /\
  (forall n w, part (set_clock_reads n w) = part w) /\
  (forall l w, part (set_fan_requests l w) = part w).

(** The rows of the other servers. *)
Definition other_servers (sid : Z) (w : World) : list ServerTarget :=
  filter (fun s => negb (id s =? sid)) (servers w).

Lemma steady_store_change {X} (part : World -> X) :
  (forall w al n ds os, part (store_change w al n ds os) = part w) ->
  forall clock server,
    (forall k m, keeps part (_activate_alert clock server k m)) /\
    (forall k by_, keeps part (_clear_alert_if_active clock server k by_)).
Proof.
  intros H clock server. split.
  - intros k m w. destruct (activate_shape clock server k m w) as (al & n & ds & os & E & _).
    now rewrite E.
  - intros k by_ w. destruct (clear_shape clock server k by_ w) as (al & n & ds & os & E & _).
    now rewrite E.
Qed.

Lemma servers_store_change (w : World) al n ds os :
  servers (store_change w al n ds os) = servers w.
Proof. destruct w; reflexivity. Qed.

Lemma ipmi_calls_store_change (w : World) al n ds os :
  ipmi_calls (store_change w al n ds os) = ipmi_calls w.
Proof. destruct w; reflexivity. Qed.

Lemma find_id (sid : Z) (l : list ServerTarget) (server : ServerTarget) :
  find (fun s => id s =? sid) l = Some server -> id server = sid.
Proof. intros H. apply find_some in H. destruct H as [_ H]. now apply Z.eqb_eq. Qed.

Section WithOutside.

Variable bmc : nat -> list string -> Outcome.
Variable clock : nat -> Z.

Section Frame.

Context {X : Type}.
Variable part : World -> X.
Variable server : ServerTarget.
Hypothesis Hsteady : steady part.
Hypothesis Hstamp : forall t, keeps part (stamp_last_successful_poll (id server) t).
Hypothesis Hactivate :
  forall k m, _is_alert_enabled server k = true ->
    keeps part (_activate_alert clock server k m).
Hypothesis Hclear :
  forall k by_, _is_alert_enabled server k = true ->
    keeps part (_clear_alert_if_active clock server k by_).

Lemma steady_run (args : list string) : keeps part (_run bmc args).
Proof. intros w. rewrite run_world. apply Hsteady. Qed.

Lemma steady_now : keeps part (now clock).
Proof. intros w. apply Hsteady. Qed.

Lemma steady_set_fan_speed (rpm : Z) (fan : option string) :
  keeps part (set_fan_speed bmc server rpm fan).
Proof.
  intros w. unfold set_fan_speed.
  destruct (_build_fan_command (vendor server) rpm fan).
  - unfold raw_command. rewrite run_world.
    destruct Hsteady as [H1 [_ H3]]. now rewrite H1, H3.
  - apply Hsteady.
Qed.

Lemma steady_fan_control (cpu_temp : PyFloat) :
  keeps part (fan_control bmc server cpu_temp).
Proof.
  unfold fan_control. destruct (_calculate_target_rpm _ _) as [base_rpm|];
    [|apply keeps_ret].
  apply keeps_bind; [apply steady_set_fan_speed | intros _].
  apply keeps_bind; [apply keeps_read_relationship | intros overrides].
  induction overrides as [|o rest IH]; cbn [apply_overrides]; [apply keeps_ret|].
  destruct (is_empty (fan_identifier o)); [exact IH|].
  destruct (min_rpm o); [|exact IH].
  apply keeps_bind; [|intros _; exact IH].
  destruct (match _get_first_zone_threshold (fan_defaults server) with
            | Some t => le cpu_temp t
            | None => false
            end); apply steady_set_fan_speed.
Qed.

Lemma steady_guarded_check (c : CheckKind) :
  keeps part (guarded_check bmc clock c server).
Proof.
  unfold guarded_check.
  destruct (_is_alert_enabled server (alert_type_of c)) eqn:Hon; [|apply keeps_ret].
  apply keeps_try; [|intros e; apply keeps_log_and_pass|intros a; apply keeps_ret].
  unfold check. apply keeps_bind.
  - destruct c; cbn [query_of];
      repeat (apply keeps_or_else || apply steady_run || apply keeps_ret).
  - intros status. destruct (condition_present c status);
      [now apply Hactivate | now apply Hclear].
Qed.

Lemma steady_check_alerts : keeps part (_check_alerts bmc clock server).
Proof.
  unfold _check_alerts. destruct (no_channels server); [apply keeps_ret|].
  repeat (apply keeps_bind; [apply steady_guarded_check | intros _]).
  apply steady_guarded_check.
Qed.

Lemma steady_poll_body : keeps part (poll_body bmc clock server).
Proof.
  unfold poll_body, query_temperatures, query_fans.
  apply keeps_bind; [apply steady_run | intros temperatures].
  apply keeps_bind; [apply steady_run | intros fans].
  apply keeps_bind.
  - destruct (_parse_cpu_temperature temperatures) as [cpu_temp|]; [|apply keeps_ret].
    apply keeps_bind; [apply steady_fan_control | intros _].
    unfold critical_temperature_check.
    destruct (_is_alert_enabled server "temperature_critical") eqn:Hon; [|apply keeps_ret].
    destruct (ge_Q cpu_temp 80); [now apply Hactivate | now apply Hclear].
  - intros _. apply keeps_bind; [apply steady_check_alerts | intros _].
    apply keeps_bind; [apply steady_now | intros t]. apply Hstamp.
Qed.

Lemma steady_on_poll_error (exc : Exn) : keeps part (on_poll_error clock server exc).
Proof.
  unfold on_poll_error.
  assert (H : forall m,
            keeps part
              (bind (name_in_handler server exc)
                 (fun _ => if _is_alert_enabled server "connectivity"
                           then _activate_alert clock server "connectivity" m
                           else ret tt))).
  { intros m. apply keeps_bind; [apply keeps_name_in_handler | intros _].
    destruct (_is_alert_enabled server "connectivity") eqn:Hon;
      [now apply Hactivate | apply keeps_ret]. }
  destruct exc; try apply H. destruct (_ || _); apply H.
Qed.

Lemma steady_on_poll_success : keeps part (on_poll_success clock server).
Proof.
  unfold on_poll_success.
  destruct (_is_alert_enabled server "connectivity") eqn:Hon; [|apply keeps_ret].
  now apply Hclear.
Qed.

Lemma steady_poll :
  keeps part
    (try_except_else (poll_body bmc clock server) (on_poll_error clock server)
       (fun _ => on_poll_success clock server)).
Proof.
  apply keeps_try; [apply steady_poll_body | apply steady_on_poll_error |].
  intros _. apply steady_on_poll_success.
Qed.

End Frame.

(** *** What a call can raise *)

Definition raises_only {A} (P : Exn -> Prop) (c : M A) : Prop :=
  forall w e w', c w = (Raise e, w') -> P e.

(** An exception that does not come from a commit that was refused. *)
Definition benign (e : Exn) : Prop := e <> IntegrityError /\ e <> PendingRollbackError.

Lemma raises_only_ret {A} (P : Exn -> Prop) (a : A) : raises_only P (ret a).
Proof. intros w e w' H. discriminate H. Qed.

Lemma raises_only_raise {A} (P : Exn -> Prop) (e : Exn) : P e -> raises_only P (@raise A e).
Proof. intros He w e' w' H. injection H as <- _. exact He. Qed.

Lemma raises_only_bind {A B} (P : Exn -> Prop) (c : M A) (f : A -> M B) :
  raises_only P c -> (forall a, raises_only P (f a)) -> raises_only P (bind c f).
Proof.
  intros Hc Hf w e w'. unfold bind. destruct (c w) as [[a|e0] w1] eqn:E.
  - apply Hf.
  - intros H. injection H as <- _. exact (Hc _ _ _ E).
Qed.

Lemma raises_only_or_else (c other : M string) :
  raises_only benign c -> raises_only benign other -> raises_only benign (or_else c other).
Proof.
  intros Hc Ho w e w'. unfold or_else, try_except_else.
  destruct (c w) as [[a|e0] w1] eqn:E; [discriminate|].
  pose proof (Hc _ _ _ E) as Hb.
  destruct e0; unfold raise; try (intros H; injection H as <- _; exact Hb).
  apply Ho.
Qed.

Lemma run_benign (args : list string) : raises_only benign (_run bmc args).
Proof.
  intros w e w'. unfold _run. destruct (bmc _ args); [discriminate| |];
    intros H; injection H as <- _; split; discriminate.
Qed.

Lemma query_benign (k : CheckKind) : raises_only benign (query_of bmc k).
Proof.
  destruct k; cbn [query_of];
    repeat (apply raises_only_or_else || apply run_benign || apply raises_only_ret).
Qed.

Lemma to_int_benign (x : PyFloat) (e : Exn) : to_int x = Raise e -> benign e.
Proof. destruct x; cbn; intros H; try discriminate; injection H as <-; split; discriminate. Qed.

Lemma truediv_benign (a b : Z) (e : Exn) : truediv a b = Raise e -> benign e.
Proof.
  unfold truediv. destruct (overflows _); intros H; [|discriminate].
  injection H as <-. split; discriminate.
Qed.

Lemma build_fan_command_benign (vendor_ : string) (rpm : Z) (fan : option string) (e : Exn) :
  _build_fan_command vendor_ rpm fan = Raise e -> benign e.
Proof.
  unfold _build_fan_command.
  destruct (String.eqb (lower vendor_) "supermicro").
  - destruct (speed_byte rpm) as [b|e0] eqn:Eb; [discriminate|].
    intros H. injection H as <-. revert Eb. unfold speed_byte.
    destruct (rpm =? 0); [discriminate|]. destruct (rpm <=? 2000); [discriminate|].
    destruct (rpm <=? 3500); [discriminate|]. unfold high_speed_byte.
    destruct (truediv rpm 5000) as [x|e1] eqn:E1;
      [|intros H; injection H as <-; exact (truediv_benign _ _ _ E1)].
    destruct (to_int (mul x (Fin 100))) as [p|e2] eqn:E2;
      [|intros H; injection H as <-; exact (to_int_benign _ _ E2)].
    destruct (truediv (Z.min 100 p) 100) as [y|e3] eqn:E3;
      [|intros H; injection H as <-; exact (truediv_benign _ _ _ E3)].
    destruct (to_int (mul y (Fin 100))) as [b|e4] eqn:E4; [discriminate|].
    intros H; injection H as <-; exact (to_int_benign _ _ E4).
  - destruct (String.eqb (lower vendor_) "dell");
      [intros H; injection H as <-; split; discriminate|].
    destruct (String.eqb (lower vendor_) "hp");
      intros H; injection H as <-; split; discriminate.
Qed.

Lemma set_fan_speed_benign (server : ServerTarget) (rpm : Z) (fan : option string) :
  raises_only benign (set_fan_speed bmc server rpm fan).
Proof.
  intros w e w'. unfold set_fan_speed.
  destruct (_build_fan_command (vendor server) rpm fan) as [command|e0] eqn:Eb.
  - apply run_benign.
  - intros H. injection H as <- _. exact (build_fan_command_benign _ _ _ _ Eb).
Qed.

Lemma apply_overrides_benign (server : ServerTarget) (cpu_temp : PyFloat) (base_rpm : Z)
  (threshold : option PyFloat) (overrides : list FanOverride) :
  raises_only benign (apply_overrides bmc server cpu_temp base_rpm threshold overrides).
Proof.
  induction overrides as [|o rest IH]; cbn [apply_overrides]; [apply raises_only_ret|].
  destruct (is_empty (fan_identifier o)); [exact IH|].
  destruct (min_rpm o); [|exact IH].
  apply raises_only_bind; [|intros _; exact IH].
  destruct (match threshold with Some t => le cpu_temp t | None => false end);
    apply set_fan_speed_benign.
Qed.

Lemma fan_control_benign (server : ServerTarget) (cpu_temp : PyFloat) :
  raises_only benign (fan_control bmc server cpu_temp).
Proof.
  unfold fan_control. destruct (_calculate_target_rpm _ _); [|apply raises_only_ret].
  apply raises_only_bind; [apply set_fan_speed_benign | intros _].
  apply raises_only_bind; [|intros overrides; apply apply_overrides_benign].
  apply raises_only_raise. split; discriminate.
Qed.

(** A handler of the poll that caught such an exception goes on to the
    alert configuration. *)
Lemma on_poll_error_benign (server : ServerTarget) (e : Exn) (w : World) :
  benign e ->
  on_poll_error clock server e w
  = (if _is_alert_enabled server "connectivity"
     then _activate_alert clock server "connectivity"
            match e with
            | IPMICommandError error_msg =>
                if contains "Unable to establish" error_msg
                   || contains "Connection refused" error_msg
                   || contains "timeout" (lower error_msg)
                then ServerUnreachable error_msg
                else IpmiCommunicationError error_msg
            | _ => UnexpectedError e
            end w
     else (Ok tt, w)).
Proof.
  intros [H1 H2]. unfold on_poll_error.
  destruct e; try congruence; try (destruct (_ || _));
    unfold bind, name_in_handler, ret;
    destruct (_is_alert_enabled server "connectivity"); reflexivity.
Qed.

(** With every alert off the [try] block raises nothing else. *)
Lemma poll_body_benign_when_off (server : ServerTarget) :
  (forall k, _is_alert_enabled server k = false) ->
  raises_only benign (poll_body bmc clock server).
Proof.
  intros Hoff. unfold poll_body, query_temperatures, query_fans.
  apply raises_only_bind; [apply run_benign | intros temperatures].
  apply raises_only_bind; [apply run_benign | intros fans].
  apply raises_only_bind.
  - destruct (_parse_cpu_temperature temperatures) as [cpu_temp|]; [|apply raises_only_ret].
    apply raises_only_bind; [apply fan_control_benign | intros _].
    unfold critical_temperature_check. rewrite Hoff. apply raises_only_ret.
  - intros _. apply raises_only_bind.
    + unfold _check_alerts, guarded_check. rewrite !Hoff.
      destruct (no_channels server); [apply raises_only_ret|].
      repeat (apply raises_only_bind; [apply raises_only_ret | intros _]).
      apply raises_only_ret.
    + intros _. apply raises_only_bind; [|intros t]; intros w e w' H; discriminate H.
Qed.

Lemma poll_server_found (sid : Z) (server : ServerTarget) (w : World) :
  find (fun s => id s =? sid) (servers w) = Some server ->
  _poll_server bmc clock sid w
  = try_except_else (poll_body bmc clock server) (on_poll_error clock server)
      (fun _ => on_poll_success clock server) w.
Proof. intros H. unfold _poll_server, bind, _load_server. now rewrite H. Qed.

Lemma poll_server_missing (sid : Z) (w : World) :
  find (fun s => id s =? sid) (servers w) = None ->
  _poll_server bmc clock sid w = (Ok tt, w).
Proof. intros H. unfold _poll_server, bind, _load_server. now rewrite H. Qed.

Lemma rows_steady (sid : Z) (k : string) : steady (rows_of sid k).
Proof. repeat split; intros x w; destruct w; reflexivity. Qed.

Lemma other_servers_steady (sid : Z) : steady (other_servers sid).
Proof. repeat split; intros x w; destruct w; reflexivity. Qed.

Lemma stamp_other_servers (sid t : Z) :
  keeps (other_servers sid) (stamp_last_successful_poll sid t).
Proof.
  intros w. unfold stamp_last_successful_poll, other_servers. cbn [snd].
  replace (servers (set_servers _ w))
    with (map (fun s =>
                 if id s =? sid then
                   mkServerTarget (id s) (name s) (vendor s) (fan_defaults s)
                     (fan_overrides s) (notification_channel_ids s) (alert_config s)
                     (offline_alert_threshold_minutes s) (Some t) (created_at s)
                 else s) (servers w)) by (destruct w; reflexivity).
  induction (servers w) as [|s l IH]; [reflexivity|].
  cbn [map filter]. destruct (id s =? sid) eqn:E; cbn [id]; rewrite E; cbn [negb].
  - exact IH.
  - now rewrite IH.
Qed.

(** X4.  A poll stays with its server.  It changes no alert row of another
    server, whatever the alert type, and no row of another server in the
    server table; and the poll of an id that no server has does nothing at
    all. *)
Theorem poll_stays_with_its_server (sid : Z) (w : World) :
  let w' := snd (_poll_server bmc clock sid w) in
  (forall sid' k, sid' <> sid -> rows_of sid' k w' = rows_of sid' k w) /\
  other_servers sid w' = other_servers sid w /\
  (find (fun s => id s =? sid) (servers w) = None ->
   _poll_server bmc clock sid w = (Ok tt, w)).
Proof.
  intros w'. unfold w'.
  destruct (find (fun s => id s =? sid) (servers w)) as [server|] eqn:Hfind.
  - pose proof (find_id sid _ server Hfind) as Hid.
    rewrite (poll_server_found sid server w Hfind).
    split; [|split; [|discriminate]].
    + intros sid' k Hne. apply (steady_poll (rows_of sid' k) server).
      * apply rows_steady.
      * intros t w0. destruct w0; reflexivity.
      * intros k' m _ w0. apply activate_frame. congruence.
      * intros k' by_ _ w0. apply clear_frame. congruence.
    + apply (steady_poll (other_servers sid) server).
      * apply other_servers_steady.
      * rewrite Hid. apply stamp_other_servers.
      * intros k m _. apply (steady_store_change (other_servers sid)).
        intros w0 al n ds os. destruct w0; reflexivity.
      * intros k by_ _. apply (steady_store_change (other_servers sid)).
        intros w0 al n ds os. destruct w0; reflexivity.
  - rewrite (poll_server_missing sid w Hfind). cbn [snd]. auto.
Qed.

(** X6.  With every alert type switched off for a server, its poll never
    touches the alert table and never sends a notification, whatever
    ipmitool answers; and the poll returns, errors included. *)
Theorem poll_with_alerts_off (sid : Z) (server : ServerTarget) (w : World) :
  find (fun s => id s =? sid) (servers w) = Some server ->
  (forall k, _is_alert_enabled server k = false) ->
  let out := _poll_server bmc clock sid w in
  fst out = Ok tt /\
  active_alerts (snd out) = active_alerts w /\
  dispatched (snd out) = dispatched w /\
  outbox (snd out) = outbox w.
Proof.
  intros Hfind Hoff out. unfold out. rewrite (poll_server_found sid server w Hfind).
  assert (Hkeeps : forall X (part : World -> X),
            steady part ->
            (forall t, keeps part (stamp_last_successful_poll (id server) t)) ->
            part (snd (try_except_else (poll_body bmc clock server)
                         (on_poll_error clock server)
                         (fun _ => on_poll_success clock server) w)) = part w).
  { intros X part Hs Hst. apply (steady_poll part server Hs Hst).
    - intros k m Hon. rewrite Hoff in Hon. discriminate.
    - intros k by_ Hon. rewrite Hoff in Hon. discriminate. }
  split; [|repeat split].
  - unfold try_except_else, on_poll_success.
    destruct (poll_body bmc clock server w) as [[u|e] w1] eqn:Hbody;
      [now rewrite Hoff|].
    rewrite (on_poll_error_benign server e w1
               (poll_body_benign_when_off server Hoff _ _ _ Hbody)).
    now rewrite Hoff.
  - apply (Hkeeps _ active_alerts); [|intros t w0; destruct w0; reflexivity].
    repeat split; intros x w0; destruct w0; reflexivity.
  - apply (Hkeeps _ dispatched); [|intros t w0; destruct w0; reflexivity].
    repeat split; intros x w0; destruct w0; reflexivity.
  - apply (Hkeeps _ outbox); [|intros t w0; destruct w0; reflexivity].
    repeat split; intros x w0; destruct w0; reflexivity.
Qed.

(** The message of the connectivity alert after an error of ipmitool. *)
Definition failure_message (error_msg : string) : Message :=
  if contains "Unable to establish" error_msg
     || contains "Connection refused" error_msg
     || contains "timeout" (lower error_msg)
  then ServerUnreachable error_msg
  else IpmiCommunicationError error_msg.

Lemma on_poll_error_ipmi (server : ServerTarget) (error_msg : string) (w : World) :
  _is_alert_enabled server "connectivity" = true ->
  on_poll_error clock server (IPMICommandError error_msg) w
  = _activate_alert clock server "connectivity" (failure_message error_msg) w.
Proof.
  intros Hon. unfold on_poll_error, failure_message. rewrite Hon.
  destruct (_ || _); reflexivity.
Qed.

(** *** A key whose alert was cleared before *)

(** The key has rows, and all of them are cleared. *)
Definition only_cleared (sid : Z) (k : string) (w : World) : Prop :=
  rows_of sid k w <> [] /\ live_rows sid k w = [].

Lemma rows_some_key (sid : Z) (k : string) (w : World) :
  rows_of sid k w <> [] -> existsb (same_key sid k) (active_alerts w) = true.
Proof.
  intros H. destruct (existsb (same_key sid k) (active_alerts w)) eqn:E; [reflexivity|].
  exfalso. apply H. apply filter_nil. intros a Ha.
  destruct (same_key sid k a) eqn:Ea; [|reflexivity].
  assert (existsb (same_key sid k) (active_alerts w) = true)
    by (apply existsb_exists; eauto).
  congruence.
Qed.

Lemma activate_only_cleared (server : ServerTarget) (k : string) (m : Message) (w : World) :
  only_cleared (id server) k w ->
  _activate_alert clock server k m w
  = (Raise IntegrityError, set_clock_reads (S (S (clock_reads w))) w).
Proof.
  intros [Hrows Hlive]. apply activate_refused; [exact Hlive | now apply rows_some_key].
Qed.

Lemma only_cleared_not_live (sid : Z) (k : string) (w : World) :
  only_cleared sid k w -> is_live sid k w = false.
Proof. intros [_ H]. unfold is_live. now rewrite H. Qed.

Lemma one_cleared_row (sid : Z) (k : string) (w : World) (a : ActiveAlert) (t : Z) :
  rows_of sid k w = [a] -> cleared_at a = Some t -> only_cleared sid k w.
Proof.
  intros Hrows Ha. split; [rewrite Hrows; discriminate|].
  rewrite live_rows_of, Hrows. cbn. unfold not_cleared. now rewrite Ha.
Qed.

(** X5.  A poll whose first query fails.  When ipmitool exits with an
    error on the temperature query, the poll stops there: no other command
    is sent, no fan speed is asked for, [last_successful_poll] is not
    stamped; and with connectivity alerting on, the handler goes for the
    connectivity alert, with the text of stderr, as "unreachable" when it
    holds one of the three markers.  What comes of it depends on the rows
    that the table has for the key, at most one by its unique constraint.
    With no row the poll returns, the alert is added, live, and dispatched
    once.  With a live row the poll returns, the alert stays live and
    nothing is dispatched.  With a cleared row, left by an outage that
    ended, the new row is refused: the poll raises [IntegrityError], no
    alert is live, the table and the dispatches are as they were. *)
Theorem failed_poll_raises_connectivity (sid : Z) (server : ServerTarget)
  (stderr : string) (w : World) :
  find (fun s => id s =? sid) (servers w) = Some server ->
  bmc (List.length (ipmi_calls w)) ["sdr"; "type"; "Temperature"] = Failed stderr ->
  _is_alert_enabled server "connectivity" = true ->
  exists out w',
    _poll_server bmc clock sid w = (out, w') /\
    servers w' = servers w /\
    fan_requests w' = fan_requests w /\
    ipmi_calls w' = ipmi_calls w ++ [["sdr"; "type"; "Temperature"]] /\
    (rows_of sid "connectivity" w = [] ->
     out = Ok tt /\
     is_live sid "connectivity" w' = true /\
     (exists a,
        rows_of sid "connectivity" w' = [a] /\
        message a = failure_message (strip stderr) /\
        cleared_at a = None) /\
     dispatched w' = dispatched w ++ [mkDispatch sid "connectivity" false]) /\
    (forall a,
       rows_of sid "connectivity" w = [a] -> cleared_at a = None ->
       out = Ok tt /\
       is_live sid "connectivity" w' = true /\
       dispatched w' = dispatched w) /\
    (forall a t,
       rows_of sid "connectivity" w = [a] -> cleared_at a = Some t ->
       out = Raise IntegrityError /\
       is_live sid "connectivity" w' = false /\
       active_alerts w' = active_alerts w /\
       dispatched w' = dispatched w).
Proof.
  intros Hfind Hbmc Hon.
  pose proof (find_id sid _ server Hfind) as Hid. subst sid.
  rewrite (poll_server_found (id server) server w Hfind).
  set (w1 := set_ipmi_calls (ipmi_calls w ++ [["sdr"; "type"; "Temperature"]]) w).
  assert (Hbody : poll_body bmc clock server w
                  = (Raise (IPMICommandError (strip stderr)), w1)).
  { unfold poll_body, bind, query_temperatures, _run. now rewrite Hbmc. }
  unfold try_except_else. rewrite Hbody, (on_poll_error_ipmi server _ w1 Hon).
  assert (Hrows : rows_of (id server) "connectivity" w1
                  = rows_of (id server) "connectivity" w) by (destruct w; reflexivity).
  destruct (_activate_alert clock server "connectivity"
              (failure_message (strip stderr)) w1) as [out w'] eqn:Hact.
  exists out, w'. split; [reflexivity|].
  destruct (activate_shape clock server "connectivity"
              (failure_message (strip stderr)) w1) as (al & n & ds & os & Hshape & _).
  rewrite Hact in Hshape. cbn [snd] in Hshape.
  split; [rewrite Hshape; destruct w; reflexivity|].
  split; [rewrite Hshape; destruct w; reflexivity|].
  split; [rewrite Hshape; destruct w; reflexivity|].
  split; [|split].
  - intros Hnone. pose proof Hnone as Hnone1. rewrite <- Hrows in Hnone1.
    pose proof (activate_fresh clock server "connectivity"
                  (failure_message (strip stderr)) w1 (rows_nil_no_key _ _ _ Hnone1)) as Hf.
    cbv zeta in Hf. rewrite Hact in Hf.
    pose proof (f_equal fst Hf) as Ho. pose proof (f_equal snd Hf) as Hw.
    cbn [fst snd] in Ho, Hw. clear Hf.
    set (row := mkActiveAlert (id server) "connectivity" (failure_message (strip stderr))
                  (clock (clock_reads w1)) (clock (S (clock_reads w1))) None None) in *.
    assert (Hal : active_alerts w' = active_alerts w1 ++ [row])
      by (rewrite Hw; destruct w; reflexivity).
    assert (Hnew : rows_of (id server) "connectivity" w' = [row]).
    { unfold rows_of. rewrite Hal, filter_app.
      fold (rows_of (id server) "connectivity" w1). rewrite Hnone1.
      cbn [app filter]. unfold same_key, row. cbn [server_id alert_type].
      rewrite Z.eqb_refl. reflexivity. }
    split; [exact Ho|]. split; [|split].
    + unfold is_live. rewrite live_rows_of, Hnew. reflexivity.
    + exists row. split; [exact Hnew|]. split; reflexivity.
    + rewrite Hw. destruct w; reflexivity.
  - intros a Ha Hlive. rewrite <- Hrows in Ha.
    assert (Hclean1 : clean (id server) "connectivity" w1) by (right; eauto).
    destruct (activate_clean clock server "connectivity"
                (failure_message (strip stderr)) w1 Hclean1) as [w2 [Hact2 Hlive2]].
    rewrite Hact in Hact2. injection Hact2 as -> ->.
    split; [reflexivity|]. split; [exact Hlive2|].
    pose proof (clean_live_rows _ _ _ Hclean1) as Hl. rewrite Ha in Hl.
    pose proof (activate_live clock server "connectivity"
                  (failure_message (strip stderr)) w1 a Hl) as Hf.
    rewrite Hact in Hf. pose proof (f_equal snd Hf) as Hw. cbn [snd] in Hw.
    rewrite Hw. destruct w; reflexivity.
  - intros a t Ha Hcleared. rewrite <- Hrows in Ha.
    pose proof (one_cleared_row _ _ _ _ _ Ha Hcleared) as Honly.
    rewrite (activate_only_cleared server "connectivity" _ w1 Honly) in Hact.
    injection Hact as <- <-. split; [reflexivity|].
    split; [|split; destruct w; reflexivity].
    etransitivity; [|exact (only_cleared_not_live _ _ _ Honly)].
    apply is_live_rows. destruct w; reflexivity.
Qed.

(** What [fan_control] does for a vendor without a fan command: the
    request is noted, the command is never built, and the error leaves. *)
Lemma fan_control_unsupported (server : ServerTarget) (cpu_temp : PyFloat)
  (base_rpm : Z) (w : World) :
  lower (vendor server) <> "supermicro" ->
  _calculate_target_rpm (fan_defaults server) cpu_temp = Some base_rpm ->
  exists e,
    _build_fan_command (vendor server) base_rpm None = Raise e /\
    fan_control bmc server cpu_temp w
    = (Raise e, set_fan_requests (fan_requests w ++ [(base_rpm, None)]) w).
Proof.
  intros Hvendor Hrpm.
  assert (He : exists e, _build_fan_command (vendor server) base_rpm None = Raise e).
  { unfold _build_fan_command.
    destruct (String.eqb_spec (lower (vendor server)) "supermicro"); [contradiction|].
    destruct (String.eqb _ "dell"); [eauto|]. destruct (String.eqb _ "hp"); eauto. }
  destruct He as [e He]. exists e. split; [exact He|].
  unfold fan_control. rewrite Hrpm. unfold bind, set_fan_speed. now rewrite He.
Qed.

(** X7.  A server of a vendor other than Supermicro that has fan zones.
    Once the temperature is read, the fan request fails before any raw
    command is sent ([NotImplementedError] for Dell and HP, [ValueError]
    otherwise); the rest of the cycle is skipped: the critical temperature
    is not looked at, none of the five checks runs, the poll is not stamped
    as successful; and the error is reported as a connectivity alert, if
    that alert is on. *)
Theorem poll_of_unsupported_vendor (sid : Z) (server : ServerTarget)
  (temperatures fans : string) (cpu_temp : PyFloat) (base_rpm : Z) (w : World) :
  find (fun s => id s =? sid) (servers w) = Some server ->
  lower (vendor server) <> "supermicro" ->
  bmc (List.length (ipmi_calls w)) ["sdr"; "type"; "Temperature"] = Stdout temperatures ->
  bmc (S (List.length (ipmi_calls w))) ["sdr"; "type"; "Fan"] = Stdout fans ->
  _parse_cpu_temperature (strip temperatures) = Some cpu_temp ->
  _calculate_target_rpm (fan_defaults server) cpu_temp = Some base_rpm ->
  exists e w1,
    _build_fan_command (vendor server) base_rpm None = Raise e /\
    poll_body bmc clock server w = (Raise e, w1) /\
    ipmi_calls w1
    = ipmi_calls w ++ [["sdr"; "type"; "Temperature"]; ["sdr"; "type"; "Fan"]] /\
    fan_requests w1 = fan_requests w ++ [(base_rpm, None)] /\
    active_alerts w1 = active_alerts w /\
    dispatched w1 = dispatched w /\
    servers w1 = servers w /\
    _poll_server bmc clock sid w
    = (if _is_alert_enabled server "connectivity"
       then _activate_alert clock server "connectivity" (UnexpectedError e) w1
       else (Ok tt, w1)).
Proof.
  intros Hfind Hvendor Ht Hf Hparse Hrpm.
  set (w0 := set_ipmi_calls (ipmi_calls w ++ [["sdr"; "type"; "Temperature"]]) w).
  set (w2 := set_ipmi_calls (ipmi_calls w0 ++ [["sdr"; "type"; "Fan"]]) w0).
  destruct (fan_control_unsupported server cpu_temp base_rpm w2 Hvendor Hrpm)
    as [e [He Hfan]].
  exists e, (set_fan_requests (fan_requests w2 ++ [(base_rpm, None)]) w2).
  assert (Hlen : List.length (ipmi_calls w0) = S (List.length (ipmi_calls w))).
  { unfold w0. destruct w; cbn. rewrite length_app. cbn. lia. }
  assert (Hbody : poll_body bmc clock server w
                  = (Raise e, set_fan_requests (fan_requests w2 ++ [(base_rpm, None)]) w2)).
  { unfold poll_body, bind, query_temperatures, query_fans, _run.
    rewrite Ht. fold w0. rewrite Hlen, Hf. fold w2. rewrite Hparse.
    fold (bind (fan_control bmc server cpu_temp)
            (fun _ => critical_temperature_check clock server cpu_temp)).
    unfold bind. now rewrite Hfan. }
  split; [exact He|]. split; [exact Hbody|].
  split; [unfold w2, w0; destruct w; cbn; now rewrite <- app_assoc|].
  split; [destruct w; reflexivity|].
  split; [destruct w; reflexivity|].
  split; [destruct w; reflexivity|].
  split; [destruct w; reflexivity|].
  rewrite (poll_server_found sid server w Hfind). unfold try_except_else.
  rewrite Hbody. unfold on_poll_error.
  assert (Hkind : (exists s, e = NotImplementedError s) \/ (exists s, e = ValueError s)).
  { unfold _build_fan_command in He.
    destruct (String.eqb_spec (lower (vendor server)) "supermicro") as [Hs | _].
    - contradiction.
    - destruct (String.eqb _ "dell"); [injection He as <-; eauto|].
      destruct (String.eqb _ "hp"); injection He as <-; eauto. }
  destruct Hkind as [[s ->] | [s ->]];
    destruct (_is_alert_enabled server "connectivity"); reflexivity.
Qed.

(** X8.  The critical-temperature check of a cycle.  Switched off, it
    does nothing.  Switched on, on a table with no row of the alert or with
    one live row, it returns, and the alert is live afterwards exactly when
    the reading is 80 degrees or more: so for plus infinity, and not for a
    reading that is not a number.  On a table whose rows of the alert are
    all cleared, a reading below 80 changes nothing, and a reading of 80 or
    more is refused by the unique constraint: the check raises
    [IntegrityError], the table and the dispatches are as they were and no
    alert is live. *)
Theorem critical_temperature_threshold (server : ServerTarget) (cpu_temp : PyFloat)
  (w : World) :
  let out := critical_temperature_check clock server cpu_temp w in
  (_is_alert_enabled server "temperature_critical" = false -> out = (Ok tt, w)) /\
  (_is_alert_enabled server "temperature_critical" = true ->
   clean (id server) "temperature_critical" w ->
   fst out = Ok tt /\
   is_live (id server) "temperature_critical" (snd out) = ge_Q cpu_temp 80 /\
   (forall q, cpu_temp = Fin q ->
      (is_live (id server) "temperature_critical" (snd out) = true <-> (80 <= q)%Q)) /\
   (cpu_temp = NaN -> is_live (id server) "temperature_critical" (snd out) = false) /\
   (cpu_temp = PInf -> is_live (id server) "temperature_critical" (snd out) = true)) /\
  (_is_alert_enabled server "temperature_critical" = true ->
   only_cleared (id server) "temperature_critical" w ->
   is_live (id server) "temperature_critical" (snd out) = false /\
   active_alerts (snd out) = active_alerts w /\
   dispatched (snd out) = dispatched w /\
   (ge_Q cpu_temp 80 = true -> fst out = Raise IntegrityError) /\
   (ge_Q cpu_temp 80 = false -> out = (Ok tt, w))).
Proof.
  cbv zeta. unfold critical_temperature_check.
  split; [|split]; intros Hon; rewrite Hon; [reflexivity| |].
  - intros Hclean.
    assert (Hmain : exists w',
              (if ge_Q cpu_temp 80
               then _activate_alert clock server "temperature_critical"
                      (CpuTemperatureCritical cpu_temp)
               else _clear_alert_if_active clock server "temperature_critical" "auto") w
              = (Ok tt, w') /\
              is_live (id server) "temperature_critical" w' = ge_Q cpu_temp 80).
    { destruct (ge_Q cpu_temp 80).
      - apply activate_clean, Hclean.
      - apply clear_clean, Hclean. }
    destruct Hmain as [w' [Hrun Hlive]]. rewrite Hrun. cbn [fst snd].
    split; [reflexivity|]. split; [exact Hlive|]. rewrite Hlive.
    split; [|split]; [intros q -> | intros -> | intros ->]; try reflexivity.
    cbn [ge_Q]. apply Qle_bool_iff.
  - intros Honly. pose proof (only_cleared_not_live _ _ _ Honly) as Hdead.
    destruct (ge_Q cpu_temp 80).
    + rewrite (activate_only_cleared server "temperature_critical" _ w Honly). cbn [fst snd].
      split; [|split; [destruct w; reflexivity|split; [destruct w; reflexivity|]]].
      * etransitivity; [|exact Hdead]. apply is_live_rows. destruct w; reflexivity.
      * split; [reflexivity | discriminate].
    + destruct Honly as [_ Hlive].
      rewrite (clear_not_live clock server "temperature_critical" "auto" w Hlive).
      cbn [fst snd]. repeat split; try assumption; try reflexivity. discriminate.
Qed.

End WithOutside.

(** *** Polls of sample servers *)

Lemma failed_poll_raises_connectivity_witness :
  (exists w',
     _poll_server unreachable Z.of_nat 1 sample_world = (Ok tt, w') /\
     is_live 1 "connectivity" w' = true /\
     dispatched w' = [mkDispatch 1 "connectivity" false]) /\
  (exists w',
     _poll_server unreachable Z.of_nat 1 recovered_world = (Raise IntegrityError, w') /\
     is_live 1 "connectivity" w' = false /\
     dispatched w' = []).
Proof.
  split.
  - destruct (failed_poll_raises_connectivity unreachable Z.of_nat 1 sample_server
                "Error: Unable to establish IPMI v2 / RMCP+ session" sample_world)
      as (out & w' & H1 & _ & _ & _ & H5 & _); [reflexivity | reflexivity | reflexivity |].
    destruct (H5 eq_refl) as (-> & Hlive & _ & Hd).
    exists w'. split; [exact H1|]. split; [exact Hlive | exact Hd].
  - destruct (failed_poll_raises_connectivity unreachable Z.of_nat 1 sample_server
                "Error: Unable to establish IPMI v2 / RMCP+ session" recovered_world)
      as (out & w' & H1 & _ & _ & _ & _ & _ & H7); [reflexivity | reflexivity | reflexivity |].
    destruct (H7 _ 9 eq_refl eq_refl) as (-> & Hlive & _ & Hd).
    exists w'. split; [exact H1|]. split; [exact Hlive | exact Hd].
Defined.

(** A server with no alert configuration. *)
Definition quiet_server : ServerTarget :=
  mkServerTarget 3 "rack-3" "supermicro"
    (Some (mkFanDefaults (Some FanCurveFacts.zones_50_52_70))) [] (Some [7%Z]) None
    15 None 0.

Definition quiet_world : World :=
  mkWorld [quiet_server] [ops_channel] [] default_key [] [] [] [] 0.

Lemma poll_with_alerts_off_witness :
  fst (_poll_server unreachable Z.of_nat 3 quiet_world) = Ok tt /\
  active_alerts (snd (_poll_server unreachable Z.of_nat 3 quiet_world)) = [] /\
  outbox (snd (_poll_server unreachable Z.of_nat 3 quiet_world)) = [].
Proof.
  destruct (poll_with_alerts_off unreachable Z.of_nat 3 quiet_server quiet_world)
    as (H1 & H2 & _ & H4).
  - reflexivity.
  - intros k. reflexivity.
  - split; [exact H1|]. split; [exact H2 | exact H4].
Defined.

(** A Dell server with fan zones, and a BMC that reads 85 degrees. *)
Definition dell_server : ServerTarget :=
  mkServerTarget 4 "rack-4" "dell"
    (Some (mkFanDefaults (Some FanCurveFacts.zones_50_52_70))) [] (Some [7%Z])
    (Some [("connectivity", true); ("temperature_critical", true)])
    15 None 0.

Definition dell_world : World :=
  mkWorld [dell_server] [ops_channel] [] default_key [] [] [] [] 0.

Definition hot (n : nat) (args : list string) : Outcome :=
  Stdout "CPU Temp         | 04h | ok  |  7.1 | 85 degrees C".

Lemma poll_of_unsupported_vendor_witness :
  exists w1,
    poll_body hot Z.of_nat dell_server dell_world
    = (Raise (NotImplementedError "Dell fan control not yet implemented"), w1) /\
    fan_requests w1 = [(5000%Z, None)] /\
    active_alerts w1 = [].
Proof.
  destruct (poll_of_unsupported_vendor hot Z.of_nat 4 dell_server
              "CPU Temp         | 04h | ok  |  7.1 | 85 degrees C"
              "CPU Temp         | 04h | ok  |  7.1 | 85 degrees C"
              (Fin 85) 5000 dell_world)
    as (e & w1 & H1 & H2 & _ & H4 & H5 & _).
  - reflexivity.
  - discriminate.
  - reflexivity.
  - reflexivity.
  - vm_compute. reflexivity.
  - vm_compute. reflexivity.
  - exists w1. cbv in H1. injection H1 as <-. split; [exact H2|].
    split; [exact H4 | exact H5].
Defined.

End PollFacts.

(** ** The client of ipmitool *)

Module ClientFacts.

Import PyStr Binary64 Ipmi Model Scheduler IpmiFacts CheckFacts.

Local Open Scope string_scope.
Local Open Scope list_scope.
Local Open Scope Z_scope.

(** The byte of a request above 3500 rpm. *)
Definition interpolated (rpm : Z) : Z := Z.min 100 (100 * rpm / 5000).

Lemma interpolated_bounds (rpm : Z) : 3500 < rpm -> 70 <= interpolated rpm <= 100.
Proof.
  intros H. unfold interpolated.
  assert (70 <= 100 * rpm / 5000) by (apply Z.div_le_lower_bound; lia). lia.
Qed.

Lemma interpolated_monotone (r1 r2 : Z) : r1 <= r2 -> interpolated r1 <= interpolated r2.
Proof.
  intros H. unfold interpolated. apply Z.min_le_compat_l. apply Z.div_le_mono; lia.
Qed.

(** The speed byte of every request below [2 ^ 1000] rpm. *)
Lemma speed_byte_cases (rpm : Z) :
  rpm < 2 ^ 1000 ->
  speed_byte rpm
  = Ok (if rpm =? 0 then 100
        else if rpm <=? 2000 then 24
        else if rpm <=? 3500 then 48
        else interpolated rpm).
Proof.
  intros Hlt. unfold speed_byte.
  destruct (rpm =? 0); [reflexivity|].
  destruct (Z.leb_spec rpm 2000); [reflexivity|].
  destruct (Z.leb_spec rpm 3500); [reflexivity|].
  apply high_speed_byte_interpolates. lia.
Qed.

Lemma speed_byte_range (rpm : Z) :
  rpm < 2 ^ 1000 -> exists b, speed_byte rpm = Ok b /\ 24 <= b <= 100.
Proof.
  intros Hlt. eexists. split; [apply (speed_byte_cases rpm Hlt)|].
  destruct (rpm =? 0); [lia|]. destruct (Z.leb_spec rpm 2000); [lia|].
  destruct (Z.leb_spec rpm 3500); [lia|].
  pose proof (interpolated_bounds rpm ltac:(assumption)). lia.
Qed.

(** X9.  The speed byte of a Supermicro command stays between 0x18 and
    0x64 for every request, negative ones included, and among the requests
    other than 0 (which asks for full speed) a higher request never gets a
    lower byte. *)
Theorem speed_byte_bounded_and_monotone :
  (forall rpm, rpm < 2 ^ 1000 -> exists b, speed_byte rpm = Ok b /\ 24 <= b <= 100) /\
  (forall r1 r2 b1 b2,
     r1 <> 0 -> r2 <> 0 -> r1 <= r2 -> r2 < 2 ^ 1000 ->
     speed_byte r1 = Ok b1 -> speed_byte r2 = Ok b2 -> b1 <= b2).
Proof.
  split.
  - exact speed_byte_range.
  - intros r1 r2 b1 b2 H1 H2 Hle Hlt E1 E2.
    rewrite (speed_byte_cases r1) in E1 by lia. rewrite (speed_byte_cases r2 Hlt) in E2.
    apply Z.eqb_neq in H1, H2. rewrite H1 in E1. rewrite H2 in E2.
    pose proof (interpolated_monotone r1 r2 Hle) as Hmono.
    destruct (Z.leb_spec r1 2000), (Z.leb_spec r2 2000),
      (Z.leb_spec r1 3500), (Z.leb_spec r2 3500);
      try pose proof (interpolated_bounds r1 ltac:(assumption));
      try pose proof (interpolated_bounds r2 ltac:(assumption));
      assert (Eb1 := f_equal (fun r => match r with Ok b => b | Raise _ => 0 end) E1);
      assert (Eb2 := f_equal (fun r => match r with Ok b => b | Raise _ => 0 end) E2);
      cbv beta iota in Eb1, Eb2; lia.
Qed.

(** The words of a fan command, as [payload.split()] cuts them. *)
Definition command_words (fan_identifier : option string) (speed : Z) : list string :=
  ["0x30"; "0x70"; "0x66"; hex (zone_byte fan_identifier); "0x00"; "0x00"; hex speed].

Definition splits_back (speed : Z) : bool :=
  (if list_eq_dec string_dec (split_ws (command None speed)) (command_words None speed)
   then true else false) &&
  (if list_eq_dec string_dec (split_ws (command (Some "") speed))
        (command_words (Some "") speed)
   then true else false).

Lemma splits_back_checked : forallb splits_back (range 24 77) = true.
Proof. vm_compute. reflexivity. Qed.

Lemma split_ws_command (fan_identifier : option string) (speed : Z) :
  24 <= speed <= 100 ->
  split_ws (command fan_identifier speed) = command_words fan_identifier speed.
Proof.
  intros H.
  assert (Hb : splits_back speed = true).
  { apply (forallb_range splits_back 24 77 splits_back_checked). lia. }
  unfold splits_back in Hb. apply andb_true_iff in Hb. destruct Hb as [H1 H2].
  destruct fan_identifier as [fan|].
  - destruct (list_eq_dec string_dec (split_ws (command (Some "") speed))
                (command_words (Some "") speed)) as [e|]; [exact e | discriminate].
  - destruct (list_eq_dec string_dec (split_ws (command None speed))
                (command_words None speed)) as [e|]; [exact e | discriminate].
Qed.

Section WithBmc.

Variable bmc : nat -> list string -> Outcome.

(** X10.  One fan request is one ipmitool call, or none.  For a Supermicro
    server the command that [_build_fan_command] writes is cut back by
    [raw_command] into the seven bytes it was made of, and ipmitool is
    called once, with "raw" and these bytes; for any other vendor the
    request raises before ipmitool is called.  The request is made either
    way. *)
Theorem set_fan_speed_sends_one_raw_command (server : ServerTarget) (target_rpm : Z)
  (fan_identifier_ : option string) (w : World) :
  let out := set_fan_speed bmc server target_rpm fan_identifier_ w in
  fan_requests (snd out) = fan_requests w ++ [(target_rpm, fan_identifier_)] /\
  (lower (vendor server) = "supermicro" -> target_rpm < 2 ^ 1000 ->
   exists b,
     speed_byte target_rpm = Ok b /\
     ipmi_calls (snd out)
     = ipmi_calls w ++ ["raw" :: command_words fan_identifier_ b] /\
     List.length (command_words fan_identifier_ b) = 7%nat) /\
  (lower (vendor server) <> "supermicro" ->
   ipmi_calls (snd out) = ipmi_calls w /\ exists e, fst out = Raise e).
Proof.
  intros out. unfold out, set_fan_speed. split; [|split].
  - destruct (_build_fan_command (vendor server) target_rpm fan_identifier_).
    + unfold raw_command. rewrite run_world. destruct w; reflexivity.
    + destruct w; reflexivity.
  - intros Hvendor Hlt.
    destruct (speed_byte_range target_rpm Hlt) as [b [Hb Hrange]].
    exists b. split; [exact Hb|]. split; [|reflexivity].
    rewrite (build_supermicro (vendor server) target_rpm b fan_identifier_ Hvendor Hb).
    unfold raw_command. rewrite run_world, (split_ws_command fan_identifier_ b Hrange).
    destruct w; reflexivity.
  - intros Hvendor.
    assert (He : exists e,
              _build_fan_command (vendor server) target_rpm fan_identifier_ = Raise e).
    { unfold _build_fan_command.
      destruct (String.eqb_spec (lower (vendor server)) "supermicro"); [contradiction|].
      destruct (String.eqb _ "dell"); [eauto|]. destruct (String.eqb _ "hp"); eauto. }
    destruct He as [e He]. rewrite He. split; [destruct w; reflexivity | now exists e].
Qed.

Lemma or_else_run (args : list string) (other : M string) (w : World) :
  or_else (_run bmc args) other w
  = match bmc (List.length (ipmi_calls w)) args with
    | Stdout text => (Ok (strip text), set_ipmi_calls (ipmi_calls w ++ [args]) w)
    | Failed stderr => other (set_ipmi_calls (ipmi_calls w ++ [args]) w)
    | Broken reason =>
        (Raise (OtherException reason), set_ipmi_calls (ipmi_calls w ++ [args]) w)
    end.
Proof.
  unfold or_else, try_except_else, _run.
  destruct (bmc (List.length (ipmi_calls w)) args); reflexivity.
Qed.

(** What a query that swallows the errors of ipmitool answers, one command
    after the other. *)
Fixpoint answer (commands : list (list string)) (n : nat) : Result string * nat :=
  match commands with
  | [] => (Ok "", O)
  | args :: rest =>
      match bmc n args with
      | Stdout text => (Ok (strip text), 1%nat)
      | Failed _ => let (r, j) := answer rest (S n) in (r, S j)
      | Broken reason => (Raise (OtherException reason), 1%nat)
      end
  end.

Lemma query_of_answer (k : CheckKind) (w : World) :
  query_of bmc k w
  = (fst (answer (commands_of k) (List.length (ipmi_calls w))),
     set_ipmi_calls
       (ipmi_calls w
        ++ firstn (snd (answer (commands_of k) (List.length (ipmi_calls w))))
             (commands_of k)) w).
Proof.
  destruct k; cbn [query_of commands_of answer];
    unfold query_memory_status, query_power_supply_status, query_chassis_intrusion,
      query_voltage_status, query_system_events;
    rewrite or_else_run;
    try (destruct (bmc (List.length (ipmi_calls w)) _); reflexivity).
  destruct (bmc (List.length (ipmi_calls w)) _); try reflexivity.
  rewrite or_else_run.
  replace (List.length (ipmi_calls (set_ipmi_calls _ w)))
    with (S (List.length (ipmi_calls w)))
    by (destruct w; cbn; rewrite length_app; cbn; lia).
  destruct (bmc (S (List.length (ipmi_calls w))) _); cbn [fst snd firstn ret];
    destruct w; cbn; rewrite <- ?app_assoc; reflexivity.
Qed.

(** X11.  The five status queries never let an error of ipmitool out: a
    command that exits with an error is answered by the next command of the
    query (the intrusion query has two) or by the empty text.  A query
    calls ipmitool at least once and at most once per command; what it
    returns is empty or the stripped output of one of its commands.  The
    temperature query has no such guard: the error leaves with the text of
    stderr. *)
Theorem status_queries_absorb_ipmitool_errors (k : CheckKind) (w : World) :
  let out := query_of bmc k w in
  (forall msg, fst out <> Raise (IPMICommandError msg)) /\
  (exists j, (1 <= j <= List.length (commands_of k))%nat /\
     snd out = set_ipmi_calls (ipmi_calls w ++ firstn j (commands_of k)) w) /\
  (forall text, fst out = Ok text ->
     text = "" \/
     exists n args raw, In args (commands_of k) /\ bmc n args = Stdout raw /\
                        text = strip raw) /\
  ((forall n args, In args (commands_of k) -> exists stderr, bmc n args = Failed stderr) ->
   fst out = Ok "") /\
  (forall stderr,
     bmc (List.length (ipmi_calls w)) ["sdr"; "type"; "Temperature"] = Failed stderr ->
     fst (query_temperatures bmc w) = Raise (IPMICommandError (strip stderr))).
Proof.
  intros out. unfold out. rewrite query_of_answer. cbn [fst snd].
  assert (Hgen : forall commands n,
            (forall msg, fst (answer commands n) <> Raise (IPMICommandError msg)) /\
            (snd (answer commands n) <= List.length commands)%nat /\
            (commands <> [] -> (1 <= snd (answer commands n))%nat) /\
            (forall text, fst (answer commands n) = Ok text ->
               text = "" \/
               exists m args raw, In args commands /\ bmc m args = Stdout raw /\
                                  text = strip raw) /\
            ((forall m args, In args commands -> exists stderr, bmc m args = Failed stderr) ->
             fst (answer commands n) = Ok "")).
  { induction commands as [|args rest IH]; intros n; cbn [answer].
    - cbn [fst snd List.length]. split; [discriminate|]. split; [lia|].
      split; [congruence|]. split; [|reflexivity].
      intros text H. left. now injection H.
    - destruct (bmc n args) as [text | stderr | reason] eqn:E; cbn [fst snd List.length].
      + split; [discriminate|]. split; [lia|]. split; [lia|]. split.
        * intros t H. injection H as <-. right. exists n, args, text.
          split; [now left | auto].
        * intros H. destruct (H n args (or_introl eq_refl)) as [x Hx]. congruence.
      + specialize (IH (S n)). destruct (answer rest (S n)) as [r j]. cbn [fst snd] in *.
        destruct IH as (I1 & I2 & _ & I3 & I4).
        split; [exact I1|]. split; [lia|]. split; [lia|]. split.
        * intros t H. destruct (I3 t H) as [-> | (m & a & raw & Hin & Hb & ->)];
            [now left | right]. exists m, a, raw. split; [now right | auto].
        * intros H. apply I4. intros m a Hin. apply H. now right.
      + split; [discriminate|]. split; [lia|]. split; [lia|]. split; [discriminate|].
        intros H. destruct (H n args (or_introl eq_refl)) as [x Hx]. congruence. }
  destruct (Hgen (commands_of k) (List.length (ipmi_calls w))) as (G1 & G2 & G3 & G4 & G5).
  split; [exact G1|]. split.
  - exists (snd (answer (commands_of k) (List.length (ipmi_calls w)))).
    split; [|reflexivity]. split; [|exact G2]. apply G3. destruct k; discriminate.
  - split; [exact G4|]. split; [exact G5|].
    intros stderr H. unfold query_temperatures, _run. now rewrite H.
Qed.

End WithBmc.

End ClientFacts.

(** ** Zone tables in any order, temperatures of any kind *)

Module FanTableFacts.

Import PyStr Binary64 FanCurve Ipmi Model Scheduler FanCurveFacts FanControlFacts.
Import Stdlib.micromega.Lqa Stdlib.Sorting.Permutation.

Local Open Scope list_scope.
Local Open Scope Q_scope.

Lemma Qle_bool_total (x y : Q) : Qle_bool x y = false -> Qle_bool y x = true.
Proof.
  intros H. apply Qle_bool_iff. apply Qle_bool_false in H. now apply Qlt_le_weak.
Qed.

Lemma insert_zone_ascending (z : Zone) (l : list Zone) :
  is_ascending l = true -> is_ascending (insert_zone z l) = true.
Proof.
  induction l as [|y l IH]; intros H; [reflexivity|].
  cbn [insert_zone]. destruct (Qle_bool (get_temp_threshold z) (get_temp_threshold y)) eqn:E.
  - cbn [is_ascending]. now rewrite E.
  - pose proof (IH (ascending_tail _ _ H)) as IH'.
    destruct l as [|b l].
    + cbn. now rewrite (Qle_bool_total _ _ E).
    + cbn [insert_zone] in *.
      destruct (Qle_bool (get_temp_threshold z) (get_temp_threshold b)) eqn:E2.
      * cbn [is_ascending] in *. rewrite (Qle_bool_total _ _ E). exact IH'.
      * cbn [is_ascending] in H |- *. apply andb_true_iff in H. destruct H as [H1 _].
        rewrite H1. exact IH'.
Qed.

Lemma sorted_is_ascending (zs : list Zone) : is_ascending (sorted zs) = true.
Proof.
  induction zs as [|z l IH]; [reflexivity|]. cbn [sorted]. now apply insert_zone_ascending.
Qed.

Lemma insert_zone_perm (z : Zone) (l : list Zone) : Permutation (z :: l) (insert_zone z l).
Proof.
  induction l as [|y l IH]; [apply Permutation_refl|]. cbn [insert_zone].
  destruct (Qle_bool _ _); [apply Permutation_refl|].
  eapply perm_trans; [apply perm_swap|]. now apply perm_skip.
Qed.

Lemma sorted_perm (zs : list Zone) : Permutation zs (sorted zs).
Proof.
  induction zs as [|z l IH]; [apply perm_nil|]. cbn [sorted].
  eapply perm_trans; [apply perm_skip, IH | apply insert_zone_perm].
Qed.

Lemma sorted_not_nil (zs : list Zone) : zs <> [] -> sorted zs <> [].
Proof.
  intros H E. apply H. apply Permutation_nil. rewrite <- E. apply Permutation_sym, sorted_perm.
Qed.

Lemma sorted_idempotent (zs : list Zone) : sorted (sorted zs) = sorted zs.
Proof. apply sorted_ascending, sorted_is_ascending. Qed.

Lemma target_of_zones_sorted (zs : list Zone) (cpu_temp : PyFloat) :
  target_of_zones zs cpu_temp = target_of_zones (sorted zs) cpu_temp.
Proof.
  unfold target_of_zones. destruct zs as [|a l]; [reflexivity|].
  destruct (sorted (a :: l)) as [|b l'] eqn:E.
  - exfalso. now apply (sorted_not_nil (a :: l)).
  - rewrite <- E, sorted_idempotent. reflexivity.
Qed.

Lemma calculate_of_target (zs : list Zone) (cpu_temp : PyFloat) :
  _calculate_target_rpm (Some (mkFanDefaults (Some zs))) cpu_temp
  = target_of_zones zs cpu_temp.
Proof.
  unfold _calculate_target_rpm. cbn [zones].
  destruct (target_of_zones zs cpu_temp) as [rpm|]; [|reflexivity].
  destruct (Z.eqb_spec rpm 0) as [-> | _]; reflexivity.
Qed.

(** The loop finds no zone for a temperature that compares false with
    every threshold. *)
Lemma scan_zones_none (all rest : list Zone) (cpu_temp : PyFloat) :
  (forall q, le_Q cpu_temp q = false) -> scan_zones all rest cpu_temp = None.
Proof.
  intros H. induction rest as [|z rest IH]; [reflexivity|]. cbn [scan_zones].
  destruct (index z all); rewrite H, ?andb_false_r; exact IH.
Qed.

Lemma target_above_all (zs : list Zone) (cpu_temp : PyFloat) :
  zs <> [] -> (forall q, le_Q cpu_temp q = false) ->
  target_of_zones zs cpu_temp = Some (get_target_rpm (last (sorted zs) dummy_zone)).
Proof.
  intros Hne H. unfold target_of_zones. destruct zs as [|a l]; [congruence|].
  now rewrite scan_zones_none.
Qed.

Lemma target_below_all (zs : list Zone) :
  zs <> [] ->
  target_of_zones zs NInf = Some (get_target_rpm (hd dummy_zone (sorted zs))).
Proof.
  intros Hne. unfold target_of_zones. destruct zs as [|a l]; [congruence|].
  destruct (sorted (a :: l)) as [|b l'] eqn:E.
  - exfalso. now apply (sorted_not_nil (a :: l)).
  - cbn [scan_zones index hd]. rewrite zone_eqb_refl. reflexivity.
Qed.

(** X13.  The fan curve on any table and any reading.  The zones need not
    be configured in order: the code sorts them (a stable sort) and reads
    the sorted table.  With at least one zone every reading gets the rpm of
    one of the zones: a finite one the rpm of the first sorted zone whose
    threshold is not below it, else of the last; a reading that is not a
    number, or plus infinity, the rpm of the last sorted zone; minus
    infinity that of the first.  With no zone table, or an empty one, there
    is no target at all. *)
Theorem target_rpm_on_any_table (fan_defaults : option FanDefaults) (cpu_temp : PyFloat) :
  (_calculate_target_rpm fan_defaults cpu_temp = None <->
   fan_defaults = None \/
   (exists fd, fan_defaults = Some fd /\ (zones fd = None \/ zones fd = Some []))) /\
  (forall zs,
     fan_defaults = Some (mkFanDefaults (Some zs)) -> zs <> [] ->
     let target := _calculate_target_rpm fan_defaults in
     is_ascending (sorted zs) = true /\
     Permutation zs (sorted zs) /\
     (exists z, In z zs /\ target cpu_temp = Some (get_target_rpm z)) /\
     (forall t, target (Fin t) = Some (get_target_rpm (selected t (sorted zs)))) /\
     target NaN = Some (get_target_rpm (last (sorted zs) dummy_zone)) /\
     target PInf = Some (get_target_rpm (last (sorted zs) dummy_zone)) /\
     target NInf = Some (get_target_rpm (hd dummy_zone (sorted zs)))).
Proof.
  assert (Hfin : forall zs t, zs <> [] ->
            target_of_zones zs (Fin t) = Some (get_target_rpm (selected t (sorted zs)))).
  { intros zs t Hne. rewrite target_of_zones_sorted.
    apply target_of_zones_selected; [now apply sorted_not_nil | apply sorted_is_ascending]. }
  assert (Hin : forall zs z, In z (sorted zs) -> In z zs).
  { intros zs z H. apply (Permutation_in z (Permutation_sym (sorted_perm zs)) H). }
  assert (Hlast : forall zs, zs <> [] -> In (last (sorted zs) dummy_zone) zs).
  { intros zs Hne. apply Hin. pose proof (sorted_not_nil zs Hne) as Hs.
    destruct (exists_last Hs) as [l' [a ->]]. rewrite last_last. apply in_or_app.
    right. now left. }
  assert (Hhd : forall zs, zs <> [] -> In (hd dummy_zone (sorted zs)) zs).
  { intros zs Hne. apply Hin. pose proof (sorted_not_nil zs Hne) as Hs.
    destruct (sorted zs); [congruence | now left]. }
  split.
  - destruct fan_defaults as [[[zs|]]|]; cbn [_calculate_target_rpm zones].
    + destruct zs as [|a l].
      * cbn. split; [intros _; right; eexists; eauto | reflexivity].
      * pose proof (calculate_of_target (a :: l) cpu_temp) as Hc.
        unfold _calculate_target_rpm in Hc. cbn [zones] in Hc. rewrite Hc.
        split.
        -- unfold target_of_zones. destruct (scan_zones _ _ _); discriminate.
        -- intros [H | [fd [H [H' | H']]]]; try discriminate;
             injection H as <-; discriminate.
    + split; [intros _; right; eexists; eauto | reflexivity].
    + split; [now left | reflexivity].
  - intros zs -> Hne target. unfold target.
    split; [apply sorted_is_ascending|]. split; [apply sorted_perm|].
    rewrite !calculate_of_target.
    assert (Hnan : target_of_zones zs NaN
                   = Some (get_target_rpm (last (sorted zs) dummy_zone)))
      by (apply target_above_all; [exact Hne | reflexivity]).
    assert (Hpinf : target_of_zones zs PInf
                    = Some (get_target_rpm (last (sorted zs) dummy_zone)))
      by (apply target_above_all; [exact Hne | reflexivity]).
    split; [|split; [|split; [exact Hnan | split; [exact Hpinf|]]]].
    + destruct cpu_temp as [t| | |].
      * exists (selected t (sorted zs)). split; [|now apply Hfin].
        apply Hin, selected_in. now apply sorted_not_nil.
      * eexists. split; [|exact Hpinf]. now apply Hlast.
      * eexists. split; [|now apply target_below_all]. now apply Hhd.
      * eexists. split; [|exact Hnan]. now apply Hlast.
    + intros t. rewrite calculate_of_target. now apply Hfin.
    + now apply target_below_all.
Qed.

(** *** Tables with distinct thresholds *)

Fixpoint distinct_thresholds (zs : list Zone) : Prop :=
  match zs with
  | [] => True
  | z :: l =>
      (forall y, In y l -> ~ get_temp_threshold z == get_temp_threshold y) /\
      distinct_thresholds l
  end.

Lemma insert_zone_swap (a b : Zone) (l : list Zone) :
  ~ get_temp_threshold a == get_temp_threshold b ->
  insert_zone a (insert_zone b l) = insert_zone b (insert_zone a l).
Proof.
  intros Hne.
  induction l as [|y l IH]; cbn [insert_zone].
  - destruct (Qle_bool (get_temp_threshold a) (get_temp_threshold b)) eqn:E1,
             (Qle_bool (get_temp_threshold b) (get_temp_threshold a)) eqn:E2;
      try reflexivity; exfalso;
      apply Qle_bool_iff in E1 || apply Qle_bool_false in E1;
      apply Qle_bool_iff in E2 || apply Qle_bool_false in E2; lra.
  - destruct (Qle_bool (get_temp_threshold b) (get_temp_threshold y)) eqn:Eb,
             (Qle_bool (get_temp_threshold a) (get_temp_threshold y)) eqn:Ea,
             (Qle_bool (get_temp_threshold a) (get_temp_threshold b)) eqn:E1,
             (Qle_bool (get_temp_threshold b) (get_temp_threshold a)) eqn:E2;
      cbn [insert_zone]; rewrite ?Ea, ?Eb, ?E1, ?E2, ?IH; try reflexivity; exfalso;
      (apply Qle_bool_iff in E1 || apply Qle_bool_false in E1);
      (apply Qle_bool_iff in E2 || apply Qle_bool_false in E2);
      (apply Qle_bool_iff in Ea || apply Qle_bool_false in Ea);
      (apply Qle_bool_iff in Eb || apply Qle_bool_false in Eb); lra.
Qed.

Lemma distinct_thresholds_perm (l l' : list Zone) :
  Permutation l l' -> distinct_thresholds l -> distinct_thresholds l'.
Proof.
  induction 1 as [|x l l' Hp IH|x y l|l l' l'' Hp1 IH1 Hp2 IH2]; cbn [distinct_thresholds].
  - auto.
  - intros [H1 H2]. split; [|auto]. intros y Hy. apply H1.
    apply (Permutation_in y (Permutation_sym Hp) Hy).
  - intros [H1 [H2 H3]]. split; [|split].
    + intros z [<- | Hz]; [|now apply H2].
      intros E. apply (H1 x); [now left | now symmetry].
    + intros z Hz. apply H1. now right.
    + exact H3.
  - auto.
Qed.

Lemma sorted_perm_eq (l l' : list Zone) :
  Permutation l l' -> distinct_thresholds l -> sorted l = sorted l'.
Proof.
  induction 1 as [|x l l' Hp IH|x y l|l l' l'' Hp1 IH1 Hp2 IH2]; intros Hd.
  - reflexivity.
  - cbn [sorted]. destruct Hd as [_ Hd]. now rewrite IH.
  - cbn [sorted]. destruct Hd as [H1 _]. apply insert_zone_swap.
    intros E. apply (H1 x); [now left | now symmetry].
  - rewrite IH1 by exact Hd. apply IH2. exact (distinct_thresholds_perm _ _ Hp1 Hd).
Qed.

(** X14.  The order in which the zones are configured does not matter,
    as long as no two zones share a threshold: two tables with the same
    zones give the same sorted table, the same target for every reading,
    and the same threshold for the overrides. *)
Theorem target_rpm_order_independent (zs zs' : list Zone) :
  Permutation zs zs' -> distinct_thresholds zs ->
  sorted zs = sorted zs' /\
  (forall cpu_temp,
     _calculate_target_rpm (Some (mkFanDefaults (Some zs))) cpu_temp
     = _calculate_target_rpm (Some (mkFanDefaults (Some zs'))) cpu_temp) /\
  _get_first_zone_threshold (Some (mkFanDefaults (Some zs)))
  = _get_first_zone_threshold (Some (mkFanDefaults (Some zs'))).
Proof.
  intros Hp Hd. pose proof (sorted_perm_eq zs zs' Hp Hd) as Hs.
  split; [exact Hs|]. split.
  - intros cpu_temp. rewrite !calculate_of_target.
    rewrite (target_of_zones_sorted zs), (target_of_zones_sorted zs'). now rewrite Hs.
  - unfold _get_first_zone_threshold. cbn [zones].
    now rewrite (Permutation_length Hp), Hs.
Qed.

(** The three zones of the example, hottest first. *)
Definition zones_70_52_50 : list Zone :=
  [mkZone (Some 70) (Some 5000%Z); mkZone (Some 52) (Some 3500%Z);
   mkZone (Some 50) (Some 1800%Z)].

Lemma target_rpm_order_independent_witness :
  sorted zones_70_52_50 = sorted zones_50_52_70 /\
  _calculate_target_rpm (Some (mkFanDefaults (Some zones_70_52_50))) (Fin 51)
  = Some 3500%Z.
Proof.
  destruct (target_rpm_order_independent zones_70_52_50 zones_50_52_70) as (H1 & H2 & _).
  - unfold zones_70_52_50, zones_50_52_70.
    eapply perm_trans; [apply perm_swap|].
    eapply perm_trans; [apply perm_skip, perm_swap|]. apply perm_swap.
  - cbn. repeat split; try (intros y [<- | [<- | []]]); try (intros y [<- | []]);
      try (intros y []); cbn; unfold Qeq; cbn; lia.
  - split; [exact H1|]. rewrite H2. vm_compute. reflexivity.
Defined.

End FanTableFacts.

(** ** The overrides in a poll *)

Module OverrideFacts.

Import PyStr Binary64 FanCurve Parser Ipmi Model Scheduler.
Import StoreFacts IpmiFacts CheckFacts FanControlFacts PollFacts ClientFacts.

Local Open Scope string_scope.
Local Open Scope list_scope.
Local Open Scope Z_scope.

Section WithOutside.

Variable bmc : nat -> list string -> Outcome.
Variable clock : nat -> Z.

Lemma set_fan_speed_supermicro (server : ServerTarget) (rpm : Z) (fan : option string)
  (w : World) :
  lower (vendor server) = "supermicro" -> rpm < 2 ^ 1000 ->
  exists b,
    speed_byte rpm = Ok b /\
    set_fan_speed bmc server rpm fan w
    = _run bmc ("raw" :: command_words fan b)
        (set_fan_requests (fan_requests w ++ [(rpm, fan)]) w).
Proof.
  intros Hvendor Hlt. destruct (speed_byte_range rpm Hlt) as [b [Hb Hrange]].
  exists b. split; [exact Hb|]. unfold set_fan_speed.
  rewrite (build_supermicro (vendor server) rpm b fan Hvendor Hb).
  unfold raw_command. now rewrite (split_ws_command fan b Hrange).
Qed.

(** X15.  The overrides of a server are never applied.  Take a Supermicro
    server whose zones give a target for the temperature that is read, and
    an ipmitool that takes the three commands.  The cycle asks for the base
    rpm for all fans, one raw command, and then reads
    [server.fan_overrides] of a row that [session.get] loaded, which raises
    [MissingGreenlet]: whatever overrides the server has, no fan of its own
    is asked for anything.  The rest of the cycle is skipped: the critical
    temperature is not looked at, none of the five checks runs, the poll is
    not stamped as successful; and the exception is reported as a
    connectivity alert, if that alert is on. *)
Theorem poll_stops_at_the_overrides (sid : Z) (server : ServerTarget)
  (temperatures fans raw : string) (cpu_temp : PyFloat) (base_rpm : Z) (w : World) :
  find (fun s => id s =? sid) (servers w) = Some server ->
  lower (vendor server) = "supermicro" ->
  bmc (List.length (ipmi_calls w)) ["sdr"; "type"; "Temperature"] = Stdout temperatures ->
  bmc (S (List.length (ipmi_calls w))) ["sdr"; "type"; "Fan"] = Stdout fans ->
  (forall args, bmc (S (S (List.length (ipmi_calls w)))) ("raw" :: args) = Stdout raw) ->
  _parse_cpu_temperature (strip temperatures) = Some cpu_temp ->
  _calculate_target_rpm (fan_defaults server) cpu_temp = Some base_rpm ->
  base_rpm < 2 ^ 1000 ->
  exists b w1,
    speed_byte base_rpm = Ok b /\
    poll_body bmc clock server w = (Raise MissingGreenlet, w1) /\
    ipmi_calls w1
    = ipmi_calls w ++ [["sdr"; "type"; "Temperature"]; ["sdr"; "type"; "Fan"];
                       "raw" :: command_words None b] /\
    fan_requests w1 = fan_requests w ++ [(base_rpm, None)] /\
    active_alerts w1 = active_alerts w /\
    dispatched w1 = dispatched w /\
    servers w1 = servers w /\
    _poll_server bmc clock sid w
    = (if _is_alert_enabled server "connectivity"
       then _activate_alert clock server "connectivity" (UnexpectedError MissingGreenlet) w1
       else (Ok tt, w1)).
Proof.
  intros Hfind Hvendor Ht Hf Hraw Hparse Hrpm Hlt.
  set (w0 := set_ipmi_calls (ipmi_calls w ++ [["sdr"; "type"; "Temperature"]]) w).
  set (w2 := set_ipmi_calls (ipmi_calls w0 ++ [["sdr"; "type"; "Fan"]]) w0).
  set (w3 := set_fan_requests (fan_requests w2 ++ [(base_rpm, None)]) w2).
  destruct (set_fan_speed_supermicro server base_rpm None w2 Hvendor Hlt) as [b [Hb Hset]].
  set (w4 := set_ipmi_calls (ipmi_calls w3 ++ ["raw" :: command_words None b]) w3).
  assert (Hlen0 : List.length (ipmi_calls w0) = S (List.length (ipmi_calls w))).
  { unfold w0. destruct w; cbn. rewrite length_app. cbn. lia. }
  assert (Hlen3 : List.length (ipmi_calls w3) = S (S (List.length (ipmi_calls w)))).
  { unfold w3, w2, w0. destruct w; cbn. rewrite !length_app. cbn. lia. }
  assert (Hspeed : set_fan_speed bmc server base_rpm None w2 = (Ok (strip raw), w4)).
  { rewrite Hset. fold w3. unfold _run. rewrite Hlen3, Hraw. reflexivity. }
  assert (Hfan : fan_control bmc server cpu_temp w2 = (Raise MissingGreenlet, w4)).
  { pose proof (fan_control_outcome bmc server cpu_temp w2) as H.
    rewrite Hrpm, Hspeed in H. exact H. }
  assert (Hbody : poll_body bmc clock server w = (Raise MissingGreenlet, w4)).
  { unfold poll_body, bind, query_temperatures, query_fans, _run.
    rewrite Ht. fold w0. rewrite Hlen0, Hf. fold w2. rewrite Hparse.
    fold (bind (fan_control bmc server cpu_temp)
            (fun _ => critical_temperature_check clock server cpu_temp)).
    unfold bind. now rewrite Hfan. }
  exists b, w4. split; [exact Hb|]. split; [exact Hbody|].
  split; [unfold w4, w3, w2, w0; destruct w; cbn; now rewrite <- !app_assoc|].
  split; [destruct w; reflexivity|].
  split; [destruct w; reflexivity|].
  split; [destruct w; reflexivity|].
  split; [destruct w; reflexivity|].
  rewrite (poll_server_found bmc clock sid server w Hfind). unfold try_except_else.
  rewrite Hbody. apply on_poll_error_benign. split; discriminate.
Qed.

End WithOutside.

Lemma poll_stops_at_the_overrides_witness :
  exists w1,
    poll_body reads_48 Z.of_nat sample_server sample_world = (Raise MissingGreenlet, w1) /\
    fan_requests w1 = [(1800, None)] /\
    ipmi_calls w1
    = [["sdr"; "type"; "Temperature"]; ["sdr"; "type"; "Fan"];
       ["raw"; "0x30"; "0x70"; "0x66"; "0x1"; "0x00"; "0x00"; "0x18"]].
Proof.
  destruct (poll_stops_at_the_overrides reads_48 Z.of_nat 1 sample_server
              "CPU Temp         | 04h | ok  |  7.1 | 48 degrees C"
              "CPU Temp         | 04h | ok  |  7.1 | 48 degrees C"
              "CPU Temp         | 04h | ok  |  7.1 | 48 degrees C"
              (Fin 48) 1800 sample_world)
    as (b & w1 & Hb & Hbody & Hcalls & Hreq & _).
  - reflexivity.
  - reflexivity.
  - reflexivity.
  - reflexivity.
  - reflexivity.
  - vm_compute. reflexivity.
  - vm_compute. reflexivity.
  - reflexivity.
  - exists w1. split; [exact Hbody|]. split; [exact Hreq|].
    vm_compute in Hb. injection Hb as <-. exact Hcalls.
Defined.

End OverrideFacts.


(** ** The five checks of a cycle *)

Module AlertCheckFacts.

Import PyStr Binary64 FanCurve Parser Ipmi Model Scheduler.
Import StoreFacts CheckFacts StalenessFacts ParserFacts PollFacts ClientFacts.

Local Open Scope string_scope.
Local Open Scope list_scope.

Definition all_checks : list CheckKind :=
  [MemoryErrors; PowerFailure; Intrusion; VoltageIssues; SystemEvents].

Lemma all_checks_complete (k : CheckKind) : In k all_checks.
Proof. destruct k; cbn; tauto. Qed.

Lemma all_checks_nodup : NoDup all_checks.
Proof.
  unfold all_checks.
  repeat (constructor; [cbn; intros H; repeat destruct H as [H | H]; discriminate || exact H|]).
  constructor.
Qed.

Lemma alert_type_of_injective (k k' : CheckKind) :
  alert_type_of k = alert_type_of k' -> k = k'.
Proof. destruct k, k'; cbn; intros H; try reflexivity; discriminate. Qed.

Section WithOutside.

Variable bmc : nat -> list string -> Outcome.
Variable clock : nat -> Z.

(** The checks of [ks], one after the other: a check that raises ends the
    sequence. *)
Fixpoint run_checks (ks : list CheckKind) (server : ServerTarget) : M unit :=
  match ks with
  | [] => ret tt
  | k :: ks' => bind (guarded_check bmc clock k server) (fun _ => run_checks ks' server)
  end.

Lemma check_alerts_run (server : ServerTarget) (w : World) :
  no_channels server = false ->
  _check_alerts bmc clock server w = run_checks all_checks server w.
Proof.
  intros H. unfold _check_alerts. rewrite H. cbn [run_checks all_checks]. unfold bind.
  repeat match goal with
         | |- context [guarded_check bmc clock ?k server ?w0] =>
             destruct (guarded_check bmc clock k server w0) as [[[]|?] ?]
         end; reflexivity.
Qed.

(** A check raises what its handler raises. *)
Lemma guarded_check_raises (k : CheckKind) (server : ServerTarget) (w w' : World) (e : Exn) :
  guarded_check bmc clock k server w = (Raise e, w') -> e = PendingRollbackError.
Proof.
  unfold guarded_check, try_except_else, log_and_pass, name_in_handler, bind, raise, ret.
  destruct (_is_alert_enabled server (alert_type_of k)); [|discriminate].
  destruct (check bmc clock k server w) as [[u|e0] w0]; [discriminate|].
  destruct e0; intros H; congruence.
Qed.

(** The action of a check once its query has answered. *)
Definition settle (k : CheckKind) (server : ServerTarget) (status : string) : M unit :=
  if condition_present k status
  then _activate_alert clock server (alert_type_of k) (message_of k status)
  else _clear_alert_if_active clock server (alert_type_of k) "auto".

(** The handler of a check changes nothing: the world after a check is the
    world after its body. *)
Lemma guarded_check_world (k : CheckKind) (server : ServerTarget) (w : World) :
  snd (guarded_check bmc clock k server w)
  = if _is_alert_enabled server (alert_type_of k) then
      match fst (query_of bmc k w) with
      | Ok status => snd (settle k server status (snd (query_of bmc k w)))
      | Raise _ => snd (query_of bmc k w)
      end
    else w.
Proof.
  unfold guarded_check, try_except_else, check, bind, settle, log_and_pass,
    name_in_handler, raise, ret.
  destruct (_is_alert_enabled server (alert_type_of k)); [|reflexivity].
  destruct (query_of bmc k w) as [[status|e] w0]; cbn [fst snd];
    [|destruct e; reflexivity].
  destruct (condition_present k status).
  - destruct (_activate_alert clock server (alert_type_of k) (message_of k status) w0)
      as [[u|e] w1]; [reflexivity | destruct e; reflexivity].
  - destruct (_clear_alert_if_active clock server (alert_type_of k) "auto" w0)
      as [[u|e] w1]; [reflexivity | destruct e; reflexivity].
Qed.

Lemma settle_shape (k : CheckKind) (server : ServerTarget) (status : string) (w : World) :
  exists al n ds os, snd (settle k server status w) = store_change w al n ds os.
Proof.
  unfold settle. destruct (condition_present k status).
  - destruct (activate_shape clock server (alert_type_of k) (message_of k status) w)
      as (al & n & ds & os & H & _). eauto.
  - destruct (clear_shape clock server (alert_type_of k) "auto" w)
      as (al & n & ds & os & H & _). eauto.
Qed.

(** *** What the checks ask ipmitool *)

(** The calls of one check that starts as the [n]-th call of the world. *)
Definition calls_of (server : ServerTarget) (k : CheckKind) (n : nat) : list (list string) :=
  if _is_alert_enabled server (alert_type_of k)
  then firstn (snd (answer bmc (commands_of k) n)) (commands_of k)
  else [].

Fixpoint trace (server : ServerTarget) (ks : list CheckKind) (n : nat)
  : list (list string) :=
  match ks with
  | [] => []
  | k :: ks' =>
      calls_of server k n ++ trace server ks' (n + List.length (calls_of server k n))
  end.

Lemma guarded_check_calls (k : CheckKind) (server : ServerTarget) (w : World) :
  let w' := snd (guarded_check bmc clock k server w) in
  ipmi_calls w' = ipmi_calls w ++ calls_of server k (List.length (ipmi_calls w)) /\
  fan_requests w' = fan_requests w /\
  servers w' = servers w.
Proof.
  cbv zeta. rewrite guarded_check_world. unfold calls_of.
  destruct (_is_alert_enabled server (alert_type_of k)).
  2:{ rewrite app_nil_r. auto. }
  rewrite (query_of_answer bmc k w). cbn [fst snd].
  set (j := snd (answer bmc (commands_of k) (List.length (ipmi_calls w)))).
  set (w0 := set_ipmi_calls (ipmi_calls w ++ firstn j (commands_of k)) w).
  assert (H0 : ipmi_calls w0 = ipmi_calls w ++ firstn j (commands_of k) /\
               fan_requests w0 = fan_requests w /\ servers w0 = servers w)
    by (destruct w; cbn; auto).
  destruct (fst (answer bmc (commands_of k) (List.length (ipmi_calls w)))) as [status|e];
    [|exact H0].
  destruct (settle_shape k server status w0) as (al & n & ds & os & E). rewrite E.
  rewrite ipmi_calls_store_change, fan_requests_store_change, servers_store_change.
  exact H0.
Qed.

(** The calls of the checks are those of the checks that ran: all of them
    when the sequence returns, the first [j] when the [j]-th raises. *)
Lemma run_checks_calls (server : ServerTarget) (ks : list CheckKind) :
  forall w,
  exists j,
    ipmi_calls (snd (run_checks ks server w))
    = ipmi_calls w ++ trace server (firstn j ks) (List.length (ipmi_calls w)) /\
    (fst (run_checks ks server w) = Ok tt -> firstn j ks = ks) /\
    (forall e, fst (run_checks ks server w) = Raise e -> e = PendingRollbackError) /\
    fan_requests (snd (run_checks ks server w)) = fan_requests w /\
    servers (snd (run_checks ks server w)) = servers w.
Proof.
  induction ks as [|k ks IH]; intros w; cbn [run_checks].
  - exists 0%nat. cbn. rewrite app_nil_r. repeat split; auto. discriminate.
  - destruct (guarded_check_calls k server w) as (H1 & H2 & H3).
    unfold bind.
    destruct (guarded_check bmc clock k server w) as [[[]|e] w1] eqn:E; cbn [snd] in H1, H2, H3.
    + destruct (IH w1) as (j & I1 & I2 & I3 & I4 & I5). exists (S j).
      cbn [firstn trace]. rewrite I1, I4, I5, H1, H2, H3, length_app, <- app_assoc.
      repeat split; auto. intros Hok. now rewrite (I2 Hok).
    + exists 1%nat. cbn [firstn trace fst snd]. rewrite H1, app_nil_r.
      repeat split; auto; [discriminate|].
      intros e' He'. injection He' as <-. exact (guarded_check_raises _ _ _ _ _ E).
Qed.

Lemma trace_firstn (server : ServerTarget) (ks : list CheckKind) :
  forall j n, exists rest, trace server ks n = trace server (firstn j ks) n ++ rest.
Proof.
  induction ks as [|k ks IH]; intros j n.
  - exists []. now destruct j.
  - destruct j as [|j]; cbn [firstn trace].
    + eexists. reflexivity.
    + destruct (IH j (n + List.length (calls_of server k n))%nat) as [rest Hrest].
      exists rest. now rewrite Hrest, app_assoc.
Qed.

Lemma in_firstn {A} (x : A) (n : nat) (l : list A) : In x (firstn n l) -> In x l.
Proof.
  revert l. induction n as [|n IH]; intros l H; [destruct H|].
  destruct l as [|a l]; [destruct H|]. destruct H as [H | H]; [now left | right; auto].
Qed.

Lemma calls_of_enabled (server : ServerTarget) (k : CheckKind) (n : nat) (args : list string) :
  In args (calls_of server k n) ->
  _is_alert_enabled server (alert_type_of k) = true /\ In args (commands_of k).
Proof.
  unfold calls_of. destruct (_is_alert_enabled server (alert_type_of k)); [|intros []].
  intros H. split; [reflexivity|]. exact (in_firstn _ _ _ H).
Qed.

Lemma length_calls_of (server : ServerTarget) (k : CheckKind) (n : nat) :
  (List.length (calls_of server k n) <= List.length (commands_of k))%nat.
Proof.
  unfold calls_of. destruct (_is_alert_enabled server (alert_type_of k)); [|cbn; lia].
  rewrite length_firstn. lia.
Qed.

Lemma in_trace (server : ServerTarget) (ks : list CheckKind) (args : list string) :
  forall n, In args (trace server ks n) ->
  exists k, _is_alert_enabled server (alert_type_of k) = true /\ In args (commands_of k).
Proof.
  induction ks as [|k ks IH]; intros n; cbn [trace]; [intros []|].
  intros H. apply in_app_or in H. destruct H as [H | H].
  - exists k. exact (calls_of_enabled server k n args H).
  - exact (IH _ H).
Qed.

Lemma length_trace (server : ServerTarget) (ks : list CheckKind) :
  forall n,
  (List.length (trace server ks n) <= List.length (flat_map commands_of ks))%nat.
Proof.
  induction ks as [|k ks IH]; intros n; cbn [trace flat_map]; [apply le_n|].
  rewrite !length_app. pose proof (length_calls_of server k n) as H.
  specialize (IH (n + List.length (calls_of server k n))%nat). lia.
Qed.

(** X20.  The checks call ipmitool for the alert types that are switched
    on, and for no other: in the order memory, power supply, intrusion,
    voltage, events, each check that runs sends the commands of its query
    until one answers; a check that is off sends none, and without a
    notification channel no check runs.  The calls are those of the first
    [j] checks of that order: of all five when the evaluation returns; when
    it raises, which it does with [PendingRollbackError] only, of the checks
    up to the one that raised, so the calls are a prefix of those of the
    five.  There are six calls at most.  The checks ask for no fan speed and
    leave the server table alone. *)
Theorem checks_query_only_what_is_enabled (server : ServerTarget) (w : World) :
  let out := _check_alerts bmc clock server w in
  let w' := snd out in
  let n := List.length (ipmi_calls w) in
  exists calls,
    ipmi_calls w' = ipmi_calls w ++ calls /\
    (no_channels server = false ->
     exists j rest,
       calls = trace server (firstn j all_checks) n /\
       trace server all_checks n = calls ++ rest /\
       (fst out = Ok tt -> calls = trace server all_checks n) /\
       (forall e, fst out = Raise e -> e = PendingRollbackError)) /\
    (no_channels server = true -> fst out = Ok tt /\ calls = []) /\
    (forall args, In args calls ->
       exists k, _is_alert_enabled server (alert_type_of k) = true /\
                 In args (commands_of k)) /\
    (List.length calls <= 6)%nat /\
    fan_requests w' = fan_requests w /\
    servers w' = servers w.
Proof.
  cbv zeta. destruct (no_channels server) eqn:Hno.
  - unfold _check_alerts. rewrite Hno. cbn [fst snd ret]. exists [].
    rewrite app_nil_r. split; [reflexivity|]. split; [discriminate|].
    split; [auto|]. split; [intros args []|]. split; [cbn; lia | auto].
  - rewrite (check_alerts_run server w Hno).
    destruct (run_checks_calls server all_checks w) as (j & H1 & H2 & H3 & H4 & H5).
    destruct (trace_firstn server all_checks j (List.length (ipmi_calls w)))
      as [rest Hrest].
    exists (trace server (firstn j all_checks) (List.length (ipmi_calls w))).
    split; [exact H1|]. split.
    { intros _. exists j, rest. split; [reflexivity|]. split; [exact Hrest|].
      split; [|exact H3]. intros Hok. now rewrite (H2 Hok). }
    split; [discriminate|].
    split; [intros args; apply (in_trace server (firstn j all_checks) args)|].
    split; [|auto].
    pose proof (length_trace server all_checks (List.length (ipmi_calls w))) as Hlen.
    rewrite Hrest, length_app in Hlen. cbn in Hlen. lia.
Qed.

(** *** The alerts after the checks *)

Lemma answer_stationary (commands : list (list string)) :
  (forall n m args, bmc n args = bmc m args) ->
  forall n, answer bmc commands n = answer bmc commands 0.
Proof.
  intros Hst. induction commands as [|args rest IH]; intros n; [reflexivity|].
  cbn [answer]. rewrite (Hst n 0%nat args).
  destruct (bmc 0%nat args); try reflexivity. now rewrite (IH (S n)), (IH 1%nat).
Qed.

(** What the checks leave for one alert type, [w] being the world before and
    [reading] what the query of the type returns (none when the type is
    off). *)
Definition followed (server : ServerTarget) (k : CheckKind)
  (reading : option (Result string)) (w w' : World) : Prop :=
  match reading with
  | Some (Ok status) =>
      is_live (id server) (alert_type_of k) w' = condition_present k status
  | _ =>
      rows_of (id server) (alert_type_of k) w' = rows_of (id server) (alert_type_of k) w
  end.

Lemma followed_rows (server : ServerTarget) (k : CheckKind)
  (reading : option (Result string)) (w w1 w2 : World) :
  rows_of (id server) (alert_type_of k) w2 = rows_of (id server) (alert_type_of k) w1 ->
  followed server k reading w w1 -> followed server k reading w w2.
Proof.
  intros H. unfold followed. destruct reading as [[status|e]|].
  - now rewrite (is_live_rows _ _ _ _ H).
  - now rewrite H.
  - now rewrite H.
Qed.

Lemma followed_from (server : ServerTarget) (k : CheckKind)
  (reading : option (Result string)) (w w1 w2 : World) :
  rows_of (id server) (alert_type_of k) w1 = rows_of (id server) (alert_type_of k) w ->
  followed server k reading w1 w2 -> followed server k reading w w2.
Proof.
  intros H. unfold followed. destruct reading as [[status|e]|]; [auto| |];
    intros H2; now rewrite H2.
Qed.

Definition reading_of (server : ServerTarget) (k : CheckKind) (n : nat)
  : option (Result string) :=
  if _is_alert_enabled server (alert_type_of k)
  then Some (fst (answer bmc (commands_of k) n))
  else None.

(** With no cleared row for its type a check returns: no commit is refused,
    and a query that raises is passed over. *)
Lemma guarded_check_clean_returns (k : CheckKind) (server : ServerTarget) (w : World) :
  clean (id server) (alert_type_of k) w ->
  fst (guarded_check bmc clock k server w) = Ok tt.
Proof.
  intros Hclean. unfold guarded_check.
  destruct (_is_alert_enabled server (alert_type_of k)); [|reflexivity].
  unfold try_except_else, check, bind.
  destruct (query_of bmc k w) as [[status|e] w0] eqn:Hq.
  - assert (Hclean0 : clean (id server) (alert_type_of k) w0).
    { rewrite (query_of_answer bmc k w) in Hq. injection Hq as _ <-.
      apply (clean_rows _ _ w); [destruct w; reflexivity | exact Hclean]. }
    destruct (condition_present k status).
    + destruct (activate_clean clock server (alert_type_of k) (message_of k status) w0
                  Hclean0) as [w1 [E _]]. now rewrite E.
    + destruct (clear_clean clock server (alert_type_of k) "auto" w0 Hclean0)
        as [w1 [E _]]. now rewrite E.
  - destruct (query_raises bmc k w w0 e Hq) as [reason ->]. reflexivity.
Qed.

Lemma guarded_check_follows (k : CheckKind) (server : ServerTarget) (w : World) :
  clean (id server) (alert_type_of k) w ->
  let w' := snd (guarded_check bmc clock k server w) in
  followed server k (reading_of server k (List.length (ipmi_calls w))) w w' /\
  forall k', k' <> k ->
    rows_of (id server) (alert_type_of k') w' = rows_of (id server) (alert_type_of k') w.
Proof.
  intros Hclean. cbv zeta. rewrite guarded_check_world. unfold reading_of, followed.
  destruct (_is_alert_enabled server (alert_type_of k)); [|auto].
  rewrite (query_of_answer bmc k w). cbn [fst snd].
  set (j := snd (answer bmc (commands_of k) (List.length (ipmi_calls w)))).
  set (w0 := set_ipmi_calls (ipmi_calls w ++ firstn j (commands_of k)) w).
  assert (H0 : forall k0, rows_of (id server) k0 w0 = rows_of (id server) k0 w)
    by (intros k0; destruct w; reflexivity).
  destruct (fst (answer bmc (commands_of k) (List.length (ipmi_calls w)))) as [status|e];
    [|auto].
  pose proof (clean_rows _ _ w w0 (H0 _) Hclean) as Hclean0.
  split.
  - unfold settle. destruct (condition_present k status).
    + destruct (activate_clean clock server (alert_type_of k) (message_of k status) w0
                  Hclean0) as [w1 [E H1]]. now rewrite E.
    + destruct (clear_clean clock server (alert_type_of k) "auto" w0 Hclean0)
        as [w1 [E H1]]. now rewrite E.
  - intros k' Hne. rewrite <- (H0 (alert_type_of k')).
    assert (Hkey : (id server, alert_type_of k') <> (id server, alert_type_of k)).
    { intros E. injection E as E. now apply alert_type_of_injective in E. }
    unfold settle. destruct (condition_present k status).
    + now apply activate_frame.
    + now apply clear_frame.
Qed.

Lemma run_checks_follow (server : ServerTarget) :
  (forall n m args, bmc n args = bmc m args) ->
  forall ks w,
  NoDup ks ->
  (forall k, In k ks -> clean (id server) (alert_type_of k) w) ->
  fst (run_checks ks server w) = Ok tt /\
  forall k,
    (In k ks ->
     followed server k (reading_of server k 0) w (snd (run_checks ks server w))) /\
    (~ In k ks ->
     rows_of (id server) (alert_type_of k) (snd (run_checks ks server w))
     = rows_of (id server) (alert_type_of k) w).
Proof.
  intros Hst. induction ks as [|k0 ks IH]; intros w Hnd Hclean; cbn [run_checks].
  - split; [reflexivity|]. intros k. split; [intros [] | reflexivity].
  - inversion Hnd as [|x l Hnotin Hnd']; subst.
    pose proof (guarded_check_clean_returns k0 server w (Hclean k0 (or_introl eq_refl)))
      as Hret.
    destruct (guarded_check_follows k0 server w (Hclean k0 (or_introl eq_refl)))
      as [Hk0 Hframe].
    unfold bind.
    destruct (guarded_check bmc clock k0 server w) as [r w1]. cbn [fst snd] in *.
    subst r.
    assert (Hreading : reading_of server k0 (List.length (ipmi_calls w))
                       = reading_of server k0 0).
    { unfold reading_of. now rewrite (answer_stationary _ Hst). }
    rewrite Hreading in Hk0.
    assert (Hclean1 : forall k', In k' ks -> clean (id server) (alert_type_of k') w1).
    { intros k' Hin. apply (clean_rows _ _ w w1).
      - apply Hframe. intros ->. contradiction.
      - apply Hclean. now right. }
    specialize (IH w1 Hnd' Hclean1). destruct IH as [IHret IH].
    split; [exact IHret|]. intros k. split.
    + intros [<- | Hin].
      * destruct (IH k0) as [_ Hrest]. apply (followed_rows server k0 _ w w1).
        -- now apply Hrest.
        -- exact Hk0.
      * destruct (IH k) as [Hin' _]. apply (followed_from server k _ w w1).
        -- apply Hframe. intros ->. contradiction.
        -- now apply Hin'.
    + intros Hnot. destruct (IH k) as [_ Hrest].
      rewrite Hrest by (intros H; apply Hnot; now right).
      apply Hframe. intros ->. apply Hnot. now left.
Qed.

(** X21.  After the checks each alert follows its reading, when no alert
    of the five types was cleared before.  Take a server with a notification
    channel, an ipmitool whose answer to a command does not depend on when it
    is asked, and an alert table that holds no cleared row of the server for
    any of the five types: for each type no row, or one row, a live one.
    Then the checks return, and for each type that is switched on and whose
    query answered, the alert is live afterwards exactly when the detector
    of the type finds the condition in the answer (the empty answer, which
    is also what a failed command gives, never does); the rows of a type
    that is off, or whose query could not be run, are as they were. *)
Theorem checks_follow_the_readings (server : ServerTarget) (w : World) :
  no_channels server = false ->
  (forall n m args, bmc n args = bmc m args) ->
  (forall k, clean (id server) (alert_type_of k) w) ->
  exists w',
    _check_alerts bmc clock server w = (Ok tt, w') /\
    (forall k, followed server k (reading_of server k 0) w w') /\
    (forall k, condition_present k "" = false).
Proof.
  intros Hno Hst Hclean. exists (snd (run_checks all_checks server w)).
  destruct (run_checks_follow server Hst all_checks w all_checks_nodup
              (fun k _ => Hclean k)) as [Hret Hall].
  split.
  - rewrite (check_alerts_run server w Hno).
    destruct (run_checks all_checks server w) as [r w']. cbn in Hret. now subst r.
  - split.
    + intros k. destruct (Hall k) as [H _]. apply H, all_checks_complete.
    + intros k. reflexivity.
Qed.

(** *** An alert that was cleared once *)

(** X22.  An alert that was cleared does not come back.  The table allows
    one row for a server and an alert type, and a cleared row stays in it.
    So after an alert was raised and cleared (two dispatches), the next
    activation of the same type for the same server is refused with
    [IntegrityError]: it adds no row and dispatches nothing.  A check that
    finds the condition again does not return either: its handler reads the
    name of the server for the log entry, which the session refuses after
    the failed commit, so the check raises [PendingRollbackError]; the alert
    is not live, the table is as it was and no notification leaves.  The
    evaluation of the checks stops there with the same error. *)
Theorem cleared_alert_does_not_come_back (server : ServerTarget) (k : string) :
  (forall m1 m2 by_ w,
     (forall a, In a (active_alerts w) -> same_key (id server) k a = false) ->
     exists w1 w2 a,
       _activate_alert clock server k m1 w = (Ok tt, w1) /\
       _clear_alert_if_active clock server k by_ w1 = (Ok tt, w2) /\
       dispatched w2
       = dispatched w ++ [mkDispatch (id server) k false; mkDispatch (id server) k true] /\
       rows_of (id server) k w2 = [a] /\ cleared_by a = Some by_ /\
       only_cleared (id server) k w2 /\
       _activate_alert clock server k m2 w2
       = (Raise IntegrityError, set_clock_reads (S (S (clock_reads w2))) w2)) /\
  (forall m w,
     only_cleared (id server) k w ->
     _activate_alert clock server k m w
     = (Raise IntegrityError, set_clock_reads (S (S (clock_reads w))) w)) /\
  (forall c status w w0,
     k = alert_type_of c ->
     _is_alert_enabled server k = true ->
     only_cleared (id server) k w ->
     query_of bmc c w = (Ok status, w0) ->
     condition_present c status = true ->
     exists w',
       guarded_check bmc clock c server w = (Raise PendingRollbackError, w') /\
       is_live (id server) k w' = false /\
       active_alerts w' = active_alerts w /\
       dispatched w' = dispatched w /\
       outbox w' = outbox w /\
       forall rest : M unit,
         bind (guarded_check bmc clock c server) (fun _ => rest) w
         = (Raise PendingRollbackError, w')).
Proof.
  split; [|split].
  - intros m1 m2 by_ w Hfresh.
    assert (Hkey : existsb (same_key (id server) k) (active_alerts w) = false)
      by (now apply existsb_false).
    pose proof (activate_fresh clock server k m1 w Hkey) as Hact. cbv zeta in Hact.
    set (row := mkActiveAlert (id server) k m1 (clock (clock_reads w))
                  (clock (S (clock_reads w))) None None) in *.
    set (w1 := set_outbox (outbox w ++ sent server k m1 false w)
                 (set_dispatched (dispatched w ++ [mkDispatch (id server) k false])
                    (set_active_alerts (active_alerts w ++ [row])
                       (set_clock_reads (S (S (clock_reads w))) w)))) in *.
    assert (Hal1 : active_alerts w1 = active_alerts w ++ [row]) by (destruct w; reflexivity).
    assert (Hrow_key : same_key (id server) k row = true).
    { unfold same_key, row. cbn. now rewrite Z.eqb_refl, String.eqb_refl. }
    assert (Hrow_live : is_live_for (id server) k row = true).
    { unfold is_live_for, row. cbn. now rewrite Z.eqb_refl, String.eqb_refl. }
    assert (Hlive1 : live_rows (id server) k w1 = [row]).
    { unfold live_rows. rewrite Hal1, filter_app.
      rewrite (not_live_of_no_key _ _ _ Hkey). cbn [filter app]. now rewrite Hrow_live. }
    assert (Hrows1 : rows_of (id server) k w1 = [row]).
    { unfold rows_of. rewrite Hal1, filter_app.
      rewrite (filter_nil _ _ Hfresh). cbn [filter app]. now rewrite Hrow_key. }
    pose proof (clear_live clock server k by_ w1 row Hlive1) as Hclr. cbv zeta in Hclr.
    match type of Hclr with _ = (Ok tt, ?x) => set (w2 := x) in * end.
    assert (Hal2 : active_alerts w2
                   = map (fun r => if is_live_for (id server) k r
                                   then clear_row (clock (clock_reads w1)) by_
                                          (clock (S (clock_reads w1))) r
                                   else r) (active_alerts w1))
      by (destruct w; reflexivity).
    assert (Hrows2 : rows_of (id server) k w2
                     = [clear_row (clock (clock_reads w1)) by_
                          (clock (S (clock_reads w1))) row]).
    { unfold rows_of. rewrite Hal2.
      rewrite (filter_key_map _ _ _ _ _ (clear_row_keeps_key _ _ _)).
      fold (rows_of (id server) k w1). rewrite Hrows1. cbn [map]. now rewrite Hrow_live. }
    assert (Honly : only_cleared (id server) k w2).
    { split; [rewrite Hrows2; discriminate|].
      unfold live_rows. rewrite Hal2. apply filter_after_clear. }
    exists w1, w2, (clear_row (clock (clock_reads w1)) by_ (clock (S (clock_reads w1))) row).
    split; [exact Hact|]. split; [exact Hclr|].
    split; [destruct w; cbn; now rewrite <- app_assoc|].
    split; [exact Hrows2|]. split; [reflexivity|]. split; [exact Honly|].
    now apply activate_only_cleared.
  - intros m w. apply activate_only_cleared.
  - intros c status w w0 -> Hon Honly Hq Hpresent.
    assert (Hw0 : w0 = set_ipmi_calls (ipmi_calls w0) w).
    { rewrite (query_of_answer bmc c w) in Hq. injection Hq as _ <-.
      destruct w; reflexivity. }
    assert (Honly0 : only_cleared (id server) (alert_type_of c) w0).
    { rewrite Hw0. destruct Honly as [H1 H2]. split; destruct w; assumption. }
    assert (Hg : guarded_check bmc clock c server w
                 = (Raise PendingRollbackError, set_clock_reads (S (S (clock_reads w0))) w0)).
    { unfold guarded_check, try_except_else, check, bind.
      rewrite Hon, Hq, Hpresent.
      now rewrite (activate_only_cleared clock server (alert_type_of c) _ w0 Honly0). }
    exists (set_clock_reads (S (S (clock_reads w0))) w0).
    split; [exact Hg|].
    assert (Hlive' : is_live (id server) (alert_type_of c)
                       (set_clock_reads (S (S (clock_reads w0))) w0) = false).
    { destruct Honly as [_ Hlive]. rewrite Hw0. unfold is_live.
      replace (live_rows (id server) (alert_type_of c)
                 (set_clock_reads _ (set_ipmi_calls (ipmi_calls w0) w)))
        with (live_rows (id server) (alert_type_of c) w) by (destruct w; reflexivity).
      now rewrite Hlive. }
    split; [exact Hlive'|].
    split; [rewrite Hw0; destruct w; reflexivity|].
    split; [rewrite Hw0; destruct w; reflexivity|].
    split; [rewrite Hw0; destruct w; reflexivity|].
    intros rest. unfold bind. now rewrite Hg.
Qed.

End WithOutside.

(** *** The checks on the sample server *)

(** A BMC that answers every command with an uncorrectable memory error. *)
Definition failing_dimm (n : nat) (args : list string) : Outcome :=
  Stdout "DIMM1 | 20h | cr | 32.1 | Uncorrectable ECC".

Lemma checks_follow_the_readings_witness :
  exists w',
    _check_alerts failing_dimm Z.of_nat sample_server sample_world = (Ok tt, w') /\
    is_live 1 "memory_errors" w' = true.
Proof.
  destruct (checks_follow_the_readings failing_dimm Z.of_nat sample_server sample_world)
    as (w' & H1 & H2 & _).
  - reflexivity.
  - reflexivity.
  - intros k. left. reflexivity.
  - exists w'. split; [exact H1|]. exact (H2 MemoryErrors).
Defined.

End AlertCheckFacts.

(** ** The staleness monitor and the other alert types *)

Module MonitorFacts.

Import PyStr Binary64 FanCurve Parser Ipmi Model Scheduler.
Import StoreFacts CheckFacts StalenessFacts ParserFacts PollFacts.

Local Open Scope string_scope.
Local Open Scope list_scope.

(** The dispatches of the alert types other than connectivity. *)
Definition other_dispatches (w : World) : list Dispatch :=
  filter (fun d => negb (String.eqb (dispatch_alert_type d) "connectivity")) (dispatched w).

Lemma other_dispatches_store_change (w : World) al n ds os :
  (forall d, In d ds -> dispatch_alert_type d = "connectivity") ->
  other_dispatches (store_change w al n ds os) = other_dispatches w.
Proof.
  intros H. unfold other_dispatches, store_change. destruct w; cbn.
  rewrite filter_app. rewrite (filter_nil _ ds); [apply app_nil_r|].
  intros d Hd. rewrite (H d Hd). reflexivity.
Qed.

Lemma keeps_for_each {A X} (part : World -> X) (f : A -> M unit) (l : list A) :
  (forall a, In a l -> keeps part (f a)) -> keeps part (for_each f l).
Proof.
  induction l as [|a l IH]; intros H; cbn [for_each]; [apply keeps_ret|].
  apply keeps_bind; [apply H; now left | intros _; apply IH].
  intros b Hb. apply H. now right.
Qed.

Section WithClock.

Variable clock : nat -> Z.

(** One turn of the monitor keeps a part of the world that the two calls
    for the connectivity alert of the server keep. *)
Lemma keeps_check_offline {X} (part : World -> X) (now_ : Z) (server : ServerTarget) :
  (_is_alert_enabled server "connectivity" = true -> no_channels server = false ->
   (forall m, keeps part (_activate_alert clock server "connectivity" m)) /\
   keeps part (_clear_alert_if_active clock server "connectivity" "auto")) ->
  keeps part (check_offline_server clock now_ server).
Proof.
  intros H. unfold check_offline_server.
  destruct (_is_alert_enabled server "connectivity"); cbn [negb]; [|apply keeps_ret].
  destruct (no_channels server); [apply keeps_ret|].
  destruct (H eq_refl eq_refl) as [Ha Hc].
  destruct (last_successful_poll server) as [last_poll|].
  - destruct (_ <=? _)%Z; [apply Ha | exact Hc].
  - destruct (_ <=? _)%Z; [apply Ha | apply keeps_ret].
Qed.

Lemma keeps_monitor {X} (part : World -> X) (w : World) :
  (forall n w0, part (set_clock_reads n w0) = part w0) ->
  (forall s, In s (servers w) ->
     _is_alert_enabled s "connectivity" = true -> no_channels s = false ->
     (forall m, keeps part (_activate_alert clock s "connectivity" m)) /\
     keeps part (_clear_alert_if_active clock s "connectivity" "auto")) ->
  part (snd (_check_offline_servers clock w)) = part w.
Proof.
  intros Hclock H. unfold _check_offline_servers, bind, now. cbn [fst snd].
  rewrite (keeps_for_each part (check_offline_server clock (clock (clock_reads w)))
             (servers w)).
  - apply Hclock.
  - intros s Hs. apply keeps_check_offline. now apply H.
Qed.

(** X19.  The staleness monitor deals with the connectivity alert and with
    nothing else.  A run calls no ipmitool, asks for no fan speed and leaves
    the server table as it is; it changes no row of another alert type and
    dispatches nothing for one; and it leaves the connectivity rows of a
    server alone when that server has connectivity alerting off or no
    notification channel. *)
Theorem offline_monitor_touches_only_connectivity (w : World) :
  let w' := snd (_check_offline_servers clock w) in
  servers w' = servers w /\
  ipmi_calls w' = ipmi_calls w /\
  fan_requests w' = fan_requests w /\
  (forall sid k, k <> "connectivity" -> rows_of sid k w' = rows_of sid k w) /\
  (forall d, In d (dispatched w') ->
     In d (dispatched w) \/ dispatch_alert_type d = "connectivity") /\
  (forall sid,
     (forall s, In s (servers w) -> id s = sid ->
        _is_alert_enabled s "connectivity" = false \/ no_channels s = true) ->
     rows_of sid "connectivity" w' = rows_of sid "connectivity" w).
Proof.
  cbv zeta.
  assert (Hshape : forall X (part : World -> X),
            (forall n w0, part (set_clock_reads n w0) = part w0) ->
            (forall w0 al n ds os,
               (forall d, In d ds -> dispatch_alert_type d = "connectivity") ->
               part (store_change w0 al n ds os) = part w0) ->
            part (snd (_check_offline_servers clock w)) = part w).
  { intros X part Hclock H. apply keeps_monitor; [exact Hclock|].
    intros s _ _ _. split.
    - intros m w0.
      destruct (activate_shape clock s "connectivity" m w0) as (al & n & ds & os & E & Hd).
      rewrite E. now apply H.
    - intros w0.
      destruct (clear_shape clock s "connectivity" "auto" w0)
        as (al & n & ds & os & E & Hd).
      rewrite E. now apply H. }
  split; [|split; [|split; [|split; [|split]]]].
  - apply (Hshape _ servers); intros; destruct w0; reflexivity.
  - apply (Hshape _ ipmi_calls); intros; destruct w0; reflexivity.
  - apply (Hshape _ fan_requests); intros; destruct w0; reflexivity.
  - intros sid k Hk. apply keeps_monitor.
    + intros n w0. destruct w0; reflexivity.
    + intros s _ _ _. split.
      * intros m. apply keeps_activate. congruence.
      * apply keeps_clear. congruence.
  - intros d Hd.
    destruct (String.eqb_spec (dispatch_alert_type d) "connectivity") as [e | n];
      [now right | left].
    assert (Hin : In d (other_dispatches (snd (_check_offline_servers clock w)))).
    { unfold other_dispatches. apply filter_In. split; [exact Hd|].
      apply negb_true_iff. now apply String.eqb_neq. }
    rewrite (Hshape _ other_dispatches) in Hin.
    + unfold other_dispatches in Hin. now apply filter_In in Hin.
    + intros n0 w0. destruct w0; reflexivity.
    + intros w0 al n0 ds os H. now apply other_dispatches_store_change.
  - intros sid Hoff. apply keeps_monitor.
    + intros n w0. destruct w0; reflexivity.
    + intros s Hs Hon Hch.
      assert (Hne : id s <> sid).
      { intros E. destruct (Hoff s Hs E); congruence. }
      split.
      * intros m w0. apply activate_frame. congruence.
      * intros w0. apply clear_frame. congruence.
Qed.

End WithClock.

End MonitorFacts.

(** ** The sign of a temperature *)

Module ParserSignFacts.

Import PyStr Binary64 Parser Binary64Facts RegexFacts ParserFacts.

Local Open Scope string_scope.
Local Open Scope list_scope.
Local Open Scope Q_scope.

(** Zero or more, plus infinity included. *)
Definition not_negative (v : PyFloat) : Prop :=
  v = PInf \/ exists q, v = Fin q /\ 0 <= q.

Lemma round_pos_not_negative (q : Q) : 0 <= q -> 0 <= round_pos q.
Proof.
  intros H. unfold round_pos. rewrite Qred_correct.
  apply Qmult_le_0_compat; [|apply Qlt_le_weak, pow2_pos].
  change 0 with (inject_Z 0). rewrite <- Zle_Qle. apply round_half_even_ge.
  apply Qmult_le_0_compat; [exact H | apply Qlt_le_weak, pow2_pos].
Qed.

Lemma of_Q_not_negative (q : Q) : 0 <= q -> not_negative (of_Q q).
Proof.
  intros H. unfold of_Q, not_negative.
  destruct (overflows (round q)).
  - left. apply Qle_bool_iff in H. now rewrite H.
  - right. exists (round q). split; [reflexivity|]. unfold round.
    destruct (Qcompare q 0) eqn:E.
    + apply Qle_refl.
    + apply Qlt_alt in E. exfalso. apply (Qlt_not_le _ _ E H).
    + now apply round_pos_not_negative.
Qed.

Lemma decimal_value_from_digits (s : string) :
  forall acc, (0 <= acc)%Z -> all_digits s = true -> (0 <= decimal_value_from acc s)%Z.
Proof.
  induction s as [|c s IH]; intros acc Hacc Hd; [exact Hacc|].
  cbn in Hd. apply andb_true_iff in Hd. destruct Hd as [Hc Hs].
  cbn [decimal_value_from]. apply IH; [|exact Hs].
  unfold is_digit in Hc. apply andb_true_iff in Hc. destruct Hc as [H1 _].
  apply Nat.leb_le in H1. unfold digit_value. lia.
Qed.

Lemma all_digits_append (a b : string) :
  all_digits a = true -> all_digits b = true -> all_digits (String.append a b) = true.
Proof.
  intros Ha Hb. induction a as [|c a IH]; [exact Hb|]. cbn in *.
  apply andb_true_iff in Ha. destruct Ha as [H1 H2]. now rewrite H1, (IH H2).
Qed.

Lemma group_not_negative (g ds fs : string) :
  group_text g ds fs -> 0 <= decimal ds fs 0.
Proof.
  intros Hg.
  assert (Hd : all_digits (String.append ds fs) = true).
  { destruct Hg as [ds Hd _ | ds fs Hd _ Hf _].
    - now rewrite append_empty.
    - now apply all_digits_append. }
  unfold decimal. apply Qmult_le_0_compat.
  - change 0 with (inject_Z 0). rewrite <- Zle_Qle.
    now apply decimal_value_from_digits.
  - apply Qpower_pos. discriminate.
Qed.

Lemma scan_lines_some (lines : list string) (v : PyFloat) :
  scan_lines lines = Some v -> exists line, In line lines /\ parse_cpu_line line = Return v.
Proof.
  induction lines as [|l ls IH]; cbn [scan_lines]; [discriminate|].
  destruct (parse_cpu_line l) as [v0|] eqn:E.
  - intros H. injection H as <-. exists l. split; [now left | exact E].
  - intros H. destruct (IH H) as [line [Hin Hl]]. exists line. split; [now right | exact Hl].
Qed.

Lemma map_some_in (l : list string) (vs : list PyFloat) (x : PyFloat) :
  map py_float l = map Some vs -> In x vs -> exists g, In g l /\ py_float g = Some x.
Proof.
  revert vs. induction l as [|g l IH]; intros vs H Hx.
  - destruct vs; [destruct Hx | discriminate].
  - destruct vs as [|v vs]; [discriminate|]. cbn [map] in H. injection H as Hg Hrest.
    destruct Hx as [<- | Hx].
    + exists g. split; [now left | exact Hg].
    + destruct (IH vs Hrest Hx) as [g' [Hin Hg']]. exists g'. split; [now right | exact Hg'].
Qed.

(** X12.  The pattern reads no sign.  When no line of the output has five
    columns, the value the parser returns comes from "<number> degree(s) C",
    and the number is digits with at most one dot: the value is never
    negative and never not-a-number.  A reading of minus five degrees comes
    back as five. *)
Theorem pattern_reads_no_sign (text : string) (v : PyFloat) :
  (forall l, In l (split newline (strip text)) ->
     (List.length (split "|" (strip l)) < 5)%nat) ->
  _parse_cpu_temperature text = Some v ->
  not_negative v.
Proof.
  intros Hcols. unfold _parse_cpu_temperature.
  destruct (is_empty text); [discriminate|].
  destruct (scan_lines (split newline (strip text))) as [v0|] eqn:Hscan.
  - intros H. injection H as <-.
    destruct (scan_lines_some _ _ Hscan) as [line [Hin Hline]].
    destruct (parse_cpu_line_return line v0 Hline) as (_ & _ & [H | H]).
    + destruct H as [Hlen _]. specialize (Hcols line Hin). lia.
    + destruct H as (g & ds & fs & before & tail & _ & Hg & -> & _).
      apply of_Q_not_negative. exact (group_not_negative g ds fs Hg).
  - intros H. destruct (highest_in_text_spec text) as [Hnone Hsome].
    destruct (findall text) as [|m ms] eqn:Ef.
    + rewrite Hnone in H by reflexivity. discriminate.
    + destruct Hsome as (t & ts & Hmap & Hhighest & Hin & _); [discriminate|].
      rewrite Hhighest in H. injection H as <-.
      destruct (map_some_in _ _ _ Hmap Hin) as [g [Hg Hv]].
      assert (Hgroup : exists ds fs, group_text g ds fs).
      { apply (findall_from_groups text 0 g). unfold findall in Ef. now rewrite Ef. }
      destruct Hgroup as [ds [fs Hgroup]].
      rewrite (py_float_group g ds fs Hgroup) in Hv. injection Hv as <-.
      apply of_Q_not_negative. exact (group_not_negative g ds fs Hgroup).
Qed.

Lemma pattern_reads_no_sign_witness :
  _parse_cpu_temperature "CPU Temp: -5 degrees C" = Some (Fin 5) /\
  not_negative (Fin 5).
Proof.
  assert (H : _parse_cpu_temperature "CPU Temp: -5 degrees C" = Some (Fin 5))
    by (vm_compute; reflexivity).
  split; [exact H|].
  apply (pattern_reads_no_sign "CPU Temp: -5 degrees C" (Fin 5)); [|exact H].
  intros l [<- | []]. vm_compute. lia.
Defined.

End ParserSignFacts.

(** ** The jobs of the scheduler *)

Module JobFacts.

Import PyStr Model Scheduler Callers.

Local Open Scope string_scope.
Local Open Scope list_scope.

Lemma str_injective (a b : Z) : str a = str b -> a = b.
Proof.
  unfold str. intros H. apply DecimalZ.to_int_inj.
  assert (Hnil : forall n, Z.to_int n <> Decimal.Pos Decimal.Nil /\
                           Z.to_int n <> Decimal.Neg Decimal.Nil).
  { intros n. destruct n as [|p|p]; cbn; split; try discriminate;
      intros E; injection E as E; exact (DecimalPos.Unsigned.to_uint_nonnil p E). }
  destruct (Hnil a) as [Ha1 Ha2]. destruct (Hnil b) as [Hb1 Hb2].
  pose proof (DecimalString.NilZero.isi (Z.to_int a) Ha1 Ha2) as Ia.
  pose proof (DecimalString.NilZero.isi (Z.to_int b) Hb1 Hb2) as Ib.
  rewrite H in Ia. rewrite Ia in Ib. now injection Ib.
Qed.

Lemma append_injective (p a b : string) : String.append p a = String.append p b -> a = b.
Proof. induction p as [|c p IH]; cbn; intros H; [exact H|]. injection H as H. auto. Qed.

Lemma poll_job_id_injective (a b : Z) : poll_job_id a = poll_job_id b -> a = b.
Proof. unfold poll_job_id. intros H. apply str_injective. exact (append_injective _ _ _ H). Qed.

Lemma poll_job_id_not_offline (a : Z) : poll_job_id a <> offline_check_job_id.
Proof. unfold poll_job_id, offline_check_job_id. cbn. discriminate. Qed.

(** The job of an id, if the store has one. *)
Definition lookup (id_ : string) (jobs : list Job) : option Job :=
  find (fun j => String.eqb (job_id j) id_) jobs.

Lemma existsb_lookup (id_ : string) (jobs : list Job) :
  existsb (fun j => String.eqb (job_id j) id_) jobs
  = match lookup id_ jobs with Some _ => true | None => false end.
Proof.
  unfold lookup. induction jobs as [|j l IH]; [reflexivity|]. cbn.
  destruct (String.eqb (job_id j) id_); [reflexivity | exact IH].
Qed.

Lemma lookup_replace (job : Job) (jobs : list Job) (id_ : string) :
  lookup id_ (map (fun j => if String.eqb (job_id j) (job_id job) then job else j) jobs)
  = if String.eqb (job_id job) id_
    then (if existsb (fun j => String.eqb (job_id j) (job_id job)) jobs
          then Some job else None)
    else lookup id_ jobs.
Proof.
  unfold lookup. induction jobs as [|j l IH]; cbn [map find existsb].
  - now destruct (String.eqb (job_id job) id_).
  - destruct (String.eqb_spec (job_id j) (job_id job)) as [e | n]; cbn [orb].
    + destruct (String.eqb_spec (job_id job) id_) as [e' | n']; [reflexivity|].
      rewrite IH. destruct (String.eqb_spec (job_id j) id_); [congruence | reflexivity].
    + destruct (String.eqb_spec (job_id j) id_) as [e' | n'].
      * destruct (String.eqb_spec (job_id job) id_); [congruence | reflexivity].
      * exact IH.
Qed.

Lemma lookup_app (id_ : string) (a b : list Job) :
  lookup id_ (a ++ b) = match lookup id_ a with Some j => Some j | None => lookup id_ b end.
Proof.
  unfold lookup. induction a as [|j l IH]; [reflexivity|]. cbn.
  destruct (String.eqb (job_id j) id_); [reflexivity | exact IH].
Qed.

(** What the store answers after [add_job]. *)
Lemma lookup_add_job (job : Job) (jobs : list Job) (id_ : string) :
  lookup id_ (add_job job jobs)
  = if String.eqb (job_id job) id_ then Some job else lookup id_ jobs.
Proof.
  unfold add_job. destruct (existsb _ jobs) eqn:E.
  - rewrite lookup_replace, E. reflexivity.
  - rewrite lookup_app. cbn [lookup find].
    destruct (String.eqb_spec (job_id job) id_) as [e | n].
    + rewrite existsb_lookup, e in E. now destruct (lookup id_ jobs).
    + now destruct (lookup id_ jobs).
Qed.

Lemma ids_add_job (job : Job) (jobs : list Job) :
  NoDup (map job_id jobs) -> NoDup (map job_id (add_job job jobs)).
Proof.
  intros H. unfold add_job. destruct (existsb _ jobs) eqn:E.
  - replace (map job_id (map _ jobs)) with (map job_id jobs); [exact H|].
    rewrite map_map. apply map_ext. intros j.
    destruct (String.eqb_spec (job_id j) (job_id job)); congruence.
  - rewrite map_app. cbn [map]. apply NoDup_app; [exact H | repeat constructor; intros [] |].
    intros x Hx [<- | []]. apply in_map_iff in Hx. destruct Hx as [j [Hj Hin]].
    assert (existsb (fun j0 => String.eqb (job_id j0) (job_id job)) jobs = true).
    { apply existsb_exists. exists j. split; [exact Hin | now apply String.eqb_eq]. }
    congruence.
Qed.

Lemma lookup_remove_job (id_ id' : string) (jobs : list Job) :
  lookup id' (remove_job id_ jobs)
  = if String.eqb id_ id' then None else lookup id' jobs.
Proof.
  unfold lookup, remove_job. induction jobs as [|j l IH]; cbn [filter find].
  - now destruct (String.eqb id_ id').
  - destruct (String.eqb_spec (job_id j) id_) as [e | n]; cbn [negb find].
    + rewrite IH. destruct (String.eqb_spec id_ id') as [e' | n']; [reflexivity|].
      destruct (String.eqb_spec (job_id j) id'); [congruence | reflexivity].
    + destruct (String.eqb_spec (job_id j) id') as [e' | n'].
      * destruct (String.eqb_spec id_ id'); [congruence | reflexivity].
      * exact IH.
Qed.

(** The job of a server. *)
Definition poll_job (default_poll_interval_seconds : Z) (server_id : Z)
  (poll_interval_seconds : option Z) : Job :=
  mkJob (poll_job_id server_id)
    (match poll_interval_seconds with
     | Some s => if Z.eqb s 0 then default_poll_interval_seconds else s
     | None => default_poll_interval_seconds
     end)
    (PollServer server_id).

Lemma lookup_poll_jobs (default_ : Z) (id_ : string) (servers_ : list (Z * option Z)) :
  forall jobs,
  (forall s, In s servers_ -> poll_job_id (fst s) <> id_) ->
  lookup id_ (fold_left (fun js s => schedule_poll_job default_ (fst s) (snd s) js)
                servers_ jobs)
  = lookup id_ jobs.
Proof.
  induction servers_ as [|s l IH]; intros jobs H; [reflexivity|].
  cbn [fold_left]. rewrite IH by (intros s' Hs'; apply H; now right).
  unfold schedule_poll_job. rewrite lookup_add_job. cbn [job_id].
  destruct (String.eqb_spec (poll_job_id (fst s)) id_) as [e | n]; [|reflexivity].
  exfalso. exact (H s (or_introl eq_refl) e).
Qed.

Lemma lookup_scheduled (default_ : Z) (servers_ : list (Z * option Z)) :
  forall jobs sid interval,
  NoDup (map fst servers_) -> In (sid, interval) servers_ ->
  lookup (poll_job_id sid)
    (fold_left (fun js s => schedule_poll_job default_ (fst s) (snd s) js) servers_ jobs)
  = Some (poll_job default_ sid interval).
Proof.
  induction servers_ as [|s l IH]; intros jobs sid interval Hnd Hin; [destruct Hin|].
  cbn [map] in Hnd. inversion Hnd as [|x xs Hnot Hnd']; subst. cbn [fold_left].
  destruct Hin as [-> | Hin].
  - cbn [fst snd]. rewrite lookup_poll_jobs.
    + unfold schedule_poll_job. rewrite lookup_add_job. cbn [job_id].
      now rewrite String.eqb_refl.
    + intros s' Hs' E. apply poll_job_id_injective in E. apply Hnot.
      cbn [fst]. rewrite <- E. now apply in_map.
  - now apply IH.
Qed.

(** X18.  The jobs of the scheduler do not collide.  The id of a poll job
    names its server and no other, and is never the id of the offline
    check; so scheduling a server puts its job in the store, in place of its
    former job if it had one, and leaves every other job as it is, and the
    delete route takes out the job of its server and no other.  After the
    start of the application each server has its poll job, at its own
    interval or at the default when it has none, and the offline check runs
    every 300 seconds. *)
Theorem poll_jobs_do_not_collide :
  (forall a b, poll_job_id a = poll_job_id b -> a = b) /\
  (forall a, poll_job_id a <> offline_check_job_id) /\
  (forall default_ sid interval jobs id_,
     lookup id_ (schedule_poll_job default_ sid interval jobs)
     = if String.eqb (poll_job_id sid) id_
       then Some (poll_job default_ sid interval)
       else lookup id_ jobs) /\
  (forall default_ sid interval jobs,
     NoDup (map job_id jobs) ->
     NoDup (map job_id (schedule_poll_job default_ sid interval jobs))) /\
  (forall sid jobs id_,
     lookup id_ (remove_job (poll_job_id sid) jobs)
     = if String.eqb (poll_job_id sid) id_ then None else lookup id_ jobs) /\
  (forall default_ servers_ jobs,
     NoDup (map fst servers_) ->
     let jobs' := schedule_at_startup default_ servers_ jobs in
     (forall sid interval, In (sid, interval) servers_ ->
        lookup (poll_job_id sid) jobs' = Some (poll_job default_ sid interval)) /\
     lookup offline_check_job_id jobs'
     = Some (mkJob offline_check_job_id 300 CheckOfflineServers) /\
     (NoDup (map job_id jobs) -> NoDup (map job_id jobs'))).
Proof.
  split; [exact poll_job_id_injective|]. split; [exact poll_job_id_not_offline|].
  split; [|split; [|split]].
  - intros default_ sid interval jobs id_. unfold schedule_poll_job.
    now rewrite lookup_add_job.
  - intros default_ sid interval jobs H. now apply ids_add_job.
  - intros sid jobs id_. apply lookup_remove_job.
  - intros default_ servers_ jobs Hnd jobs'. unfold jobs', schedule_at_startup,
      schedule_offline_check_job.
    split; [|split].
    + intros sid interval Hin. rewrite lookup_add_job. cbn [job_id].
      destruct (String.eqb_spec offline_check_job_id (poll_job_id sid)) as [e | _].
      * exfalso. exact (poll_job_id_not_offline sid (eq_sym e)).
      * now apply lookup_scheduled.
    + rewrite lookup_add_job. cbn [job_id]. now rewrite String.eqb_refl.
    + intros H. apply ids_add_job. clear Hnd jobs'. revert jobs H.
      induction servers_ as [|s l IH]; intros jobs H; [exact H|].
      cbn [fold_left]. apply IH. now apply ids_add_job.
Qed.

End JobFacts.

(** ** The routes and the update of a server *)

Module CallerFacts.

Import PyStr Binary64 FanCurve Parser Ipmi Model Scheduler Callers.
Import StoreFacts CheckFacts StalenessFacts ParserFacts PollFacts.

Local Open Scope string_scope.
Local Open Scope list_scope.

Section WithOutside.

Variable bmc : nat -> list string -> Outcome.
Variable clock : nat -> Z.

(** X17.  A test of the connection is one temperature query and nothing
    more.  It always answers: "not found" without calling ipmitool when no
    server has the id, else success exactly when ipmitool exits without
    error, and otherwise one of the error answers, by the text of stderr.
    Whatever the answer, no alert is raised or cleared, no notification is
    sent, no fan speed is asked for, and the server table stays as it is. *)
Theorem connection_test_raises_no_alert (server_id : Z) (w : World) :
  let out := test_server_connection bmc server_id w in
  let args := ["sdr"; "type"; "Temperature"] in
  (exists answer, fst out = Ok answer) /\
  active_alerts (snd out) = active_alerts w /\
  dispatched (snd out) = dispatched w /\
  outbox (snd out) = outbox w /\
  fan_requests (snd out) = fan_requests w /\
  servers (snd out) = servers w /\
  (find (fun s => Z.eqb (id s) server_id) (servers w) = None ->
   out = (Ok (NotFound "Server not found"), w)) /\
  (find (fun s => Z.eqb (id s) server_id) (servers w) <> None ->
   ipmi_calls (snd out) = ipmi_calls w ++ [args] /\
   (fst out = Ok (Answer Connected) <->
    exists text, bmc (List.length (ipmi_calls w)) args = Stdout text) /\
   (forall stderr,
      bmc (List.length (ipmi_calls w)) args = Failed stderr ->
      let error_msg := strip stderr in
      fst out
      = Ok (Answer
              (if contains "Unable to establish" error_msg
                  || contains "Connection refused" error_msg
               then ConnectionFailed
               else if contains "Invalid user name" error_msg
                       || contains "authentication" (lower error_msg)
               then AuthenticationFailed
               else ConnectionTestFailed error_msg)))).
Proof.
  cbv zeta. unfold test_server_connection, bind, get_server.
  destruct (find (fun s => Z.eqb (id s) server_id) (servers w)) as [server|] eqn:Hfind.
  2:{ cbn [fst snd ret]. split; [now eexists|]. repeat (split; [reflexivity|]).
      intros Hsome. now contradiction Hsome. }
  unfold try_except_else, query_temperatures, _run.
  destruct (bmc (List.length (ipmi_calls w)) ["sdr"; "type"; "Temperature"])
    as [text | stderr | reason] eqn:E.
  - cbn [fst snd ret].
    split; [now eexists|]. repeat (split; [destruct w; reflexivity|]).
    split; [discriminate|]. intros _. split; [destruct w; reflexivity|].
    split; [split; [intros _; now exists text | reflexivity]|].
    intros stderr H. discriminate.
  - assert (Hcase :
      forall w0,
      (if contains "Unable to establish" (strip stderr)
          || contains "Connection refused" (strip stderr)
       then ret (Answer ConnectionFailed)
       else if contains "Invalid user name" (strip stderr)
               || contains "authentication" (lower (strip stderr))
       then ret (Answer AuthenticationFailed)
       else ret (Answer (ConnectionTestFailed (strip stderr)))) w0
      = (Ok (Answer
               (if contains "Unable to establish" (strip stderr)
                   || contains "Connection refused" (strip stderr)
                then ConnectionFailed
                else if contains "Invalid user name" (strip stderr)
                        || contains "authentication" (lower (strip stderr))
                then AuthenticationFailed
                else ConnectionTestFailed (strip stderr))), w0)).
    { intros w0. destruct (_ || _); [reflexivity|]. destruct (_ || _); reflexivity. }
    rewrite Hcase. cbn [fst snd].
    split; [now eexists|]. repeat (split; [destruct w; reflexivity|]).
    split; [discriminate|]. intros _. split; [destruct w; reflexivity|].
    split.
    + split.
      * destruct (_ || _); [discriminate|]. destruct (_ || _); discriminate.
      * intros [text H]. discriminate.
    + intros stderr' H. injection H as <-. reflexivity.
  - cbn [fst snd ret].
    split; [now eexists|]. repeat (split; [destruct w; reflexivity|]).
    split; [discriminate|]. intros _. split; [destruct w; reflexivity|].
    split; [split; [discriminate | intros [text H]; discriminate]|].
    intros stderr H. discriminate.
Qed.

(** *** The alert types that an update switches off *)

(** The alert type was on in the old configuration and is not on in the
    new one. *)
Definition switched_off (old new : list (string * bool)) (k : string) : Prop :=
  In (k, true) old /\ dict_get new k false = false.

Lemma item_dec (x y : string * bool) : {x = y} + {x <> y}.
Proof. decide equality; [apply bool_dec | apply string_dec]. Qed.

Lemma live_rows_same (sid : Z) (k : string) (w w' : World) :
  rows_of sid k w' = rows_of sid k w -> live_rows sid k w' = live_rows sid k w.
Proof. intros H. now rewrite !live_rows_of, H. Qed.

Lemma clear_manual_step (server : ServerTarget) (k0 : string) (w : World) :
  (List.length (live_rows (id server) k0 w) <= 1)%nat ->
  exists w1,
    _clear_alert_if_active clock server k0 "manual" w = (Ok tt, w1) /\
    live_rows (id server) k0 w1 = [] /\
    (forall sid' k', (sid', k') <> (id server, k0) ->
       rows_of sid' k' w1 = rows_of sid' k' w) /\
    (live_rows (id server) k0 w = [] -> w1 = w) /\
    (forall a, live_rows (id server) k0 w = [a] ->
       exists t1 t2, In (clear_row t1 "manual" t2 a) (rows_of (id server) k0 w1)) /\
    servers w1 = servers w /\
    ipmi_calls w1 = ipmi_calls w /\
    fan_requests w1 = fan_requests w /\
    (forall d, In d (dispatched w1) ->
       In d (dispatched w) \/ d = mkDispatch (id server) k0 true).
Proof.
  intros Hone.
  assert (Hframe : forall sid' k', (sid', k') <> (id server, k0) ->
            rows_of sid' k' (snd (_clear_alert_if_active clock server k0 "manual" w))
            = rows_of sid' k' w).
  { intros sid' k' Hne. now apply clear_frame. }
  destruct (live_rows (id server) k0 w) as [|a [|b l]] eqn:Hlive.
  - rewrite (clear_not_live clock server k0 "manual" w Hlive) in *. exists w.
    repeat split; auto. intros a H. discriminate.
  - pose proof (clear_live clock server k0 "manual" w a Hlive) as Hc. cbv zeta in Hc.
    rewrite Hc in Hframe. cbn [snd] in Hframe.
    match type of Hc with _ = (Ok tt, ?x) => set (w1 := x) in * end.
    assert (Hal : active_alerts w1
                  = map (fun r => if is_live_for (id server) k0 r
                                  then clear_row (clock (clock_reads w)) "manual"
                                         (clock (S (clock_reads w))) r
                                  else r) (active_alerts w))
      by (destruct w; reflexivity).
    exists w1. split; [exact Hc|].
    split; [unfold live_rows; rewrite Hal; apply filter_after_clear|].
    split; [exact Hframe|]. split; [discriminate|].
    split.
    + intros a' Ha'. injection Ha' as <-.
      exists (clock (clock_reads w)), (clock (S (clock_reads w))).
      unfold rows_of. rewrite Hal.
      rewrite (filter_key_map _ _ _ _ _ (clear_row_keeps_key _ _ _)).
      assert (Hin : In a (live_rows (id server) k0 w)) by (rewrite Hlive; now left).
      unfold live_rows in Hin. apply filter_In in Hin. destruct Hin as [Hin Ha].
      assert (Hrow : In a (filter (same_key (id server) k0) (active_alerts w))).
      { apply filter_In. split; [exact Hin | now apply is_live_same_key]. }
      apply in_map_iff. exists a. split; [now rewrite Ha | exact Hrow].
    + split; [destruct w; reflexivity|]. split; [destruct w; reflexivity|].
      split; [destruct w; reflexivity|].
      intros d Hd. unfold w1 in Hd. destruct w; cbn in Hd.
      apply in_app_or in Hd. destruct Hd as [Hd | [<- | []]]; [now left | now right].
  - cbn in Hone. lia.
Qed.

Lemma clear_loop (server : ServerTarget) (new : list (string * bool)) :
  forall items w,
  (forall k, (List.length (live_rows (id server) k w) <= 1)%nat) ->
  exists w',
    for_each (clear_if_disabled clock server new) items w = (Ok tt, w') /\
    (forall k, switched_off items new k -> live_rows (id server) k w' = []) /\
    (forall k, ~ switched_off items new k ->
       rows_of (id server) k w' = rows_of (id server) k w) /\
    (forall k, live_rows (id server) k w = [] ->
       rows_of (id server) k w' = rows_of (id server) k w) /\
    (forall sid' k, sid' <> id server -> rows_of sid' k w' = rows_of sid' k w) /\
    (forall k a, switched_off items new k -> live_rows (id server) k w = [a] ->
       exists t1 t2, In (clear_row t1 "manual" t2 a) (rows_of (id server) k w')) /\
    servers w' = servers w /\
    ipmi_calls w' = ipmi_calls w /\
    fan_requests w' = fan_requests w /\
    (forall d, In d (dispatched w') ->
       In d (dispatched w) \/
       (dispatch_server d = id server /\ dispatch_is_cleared d = true /\
        switched_off items new (dispatch_alert_type d))).
Proof.
  induction items as [|[k0 b0] rest IH]; intros w Hone.
  - exists w. cbn [for_each]. split; [reflexivity|].
    split; [intros k [[] _]|]. repeat split; auto. intros k a [[] _].
  - cbn [for_each]. unfold bind.
    set (does := b0 && negb (dict_get new k0 false)).
    assert (Hstep : exists w1,
              clear_if_disabled clock server new (k0, b0) w = (Ok tt, w1) /\
              (does = true -> live_rows (id server) k0 w1 = []) /\
              (forall sid' k',
                 (does = true -> (sid', k') <> (id server, k0)) ->
                 rows_of sid' k' w1 = rows_of sid' k' w) /\
              (forall k, live_rows (id server) k w = [] ->
                 rows_of (id server) k w1 = rows_of (id server) k w) /\
              (does = true -> forall a, live_rows (id server) k0 w = [a] ->
                 exists t1 t2, In (clear_row t1 "manual" t2 a) (rows_of (id server) k0 w1)) /\
              servers w1 = servers w /\ ipmi_calls w1 = ipmi_calls w /\
              fan_requests w1 = fan_requests w /\
              (forall d, In d (dispatched w1) ->
                 In d (dispatched w) \/
                 (does = true /\ d = mkDispatch (id server) k0 true))).
    { unfold clear_if_disabled. fold does. destruct does eqn:Hdoes.
      - destruct (clear_manual_step server k0 w (Hone k0))
          as (w1 & H1 & H2 & H3 & H4 & H5 & H6 & H7 & H8 & H9).
        exists w1. split; [exact H1|]. split; [auto|]. split; [intros; apply H3; auto|].
        split.
        + intros k Hk. destruct (String.eqb_spec k k0) as [-> | n].
          * now rewrite (H4 Hk).
          * apply H3. congruence.
        + split; [intros _; exact H5|]. split; [exact H6|]. split; [exact H7|].
          split; [exact H8|]. intros d Hd. destruct (H9 d Hd); auto.
      - exists w. split; [reflexivity|]. split; [discriminate|].
        repeat split; auto; discriminate. }
    destruct Hstep as (w1 & E1 & S1 & S2 & S3 & S4 & S5 & S6 & S7 & S8).
    rewrite E1.
    assert (Hone1 : forall k, (List.length (live_rows (id server) k w1) <= 1)%nat).
    { intros k. destruct does eqn:Hdoes.
      - destruct (String.eqb_spec k k0) as [-> | n].
        + rewrite (S1 eq_refl). cbn. lia.
        + rewrite (live_rows_same _ _ w w1); [apply Hone|]. apply S2. congruence.
      - rewrite (live_rows_same _ _ w w1); [apply Hone|]. apply S2. discriminate. }
    destruct (IH w1 Hone1) as (w' & E & I1 & I2 & I3 & I4 & I5 & I6 & I7 & I8 & I9).
    exists w'. split; [exact E|].
    assert (Hhead : forall k, switched_off ((k0, b0) :: rest) new k ->
              switched_off rest new k \/ (k = k0 /\ does = true)).
    { intros k [[Hin | Hin] Hnew]; [right | left; now split].
      injection Hin as -> ->. split; [reflexivity|]. unfold does. now rewrite Hnew. }
    assert (Hdec : forall k, switched_off rest new k \/ ~ switched_off rest new k).
    { intros k. unfold switched_off.
      destruct (in_dec item_dec (k, true) rest) as [Hin | Hnot];
        [|right; tauto].
      destruct (dict_get new k false); [right; intros [_ H]; discriminate | left; auto]. }
    split; [|split; [|split; [|split; [|split; [|split; [|split; [|split]]]]]]].
    + intros k Hk. destruct (Hdec k) as [Hr | Hr]; [now apply I1|].
      destruct (Hhead k Hk) as [Hr' | [-> Hd]]; [contradiction|].
      rewrite (live_rows_same _ _ w1 w' (I2 k0 Hr)). now apply S1.
    + intros k Hk. rewrite I2.
      * apply S2. intros Hd Ekey. injection Ekey as ->. apply Hk. split.
        -- left. unfold does in Hd. apply andb_true_iff in Hd. destruct Hd as [-> _].
           reflexivity.
        -- unfold does in Hd. apply andb_true_iff in Hd. destruct Hd as [_ Hd].
           now apply negb_true_iff in Hd.
      * intros [Hin Hnew]. apply Hk. split; [now right | exact Hnew].
    + intros k Hk. rewrite I3; [now apply S3|].
      rewrite (live_rows_same _ _ w w1 (S3 k Hk)). exact Hk.
    + intros sid' k Hne. rewrite I4 by exact Hne. apply S2. congruence.
    + intros k a Hk Ha.
      destruct (String.eqb_spec k k0) as [-> | n].
      * destruct does eqn:Hdoes.
        -- destruct (S4 eq_refl a Ha) as (t1 & t2 & Hin). exists t1, t2.
           rewrite I3; [exact Hin | now apply S1].
        -- destruct (Hhead k0 Hk) as [Hr | [_ Hd]]; [|discriminate].
           apply (I5 k0 a Hr). rewrite (live_rows_same _ _ w w1); [exact Ha|].
           apply S2. discriminate.
      * destruct (Hhead k Hk) as [Hr | [-> _]]; [|contradiction].
        apply (I5 k a Hr). rewrite (live_rows_same _ _ w w1); [exact Ha|].
        apply S2. congruence.
    + congruence.
    + congruence.
    + congruence.
    + intros d Hd. destruct (I9 d Hd) as [H | (H1 & H2 & [H3 H4])].
      * destruct (S8 d H) as [H' | [Hdoes ->]]; [now left | right].
        cbn. repeat split; [left|].
        -- unfold does in Hdoes. apply andb_true_iff in Hdoes. destruct Hdoes as [-> _].
           reflexivity.
        -- unfold does in Hdoes. apply andb_true_iff in Hdoes. destruct Hdoes as [_ H0].
           now apply negb_true_iff in H0.
      * right. repeat split; auto. now right.
Qed.

(** X16.  An update that switches alert types off clears their alerts.
    When an update brings a new alert configuration for a server (whose
    alert types have each at most one live alert), the update returns the
    new row and stores it; every alert type that was on and is not on any
    more has no live alert afterwards; the alert it had is in the table
    with the same server, type, message and first time, a time of clearing,
    and "manual" as the one who cleared it; a cleared notification is
    dispatched for it and for nothing else; the rows of the other alert
    types and of the other servers are as they were, and ipmitool and the
    fans are left alone. *)
Theorem update_clears_switched_off_alerts (sid : Z) (server : ServerTarget)
  (data : ServerUpdate) (new : list (string * bool)) (w : World) :
  find (fun s => Z.eqb (id s) sid) (servers w) = Some server ->
  data_alert_config data = Some new ->
  (forall k, (List.length (live_rows sid k w) <= 1)%nat) ->
  let old := match alert_config server with Some d => d | None => [] end in
  let server' :=
    with_last_fields data (with_alert_config new (with_first_fields data server)) in
  exists w',
    update_server clock sid data w = (Ok server', w') /\
    alert_config server' = Some new /\
    servers w' = map (fun s => if Z.eqb (id s) sid then server' else s) (servers w) /\
    (forall k, switched_off old new k -> is_live sid k w' = false) /\
    (forall k a, switched_off old new k -> live_rows sid k w = [a] ->
       exists a' t,
         In a' (active_alerts w') /\
         server_id a' = server_id a /\ alert_type a' = alert_type a /\
         message a' = message a /\ first_triggered_at a' = first_triggered_at a /\
         cleared_at a' = Some t /\ cleared_by a' = Some "manual") /\
    (forall k, ~ switched_off old new k -> rows_of sid k w' = rows_of sid k w) /\
    (forall sid' k, sid' <> sid -> rows_of sid' k w' = rows_of sid' k w) /\
    ipmi_calls w' = ipmi_calls w /\
    fan_requests w' = fan_requests w /\
    (forall d, In d (dispatched w') ->
       In d (dispatched w) \/
       (dispatch_server d = sid /\ dispatch_is_cleared d = true /\
        switched_off old new (dispatch_alert_type d))).
Proof.
  intros Hfind Hdata Hone old server'.
  pose proof (find_id sid _ server Hfind) as Hid.
  set (server2 := with_alert_config new (with_first_fields data server)).
  assert (Hid2 : id server2 = sid) by exact Hid.
  assert (Hone2 : forall k, (List.length (live_rows (id server2) k w) <= 1)%nat)
    by (rewrite Hid2; exact Hone).
  destruct (clear_loop server2 new old w Hone2)
    as (w1 & E & L1 & L2 & _ & L4 & L5 & L6 & L7 & L8 & L9).
  rewrite Hid2 in *.
  set (w' := set_servers
               (map (fun s => if Z.eqb (id s) (id server') then server' else s) (servers w1))
               w1).
  assert (Hrows : forall sid0 k, rows_of sid0 k w' = rows_of sid0 k w1)
    by (intros; destruct w1; reflexivity).
  exists w'. split.
  - unfold update_server, bind, get_server. rewrite Hfind, Hdata.
    change (match alert_config (with_first_fields data server) with
            | Some d => d
            | None => []
            end) with old.
    fold server2. rewrite E. reflexivity.
  - split; [reflexivity|]. split.
    + unfold w'. change (id server') with (id server). rewrite Hid, L6.
      destruct w1; reflexivity.
    + split; [|split; [|split; [|split; [|split; [|split]]]]].
      * intros k Hk. unfold is_live. rewrite (live_rows_same _ _ w1 w' (Hrows _ _)).
        now rewrite (L1 k Hk).
      * intros k a Hk Ha. destruct (L5 k a Hk Ha) as (t1 & t2 & Hin).
        exists (clear_row t1 "manual" t2 a), t1.
        rewrite <- Hrows in Hin. unfold rows_of in Hin. apply filter_In in Hin.
        split; [exact (proj1 Hin)|]. cbn. auto 10.
      * intros k Hk. rewrite Hrows. now apply L2.
      * intros sid' k Hne. rewrite Hrows. now apply L4.
      * rewrite <- L7. destruct w1; reflexivity.
      * rewrite <- L8. destruct w1; reflexivity.
      * intros d Hd. apply L9. destruct w1; exact Hd.
Qed.

(** X23.  Clearing an alert by hand.  The route answers "success" whether
    or not there was an alert to clear: with no live alert nothing changes
    at all; with one, the alert is not live afterwards, its row keeps its
    server, type, message and first time and carries the time of the
    clearing and "manual" as the one who cleared it, and a cleared
    notification is dispatched.  Only an unknown
    server is answered "not found", and nothing changes then either. *)
Theorem manual_clear_answers_success (server_id : Z) (alert_type_ : string) (w : World) :
  (find (fun s => Z.eqb (id s) server_id) (servers w) = None ->
   clear_server_alert clock server_id alert_type_ w
   = (Ok (NotFound "Server not found"), w)) /\
  (find (fun s => Z.eqb (id s) server_id) (servers w) <> None ->
   (live_rows server_id alert_type_ w = [] ->
    clear_server_alert clock server_id alert_type_ w = (Ok (Answer "success"), w)) /\
   (forall a,
      live_rows server_id alert_type_ w = [a] ->
      exists w',
        clear_server_alert clock server_id alert_type_ w = (Ok (Answer "success"), w') /\
        is_live server_id alert_type_ w' = false /\
        (exists a',
           In a' (active_alerts w') /\
           Model.server_id a' = Model.server_id a /\ alert_type a' = alert_type a /\
           message a' = message a /\ first_triggered_at a' = first_triggered_at a /\
           cleared_at a' = Some (clock (clock_reads w)) /\
           cleared_by a' = Some "manual" /\
           last_updated_at a' = clock (S (clock_reads w))) /\
        (forall d, In d (dispatched w') ->
           In d (dispatched w) \/ d = mkDispatch server_id alert_type_ true) /\
        In (mkDispatch server_id alert_type_ true) (dispatched w'))).
Proof.
  unfold clear_server_alert, bind, get_server.
  destruct (find (fun s => Z.eqb (id s) server_id) (servers w)) as [server|] eqn:Hfind.
  2:{ split; [reflexivity | intros H; now contradiction H]. }
  split; [discriminate|]. intros _.
  pose proof (find_id server_id _ server Hfind) as Hid. subst server_id.
  split.
  - intros Hlive. now rewrite (clear_not_live clock server alert_type_ "manual" w Hlive).
  - intros a Hlive.
    assert (Hone : (List.length (live_rows (id server) alert_type_ w) <= 1)%nat)
      by (rewrite Hlive; cbn; lia).
    destruct (clear_manual_step server alert_type_ w Hone)
      as (w1 & H1 & H2 & _ & _ & _ & _ & _ & _ & H9).
    exists w1. rewrite H1. split; [reflexivity|].
    split; [unfold is_live; now rewrite H2|].
    pose proof (clear_live clock server alert_type_ "manual" w a Hlive) as Hc.
    cbv zeta in Hc. rewrite H1 in Hc. injection Hc as ->.
    split.
    + exists (clear_row (clock (clock_reads w)) "manual" (clock (S (clock_reads w))) a).
      split; [|cbn; auto 10].
      assert (Hin : In a (live_rows (id server) alert_type_ w)) by (rewrite Hlive; now left).
      unfold live_rows in Hin. apply filter_In in Hin. destruct Hin as [Hin Ha].
      destruct w; cbn in *. apply in_map_iff. exists a. now rewrite Ha.
    + split; [exact H9|].
      destruct w; cbn. apply in_or_app. right. now left.
Qed.

End WithOutside.

(** *** An update on the sample server *)

Definition connectivity_off : ServerUpdate :=
  mkServerUpdate None None None None
    (Some [("connectivity", false); ("memory_errors", true)]) None None.

Lemma update_clears_switched_off_alerts_witness :
  exists w',
    fst (update_server Z.of_nat 1 connectivity_off alerted_world)
    = Ok (with_last_fields connectivity_off
            (with_alert_config [("connectivity", false); ("memory_errors", true)]
               (with_first_fields connectivity_off sample_server))) /\
    snd (update_server Z.of_nat 1 connectivity_off alerted_world) = w' /\
    is_live 1 "connectivity" w' = false.
Proof.
  destruct (update_clears_switched_off_alerts Z.of_nat 1 sample_server connectivity_off
              [("connectivity", false); ("memory_errors", true)] alerted_world)
    as (w' & H1 & _ & _ & H4 & _).
  - reflexivity.
  - reflexivity.
  - intros k. unfold live_rows, alerted_world. cbn [active_alerts filter].
    destruct (is_live_for 1 k _); cbn; lia.
  - exists w'. rewrite H1. split; [reflexivity|]. split; [reflexivity|].
    apply H4. split; [now left | reflexivity].
Defined.

End CallerFacts.
